(* ===== verification/_CoqProject ===== *)
-Q . S2P
Prelude.v
GoStrings.v
Bytes.v
Json.v
JsonText.v
Times.v
Wire.v
Window.v
TtlCache.v
RouteCache.v
Usage.v
Conns.v
Models.v
Database.v
Certs.v
Auth.v
Handshake.v
Keys.v
SshConfig.v
Dsn.v
Connection.v
Registry.v
Peers.v
Routing.v
Gateway.v
Render.v
Nodes.v
Http.v
Urls.v
Router.v
Channels.v
Serve.v
Lifecycle.v
Relay.v
SplitCommand.v
Service.v
Socks.v
NetAddr.v
HttpProxy.v
Durations.v
Migrations.v
Schema.v
Mesh.v
Reach.v
Cli.v
Shutdown.v
Process.v
Arguments.v
Release.v
