(* ===== verification/Prelude.v ===== *)
(** * gatewaysshd: a verification development

    gatewaysshd is an ssh server at which clients meet.  A client connects
    with a certificate, advertises services by name ([tcpip-forward]) and
    opens tunnels to the services of others ([direct-tcpip]); nothing listens
    on the server itself.  Several servers ("nodes") form a mesh: they share a
    postgres database that records where every user is, connect to each other
    as peers, and forward a tunnel to the node its target is on.  A session
    channel gives a small shell with commands; SOCKS5 and HTTP proxies open
    tunnels for programs that do not speak ssh.

    ** The program and its model

    Each file models the source named here; definitions keep the names of the
    Go functions, and methods take their receiver as [self], or the gateway as
    [g].

    - [GoStrings], [Bytes]: what the program uses of the packages [strings],
      [fmt] and [encoding/binary]; [candidates] is the walk over the suffixes of a
      host name in [gateway/gateway.go].
    - [Json], [JsonText], [Times], [Durations], [Urls]: more of the standard
      library: JSON texts and what a reader finds in them, dates,
      [time.ParseDuration], and the URLs of requests.
    - [Wire]: [ssh.Marshal] and [ssh.Unmarshal] of the vendored ssh package,
      and the payloads of [gateway/utils.go], [gateway/session.go] and
      [db/ssh.go].
    - [Window]: the flow control of channels in the vendored ssh package
      ([channel.go], [buffer.go], and the windows of [common.go]).
    - [TtlCache], [RouteCache]: the bounded caches with expiry,
      [gateway/routecache.go], shared with the cache of [auth/auth.go].
    - [Usage], [Conns]: traffic counters, and the [net.Conn] that counts
      ([gateway/utils.go]), with the two over ssh channels ([db/ssh.go],
      [gateway/httpproxy.go]).
    - [Models], [Database]: the tables and statements of [db/users.go] and
      [db/nodes.go], and the interface of [db/db.go] as a class [Executor].
    - [Certs], [Auth]: the vendored certificate checker, and the public key
      callbacks of [auth/auth.go].
    - [Handshake]: the loop of the vendored ssh server that reads the client's
      authentication requests and calls these callbacks.
    - [Keys]: authorized key files, from the vendored parser to
      [parsePublicKeys] of [cli/flags.go].
    - [SshConfig]: [util/sshconfig/sshconfig.go] and the negotiation of
      algorithms in the vendored ssh package.
    - [Dsn]: [Open] of [db/db.go] with its data source name, the parser of the
      vendored driver that reads it, and the way through a peer in [db/ssh.go].
    - [Connection]: the state of a connection and its global requests,
      [gateway/connection.go] and [gateway/tunnel.go].
    - [Registry]: the gateway's connections, [gateway/gateway.go].
    - [Peers]: the table of peers, [gateway/peer.go].
    - [Routing]: from a host name to a connection or a peer
      ([lookupRemotePeer], [openServiceTunnel] in [gateway/gateway.go]).
    - [Gateway]: presence, listings, kicks, the scavenger
      ([gateway/gateway.go]) and node registration ([gateway/peer.go]).
    - [Nodes]: the life of a node: [Open] and [Close] of
      [gateway/gateway.go], and the turns of [runPeers] in [gateway/peer.go].
    - [Render]: the JSON of the structs and maps the program answers with.
    - [Http], [Router]: the status pages, [cli/http.go], and the vendored
      gorilla/mux that dispatches requests to them.
    - [Channels]: channel requests and tunnels, [gateway/connection.go].
    - [Serve]: the life of a connection, [HandleConnection] and
      [handleConnection].
    - [Lifecycle]: the goroutines of the connections, what they block on, and
      [connection.close], which waits for them.
    - [Relay]: the copying of bytes in both directions ([bridge] of
      [gateway/socks.go], [handleTunnel] of [gateway/tunnel.go], and
      [handlePostgresChannel]).
    - [SplitCommand], [Service]: command lines, sessions and commands,
      [gateway/utils.go], [gateway/session.go], [gateway/service.go].
    - [Socks], [HttpProxy]: the proxies, [util/socks/socks.go],
      [gateway/socks.go], [gateway/httpproxy.go].
    - [NetAddr]: the parser of IP addresses, and the check of a certificate's
      source addresses in the vendored ssh package.
    - [Migrations], [Schema]: [db/migration.go] and
      [db/migrations/migrations.go], the migration files, and the columns that
      the vendored gorm expects for the structs of [db/models.go].
    - [Mesh], [Reach]: theorems about several of these together.
    - [Cli]: the flags ([cli/flags.go]) and [run] up to the point where it
      serves ([cli/run.go]).
    - [Shutdown]: the main loop of [run] and the way it ends.
    - [Process]: [main.go], [cli/cli.go], the helpers of [util/deferutil] and
      [util/debugutil], and the test databases of [db/dbtest].
    - [Arguments]: the arguments of the process, as the vendored urfave/cli
      parses them.
    - [Release]: the scripts of [scripts/release].

    State is passed explicitly.  Objects the program shares by pointer
    (connections, tunnels, peers) live in heaps and are named by positive
    numbers, because the code compares them by identity and several tables
    point to the same one.  An operation that holds a mutex throughout is one
    function; where goroutines interleave, the state machine is a step
    relation ([Registry.step], [Peers.step], [Lifecycle.internal],
    [Relay.step], [Shutdown.step], [Dsn.tunnelStep], [Window.rstep] and
    [Window.step]), or the steps between two
    atomic operations are quantified over (the heartbeat, a login in flight).
    A goroutine that runs later is a value (a [login], a [tunnelJob]).  Every
    Go integer that can wrap is reduced to its width; times are nanoseconds
    and each reading of the clock is a parameter.

    What the program cannot know is a parameter too: whether a signature
    verifies, what a peer or a client answers, what a read returns, whether a
    database statement was run before the connection to the server was lost.
    [Executor] states the last as a law, and the theorems are proved against
    it; [Database.server] is an executor with any schedule of outages.

    ** What the theorems show

    - Who gets in: [Serve.HandleConnection_authorized] says what the client
      of every connection has proved, from the first byte of the handshake to
      the rights of the connection; it composes [Handshake.handshake_spec]
      with [Auth.authenticate_user_safe], [authenticatePeer_exact] and
      [authenticate_disabled].  [authenticate_after_revoke] and
      [flags_hit_sound] are about the cache; [Mesh.login_identity] is about
      names; [NetAddr.source_address_enforced] is about source addresses.
    - What a connection may do: [Channels.handleChannel_authorized] for
      channels, [Service.session_authorized] for commands.
    - Bookkeeping: [Registry.reachable_wf], [Peers.peers_reachable],
      [Conn.handleRequest_refines] (the services of a connection implement a
      set), [Conn.tunnels_accounted], [Channels.tunnel_job_settles],
      [Serve.connection_lifetime], [Usage.io_run_accounts],
      [Conns.wrapConn_transparent] (counting changes nothing else).
    - Ends: [Lifecycle.close_returns] (the program comes to rest by itself,
      and then every call of [close] has returned but those that wait for an
      answer of a client or for a [kickUser]), [Nodes.Close_spec], [Shutdown.run_returns_clean],
      [Dsn.Close_returns].
    - Starting: [Cli.start_settings], [Cli.peer_pins_host_key] (a node
      registered by one process is dialled by another with the first one's
      host key pinned), [Cli.postgres_one_hop],
      [SshConfig.negotiated_secure], [Nodes.runPeersTurn_spec],
      [Arguments.command_line_spec] and [command_line_roundtrip] (from the
      arguments to the values of the flags), [Cli.parseIdleTimeout_spec].
    - Traffic: [Relay.relay_faithful] (bytes arrive unchanged and in order,
      and at most 32 KiB are held on the way); [Window.channel_flow_control]
      (a channel of the ssh package holds at most 2 MiB, two nodes never break
      each other's windows, and where the goroutines stop every byte was
      read).  The second part is about one stream in one direction.
    - Routing: [Registry.lookupConnectionService_spec],
      [Routing.lookupRemotePeer_spec], [Routing.openServiceTunnel_spec],
      [Channels.mesh_one_hop] (a tunnel crosses at most one link of the mesh),
      [RouteCache.run_get_sound]; [Reach.service_reachable] composes them with
      the login and the database.
    - Presence: [Gateway.heartbeat_spec], [kickUser_spec],
      [ScavengeConnections_spec], [online_agreement] (the Go and the SQL
      notion of being online), [listings_agree],
      [registered_node_discovered].
    - Codecs: [Wire.decoders_exact], [SplitCommand.splitCommand_spell],
      [HttpProxy.splitHostPort_spec], [Socks.HandleSocksConnection_spec],
      [Keys.parsePublicKeys_spec] and [parsePublicKeys_marshal],
      [Dsn.dsn_roundtrip], [Http.http_api_spec],
      [HttpProxy.handleHttpConnect_spec], [NetAddr.ParseIP_text].
    - Pages: [Router.router_spec] (which request reaches which page, and that
      redirections end), [Http.http_pages_render], [Service.report_shown].
    - Migrations: [Migrate_converges] and [upgrade_downgrade];
      [Schema.schema_fits_models] and [downgrade_restores].
    - Releases: [Release.changelog_promoted], [analyzeCommits_major].
    - Behaviour that surprises: [Conn.forward_port_zero_unanswered],
      [Service.failed_command_exits_zero], [kick_self_blocks],
      [help_lists_refused_command], [Auth.certificate_administrator_kept],
      [Mesh.query_moves_user], [Mesh.kick_misses_login_in_flight],
      [Handshake.peer_source_address_ignored],
      [Lifecycle.pending_open_blocks_close], [Keys.trailing_line_refused],
      [Dsn.dsn_empty_password], [Shutdown.mute_client_blocks_return],
      [Nodes.silent_peer_stops_heartbeat], [Process.failed_run_exits_zero],
      [Arguments.unknown_flag_exits_zero], [Router.malformed_fragment_panics],
      [Durations.ParseDuration_wraps].

    ** Bounds

    The models of loops are structural recursions on what the loop consumes.
    Where fuel appears, its bound is next to it:
    [trim_front] (each turn removes a byte, the length is enough), [digits]
    (the number of digits of a machine integer), [SplitCommand.firstLine] and
    [SplitCommand.parse] (each turn consumes a byte or a line;
    [splitCommand_spell] shows that the fuel [readRecord] gives is never
    exhausted), [Keys.nextKey] and [Keys.parseKeys] (each turn consumes a
    line; [parsePublicKeys_spec] describes every result without fuel),
    [Dsn.parsePairs] (each turn consumes at least the byte of an equals sign),
    [Durations.components] (each turn consumes a byte; [components_fuel]),
    [NetAddr.parseGroups] (an address has at most eight groups),
    [Process.execAdminFrom] (the deadline ends the attempts;
    [execAdmin_terminates]), [Release.stripFrom] and
    [Schema.replaceInitialisms] (each turn consumes a character).

    ** What is not modelled

    The transport, the key exchange itself, the table of channels and their
    closing handshake in the ssh library, and the decoding of key blobs
    ([ParsePublicKey], [ParsePrivateKey]), which are parameters; gorm beyond
    the names of columns, and the postgres protocol; the reverse proxy of
    net/http behind [HTTPProxyHandler]; request targets that do not start with
    a slash; the texts of help and of shell completions, and the sub-commands
    that the cli library adds; the text of stack traces; the decimal text of
    a float and decompression, which are parameters. *)

From stdpp Require Import base list strings gmap fin_maps option relations.
From Stdlib Require Import ZArith Lia Ascii.

Declare Scope go_scope.
Delimit Scope go_scope with go.
#[global] Open Scope string_scope.
#[global] Open Scope list_scope.

(** ** Errors and fallible results *)

(** A Go [error] value.  Package-level errors made by [errors.New] are
    compared by identity in the source; each has a text of its own, so the
    text identifies it.  [Errorf] is a value made on the spot by
    [fmt.Errorf], [Foreign] one that comes from a library or from the
    outside world; neither is ever equal to a package-level error.  In the
    errors of the vendored ssh package a quoted argument is not expanded: the
    text keeps the verb %q. *)
Inductive error : Type :=
| Sentinel (text : string)
| Errorf (text : string)
| Foreign (text : string).

#[export] Instance error_eq_dec : EqDecision error.
Proof. solve_decision. Defined.

(** The result of a Go function that returns a value and an error. *)
Inductive result (A : Type) : Type :=
| Ok (value : A)
| Err (err : error).
Arguments Ok {A} value.
Arguments Err {A} err.

#[export] Instance result_eq_dec `{EqDecision A} : EqDecision (result A).
Proof. solve_decision. Defined.

Definition result_bind {A B} (r : result A) (k : A -> result B) : result B :=
  match r with
  | Ok a => k a
  | Err e => Err e
  end.

(** [let! x := r in k]: the idiom [x, err := r; if err != nil { return err }]. *)
Notation "'let!' x ':=' r 'in' k" := (result_bind r (fun x => k))
  (at level 10, x pattern, r at level 100, k at level 200,
   format "'let!'  x  ':='  r  'in' '//' k") : go_scope.
#[global] Open Scope go_scope.

Definition result_to_option {A} (r : result A) : option A :=
  match r with
  | Ok a => Some a
  | Err _ => None
  end.

(** ** Machine integers *)

(** Unsigned integers are [Z]; a conversion or an arithmetic operation wraps
    at the width of its type. *)
Definition uint8 (z : Z) : Z := z mod 2 ^ 8.
Definition uint16 (z : Z) : Z := z mod 2 ^ 16.
Definition uint32 (z : Z) : Z := z mod 2 ^ 32.
Definition uint64 (z : Z) : Z := z mod 2 ^ 64.

Definition maxInt64 : Z := 2 ^ 63 - 1.
Definition minInt64 : Z := - 2 ^ 63.

(** ** Time *)

(** A [time.Time] is its number of nanoseconds since the Unix epoch. *)
Abbreviation time := Z (only parsing).
Abbreviation duration := Z (only parsing).

Definition nanosecond : duration := 1%Z.
Definition second : duration := (1000000000 * nanosecond)%Z.
Definition minute : duration := (60 * second)%Z.

(** January 1 of the year 1, the zero [time.Time]. *)
Definition zeroTime : time := (-62135596800 * second)%Z.
Definition time_isZero (t : time) : bool := bool_decide (t = zeroTime).

(** [t.Sub(u)] saturates at the bounds of the 64-bit [time.Duration]. *)
Definition time_sub (t u : time) : duration :=
  Z.max minInt64 (Z.min maxInt64 (t - u)).
Definition time_after (t u : time) : bool := bool_decide (u < t)%Z.
Definition time_add (t : time) (d : duration) : time := (t + d)%Z.

(** ** JSON values built by the program *)

(** [JObject] is a Go map, whose keys are sorted when it is written, [JStruct] a
    struct, whose fields keep their order, and [JRaw] the text a
    [json.Marshaler] returned. *)
Inductive json : Type :=
| JNull
| JBool (b : bool)
| JNumber (n : Z)
| JString (s : string)
| JArray (elements : list json)
| JObject (members : list (string * json))
| JStruct (fields : list (string * json))
| JRaw (text : string).

(** ** Automation *)

Create HintDb gateway.
#[export] Hint Constants Opaque : gateway.

(** Case analysis on the head match of the goal or of a hypothesis, with the
    equation kept, followed by injection and discrimination. *)
Ltac destruct_match :=
  match goal with
  | |- context [match ?x with _ => _ end] => destruct x eqn:?
  | H : context [match ?x with _ => _ end] |- _ => destruct x eqn:?
  end; simplify_eq.

(** Runs [destruct_match] to the end and closes what is left by reflexivity,
    contradiction or arithmetic. *)
Ltac crush_matches :=
  repeat first [ progress simplify_eq/= | destruct_match ]; try done; try lia.

(** ** Generic lemmas *)

#[export] Instance Ok_inj {A} : Inj (=) (=) (@Ok A).
Proof. by intros x y [= ->]. Qed.

Lemma result_bind_Ok {A B} (r : result A) (k : A -> result B) b :
  result_bind r k = Ok b <-> exists a, r = Ok a /\ k a = Ok b.
Proof. destruct r; simpl; naive_solver. Qed.

(** The steps of a chain of [let!] that succeeds. *)
Ltac invert_binds H :=
  repeat (let x := fresh "x" in let E := fresh "E" in apply result_bind_Ok in H as (x & E & H)).

Lemma uint16_small z : (0 <= z < 65536)%Z -> uint16 z = z.
Proof. intros H. apply Z.mod_small. exact H. Qed.

Lemma uint32_small z : (0 <= z < 4294967296)%Z -> uint32 z = z.
Proof. intros H. apply Z.mod_small. exact H. Qed.

Lemma uint64_small z : (0 <= z < 18446744073709551616)%Z -> uint64 z = z.
Proof. intros H. apply Z.mod_small. exact H. Qed.

Lemma uint16_bound z : (0 <= uint16 z < 65536)%Z.
Proof. apply Z.mod_pos_bound. lia. Qed.

Lemma uint32_bound z : (0 <= uint32 z < 4294967296)%Z.
Proof. apply Z.mod_pos_bound. lia. Qed.

Lemma uint64_bound z : (0 <= uint64 z < 18446744073709551616)%Z.
Proof. apply Z.mod_pos_bound. lia. Qed.

#[export] Hint Resolve uint16_bound uint32_bound uint64_bound : gateway.

(** The saturating difference is below a positive bound of a duration exactly
    when the exact difference is. *)
Lemma time_sub_lt t u d :
  (0 < d <= maxInt64)%Z -> (time_sub t u < d)%Z <-> (t - u < d)%Z.
Proof. unfold time_sub, maxInt64, minInt64. lia. Qed.

Lemma time_sub_gt t u d :
  (0 <= d < maxInt64)%Z -> (d < time_sub t u)%Z <-> (d < t - u)%Z.
Proof. unfold time_sub, maxInt64, minInt64. lia. Qed.

Lemma elem_of_list_filter_ne `{EqDecision A} (x y : A) (l : list A) :
  y ∈ filter (fun z => z <> x) l <-> y <> x /\ y ∈ l.
Proof. by rewrite list_elem_of_filter. Qed.

Lemma filter_ne_notin `{EqDecision A} (x : A) (l : list A) :
  x ∉ filter (fun z => z <> x) l.
Proof. rewrite list_elem_of_filter. tauto. Qed.

Lemma filter_id_notin `{EqDecision A} (x : A) (l : list A) :
  x ∉ l -> filter (fun z => z <> x) l = l.
Proof.
  induction l as [|a l IH]; intros Hx; [done|].
  apply not_elem_of_cons in Hx as [Hne Hx].
  rewrite filter_cons_True by done. f_equal. auto.
Qed.

Lemma map_filter_ne {A B} `{EqDecision B} (f : A -> B) (x : B) (l : list A) :
  map f (filter (fun a => f a <> x) l) = filter (fun b => b <> x) (map f l).
Proof.
  induction l as [|a l IH]; [done|]. simpl. rewrite !filter_cons.
  repeat case_decide; simpl; by rewrite ?IH.
Qed.

Lemma length_filter_ne `{EqDecision A} (x : A) (l : list A) :
  NoDup l -> x ∈ l -> length l = S (length (filter (fun y => y <> x) l)).
Proof.
  induction 1 as [|a l Ha Hnd IH]; intros Hx; [by apply elem_of_nil in Hx|].
  rewrite filter_cons. case_decide as Hd; simpl; f_equal.
  - apply IH. apply elem_of_cons in Hx as [->|]; done.
  - assert (a = x) as -> by (by destruct (decide (a = x))). by rewrite filter_id_notin.
Qed.

Lemma NoDup_filter_ne `{EqDecision A} (x : A) (l : list A) :
  NoDup l -> NoDup (filter (fun y => y <> x) l).
Proof. intros Hl. eapply sublist_NoDup; [exact Hl|apply sublist_filter]. Qed.

Lemma uint64_sub_l a b : uint64 (uint64 a - b) = uint64 (a - b).
Proof. unfold uint64. apply Zminus_mod_idemp_l. Qed.

Lemma uint64_sub_r a b : uint64 (a - uint64 b) = uint64 (a - b).
Proof. unfold uint64. apply Zminus_mod_idemp_r. Qed.

Lemma uint64_add_cong a b c : uint64 a = uint64 b -> uint64 (a + c) = uint64 (b + c).
Proof.
  unfold uint64. intros E. by rewrite <- Z.add_mod_idemp_l, E, Z.add_mod_idemp_l by done.
Qed.

(** An invariant of a step relation holds in every reachable state. *)
Lemma rtc_invariant {A} (R : A -> A -> Prop) (I : A -> Prop) x y :
  I x -> (forall a b, I a -> R a b -> I b) -> rtc R x y -> I y.
Proof. intros Hx Hstep. induction 1; eauto. Qed.

(** Filters that agree on the elements of a list. *)
Lemma list_filter_ext_in {A} (P Q : A -> Prop)
    `{forall x, Decision (P x)} `{forall x, Decision (Q x)} (l : list A) :
  (forall x, x ∈ l -> P x <-> Q x) -> filter P l = filter Q l.
Proof.
  induction l as [|x l IH]; intros Hext; [done|]. rewrite !filter_cons.
  rewrite IH by set_solver. destruct (Hext x) as [HPQ HQP]; [set_solver|].
  repeat case_decide; tauto.
Qed.

Lemma list_filter_all {A} (P : A -> Prop) `{forall x, Decision (P x)} (l : list A) :
  (forall x, x ∈ l -> P x) -> filter P l = l.
Proof.
  induction l as [|x l IH]; intros Hall; [done|].
  rewrite filter_cons_True by (apply Hall; set_solver). f_equal. apply IH. set_solver.
Qed.

Lemma list_filter_none {A} (P : A -> Prop) `{forall x, Decision (P x)} (l : list A) :
  (forall x, x ∈ l -> ~ P x) -> filter P l = [].
Proof.
  induction l as [|x l IH]; intros Hall; [done|].
  rewrite filter_cons_False by (apply Hall; set_solver). apply IH. set_solver.
Qed.
