(* ===== verification/GoStrings.v ===== *)
(** * Strings of the Go standard library

    The functions of the packages [strings] and [fmt] the program calls, on
    byte strings: [strings.Split], [strings.Join] and [strings.TrimSpace], the
    printing of numbers, and the splits of a host name [service.user] into a
    service and a user that [lookupConnectionService], [lookupRemotePeer] and
    [invalidateRoutes] iterate over. *)

From stdpp Require Import base list strings.
From Stdlib Require Import Ascii ZArith Lia.
From S2P Require Import Prelude.

Definition dot : ascii := "."%char.

(** [strings.Split(s, sep)] for a separator of one byte. *)
Fixpoint Split (sep : ascii) (s : string) : list string :=
  match s with
  | EmptyString => [""]
  | String c s' =>
      if decide (c = sep) then "" :: Split sep s'
      else match Split sep s' with
           | part :: parts => String c part :: parts
           | [] => [String c ""]
           end
  end.

(** [strings.Join(parts, sep)] for a separator of one byte. *)
Fixpoint Join (sep : ascii) (parts : list string) : string :=
  match parts with
  | [] => ""
  | [part] => part
  | part :: rest => part +:+ String sep (Join sep rest)
  end.

Definition space : ascii := " "%char.
Definition quote : ascii := "034"%char.
Definition newline : ascii := "010"%char.
Definition return_ : ascii := "013"%char.

(** The parts of a string before and after the first occurrence of a byte. *)
Fixpoint cut (c : ascii) (s : string) : option (string * string) :=
  match s with
  | EmptyString => None
  | String a s' =>
      if decide (a = c) then Some ("", s')
      else match cut c s' with
           | Some (before, after) => Some (String a before, after)
           | None => None
           end
  end.

(** Whether a byte occurs in a string. *)
Fixpoint contains_byte (c : ascii) (s : string) : bool :=
  match s with
  | EmptyString => false
  | String a s' => bool_decide (a = c) || contains_byte c s'
  end.

(** The pairs [(strings.Join(parts[:index], "."), strings.Join(parts[index:], "."))]
    for [index := range parts], where [parts := strings.Split(host, ".")]. *)
Definition candidates (host : string) : list (string * string) :=
  let parts := Split dot host in
  map (fun index => (Join dot (take index parts), Join dot (drop index parts)))
      (seq 0 (length parts)).

(** Reference: every way to cut [s] at one of its dots, leftmost first. *)
Fixpoint dot_cuts (s : string) : list (string * string) :=
  match s with
  | EmptyString => []
  | String c s' =>
      let longer := map (fun '(a, b) => (String c a, b)) (dot_cuts s') in
      if decide (c = dot) then ("", s') :: longer else longer
  end.

(** ** Split and Join *)

Lemma Split_not_nil sep s : Split sep s <> [].
Proof. destruct s; simpl; [done|]. case_decide; [done|]. by destruct (Split sep s). Qed.

Lemma Split_cons sep s : exists part parts, Split sep s = part :: parts.
Proof. destruct (Split sep s) eqn:E; [by apply Split_not_nil in E | eauto]. Qed.

Lemma Join_cons sep part parts :
  parts <> [] -> Join sep (part :: parts) = part +:+ String sep (Join sep parts).
Proof. by destruct parts. Qed.

Lemma Join_cons_char sep c part parts :
  Join sep (String c part :: parts) = String c (Join sep (part :: parts)).
Proof. by destruct parts. Qed.

Lemma Join_Split sep s : Join sep (Split sep s) = s.
Proof.
  induction s as [|c s IH]; [done|]. simpl. case_decide as Hc.
  - subst. rewrite Join_cons by apply Split_not_nil. by rewrite IH.
  - destruct (Split_cons sep s) as (part & parts & E). rewrite E in IH |- *.
    by rewrite Join_cons_char, IH.
Qed.

Lemma Split_app sep s t :
  contains_byte sep s = false ->
  Split sep (s +:+ String sep t) = s :: Split sep t.
Proof.
  induction s as [|c s IH]; intros H; simpl in H |- *.
  - by rewrite decide_True.
  - apply orb_false_iff in H as [Hc%bool_decide_eq_false H].
    rewrite decide_False by done. by rewrite IH.
Qed.

Lemma Split_app_any sep s t :
  Split sep (s +:+ String sep t) = Split sep s ++ Split sep t.
Proof.
  induction s as [|c s IH]; simpl; [by rewrite decide_True|].
  rewrite IH. case_decide; [done|]. by destruct (Split_cons sep s) as (part & parts & ->).
Qed.

Lemma Split_no_sep sep s : contains_byte sep s = false -> Split sep s = [s].
Proof.
  induction s as [|c s IH]; intros H; simpl in H |- *; [done|].
  apply orb_false_iff in H as [Hc%bool_decide_eq_false H].
  rewrite decide_False by done. by rewrite IH.
Qed.

Lemma Split_Join sep parts :
  parts <> [] -> Forall (fun part => contains_byte sep part = false) parts ->
  Split sep (Join sep parts) = parts.
Proof.
  intros Hne Hall. induction Hall as [|part parts Hpart Hall IH]; [done|].
  destruct (decide (parts = [])) as [->|Hparts].
  - by apply Split_no_sep.
  - by rewrite Join_cons, Split_app, IH by done.
Qed.

(** ** Concatenation *)

Lemma append_cons c (a b : string) : String c a +:+ b = String c (a +:+ b).
Proof. done. Qed.

Lemma append_assoc (a b c : string) : (a +:+ b) +:+ c = a +:+ (b +:+ c).
Proof. induction a as [|x a IH]; [done|]. by rewrite !append_cons, IH. Qed.

Lemma append_nil (a : string) : a +:+ "" = a.
Proof. induction a as [|x a IH]; [done|]. by rewrite append_cons, IH. Qed.

Lemma contains_byte_app c (a b : string) :
  contains_byte c (a +:+ b) = contains_byte c a || contains_byte c b.
Proof.
  induction a as [|x a IH]; [done|]. rewrite append_cons. cbn [contains_byte].
  by rewrite IH, orb_assoc.
Qed.

(** ** Cutting at a byte *)

Lemma cut_Some c s before after :
  cut c s = Some (before, after) ->
  s = before +:+ String c after /\ contains_byte c before = false.
Proof.
  revert before. induction s as [|a s IH]; intros before E; simpl in E; [done|].
  case_decide as Ha; [by simplify_eq|].
  destruct (cut c s) as [[b t]|]; [|done]. simplify_eq.
  destruct (IH b eq_refl) as [-> Hb]. split; [done|]. simpl.
  rewrite bool_decide_false by done. done.
Qed.

Lemma cut_app c before after :
  contains_byte c before = false -> cut c (before +:+ String c after) = Some (before, after).
Proof.
  induction before as [|a before IH]; simpl; [by rewrite decide_True|].
  intros [Ha%bool_decide_eq_false Hb]%orb_false_iff. rewrite decide_False by done. by rewrite IH.
Qed.

Lemma cut_None c s : contains_byte c s = false -> cut c s = None.
Proof.
  induction s as [|a s IH]; simpl; [done|].
  intros [Ha%bool_decide_eq_false Hb]%orb_false_iff. rewrite decide_False by done. by rewrite IH.
Qed.

(** ** The candidates of a host name *)

Lemma candidates_tail sep (parts : list string) part :
  map (fun index => (Join sep (take index (part :: parts)), Join sep (drop index (part :: parts))))
      (seq 1 (length parts)) =
  map (fun index => (Join sep (part :: take index parts), Join sep (drop index parts)))
      (seq 0 (length parts)).
Proof. rewrite <- seq_shift, map_map. by apply map_ext. Qed.

(** The parts of [Split] after the first one describe the cuts of the string
    at its dots. *)
Lemma dot_cuts_Split s part parts :
  Split dot s = part :: parts ->
  dot_cuts s =
  map (fun index => (Join dot (part :: take index parts), Join dot (drop index parts)))
      (seq 0 (length parts)).
Proof.
  revert part parts. induction s as [|c s IH]; intros part parts E; simpl in E.
  { by simplify_eq. }
  destruct (Split_cons dot s) as (p & ps & Es). simpl. rewrite (IH _ _ Es).
  pose proof (Join_Split dot s) as Hj. rewrite Es in E, Hj.
  case_decide as Hc; simplify_eq; rewrite map_map.
  - cbn [length seq map]. f_equal; try by rewrite Hj.
    rewrite <- seq_shift, map_map. apply map_ext_in. intros i Hi.
    apply in_seq in Hi. simpl. f_equal.
  - apply map_ext. intros i. cbn. by destruct (take i parts).
Qed.

(** The candidates are the whole name with the empty service, then every cut
    of the name at a dot from left to right. *)
Lemma candidates_dot_cuts host : candidates host = ("", host) :: dot_cuts host.
Proof.
  unfold candidates. destruct (Split_cons dot host) as (part & parts & E).
  rewrite (dot_cuts_Split _ _ _ E). pose proof (Join_Split dot host) as Hj.
  rewrite E in Hj |- *. cbn [length seq map]. f_equal; [by rewrite <- Hj|].
  apply candidates_tail.
Qed.

Lemma elem_of_dot_cuts s a b : (a, b) ∈ dot_cuts s <-> s = a +:+ String dot b.
Proof.
  revert a. induction s as [|c s IH]; intros a; simpl.
  { split; [intros []%elem_of_nil | by destruct a]. }
  assert (Hl : (a, b) ∈ map (fun '(x, y) => (String c x, y)) (dot_cuts s) <->
               exists a', a = String c a' /\ s = a' +:+ String dot b).
  { rewrite list_elem_of_fmap. split.
    - intros ([x y] & Heq & Hin). simplify_eq. apply IH in Hin. eauto.
    - intros (a' & -> & Hs). exists (a', b). split; [done|]. by apply IH. }
  case_decide as Hc; rewrite ?elem_of_cons, Hl; split.
  - intros [Heq|(a' & -> & ->)]; [by simplify_eq|done].
  - destruct a as [|x a]; cbn; intros Heq; injection Heq as; subst; eauto.
  - by intros (a' & -> & ->).
  - destruct a as [|x a]; cbn; intros Heq; injection Heq as; subst; [done|eauto].
Qed.

Lemma elem_of_candidates host a b :
  (a, b) ∈ candidates host <-> (a = "" /\ b = host) \/ host = a +:+ String dot b.
Proof. rewrite candidates_dot_cuts, elem_of_cons, elem_of_dot_cuts. naive_solver. Qed.

Lemma candidates_no_dot host :
  contains_byte dot host = false -> candidates host = [("", host)].
Proof. intros H. unfold candidates. by rewrite Split_no_sep. Qed.

Lemma String_length_app a b :
  String.length (a +:+ b) = (String.length a + String.length b)%nat.
Proof. induction a as [|c a IH]; [done|]. simpl. by rewrite IH. Qed.

(** The user names tried for a host, longest first, are all different. *)
Lemma dot_cuts_shorter s b : b ∈ map snd (dot_cuts s) -> (String.length b < String.length s)%nat.
Proof.
  intros ([a b'] & -> & Hin%elem_of_dot_cuts)%list_elem_of_fmap. subst. simpl.
  rewrite (String_length_app a). simpl. lia.
Qed.

Lemma NoDup_candidate_users host : NoDup (map snd (candidates host)).
Proof.
  rewrite candidates_dot_cuts. cbn [map snd]. constructor.
  - intros H%dot_cuts_shorter. lia.
  - induction host as [|c s IH]; [constructor|]. simpl.
    assert (E : map snd (map (fun '(a, b) => (String c a, b)) (dot_cuts s)) =
                map snd (dot_cuts s)).
    { rewrite map_map. apply map_ext. by intros []. }
    case_decide; cbn [map snd]; rewrite E; [|done]. constructor; [|done].
    intros H'%dot_cuts_shorter. lia.
Qed.

(** ** strings.TrimSpace *)

(** The UTF-8 encodings of the Unicode white space characters. *)
Definition spaces : list (list nat) :=
  [[9]; [10]; [11]; [12]; [13]; [32]; [194; 133]; [194; 160]; [225; 154; 128];
   [226; 128; 128]; [226; 128; 129]; [226; 128; 130]; [226; 128; 131]; [226; 128; 132];
   [226; 128; 133]; [226; 128; 134]; [226; 128; 135]; [226; 128; 136]; [226; 128; 137];
   [226; 128; 138]; [226; 128; 168]; [226; 128; 169]; [226; 128; 175]; [226; 129; 159];
   [227; 128; 128]]%nat.

Fixpoint strip_prefix (prefix l : list nat) : option (list nat) :=
  match prefix, l with
  | [], _ => Some l
  | x :: prefix', y :: l' => if decide (x = y) then strip_prefix prefix' l' else None
  | _ :: _, [] => None
  end.

(** Strips the white space at the front; each turn removes a byte, so the
    length is enough fuel. *)
Fixpoint trim_front (fuel : nat) (table : list (list nat)) (l : list nat) : list nat :=
  match fuel with
  | O => l
  | S fuel =>
      match head (omap (fun prefix => strip_prefix prefix l) table) with
      | Some l' => trim_front fuel table l'
      | None => l
      end
  end.

Definition TrimSpace (s : string) : string :=
  let l := map nat_of_ascii (String.list_ascii_of_string s) in
  let l := trim_front (length l) spaces l in
  let l := rev (trim_front (length l) (map (@rev nat) spaces) (rev l)) in
  String.string_of_list_ascii (map ascii_of_nat l).

(** Printing characters without the space; [all_bytes] lifts a test to strings. *)
Definition graphic (c : ascii) : bool := bool_decide (33 <= nat_of_ascii c <= 126)%nat.

Fixpoint all_bytes (test : ascii -> bool) (s : string) : bool :=
  match s with
  | EmptyString => true
  | String c s' => test c && all_bytes test s'
  end.

Lemma all_bytes_app test (a b : string) :
  all_bytes test (a +:+ b) = all_bytes test a && all_bytes test b.
Proof.
  induction a as [|x a IH]; [done|]. rewrite append_cons. cbn [all_bytes].
  by rewrite IH, andb_assoc.
Qed.

Lemma all_bytes_contains test c s :
  all_bytes test s = true -> test c = false -> contains_byte c s = false.
Proof.
  induction s as [|x s IH]; intros Ha Hc; [done|]. cbn [all_bytes contains_byte] in *.
  apply andb_true_iff in Ha as [Hx Ha]. rewrite IH by done.
  rewrite bool_decide_false; [done|]. intros ->. congruence.
Qed.

Lemma strip_prefix_graphic (table : list (list nat)) (x : nat) l :
  Forall (fun prefix => match prefix with y :: _ => (y <= 32 \/ 127 <= y)%nat | [] => False end) table ->
  (33 <= x <= 126)%nat -> omap (fun prefix => strip_prefix prefix (x :: l)) table = [].
Proof.
  intros Ht Hx. induction Ht as [|[|y prefix] table Hy _ IH]; [done..|]. simpl.
  rewrite decide_False by lia. exact IH.
Qed.

Lemma trim_front_graphic fuel table x l :
  table = spaces \/ table = map (@rev nat) spaces -> (33 <= x <= 126)%nat ->
  trim_front fuel table (x :: l) = x :: l.
Proof.
  intros Ht Hx. destruct fuel as [|fuel]; [done|]. cbn [trim_front].
  rewrite strip_prefix_graphic; [done| |done].
  destruct Ht as [-> | ->]; repeat (constructor; [simpl; lia|]); constructor.
Qed.

(** [TrimSpace] on bytes: nothing to trim, and a space in front. *)
Lemma TrimSpace_list (l : list ascii) (x y : ascii) (l1 l2 : list ascii) :
  l = x :: l1 -> l = l2 ++ [y] -> graphic x = true -> graphic y = true ->
  TrimSpace (String.string_of_list_ascii l) = String.string_of_list_ascii l
  /\ TrimSpace (String space (String.string_of_list_ascii l)) = String.string_of_list_ascii l.
Proof.
  intros H1 H2 Hx%bool_decide_eq_true Hy%bool_decide_eq_true.
  assert (Hr : forall fuel,
    map ascii_of_nat (rev (trim_front fuel (map (@rev nat) spaces) (rev (map nat_of_ascii l)))) = l).
  { intros fuel. rewrite H2 at 1. rewrite map_app, rev_app_distr. cbn [map rev app].
    rewrite trim_front_graphic by auto. cbn [rev]. rewrite rev_involutive.
    rewrite map_app, map_map. cbn [map]. rewrite ascii_nat_embedding.
    rewrite (map_ext _ id) by apply ascii_nat_embedding. by rewrite map_id. }
  assert (Hf : forall fuel, trim_front fuel spaces (map nat_of_ascii l) = map nat_of_ascii l).
  { intros fuel. rewrite H1. cbn [map]. by apply trim_front_graphic; auto. }
  unfold TrimSpace. cbn [String.list_ascii_of_string].
  rewrite String.list_ascii_of_string_of_list_ascii. split.
  - by rewrite Hf, Hr.
  - cbn [map length]. replace (trim_front _ spaces (nat_of_ascii space :: _)) with (map nat_of_ascii l).
    + by rewrite Hr.
    + symmetry. cbn [trim_front]. transitivity (trim_front (length (map nat_of_ascii l)) spaces
        (map nat_of_ascii l)); [reflexivity|apply Hf].
Qed.

Lemma graphic_last s :
  s <> "" -> all_bytes graphic s = true ->
  exists x l1 y l2, String.list_ascii_of_string s = x :: l1
    /\ String.list_ascii_of_string s = l2 ++ [y] /\ graphic x = true /\ graphic y = true.
Proof.
  intros Hne Hg. destruct s as [|x s]; [done|]. cbn [all_bytes] in Hg.
  apply andb_true_iff in Hg as [Hx Hg]. exists x, (String.list_ascii_of_string s).
  revert x Hx Hne. induction s as [|z s IH]; intros x Hx _.
  { exists x, []. done. }
  cbn [all_bytes] in Hg. apply andb_true_iff in Hg as [Hz Hg].
  destruct (IH Hg z Hz) as (y & l2 & _ & E & _ & Hy); [done|].
  exists y, (x :: l2). split; [done|]. split; [|done]. cbn [String.list_ascii_of_string] in E |- *.
  by rewrite E.
Qed.

Lemma TrimSpace_word s :
  s <> "" -> all_bytes graphic s = true -> TrimSpace s = s /\ TrimSpace (String space s) = s.
Proof.
  intros Hne Hg. destruct (graphic_last s Hne Hg) as (x & l1 & y & l2 & E1 & E2 & Hx & Hy).
  destruct (TrimSpace_list _ x y l1 l2 E1 E2 Hx Hy) as [H1 H2].
  by rewrite String.string_of_list_ascii_of_string in H1, H2.
Qed.

Lemma list_ascii_app (a b : string) :
  String.list_ascii_of_string (a +:+ b) =
  String.list_ascii_of_string a ++ String.list_ascii_of_string b.
Proof. induction a as [|x a IH]; [done|]. rewrite append_cons. simpl. by rewrite IH. Qed.

(** Two words with a space between them. *)
Lemma TrimSpace_words (a b : string) :
  a <> "" -> b <> "" -> all_bytes graphic a = true -> all_bytes graphic b = true ->
  TrimSpace (a +:+ String space b) = a +:+ String space b.
Proof.
  intros Ha Hb Hga Hgb. destruct (graphic_last a Ha Hga) as (x & l1 & _ & _ & E1 & _ & Hx & _).
  destruct (graphic_last b Hb Hgb) as (_ & _ & y & l2 & _ & E2 & _ & Hy).
  destruct (TrimSpace_list (String.list_ascii_of_string (a +:+ String space b)) x y
    (l1 ++ space :: l2 ++ [y]) ((x :: l1) ++ space :: l2)) as [H _]; try done.
  - rewrite list_ascii_app, E1. cbn [String.list_ascii_of_string app]. by rewrite E2.
  - rewrite list_ascii_app, E1. cbn [String.list_ascii_of_string app]. by rewrite E2, <- app_assoc.
  - by rewrite String.string_of_list_ascii_of_string in H.
Qed.

(** ** Numbers *)

Definition digit (n : Z) : ascii :=
  ascii_of_nat (Z.to_nat (if decide (n < 10) then 48 + n else 87 + n)%Z).

(** The digits of a number in a base, most significant first; [fuel] bounds
    their number. *)
Fixpoint digits (fuel : nat) (base n : Z) : string :=
  match fuel with
  | O => ""
  | S fuel =>
      if decide (n < base)%Z then String (digit n) ""
      else digits fuel base (n / base)%Z +:+ String (digit (n mod base)%Z) ""
  end.

(** The verb [%d] for an unsigned number of 32 bits, which has at most ten
    digits, and of 64 bits, which has at most twenty. *)
Definition formatUint32 (n : Z) : string := digits 10 10 n.
Definition formatUint64 (n : Z) : string := digits 20 10 n.
