(* ===== verification/Bytes.v ===== *)
(** * Bytes and big-endian integers

    A byte slice is a [list byte]; a Go string is converted to and from it
    by [bytes_of_string] and [string_of_bytes].  Big-endian encoding as in
    [encoding/binary] and in the helpers of the vendored ssh package. *)

From stdpp Require Import base list strings.
From Stdlib Require Import ZArith Lia NArith.
From Stdlib Require Import Strings.Byte.
From S2P Require Import Prelude.

#[local] Open Scope Z_scope.

(** The unsigned value of a byte, and [byte(z)], which keeps the low 8 bits. *)
Definition byte_val (b : byte) : Z := Z.of_N (Byte.to_N b).
Definition byte_of (z : Z) : byte :=
  match Byte.of_N (Z.to_N (uint8 z)) with
  | Some b => b
  | None => x00
  end.

Definition bytes_of_string (s : string) : list byte := String.list_byte_of_string s.
Definition string_of_bytes (bs : list byte) : string := String.string_of_list_byte bs.

(** [len(x)] of a slice or of a string. *)
Definition len {A} (l : list A) : Z := Z.of_nat (length l).
Definition slen (s : string) : Z := Z.of_nat (String.length s).

(** [binary.BigEndian.Uint16] and [Uint32] on the bytes they read. *)
Definition be_uint16 (b0 b1 : byte) : Z :=
  Z.lor (Z.shiftl (byte_val b0) 8) (byte_val b1).
Definition be_uint32 (b0 b1 b2 b3 : byte) : Z :=
  Z.lor (Z.lor (Z.lor (byte_val b3) (Z.shiftl (byte_val b2) 8))
               (Z.shiftl (byte_val b1) 16))
        (Z.shiftl (byte_val b0) 24).

(** [appendU32(buf, n)] of the vendored ssh package. *)
Definition appendU32 (buf : list byte) (n : Z) : list byte :=
  buf ++ [byte_of (Z.shiftr n 24); byte_of (Z.shiftr n 16);
          byte_of (Z.shiftr n 8); byte_of n].

(** [appendInt(buf, n)]: the conversion to [uint32] drops the high bits. *)
Definition appendInt (buf : list byte) (n : Z) : list byte :=
  appendU32 buf (uint32 n).

#[export] Instance byte_eq_decision : EqDecision byte := Byte.byte_eq_dec.

(** ** Lemmas *)

Lemma byte_val_bound b : 0 <= byte_val b < 256.
Proof. unfold byte_val. pose proof (Byte.to_N_bounded b). lia. Qed.

Lemma byte_val_of z : byte_val (byte_of z) = uint8 z.
Proof.
  unfold byte_of, byte_val. assert (0 <= uint8 z < 256) by (apply Z.mod_pos_bound; lia).
  destruct (Byte.of_N (Z.to_N (uint8 z))) as [b|] eqn:E.
  - apply Byte.to_of_N in E. rewrite E. lia.
  - apply Byte.of_N_None_iff in E. lia.
Qed.

Lemma byte_of_val b : byte_of (byte_val b) = b.
Proof.
  unfold byte_of, byte_val. pose proof (Byte.to_N_bounded b).
  unfold uint8. rewrite Z.mod_small by lia. by rewrite N2Z.id, Byte.of_to_N.
Qed.

Lemma byte_val_inj b c : byte_val b = byte_val c -> b = c.
Proof. intros H. by rewrite <- (byte_of_val b), <- (byte_of_val c), H. Qed.

Lemma string_of_bytes_of_string s : string_of_bytes (bytes_of_string s) = s.
Proof. apply String.string_of_list_byte_of_string. Qed.

Lemma bytes_of_string_of_bytes bs : bytes_of_string (string_of_bytes bs) = bs.
Proof. apply String.list_byte_of_string_of_list_byte. Qed.

Lemma length_bytes_of_string s : length (bytes_of_string s) = String.length s.
Proof.
  unfold bytes_of_string, String.list_byte_of_string. rewrite length_map.
  induction s; simpl; auto.
Qed.

Lemma len_bytes_of_string s : len (bytes_of_string s) = slen s.
Proof. unfold len, slen. by rewrite length_bytes_of_string. Qed.

Lemma slen_string_of_bytes bs : slen (string_of_bytes bs) = len bs.
Proof. by rewrite <- len_bytes_of_string, bytes_of_string_of_bytes. Qed.

Lemma len_app {A} (l k : list A) : len (l ++ k) = len l + len k.
Proof. unfold len. rewrite length_app. lia. Qed.

Lemma len_nonneg {A} (l : list A) : 0 <= len l.
Proof. unfold len. lia. Qed.

Lemma lor_shiftl_add a b k : 0 <= k -> 0 <= a < 2 ^ k -> Z.lor a (Z.shiftl b k) = a + b * 2 ^ k.
Proof.
  intros Hk Ha. rewrite <- Z.shiftl_mul_pow2 by lia.
  assert (Hl : Z.land a (Z.shiftl b k) = 0).
  { apply Z.bits_inj'. intros n Hn. rewrite Z.land_spec, Z.bits_0.
    destruct (Z.lt_ge_cases n k).
    - rewrite Z.shiftl_spec_low by lia. apply andb_false_r.
    - destruct (decide (a = 0)) as [->|]; [by rewrite Z.bits_0|].
      rewrite (Z.bits_above_log2 a n); [done|lia|].
      assert (Z.log2 a < k) by (apply Z.log2_lt_pow2; lia). lia. }
  rewrite Z.add_nocarry_lxor by done. by rewrite Z.lxor_lor.
Qed.

Lemma be_uint16_val b0 b1 : be_uint16 b0 b1 = byte_val b0 * 256 + byte_val b1.
Proof.
  unfold be_uint16. rewrite Z.lor_comm. pose proof (byte_val_bound b1).
  rewrite lor_shiftl_add by lia. change (2 ^ 8) with 256. lia.
Qed.

Lemma be_uint32_val b0 b1 b2 b3 :
  be_uint32 b0 b1 b2 b3 =
  byte_val b0 * 16777216 + byte_val b1 * 65536 + byte_val b2 * 256 + byte_val b3.
Proof.
  unfold be_uint32.
  pose proof (byte_val_bound b0); pose proof (byte_val_bound b1);
  pose proof (byte_val_bound b2); pose proof (byte_val_bound b3).
  rewrite (lor_shiftl_add (byte_val b3)) by lia. change (2 ^ 8) with 256.
  rewrite (lor_shiftl_add _ (byte_val b1) 16) by lia. change (2 ^ 16) with 65536.
  rewrite lor_shiftl_add by lia. change (2 ^ 24) with 16777216. lia.
Qed.

Lemma be_uint16_bound b0 b1 : 0 <= be_uint16 b0 b1 < 65536.
Proof.
  rewrite be_uint16_val. pose proof (byte_val_bound b0); pose proof (byte_val_bound b1). lia.
Qed.

Lemma be_uint32_bound b0 b1 b2 b3 : 0 <= be_uint32 b0 b1 b2 b3 < 4294967296.
Proof.
  rewrite be_uint32_val.
  pose proof (byte_val_bound b0); pose proof (byte_val_bound b1);
  pose proof (byte_val_bound b2); pose proof (byte_val_bound b3). lia.
Qed.

Lemma byte_val_shiftr n k :
  0 <= k -> byte_val (byte_of (Z.shiftr n k)) = (n / 2 ^ k) mod 256.
Proof. intros Hk. by rewrite byte_val_of, Z.shiftr_div_pow2 by lia. Qed.

Lemma be_uint32_appendU32 n :
  0 <= n < 4294967296 ->
  be_uint32 (byte_of (Z.shiftr n 24)) (byte_of (Z.shiftr n 16))
            (byte_of (Z.shiftr n 8)) (byte_of n) = n.
Proof.
  intros Hn. rewrite be_uint32_val, !byte_val_shiftr, byte_val_of by lia.
  unfold uint8. change (2 ^ 24) with 16777216. change (2 ^ 16) with 65536.
  change (2 ^ 8) with 256. Z.div_mod_to_equations. lia.
Qed.

Lemma appendU32_be_uint32 b0 b1 b2 b3 :
  appendU32 [] (be_uint32 b0 b1 b2 b3) = [b0; b1; b2; b3].
Proof.
  unfold appendU32.
  pose proof (byte_val_bound b0); pose proof (byte_val_bound b1);
  pose proof (byte_val_bound b2); pose proof (byte_val_bound b3).
  simpl. repeat f_equal; apply byte_val_inj;
    rewrite ?byte_val_shiftr, ?byte_val_of, be_uint32_val by lia; unfold uint8;
    change (2 ^ 24) with 16777216; change (2 ^ 16) with 65536; change (2 ^ 8) with 256;
    Z.div_mod_to_equations; lia.
Qed.

Lemma be_uint16_bytes n :
  0 <= n < 65536 -> be_uint16 (byte_of (Z.shiftr n 8)) (byte_of n) = n.
Proof.
  intros Hn. rewrite be_uint16_val, byte_val_shiftr, byte_val_of by lia.
  unfold uint8. change (2 ^ 8) with 256. Z.div_mod_to_equations. lia.
Qed.

#[export] Hint Resolve byte_val_bound be_uint16_bound be_uint32_bound len_nonneg : gateway.
Create Rewrite HintDb bytes.
#[export] Hint Rewrite string_of_bytes_of_string bytes_of_string_of_bytes
  len_bytes_of_string slen_string_of_bytes @len_app : bytes.
