(* ===== verification/Json.v ===== *)
(** * JSON texts

    What the program uses of [encoding/json]: the scanner that decides whether
    bytes are a JSON text, [Unmarshal] into a [json.RawMessage], [Marshal] with
    its escaping of strings, [MarshalIndent], and the compaction of the texts
    that a [json.Marshaler] returns.  The scanner is the state machine of the
    Go package, one byte at a time, with its stack of open objects and
    arrays. *)

From stdpp Require Import base list sets strings option.
From Stdlib Require Import Strings.Ascii.
From Stdlib Require Import ZArith Lia.
From S2P Require Import Prelude GoStrings.

#[local] Open Scope Z_scope.

Module Json.

(** ** The scanner *)

(** What an open object or array expects. *)
Inductive parseState := ObjectKey | ObjectValue | ArrayValue.

(** The letters of [true], [false] and [null] that were read. *)
Inductive literal := T | Tr | Tru | F | Fa | Fal | Fals | N | Nu | Nul.

(** The functions a scanner can have as its [step]; [EscU n] is inside a
    [\u] escape with [n] digits to come. *)
Inductive mode :=
| BeginValueOrEmpty | BeginValue | BeginStringOrEmpty | BeginString | EndValue | EndTop
| InString | InStringEsc | EscU (n : nat)
| Neg | Int1 | Int0 | Dot | Dot0 | Exp | ExpSign | Exp0
| InLiteral (l : literal)
| StateError.

(** What a step reports. *)
Inductive op :=
| ScanContinue | ScanBeginLiteral | ScanBeginObject | ScanObjectKey | ScanObjectValue
| ScanEndObject | ScanBeginArray | ScanArrayValue | ScanEndArray
| ScanSkipSpace | ScanEnd | ScanError.

#[export] Instance op_eq_dec : EqDecision op.
Proof. solve_decision. Defined.

(** The innermost state is the first of [stack]. *)
Record scanner := { step : mode; stack : list parseState; endTop : bool; failed : bool }.

Definition newScanner : scanner :=
  {| step := BeginValue; stack := []; endTop := false; failed := false |}.

Definition maxNestingDepth : Z := 10000.

Definition isSpace (c : ascii) : bool :=
  bool_decide (c = " "%char) || bool_decide (c = "009"%char) || bool_decide (c = return_)
  || bool_decide (c = newline).

Definition code (c : ascii) : Z := Z.of_nat (nat_of_ascii c).

Definition isDigit (c : ascii) : bool := bool_decide (48 <= code c <= 57).
Definition isHex (c : ascii) : bool :=
  isDigit c || bool_decide (97 <= code c <= 102) || bool_decide (65 <= code c <= 70).

Definition goto (m : mode) (s : scanner) : scanner :=
  {| step := m; stack := stack s; endTop := endTop s; failed := failed s |}.

Definition scanError (s : scanner) : scanner * op :=
  ({| step := StateError; stack := stack s; endTop := endTop s; failed := true |}, ScanError).

Definition pushParseState (ps : parseState) (success : op) (s : scanner) : scanner * op :=
  let s := {| step := step s; stack := ps :: stack s; endTop := endTop s; failed := failed s |} in
  if decide (Z.of_nat (length (stack s)) <= maxNestingDepth) then (s, success) else scanError s.

Definition popParseState (s : scanner) : scanner :=
  match tail (stack s) with
  | [] => {| step := EndTop; stack := []; endTop := true; failed := failed s |}
  | st => {| step := EndValue; stack := st; endTop := endTop s; failed := failed s |}
  end.

Definition set_top (ps : parseState) (s : scanner) : scanner :=
  {| step := step s; stack := ps :: tail (stack s); endTop := endTop s; failed := failed s |}.

(** The byte after the top-level value is complained about on the next call. *)
Definition stateEndTop (c : ascii) (s : scanner) : scanner * op :=
  (if isSpace c then s else (scanError s).1, ScanEnd).

Definition stateEndValue (c : ascii) (s : scanner) : scanner * op :=
  match stack s with
  | [] => stateEndTop c {| step := EndTop; stack := []; endTop := true; failed := failed s |}
  | ps :: _ =>
      if isSpace c then (goto EndValue s, ScanSkipSpace)
      else match ps with
      | ObjectKey =>
          if decide (c = ":"%char) then (goto BeginValue (set_top ObjectValue s), ScanObjectKey)
          else scanError s
      | ObjectValue =>
          if decide (c = ","%char) then (goto BeginString (set_top ObjectKey s), ScanObjectValue)
          else if decide (c = "}"%char) then (popParseState s, ScanEndObject)
          else scanError s
      | ArrayValue =>
          if decide (c = ","%char) then (goto BeginValue s, ScanArrayValue)
          else if decide (c = "]"%char) then (popParseState s, ScanEndArray)
          else scanError s
      end
  end.

Definition stateBeginValue (c : ascii) (s : scanner) : scanner * op :=
  if isSpace c then (s, ScanSkipSpace)
  else if decide (c = "{"%char) then
    pushParseState ObjectKey ScanBeginObject (goto BeginStringOrEmpty s)
  else if decide (c = "["%char) then
    pushParseState ArrayValue ScanBeginArray (goto BeginValueOrEmpty s)
  else if decide (c = quote) then (goto InString s, ScanBeginLiteral)
  else if decide (c = "-"%char) then (goto Neg s, ScanBeginLiteral)
  else if decide (c = "0"%char) then (goto Int0 s, ScanBeginLiteral)
  else if decide (c = "t"%char) then (goto (InLiteral T) s, ScanBeginLiteral)
  else if decide (c = "f"%char) then (goto (InLiteral F) s, ScanBeginLiteral)
  else if decide (c = "n"%char) then (goto (InLiteral N) s, ScanBeginLiteral)
  else if isDigit c then (goto Int1 s, ScanBeginLiteral)
  else scanError s.

Definition stateBeginString (c : ascii) (s : scanner) : scanner * op :=
  if isSpace c then (s, ScanSkipSpace)
  else if decide (c = quote) then (goto InString s, ScanBeginLiteral)
  else scanError s.

Definition state0 (c : ascii) (s : scanner) : scanner * op :=
  if decide (c = "."%char) then (goto Dot s, ScanContinue)
  else if decide (c = "e"%char \/ c = "E"%char) then (goto Exp s, ScanContinue)
  else stateEndValue c s.

Definition escapes : list ascii :=
  ["b"; "f"; "n"; "r"; "t"; "\"; "/"; quote]%char.

(** The next letter of a literal, and what follows it. *)
Definition literalNext (l : literal) : ascii * mode :=
  match l with
  | T => ("r", InLiteral Tr) | Tr => ("u", InLiteral Tru) | Tru => ("e", EndValue)
  | F => ("a", InLiteral Fa) | Fa => ("l", InLiteral Fal) | Fal => ("s", InLiteral Fals)
  | Fals => ("e", EndValue)
  | N => ("u", InLiteral Nu) | Nu => ("l", InLiteral Nul) | Nul => ("l", EndValue)
  end%char.

(** [s.step(s, c)] *)
Definition stepByte (c : ascii) (s : scanner) : scanner * op :=
  let continue m := (goto m s, ScanContinue) in
  match step s with
  | BeginValueOrEmpty =>
      if isSpace c then (s, ScanSkipSpace)
      else if decide (c = "]"%char) then stateEndValue c s else stateBeginValue c s
  | BeginValue => stateBeginValue c s
  | BeginStringOrEmpty =>
      if isSpace c then (s, ScanSkipSpace)
      else if decide (c = "}"%char) then stateEndValue c (set_top ObjectValue s)
      else stateBeginString c s
  | BeginString => stateBeginString c s
  | EndValue => stateEndValue c s
  | EndTop => stateEndTop c s
  | InString =>
      if decide (c = quote) then continue EndValue
      else if decide (c = "\"%char) then continue InStringEsc
      else if decide (code c < 32) then scanError s else (s, ScanContinue)
  | InStringEsc =>
      if decide (c ∈ escapes) then continue InString
      else if decide (c = "u"%char) then continue (EscU 4) else scanError s
  | EscU n =>
      if isHex c then continue (if decide (n <= 1)%nat then InString else EscU (pred n))
      else scanError s
  | Neg =>
      if decide (c = "0"%char) then continue Int0
      else if isDigit c then continue Int1 else scanError s
  | Int1 => if isDigit c then (s, ScanContinue) else state0 c s
  | Int0 => state0 c s
  | Dot => if isDigit c then continue Dot0 else scanError s
  | Dot0 =>
      if isDigit c then (s, ScanContinue)
      else if decide (c = "e"%char \/ c = "E"%char) then continue Exp
      else stateEndValue c s
  | Exp =>
      if decide (c = "+"%char \/ c = "-"%char) then continue ExpSign
      else if isDigit c then continue Exp0 else scanError s
  | ExpSign => if isDigit c then continue Exp0 else scanError s
  | Exp0 => if isDigit c then (s, ScanContinue) else stateEndValue c s
  | InLiteral l => let (letter, next) := literalNext l in
                   if decide (c = letter) then continue next else scanError s
  | StateError => (s, ScanError)
  end.

(** Whether [s.eof()] is [scanEnd]. *)
Definition eof (s : scanner) : bool :=
  if failed s then false
  else if endTop s then true
  else endTop (stepByte " "%char s).1.

(** The scanner after a text. *)
Fixpoint scan (text : string) (s : scanner) : scanner :=
  match text with
  | EmptyString => s
  | String c text' => scan text' (stepByte c s).1
  end.

Definition checkValid (text : string) : bool := eof (scan text newScanner).

(** [json.Unmarshal] into a [json.RawMessage]: the text without the spaces
    around it, if it is valid. *)
Fixpoint trimLeft (text : string) : string :=
  match text with
  | String c text' => if isSpace c then trimLeft text' else text
  | EmptyString => ""
  end.

Fixpoint trimRight (text : string) : string :=
  match text with
  | EmptyString => ""
  | String c text' =>
      let rest := trimRight text' in
      if isSpace c && bool_decide (rest = "") then "" else String c rest
  end.

Definition errSyntax : error := Foreign "invalid character in JSON input".

Definition UnmarshalRaw (text : string) : result string :=
  if checkValid text then Ok (trimRight (trimLeft text)) else Err errSyntax.

(** ** Strings *)

Definition backslash : ascii := "\"%char.

Definition between (lo hi : Z) (c : ascii) : bool := bool_decide (lo <= code c <= hi).
Definition continuation (c : ascii) : bool := between 128 191 c.

(** The second byte that the first byte of a rune allows, and the number of
    continuation bytes after it; RFC 3629. *)
Definition secondByte (b c : ascii) : bool :=
  if between 194 223 b then continuation c
  else if between 224 224 b then between 160 191 c
  else if between 237 237 b then between 128 159 c
  else if between 225 239 b then continuation c
  else if between 240 240 b then between 144 191 c
  else if between 241 243 b then continuation c
  else between 244 244 b && between 128 143 c.
Definition moreBytes (b : ascii) : nat :=
  if between 194 223 b then 0 else if between 224 239 b then 1 else 2.

Fixpoint continuations (n : nat) (s : string) : bool :=
  match n, s with
  | O, _ => true
  | S n, String c s' => continuation c && continuations n s'
  | S _, EmptyString => false
  end.

(** The number of bytes after [b] that belong to its rune, or [None] where
    [utf8.DecodeRune] reports an error. *)
Definition runeTail (b : ascii) (s : string) : option nat :=
  match s with
  | String c s' =>
      if secondByte b c && continuations (moreBytes b) s' then Some (S (moreBytes b)) else None
  | EmptyString => None
  end.

Definition hexDigit (n : Z) : ascii := digit n.

(** [\u00xx] *)
Definition escapeU (c : ascii) : string :=
  "\u00" +:+ String (hexDigit (code c / 16)) (String (hexDigit (code c mod 16)) "").

Definition htmlSafe (c : ascii) : bool :=
  between 32 127 c && negb (bool_decide (c ∈ [quote; backslash; "<"; ">"; "&"]%char)).

Definition escapeByte (c : ascii) : string :=
  if htmlSafe c then String c ""
  else if decide (c = backslash \/ c = quote) then String backslash (String c "")
  else if decide (c = "008"%char) then "\b"
  else if decide (c = "012"%char) then "\f"
  else if decide (c = newline) then "\n"
  else if decide (c = return_) then "\r"
  else if decide (c = "009"%char) then "\t"
  else escapeU c.

(** U+2028 and U+2029 are the bytes E2 80 A8 and E2 80 A9; the result is the
    last digit of the escape. *)
Definition lineSeparator (b : ascii) (s : string) : option ascii :=
  match s with
  | String b1 (String b2 _) =>
      if between 226 226 b && between 128 128 b1 && between 168 169 b2
      then Some (hexDigit (code b2 mod 16)) else None
  | _ => None
  end.

(** The loop of [appendString] with [escapeHTML]; [skip] bytes belong to the
    rune before, and are copied or not. *)
Fixpoint escapeFrom (copy : bool) (skip : nat) (s : string) : string :=
  match s with
  | EmptyString => ""
  | String b s' =>
      match skip with
      | S k => if copy then String b (escapeFrom copy k s') else escapeFrom copy k s'
      | O =>
          if decide (code b < 128) then escapeByte b +:+ escapeFrom true 0 s'
          else match runeTail b s' with
               | None => "\ufffd" +:+ escapeFrom true 0 s'
               | Some n =>
                   match lineSeparator b s' with
                   | Some d => "\u202" +:+ String d (escapeFrom false n s')
                   | None => String b (escapeFrom true n s')
                   end
               end
      end
  end.

Definition appendString (s : string) : string :=
  String quote (escapeFrom true 0 s +:+ String quote "").

(** ** The texts of a [json.Marshaler] *)

(** What [appendCompact] with [escape] writes for a byte, and how many of the
    next bytes that stands for: nothing for a space and for the bytes of a
    separator after its escape. *)
Definition compactByte (skip : nat) (c : ascii) (rest : string) (o : op) : string * nat :=
  match o, skip with
  | (ScanSkipSpace | ScanEnd), _ => ("", pred skip)
  | _, S k => ("", k)
  | _, O =>
      if decide (c ∈ ["<"; ">"; "&"]%char) then (escapeU c, 0%nat)
      else match lineSeparator c rest with
           | Some d => ("\u202" +:+ String d "", 2%nat)
           | None => (String c "", 0%nat)
           end
  end.

(** The loop of [appendCompact]: the scanner at the end, and the text. *)
Fixpoint compactFrom (skip : nat) (src : string) (s : scanner) : scanner * string :=
  match src with
  | EmptyString => (s, "")
  | String c src' =>
      let (s', o) := stepByte c s in
      match o with
      | ScanError => (s', "")
      | _ =>
          let (text, skip) := compactByte skip c src' o in
          let (t, out) := compactFrom skip src' s' in (t, text +:+ out)
      end
  end.

Definition compact (src : string) : result string :=
  let (s, out) := compactFrom 0 src newScanner in
  if eof s then Ok out else Err errSyntax.

(** ** Values *)

(** [strconv.AppendInt]; a number has at most as many decimal as binary
    digits. *)
Definition formatNat (n : Z) : string := digits (S (Z.to_nat (Z.log2 n))) 10 n.
Definition formatInt (n : Z) : string :=
  if decide (n < 0) then String "-"%char (formatNat (- n)) else formatNat n.

Fixpoint insertMember (m : string * string) (ms : list (string * string))
    : list (string * string) :=
  match ms with
  | [] => [m]
  | m' :: rest => if String.leb m.1 m'.1 then m :: ms else m' :: insertMember m rest
  end.

Definition sortMembers (ms : list (string * string)) : list (string * string) :=
  foldr insertMember [] ms.

Definition writeMember (m : string * string) : string :=
  appendString m.1 +:+ String ":"%char m.2.

Definition writeArray (parts : list string) : string :=
  String "["%char (Join ","%char parts +:+ "]").
Definition writeObject (ms : list (string * string)) : string :=
  String "{"%char (Join ","%char (map writeMember ms) +:+ "}").

(** [json.Marshal] *)
Fixpoint Marshal (v : json) : result string :=
  let members := fix members (ms : list (string * json)) : result (list (string * string)) :=
    match ms with
    | [] => Ok []
    | (k, v) :: rest =>
        let! text := Marshal v in let! texts := members rest in Ok ((k, text) :: texts)
    end in
  match v with
  | JNull => Ok "null"
  | JBool b => Ok (if b then "true" else "false")
  | JNumber n => Ok (formatInt n)
  | JString s => Ok (appendString s)
  | JArray vs =>
      let! parts :=
        (fix elements (vs : list json) : result (list string) :=
           match vs with
           | [] => Ok []
           | v :: rest =>
               let! text := Marshal v in let! texts := elements rest in Ok (text :: texts)
           end) vs in
      Ok (writeArray parts)
  | JObject ms => let! texts := members ms in Ok (writeObject (sortMembers texts))
  | JStruct fields => let! texts := members fields in Ok (writeObject texts)
  | JRaw text => compact text
  end.

(** ** Indentation *)

Fixpoint blanks (n : nat) : string :=
  match n with O => "" | S n => String " "%char (String " "%char (blanks n)) end.

(** [appendNewline] with no prefix and two blanks a level *)
Definition appendNewline (depth : nat) : string := String newline (blanks depth).

(** What [appendIndent] writes for a byte, and its variables after it. *)
Definition indentByte (needIndent : bool) (depth : nat) (c : ascii) (v : op)
    : string * bool * nat :=
  match v with
  | ScanSkipSpace | ScanError => ("", needIndent, depth)
  | _ =>
      let closes := match v with ScanEndObject | ScanEndArray => true | _ => false end in
      let opened := needIndent && negb closes in
      let depth := if opened then S depth else depth in
      let before := if opened then appendNewline depth else "" in
      let needIndent := if opened then false else needIndent in
      match v with
      | ScanContinue => (before +:+ String c "", needIndent, depth)
      | _ =>
          if decide (c = "{"%char \/ c = "["%char) then (before +:+ String c "", true, depth)
          else if decide (c = ","%char) then
            (before +:+ String c (appendNewline depth), needIndent, depth)
          else if decide (c = ":"%char) then (before +:+ String c " ", needIndent, depth)
          else if decide (c = "}"%char \/ c = "]"%char) then
            if needIndent then (before +:+ String c "", false, depth)
            else (before +:+ appendNewline (pred depth) +:+ String c "", false, pred depth)
          else (before +:+ String c "", needIndent, depth)
      end
  end.

(** The loop of [appendIndent]. *)
Fixpoint indentFrom (needIndent : bool) (depth : nat) (src : string) (s : scanner)
    : scanner * string :=
  match src with
  | EmptyString => (s, "")
  | String c src' =>
      let (s', v) := stepByte c s in
      match v with
      | ScanError => (s', "")
      | _ =>
          let '(text, needIndent, depth) := indentByte needIndent depth c v in
          let (t, out) := indentFrom needIndent depth src' s' in (t, text +:+ out)
      end
  end.

Definition indent (src : string) : result string :=
  let (s, out) := indentFrom false 0 src newScanner in
  if eof s then Ok out else Err errSyntax.

(** [json.MarshalIndent] with the prefix [""] and two blanks *)
Definition MarshalIndent (v : json) : result string := let! b := Marshal v in indent b.

End Json.
