(* ===== verification/JsonText.v ===== *)
(** * What JSON texts say

    The texts that [Json.Marshal] and [Json.MarshalIndent] write are accepted
    by the scanner of [encoding/json], and a reader finds in them what was
    written.  What a reader finds is a list of symbols: punctuation, the
    letters of numbers and literals, and the bytes of strings with their
    escapes resolved; spaces between them do not count. *)

From stdpp Require Import base list sets strings option.
From Stdlib Require Import ZArith Lia Strings.Ascii.
From S2P Require Import Prelude GoStrings Json.

#[local] Open Scope Z_scope.

Module JsonText.
Import Json.

(** ** Symbols *)

(** A byte outside of strings, and a byte of a string. *)
Inductive symbol := Sym (c : ascii) | Chr (c : ascii).

Definition skips (o : op) : bool :=
  match o with ScanSkipSpace | ScanEnd | ScanError => true | _ => false end.

Definition byteOf (n : Z) : ascii := ascii_of_nat (Z.to_nat n).

(** The bytes of the rune of a [\u] escape. *)
Definition utf8 (r : Z) : list ascii :=
  if decide (r < 128) then [byteOf r]
  else if decide (r < 2048) then [byteOf (192 + r / 64); byteOf (128 + r mod 64)]
  else [byteOf (224 + r / 4096); byteOf (128 + r / 64 mod 64); byteOf (128 + r mod 64)].

Definition unescape (c : ascii) : ascii :=
  if decide (c = "b"%char) then "008"%char
  else if decide (c = "f"%char) then "012"%char
  else if decide (c = "n"%char) then newline
  else if decide (c = "r"%char) then return_
  else if decide (c = "t"%char) then "009"%char
  else c.

Definition hexValue (c : ascii) : Z :=
  if isDigit c then code c - 48 else if decide (97 <= code c) then code c - 87 else code c - 55.

(** The symbols a byte completes; [acc] is the value of the hexadecimal digits
    of the escape that the scanner is in. *)
Definition emit (c : ascii) (m : mode) (o : op) (acc : Z) : Z * list symbol :=
  if skips o then (0, [])
  else match m with
  | InString =>
      (0, if decide (c = quote) then [Sym c] else if decide (c = backslash) then [] else [Chr c])
  | InStringEsc => (0, if decide (c = "u"%char) then [] else [Chr (unescape c)])
  | EscU n =>
      let r := acc * 16 + hexValue c in
      if decide (n <= 1)%nat then (0, map Chr (utf8 r)) else (r, [])
  | _ => (0, [Sym c])
  end.

Fixpoint lex (text : string) (s : scanner) (acc : Z) : Z * list symbol :=
  match text with
  | EmptyString => (acc, [])
  | String c text' =>
      let (s', o) := stepByte c s in
      let (acc, out) := emit c (step s) o acc in
      let (acc, rest) := lex text' s' acc in (acc, out ++ rest)
  end.

Definition symbols (text : string) : list symbol := (lex text newScanner 0).2.

(** ** The symbols of a value *)

(** [strings.ToValidUTF8] byte by byte: what is not UTF-8 becomes U+FFFD. *)
Fixpoint sanitize (skip : nat) (s : string) : list ascii :=
  match s with
  | EmptyString => []
  | String b s' =>
      match skip with
      | S k => b :: sanitize k s'
      | O =>
          if decide (code b < 128) then b :: sanitize 0 s'
          else match runeTail b s' with
               | None => utf8 65533 ++ sanitize 0 s'
               | Some n => b :: sanitize n s'
               end
      end
  end.

Definition syms (text : string) : list symbol := map Sym (String.list_ascii_of_string text).

Definition stringSymbols (s : string) : list symbol :=
  Sym quote :: map Chr (sanitize 0 s) ++ [Sym quote].

(** Lists of symbols between commas. *)
Fixpoint separate (parts : list (list symbol)) : list symbol :=
  match parts with
  | [] => []
  | [part] => part
  | part :: parts => part ++ Sym ","%char :: separate parts
  end.

Definition memberSymbols (m : string * list symbol) : list symbol :=
  stringSymbols m.1 ++ Sym ":"%char :: m.2.

Definition arraySymbols (parts : list (list symbol)) : list symbol :=
  Sym "["%char :: separate parts ++ [Sym "]"%char].
Definition objectSymbols (ms : list (string * list symbol)) : list symbol :=
  Sym "{"%char :: separate (map memberSymbols ms) ++ [Sym "}"%char].

Fixpoint insertKey {A} (m : string * A) (ms : list (string * A)) : list (string * A) :=
  match ms with
  | [] => [m]
  | m' :: rest => if String.leb m.1 m'.1 then m :: ms else m' :: insertKey m rest
  end.

Definition sortKeys {A} (ms : list (string * A)) : list (string * A) := foldr insertKey [] ms.

(** What a value says: a map in the order of its keys, a struct in the order of
    its fields, and the text of a [json.Marshaler] what that text says. *)
Fixpoint content (v : json) : list symbol :=
  match v with
  | JNull => syms "null"
  | JBool b => syms (if b then "true" else "false")
  | JNumber n => syms (formatInt n)
  | JString s => stringSymbols s
  | JArray vs => arraySymbols (map content vs)
  | JObject ms => objectSymbols (sortKeys (map (fun '(k, v) => (k, content v)) ms))
  | JStruct fs => objectSymbols (map (fun '(k, v) => (k, content v)) fs)
  | JRaw text => symbols text
  end.

(** ** Reading *)

(** From [s], the text leads to [s'] and says [out]. *)
Definition reads (s : scanner) (text : string) (s' : scanner) (out : list symbol) : Prop :=
  scan text s = s' /\ lex text s 0 = (0, out).

Lemma scan_app (a b : string) s : scan (a +:+ b) s = scan b (scan a s).
Proof. revert s. induction a as [|c a IH]; intros s; [done|]. rewrite append_cons. apply IH. Qed.

Lemma lex_app (a b : string) s acc acc1 acc2 out1 out2 :
  lex a s acc = (acc1, out1) -> lex b (scan a s) acc1 = (acc2, out2) ->
  lex (a +:+ b) s acc = (acc2, out1 ++ out2).
Proof.
  revert s acc out1. induction a as [|c a IH]; intros s acc out1 Ha Hb.
  { by injection Ha as <- <-. }
  rewrite append_cons. cbn [lex scan] in *. destruct (stepByte c s) as [s' o].
  destruct (emit c (step s) o acc) as [acc' out]. destruct (lex a s' acc') as [a1 rest] eqn:E.
  injection Ha as <- <-. by rewrite (IH s' acc' rest E Hb), app_assoc.
Qed.

Lemma reads_nil s : reads s "" s [].
Proof. done. Qed.

Lemma reads_app s a s1 out1 b s2 out2 :
  reads s a s1 out1 -> reads s1 b s2 out2 -> reads s (a +:+ b) s2 (out1 ++ out2).
Proof.
  intros [<- Ha] [<- Hb]. split; [apply scan_app|]. by apply (lex_app a b s 0 0 0 out1 out2).
Qed.

Lemma reads_cons s c s1 out1 b s2 out2 :
  reads s (String c "") s1 out1 -> reads s1 b s2 out2 -> reads s (String c b) s2 (out1 ++ out2).
Proof. apply (reads_app s (String c "")). Qed.

Lemma reads_step s c s' o out :
  stepByte c s = (s', o) -> emit c (step s) o 0 = (0, out) -> reads s (String c "") s' out.
Proof. intros E Ho. split; cbn [scan lex]; rewrite E; [done|]. by rewrite Ho, app_nil_r. Qed.

(** ** States between values *)

Definition at_ (m : mode) (st : list parseState) : scanner :=
  {| step := m; stack := st; endTop := false; failed := false |}.

Definition topEnded : scanner := {| step := EndTop; stack := []; endTop := true; failed := false |}.

(** The states after a complete value, where a number may still go on. *)
Definition final (m : mode) : bool :=
  match m with EndValue | Int1 | Int0 | Dot0 | Exp0 => true | _ => false end.

Definition ended (st : list parseState) (s : scanner) : Prop :=
  (exists m, final m = true /\ s = at_ m st) \/ (st = [] /\ s = topEnded).

(** The state after a closing bracket. *)
Definition popped (st : list parseState) : scanner :=
  match st with [] => topEnded | _ => at_ EndValue st end.

Lemma popped_ended st : ended st (popped st).
Proof. destruct st; [by right|left; by exists EndValue]. Qed.

Lemma ended_eof s : ended [] s -> eof s = true.
Proof. intros [(m & Hm & ->)|[_ ->]]; [by destruct m|done]. Qed.

Definition punctuation : list ascii := ["{"; "["; ","; ":"; "}"; "]"]%char.

(** Punctuation after a value. *)
Lemma ended_punct ps st s c :
  ended (ps :: st) s -> c ∈ [":"; ","; "}"; "]"; " "; newline]%char ->
  stepByte c s = stepByte c (at_ EndValue (ps :: st)).
Proof.
  intros [(m & Hm & ->)|[? _]] Hc; [|done].
  repeat (apply elem_of_cons in Hc as [->|Hc]; [by destruct m|]). by apply elem_of_nil in Hc.
Qed.

Lemma emit_ended c st s o acc : ended st s -> emit c (step s) o acc = emit c EndValue o acc.
Proof. intros [(m & Hm & ->)|[_ ->]]; [by destruct m|done]. Qed.

Lemma reads_punct ps st s c s' o :
  ended (ps :: st) s -> c ∈ [":"; ","; "}"; "]"]%char ->
  stepByte c (at_ EndValue (ps :: st)) = (s', o) -> skips o = false ->
  reads s (String c "") s' [Sym c].
Proof.
  intros Hs Hc E Ho. apply (reads_step s c s' o).
  - rewrite <- E. apply ended_punct; [done|set_solver].
  - rewrite (emit_ended c _ s o 0 Hs). unfold emit. by rewrite Ho.
Qed.

(** ** Strings *)

Definition high (c : ascii) : bool := bool_decide (128 <= code c).

Fixpoint highs (n : nat) (s : string) : bool :=
  match n, s with
  | O, _ => true
  | S n, String c s' => high c && highs n s'
  | S _, EmptyString => false
  end.

(** Decides a property of all bytes. *)
Ltac each_byte c := destruct c as [[] [] [] [] [] [] [] []]; vm_compute; try done.

Lemma continuation_high c : continuation c = true -> high c = true.
Proof. unfold continuation, between, high. rewrite !bool_decide_eq_true. lia. Qed.

Lemma continuations_highs n s : continuations n s = true -> highs n s = true.
Proof.
  revert s. induction n as [|n IH]; intros s; [done|]. destruct s as [|c s]; [done|]. simpl.
  intros [Hc Hs]%andb_true_iff. by rewrite (continuation_high c Hc), (IH s Hs).
Qed.

Lemma secondByte_high b c : secondByte b c = true -> high c = true.
Proof.
  unfold secondByte, continuation, between, high.
  repeat case_match; rewrite ?andb_true_iff, ?bool_decide_eq_true; lia.
Qed.

Lemma runeTail_highs b s n : runeTail b s = Some n -> highs n s = true /\ n = S (moreBytes b).
Proof.
  unfold runeTail. destruct s as [|c s]; [done|].
  destruct (secondByte b c) eqn:Hb; [|done]. destruct (continuations _ s) eqn:Hc; [|done].
  simpl. intros [= <-]. simpl. rewrite (secondByte_high b c Hb).
  by rewrite (continuations_highs _ _ Hc).
Qed.

Lemma step_high c s : high c = true -> step s = InString -> stepByte c s = (s, ScanContinue).
Proof. destruct s as [m st e f]. simpl. intros H ->. revert H. each_byte c. Qed.

Lemma emit_high c acc : high c = true -> emit c InString ScanContinue acc = (0, [Chr c]).
Proof. each_byte c. Qed.

Lemma reads_high c st :
  high c = true -> reads (at_ InString st) (String c "") (at_ InString st) [Chr c].
Proof. intros H. apply (reads_step _ c _ ScanContinue); [by apply step_high|by apply emit_high]. Qed.

Lemma reads_escapeByte c st :
  high c = false -> reads (at_ InString st) (escapeByte c) (at_ InString st) [Chr c].
Proof. each_byte c. Qed.

Lemma reads_escapeU c st :
  high c = false -> reads (at_ InString st) (escapeU c) (at_ InString st) [Chr c].
Proof. each_byte c. Qed.

(** The first bytes of a string. *)
Definition bytes (n : nat) (s : string) : list symbol :=
  map Chr (take n (String.list_ascii_of_string s)).

Lemma lineSeparator_spec b s d :
  lineSeparator b s = Some d ->
  exists b2 s', b = "226"%char /\ s = String "128"%char (String b2 s') /\
    (b2 = "168"%char /\ d = "8"%char \/ b2 = "169"%char /\ d = "9"%char).
Proof.
  unfold lineSeparator. destruct s as [|b1 [|b2 s]]; try done.
  destruct (between 226 226 b) eqn:E0; [|done]. destruct (between 128 128 b1) eqn:E1; [|done].
  destruct (between 168 169 b2) eqn:E2; [|done]. intros [= <-]. exists b2, s.
  split; [revert E0; each_byte b|]. split; [f_equal; revert E1; each_byte b1|].
  revert E2. each_byte b2; auto.
Qed.

Lemma reads_separator b s d st :
  lineSeparator b s = Some d ->
  reads (at_ InString st) ("\u202" +:+ String d "") (at_ InString st) (Chr b :: bytes 2 s).
Proof. by intros (b2 & s' & -> & -> & [[-> ->]|[-> ->]])%lineSeparator_spec. Qed.

Lemma lineSeparator_high b s d : lineSeparator b s = Some d -> high b = true /\ highs 2 s = true.
Proof. by intros (b2 & s' & -> & -> & [[-> ->]|[-> ->]])%lineSeparator_spec. Qed.

Lemma reads_escapeFrom copy skip s st :
  highs skip s = true ->
  reads (at_ InString st) (escapeFrom copy skip s) (at_ InString st)
    (map Chr (if copy then sanitize skip s else drop skip (sanitize skip s))).
Proof.
  revert copy skip. induction s as [|b s IH]; intros copy skip Hh; [by destruct copy, skip|].
  cbn [escapeFrom sanitize]. destruct skip as [|k].
  - replace (map Chr _) with (map Chr (sanitize 0 (String b s))) by (by destruct copy).
    cbn [sanitize]. destruct (decide (code b < 128)) as [Hb|Hb].
    { eapply (reads_app _ _ _ [Chr b]); [apply reads_escapeByte|by apply (IH true 0%nat)].
      unfold high. rewrite bool_decide_eq_false. lia. }
    assert (Hhb : high b = true) by (unfold high; rewrite bool_decide_eq_true; lia).
    destruct (runeTail b s) as [n|] eqn:Hr.
    2:{ rewrite map_app. eapply reads_app; [|by apply (IH true 0%nat)]. done. }
    destruct (runeTail_highs b s n Hr) as [Hn En]. destruct (lineSeparator b s) as [d|] eqn:Hl.
    + change (String d (escapeFrom false n s)) with (String d "" +:+ escapeFrom false n s).
      rewrite <- append_assoc. pose proof (reads_separator b s d st Hl) as Hsep.
      destruct (lineSeparator_spec b s d Hl) as (b2 & s' & -> & -> & _).
      subst n. exact (reads_app _ _ _ _ _ _ _ Hsep (IH false 2%nat Hn)).
    + apply (reads_cons _ b (at_ InString st) [Chr b]); [by apply reads_high|by apply (IH true n)].
  - cbn [highs] in Hh. apply andb_true_iff in Hh as [Hb Hk].
    destruct copy; [|by apply (IH false k)].
    apply (reads_cons _ b (at_ InString st) [Chr b]); [by apply reads_high|by apply (IH true k)].
Qed.

(** A string literal after the quote that opens it. *)
Lemma reads_string s st :
  reads (at_ InString st) (escapeFrom true 0 s +:+ String quote "") (at_ EndValue st)
    (map Chr (sanitize 0 s) ++ [Sym quote]).
Proof. eapply reads_app; [by apply (reads_escapeFrom true 0)|done]. Qed.

(** ** Numbers *)

Lemma digit_code n : 0 <= n < 10 -> code (digit n) = 48 + n.
Proof.
  intros H. unfold code, digit. rewrite decide_True by lia.
  rewrite nat_ascii_embedding by lia. lia.
Qed.

Lemma digit_isDigit n : 0 <= n < 10 -> isDigit (digit n) = true.
Proof. intros H. unfold isDigit. rewrite bool_decide_eq_true, digit_code; lia. Qed.

Lemma reads_digit c st :
  isDigit c = true -> reads (at_ Int1 st) (String c "") (at_ Int1 st) [Sym c].
Proof.
  intros H. apply (reads_step _ c _ ScanContinue); [|done]. unfold stepByte. cbn [step at_].
  by rewrite H.
Qed.

Lemma syms_app a b : syms (a +:+ b) = syms a ++ syms b.
Proof.
  unfold syms. induction a as [|c a IH]; [done|]. rewrite append_cons. simpl. by rewrite IH.
Qed.

(** The first digit of a positive number is not zero. *)
Lemma reads_digits fuel n m st :
  (m = BeginValue \/ m = Neg) -> 0 < n -> n < 2 ^ Z.of_nat fuel ->
  reads (at_ m st) (digits fuel 10 n) (at_ Int1 st) (syms (digits fuel 10 n)).
Proof.
  intros Hm. revert n. induction fuel as [|fuel IH]; intros n Hn Hf; [simpl in Hf; lia|].
  cbn [digits]. destruct (decide (n < 10)) as [Hd|Hd].
  - pose proof (digit_code n ltac:(lia)) as Hc. revert Hc.
    generalize (digit n). intros c Hc.
    assert (Hr : bool_decide (49 <= code c <= 57) = true) by (rewrite bool_decide_eq_true; lia).
    clear Hc. revert Hr. destruct Hm as [-> | ->]; each_byte c.
  - rewrite syms_app. eapply reads_app; [apply IH|].
    + apply Z.div_str_pos. lia.
    + rewrite Nat2Z.inj_succ, Z.pow_succ_r in Hf by lia.
      apply Z.div_lt_upper_bound; lia.
    + apply reads_digit, digit_isDigit, Z.mod_pos_bound. lia.
Qed.

(** A value inside [st]: from where one is expected to its end. *)
Definition value_text (m : mode) (st : list parseState) (t : string) (out : list symbol) : Prop :=
  exists s, ended st s /\ reads (at_ m st) t s out.

Lemma formatNat_value n m st :
  (m = BeginValue \/ m = Neg) -> 0 <= n -> value_text m st (formatNat n) (syms (formatNat n)).
Proof.
  intros Hm Hn. destruct (decide (n = 0)) as [->|Hz].
  - exists (at_ Int0 st). split; [left; by exists Int0|]. by destruct Hm as [-> | ->].
  - exists (at_ Int1 st). split; [left; by exists Int1|]. unfold formatNat.
    apply reads_digits; [done|lia|].
    rewrite Nat2Z.inj_succ, Z2Nat.id by apply Z.log2_nonneg. apply Z.log2_spec. lia.
Qed.

Lemma formatInt_value n st : value_text BeginValue st (formatInt n) (syms (formatInt n)).
Proof.
  unfold formatInt. case_decide; [|apply formatNat_value; [by left|lia]].
  destruct (formatNat_value (- n) Neg st) as (s & Hs & Hr); [by right|lia|].
  exists s. split; [done|]. by apply (reads_cons _ "-"%char (at_ Neg st) [Sym "-"%char]).
Qed.

(** ** Arrays and objects *)

Lemma scan_StateError text s : step s = StateError -> scan text s = s.
Proof.
  revert s. induction text as [|c text IH]; intros s E; [done|]. cbn [scan].
  unfold stepByte. rewrite E. by apply IH.
Qed.

(** The first value of an array is read like the others. *)
Lemma value_text_first st t out :
  value_text BeginValue (ArrayValue :: st) t out ->
  value_text BeginValueOrEmpty (ArrayValue :: st) t out.
Proof.
  intros (s & Hs & Hr). exists s. split; [done|]. revert Hr. induction t as [|c t IH].
  { intros [<- _]. by destruct Hs as [(m & Hm & [= <-])|[? _]]. }
  destruct (decide (c = "]"%char)) as [->|Hc].
  - intros [Hr _]. change (scan (String "]"%char t) (at_ BeginValue (ArrayValue :: st))) with
      (scan t {| step := StateError; stack := ArrayValue :: st; endTop := false; failed := true |}) in Hr.
    rewrite scan_StateError in Hr by done. subst s. by destruct Hs as [(m & _ & ?)|[? _]].
  - unfold reads in *. cbn [scan lex stepByte step at_]. rewrite (decide_False _ _ Hc).
    unfold stateBeginValue. destruct (isSpace c); [|done]. cbn [fst emit skips] in *.
    by destruct (lex t (at_ BeginValue (ArrayValue :: st)) 0),
      (lex t (at_ BeginValueOrEmpty (ArrayValue :: st)) 0).
Qed.

Lemma value_text_app m st t out s' t' out' :
  value_text m st t out -> (forall s, ended st s -> reads s t' s' out') ->
  reads (at_ m st) (t +:+ t') s' (out ++ out').
Proof. intros (s & Hs & Hr) H. by apply (reads_app _ t s), H. Qed.

Lemma push_parseState ps o m st :
  Z.of_nat (S (length st)) <= maxNestingDepth ->
  pushParseState ps o (at_ m st) = (at_ m (ps :: st), o).
Proof. intros Hd. unfold pushParseState. by rewrite decide_True. Qed.

Lemma elements_value st parts outs :
  Forall2 (value_text BeginValue (ArrayValue :: st)) parts outs -> parts <> [] ->
  value_text BeginValue (ArrayValue :: st) (Join ","%char parts) (separate outs).
Proof.
  intros Hp. induction Hp as [|t out parts outs Ht Hps IH]; [done|]. intros _.
  destruct Hps as [|t' out' parts outs Ht' Hps]; [exact Ht|]. rewrite Join_cons by done.
  destruct (IH ltac:(done)) as (s & Hs & Hr). exists s. split; [done|].
  destruct Ht as (s1 & Hs1 & Hr1). apply (reads_app _ t s1); [done|].
  apply (reads_cons _ _ (at_ BeginValue (ArrayValue :: st)) [Sym ","%char]); [|done].
  by apply (reads_punct ArrayValue st s1 _ _ ScanArrayValue); [|set_solver| |].
Qed.

Lemma writeArray_value st parts outs :
  Z.of_nat (S (length st)) <= maxNestingDepth ->
  Forall2 (value_text BeginValue (ArrayValue :: st)) parts outs ->
  value_text BeginValue st (writeArray parts) (arraySymbols outs).
Proof.
  intros Hd Hp. exists (popped st). split; [apply popped_ended|].
  apply (reads_cons _ _ (at_ BeginValueOrEmpty (ArrayValue :: st)) [Sym "["%char]).
  { apply (reads_step _ _ _ ScanBeginArray); [|done]. by apply push_parseState. }
  destruct Hp as [|t out parts outs Ht Hps]; [by destruct st|].
  apply (value_text_app _ (ArrayValue :: st)).
  - apply value_text_first, elements_value; [by constructor|done].
  - intros s Hs. apply (reads_punct ArrayValue st s _ _ ScanEndArray Hs); [set_solver| |done].
    by destruct st.
Qed.

(** A member, from the key to the end of the value. *)
Lemma member_value st k t out :
  value_text BeginValue (ObjectValue :: st) t out ->
  exists s, ended (ObjectValue :: st) s /\
    reads (at_ BeginString (ObjectKey :: st)) (writeMember (k, t)) s (memberSymbols (k, out)).
Proof.
  intros (s & Hs & Hr). exists s. split; [done|]. unfold writeMember, memberSymbols. cbn [fst snd].
  apply (reads_app _ _ (at_ EndValue (ObjectKey :: st))).
  - apply (reads_cons _ _ (at_ InString (ObjectKey :: st)) [Sym quote]); [done|apply reads_string].
  - by apply (reads_cons _ _ (at_ BeginValue (ObjectValue :: st)) [Sym ":"%char]).
Qed.

Lemma members_value st ms outs :
  Forall2 (fun m out => m.1 = out.1 /\ value_text BeginValue (ObjectValue :: st) m.2 out.2) ms outs ->
  ms <> [] ->
  exists s, ended (ObjectValue :: st) s /\
    reads (at_ BeginString (ObjectKey :: st)) (Join ","%char (map writeMember ms)) s
      (separate (map memberSymbols outs)).
Proof.
  intros Hp. induction Hp as [|[k t] [k' out] ms outs [Hk Ht] Hps IH]; [done|]. intros _.
  cbn [fst snd] in *. subst k'. destruct (member_value st k t out Ht) as (s1 & Hs1 & Hr1).
  destruct Hps as [|m' out' ms outs Hm' Hps]; [by exists s1|].
  destruct (IH ltac:(done)) as (s & Hs & Hr). exists s. split; [done|].
  cbn [map]. rewrite Join_cons by done. apply (reads_app _ _ s1); [done|].
  apply (reads_cons _ _ (at_ BeginString (ObjectKey :: st)) [Sym ","%char]); [|done].
  by apply (reads_punct ObjectValue st s1 _ _ ScanObjectValue); [|set_solver| |].
Qed.

Lemma writeObject_value st ms outs :
  Z.of_nat (S (length st)) <= maxNestingDepth ->
  Forall2 (fun m out => m.1 = out.1 /\ value_text BeginValue (ObjectValue :: st) m.2 out.2) ms outs ->
  value_text BeginValue st (writeObject ms) (objectSymbols outs).
Proof.
  intros Hd Hp. exists (popped st). split; [apply popped_ended|].
  apply (reads_cons _ _ (at_ BeginStringOrEmpty (ObjectKey :: st)) [Sym "{"%char]).
  { apply (reads_step _ _ _ ScanBeginObject); [|done]. by apply push_parseState. }
  destruct (decide (ms = [])) as [->|Hne].
  { inversion Hp. by destruct st. }
  destruct (members_value st ms outs Hp Hne) as (s & Hs & Hr).
  apply (reads_app _ _ s).
  - destruct ms as [|[k t] [|m ms]]; [done| |]; exact Hr.
  - apply (reads_punct ObjectValue st s _ _ ScanEndObject Hs); [set_solver| |done].
    by destruct st.
Qed.

Lemma insertMember_Forall2 {A} (P : string * string -> string * A -> Prop) m out ms outs :
  (forall m out, P m out -> m.1 = out.1) ->
  P m out -> Forall2 P ms outs -> Forall2 P (insertMember m ms) (insertKey out outs).
Proof.
  intros HP Hm Hms. induction Hms as [|m' out' ms outs Hm' Hms IH]; simpl; [by repeat constructor|].
  rewrite (HP m out Hm), (HP m' out' Hm').
  destruct (String.leb _ _); repeat constructor; done.
Qed.

Lemma sortMembers_Forall2 {A} (P : string * string -> string * A -> Prop) ms outs :
  (forall m out, P m out -> m.1 = out.1) ->
  Forall2 P ms outs -> Forall2 P (sortMembers ms) (sortKeys outs).
Proof. intros HP H. induction H; simpl; [done|]. by apply insertMember_Forall2. Qed.

(** ** Two scanners on one text *)

(** How deep the brackets of a text are nested. *)
Fixpoint nesting (text : string) (s : scanner) : nat :=
  match text with
  | EmptyString => length (stack s)
  | String c text' => Nat.max (length (stack s)) (nesting text' (stepByte c s).1)
  end.

(** [d] reads inside [st] what [s] has read alone, spaces left out. *)
Inductive follows (st : list parseState) : scanner -> scanner -> Prop :=
| f_same m ps :
    m <> EndTop -> m <> StateError -> (m = BeginStringOrEmpty -> ps <> []) ->
    follows st (at_ m ps) (at_ m (ps ++ st))
| f_space m ps : final m = true -> follows st (at_ EndValue ps) (at_ m (ps ++ st))
| f_top d : ended st d -> follows st topEnded d.

(** One byte: a space is left out, any other byte is read by both. *)
Definition follows_to (st : list parseState) (r : scanner * op) (d : scanner) (r' : scanner * op)
    : Prop :=
  if skips r.2 then follows st r.1 d else follows st r.1 r'.1 /\ r'.2 = r.2.

Ltac same := unfold follows_to; cbn [skips fst snd]; try (split; [|done]); by apply f_same.

Lemma follows_popped st p ps m m' :
  follows st (popParseState (at_ m (p :: ps))) (popParseState (at_ m' (p :: ps ++ st))).
Proof.
  destruct ps as [|p' ps]; [|by apply (f_same st EndValue (p' :: ps))].
  apply f_top. cbn. by destruct st; apply popped_ended.
Qed.

(** After a value, where the inner scanner may be in the middle of a number. *)
Lemma follows_EndValue st c m ps :
  final m = true -> failed (stateEndValue c (at_ m ps)).1 = false ->
  follows_to st (stateEndValue c (at_ m ps)) (at_ m (ps ++ st)) (stateEndValue c (at_ m (ps ++ st))).
Proof.
  intros Hm Hf. destruct ps as [|p ps].
  - cbn [stateEndValue stack at_] in *. unfold stateEndTop in *. destruct (isSpace c); [|done].
    cbn. apply f_top. left. by exists m.
  - cbn [stateEndValue stack at_ app] in *. destruct (isSpace c); [by apply f_space|].
    destruct p; repeat case_decide; try done; (split; [|done]); cbn [fst].
    + by apply (f_same st BeginValue (ObjectValue :: ps)).
    + by apply (f_same st BeginString (ObjectKey :: ps)).
    + apply follows_popped.
    + by apply (f_same st BeginValue (ArrayValue :: ps)).
    + apply follows_popped.
Qed.

Lemma push_length p o s : length (stack (pushParseState p o s).1) = S (length (stack s)).
Proof. unfold pushParseState. by case_decide. Qed.

Lemma follows_push st p o m m' ps d :
  m' <> EndTop -> m' <> StateError -> skips o = false ->
  Z.of_nat (length st + length (stack (pushParseState p o (at_ m' ps)).1)) <= maxNestingDepth ->
  follows_to st (pushParseState p o (goto m' (at_ m ps))) d
    (pushParseState p o (goto m' (at_ m (ps ++ st)))).
Proof.
  rewrite push_length. cbn [stack at_]. intros Hm' He Ho Hd.
  change (goto m' (at_ m ?l)) with (at_ m' l).
  rewrite !push_parseState by (rewrite ?length_app; lia). unfold follows_to. cbn [fst snd].
  rewrite Ho. split; [|done]. by apply (f_same st m' (p :: ps)).
Qed.

Lemma follows_BeginValue st c m ps :
  m = BeginValue \/ m = BeginValueOrEmpty ->
  failed (stateBeginValue c (at_ m ps)).1 = false ->
  Z.of_nat (length st + length (stack (stateBeginValue c (at_ m ps)).1)) <= maxNestingDepth ->
  follows_to st (stateBeginValue c (at_ m ps)) (at_ m (ps ++ st))
    (stateBeginValue c (at_ m (ps ++ st))).
Proof.
  intros Hm Hf Hd. unfold stateBeginValue in *.
  destruct (isSpace c); [by cbn; apply f_same; destruct Hm as [-> | ->]|].
  case_decide; [by apply follows_push|]. case_decide; [by apply follows_push|].
  repeat (case_decide; [same|]). destruct (isDigit c); [same|done].
Qed.

(** The modes that hold before a value ends. *)
Lemma follows_same st c m ps :
  m <> EndTop -> m <> StateError -> (m = BeginStringOrEmpty -> ps <> []) ->
  failed (stepByte c (at_ m ps)).1 = false ->
  Z.of_nat (length st + length (stack (stepByte c (at_ m ps)).1)) <= maxNestingDepth ->
  follows_to st (stepByte c (at_ m ps)) (at_ m (ps ++ st)) (stepByte c (at_ m (ps ++ st))).
Proof.
  intros Hm Hm' Hps Hf Hd. destruct m; try done; cbn [stepByte step at_] in *.
  - destruct (isSpace c); [same|]. case_decide as Hc.
    + subst c. destruct ps as [|[] ps]; try done. split; [|done]. apply follows_popped.
    + apply (follows_BeginValue st c BeginValueOrEmpty); auto.
  - apply (follows_BeginValue st c BeginValue); auto.
  - destruct ps as [|p ps]; [by specialize (Hps eq_refl)|].
    destruct (isSpace c); [same|]. case_decide as Hc.
    + subst c. split; [|done].
      apply (follows_popped st ObjectValue ps BeginStringOrEmpty BeginStringOrEmpty).
    + unfold stateBeginString in *. destruct (isSpace c); [same|].
      case_decide; [split; [|done]; by apply (f_same st InString (p :: ps))|done].
  - unfold stateBeginString in *. destruct (isSpace c); [same|]. case_decide; [same|done].
  - by apply follows_EndValue.
  - repeat case_decide; try done; same.
  - repeat case_decide; try done; same.
  - destruct (isHex c); [|done]. case_decide; same.
  - repeat case_decide; try (destruct (isDigit c)); try done; same.
  - destruct (isDigit c); [same|]. unfold state0 in *.
    repeat case_decide; [same..|]. by apply follows_EndValue.
  - unfold state0 in *. repeat case_decide; [same..|]. by apply follows_EndValue.
  - destruct (isDigit c); try done; same.
  - destruct (isDigit c); [same|]. case_decide; [same|]. by apply follows_EndValue.
  - repeat case_decide; try (destruct (isDigit c)); try done; same.
  - destruct (isDigit c); try done; same.
  - destruct (isDigit c); [same|]. by apply follows_EndValue.
  - destruct (literalNext l) as [letter next] eqn:El. case_decide; [|done].
    destruct l; injection El as <- <-; same.
Qed.

Lemma follows_step st c s d :
  follows st s d -> failed (stepByte c s).1 = false ->
  Z.of_nat (length st + length (stack (stepByte c s).1)) <= maxNestingDepth ->
  follows_to st (stepByte c s) d (stepByte c d).
Proof.
  intros [m ps Hm Hm' Hps|m ps Hm|d' Hd'] Hf Hd; [by apply follows_same| |].
  - cbn [stepByte step at_] in *. pose proof (follows_EndValue st c EndValue ps eq_refl Hf) as Hs.
    unfold follows_to in *. destruct (stateEndValue c (at_ EndValue ps)) as [s' o] eqn:E.
    cbn [fst snd] in *. destruct ps as [|p ps]; cbn [stateEndValue stack at_] in E.
    + unfold stateEndTop in E. destruct (isSpace c); injection E as <- <-; [|done].
      apply f_top. left. by exists m.
    + destruct (isSpace c) eqn:Ec; [injection E as <- <-; by apply f_space|].
      destruct (skips o) eqn:Ho.
      { unfold scanError in E. by destruct p; repeat case_decide; injection E as <- <-. }
      replace (stepByte c (at_ m ((p :: ps) ++ st))) with
        (stateEndValue c (at_ EndValue ((p :: ps) ++ st))); [exact Hs|].
      symmetry. apply (ended_punct p (ps ++ st)); [left; by exists m|].
      unfold scanError in E. destruct p; repeat case_decide; try (by injection E as <- <-);
        set_solver.
  - cbn [stepByte step topEnded] in *. unfold stateEndTop, follows_to in *. cbn [skips fst snd] in *.
    destruct (isSpace c); [by apply f_top|done].
Qed.

(** Both say the same. *)
Lemma follows_emit st s d c o acc :
  follows st s d -> emit c (step d) o acc = emit c (step s) o acc.
Proof.
  intros [m ps|m ps Hm|d' Hd']; [done|by destruct m|]. by rewrite (emit_ended c st d' o acc Hd').
Qed.

Lemma stepByte_failed c s :
  failed s = false -> failed (stepByte c s).1 = true -> step (stepByte c s).1 = StateError.
Proof.
  intros Hs. assert (Hend : forall s', failed s' = false ->
    failed (stateEndValue c s').1 = true -> step (stateEndValue c s').1 = StateError).
  { intros s' Hs'. unfold stateEndValue, stateEndTop, popParseState. repeat case_match; simpl; congruence. }
  assert (Hbegin : failed (stateBeginValue c s).1 = true ->
    step (stateBeginValue c s).1 = StateError).
  { unfold stateBeginValue, pushParseState. repeat case_decide; simpl; try congruence;
      repeat case_match; simpl; congruence. }
  unfold stepByte, stateBeginString, state0.
  destruct (step s); repeat case_decide; simpl; try congruence; auto;
    repeat case_match; simpl; try congruence; auto.
Qed.

Lemma stepByte_error c s :
  step s <> StateError -> (stepByte c s).2 = ScanError -> failed (stepByte c s).1 = true.
Proof.
  intros Hs. assert (Hend : forall s', (stateEndValue c s').2 = ScanError ->
    failed (stateEndValue c s').1 = true).
  { intros s'. unfold stateEndValue, stateEndTop, popParseState. repeat case_match; simpl; congruence. }
  assert (Hbegin : (stateBeginValue c s).2 = ScanError -> failed (stateBeginValue c s).1 = true).
  { unfold stateBeginValue, pushParseState. repeat case_decide; simpl; try congruence;
      repeat case_match; simpl; congruence. }
  unfold stepByte, stateBeginString, state0.
  destruct (step s); repeat case_decide; simpl; try congruence; auto;
    repeat case_match; simpl; try congruence; auto.
Qed.

Lemma compactFrom_failed skip src s :
  step s = StateError -> failed s = true -> failed (compactFrom skip src s).1 = true.
Proof. intros Hs Hf. destruct src as [|c src]; [done|]. simpl. unfold stepByte. by rewrite Hs. Qed.

Lemma follows_not_failed st s d : follows st s d -> failed s = false /\ step s <> StateError.
Proof. by intros []. Qed.

(** The bytes that only a string can hold. *)
Definition stringByte (c : ascii) : bool := high c || bool_decide (c ∈ ["<"; ">"; "&"]%char).

Lemma stringByte_class c :
  stringByte c = true ->
  isSpace c = false /\ isDigit c = false /\ isHex c = false /\ bool_decide (c ∈ escapes) = false.
Proof. intros H. revert H. each_byte c. Qed.

Lemma step_inside c s s' o :
  stepByte c s = (s', o) -> stringByte c = true -> skips o = false ->
  step s = InString /\ s' = s.
Proof.
  intros E Hc Ho. destruct (stringByte_class c Hc) as (H1 & H2 & H3 & H4%bool_decide_eq_false).
  assert (Hend : forall s1, stateEndValue c s1 = (s', o) -> False).
  { intros s1. unfold stateEndValue, stateEndTop, scanError. rewrite H1.
    repeat case_match; subst; intros; simplify_eq. }
  unfold stepByte, stateBeginValue, stateBeginString, state0, stateEndTop, scanError in E.
  rewrite ?H1, ?H2, ?H3 in E.
  destruct (step s); try (rewrite decide_False in E by done);
    try (destruct l; cbn [literalNext] in E); repeat case_decide; destruct_or?; subst;
    try discriminate Hc; simplify_eq; try (exfalso; by eapply Hend); try done.
Qed.

Lemma follows_InString st s d : follows st s d -> step s = InString -> exists l, d = at_ InString l.
Proof. intros [m ps|m ps|d' _] E; simpl in E; simplify_eq. by eexists. Qed.

(** ** The texts of a [json.Marshaler] *)

Lemma lex_highs k : forall text s acc out,
  highs k text = true -> step s = InString -> lex text s 0 = (acc, out) ->
  bytes k text ++ drop k out = out.
Proof.
  induction k as [|k IH]; intros text s acc out Hh Hs E; [done|].
  destruct text as [|c text]; [done|]. cbn [highs] in Hh. apply andb_true_iff in Hh as [Hc Hh].
  cbn [lex] in E. rewrite (step_high c s Hc Hs), Hs, (emit_high c 0 Hc) in E.
  destruct (lex text s 0) as [acc' rest] eqn:Er. injection E as <- <-. cbn. f_equal.
  by apply (IH text s acc').
Qed.

(** One byte that both scanners read. *)
Lemma lex_byte st c s d s' o acc acc' out :
  follows st s d -> stepByte c s = (s', o) -> (stepByte c d).2 = o ->
  emit c (step s) o acc = (acc', out) -> lex (String c "") d acc = (acc', out).
Proof.
  intros Hd E Ho He. cbn [lex]. destruct (stepByte c d) as [d' o']. cbn [snd] in Ho. subst o'.
  by rewrite (follows_emit st s d c o acc Hd), He, app_nil_r.
Qed.

(** Digits are kept only inside of an escape. *)
Definition kept (acc : Z) (s : scanner) : Prop := acc = 0 \/ exists n, step s = EscU n.

Lemma emit_kept c s s' o acc acc' out :
  stepByte c s = (s', o) -> emit c (step s) o acc = (acc', out) -> kept acc' s'.
Proof.
  intros E He. unfold emit in He. destruct (skips o) eqn:Ho; [injection He as <- <-; by left|].
  destruct (step s) eqn:Hm; try (injection He as <- <-; by left).
  case_decide as Hn; injection He as <- <-; [by left|]. right. exists (pred n).
  unfold stepByte in E. rewrite Hm in E. destruct (isHex c).
  - rewrite decide_False in E by done. by injection E as <- <-.
  - unfold scanError in E. by injection E as <- <-.
Qed.

Lemma kept_skip c s s' o acc :
  stepByte c s = (s', o) -> kept acc s -> skips o = true -> o <> ScanError -> acc = 0.
Proof.
  intros E [->|[n Hm]] Ho He; [done|]. unfold stepByte, scanError in E. rewrite Hm in E.
  by destruct (isHex c); injection E as <- <-.
Qed.

(** A byte that is written as an escape. *)
Lemma compact_escape st c s d s' o text acc acc' out more :
  follows st s d -> stepByte c s = (s', o) -> kept acc s -> skips o = false ->
  stringByte c = true -> emit c (step s) o acc = (acc', out) ->
  (forall l, reads (at_ InString l) text (at_ InString l) (Chr c :: more)) ->
  follows st s' (scan text d) /\ lex text d acc = (acc', Chr c :: more) /\
  out = [Chr c] /\ step s' = InString /\ acc' = 0.
Proof.
  intros Hd E Hk Ho Hc He Hr. destruct (step_inside c s s' o E Hc Ho) as [Hs ->].
  destruct (follows_InString st s d Hd Hs) as [l ->]. destruct (Hr l) as [Hr1 Hr2].
  assert (acc = 0) as -> by (destruct Hk as [->|[n Hn]]; [done|congruence]).
  rewrite Hs in He. unfold emit in He. rewrite Ho in He.
  rewrite !decide_False in He by (intros ->; discriminate Hc). injection He as <- <-.
  by rewrite Hr1.
Qed.

(** One turn of the loop; [k] bytes of the rest have been said. *)
Lemma compactByte_follows st skip c rest s d s' o text k acc acc' out :
  follows st s d -> stepByte c s = (s', o) -> kept acc s -> failed s' = false -> o <> ScanError ->
  Z.of_nat (length st + length (stack s')) <= maxNestingDepth ->
  highs skip (String c rest) = true -> (skip <> 0%nat -> step s = InString) ->
  compactByte skip c rest o = (text, k) -> emit c (step s) o acc = (acc', out) ->
  follows st s' (scan text d) /\ highs k rest = true /\ (k <> 0%nat -> step s' = InString) /\
  exists said, lex text d acc = (acc', said) /\
    forall more accF, lex rest s' acc' = (accF, more) -> said ++ drop k more = drop skip (out ++ more).
Proof.
  intros Hd E Hk Hf Ho Hn Hh Hin Hc He.
  assert (Hstep : follows_to st (stepByte c s) d (stepByte c d)) by (apply follows_step; by rewrite ?E).
  unfold follows_to in Hstep. rewrite E in Hstep. cbn [fst snd] in Hstep.
  destruct skip as [|skip].
  - unfold compactByte in Hc. destruct (skips o) eqn:Hsk.
    { rewrite (kept_skip c s s' o acc) in * by done. unfold emit in He. rewrite Hsk in He.
      injection He as <- <-. assert (text = "" /\ k = 0%nat) as [-> ->] by (by destruct o; simplify_eq/=).
      split_and!; [done..|]. by exists []. }
    assert (Hc' : (if decide (c ∈ ["<"; ">"; "&"]%char) then (escapeU c, 0%nat)
      else match lineSeparator c rest with
           | Some d => ("\u202" +:+ String d "", 2%nat)
           | None => (String c "", 0%nat) end) = (text, k)) by (by destruct o).
    clear Hc. case_decide as Hesc; [|destruct (lineSeparator c rest) as [x|] eqn:Hl].
    + injection Hc' as <- <-.
      destruct (compact_escape st c s d s' o (escapeU c) acc acc' out []) as (H1 & H2 & -> & H3 & _);
        try done.
      { unfold stringByte. by rewrite (bool_decide_true _ Hesc), orb_true_r. }
      { intros l. apply reads_escapeU. set_unfold in Hesc. by destruct_or!; subst c. }
      split_and!; try done. by exists [Chr c].
    + injection Hc' as <- <-. destruct (lineSeparator_high c rest x Hl) as [Hh1 Hh2].
      destruct (compact_escape st c s d s' o ("\u202" +:+ String x "") acc acc' out (bytes 2 rest))
        as (H1 & H2 & -> & H3 & ->); try done.
      { unfold stringByte. by rewrite Hh1. }
      { intros l. by apply reads_separator. }
      split_and!; try done. exists (Chr c :: bytes 2 rest). split; [done|].
      intros more accF Hm. cbn. f_equal. by apply (lex_highs 2 rest s' accF).
    + injection Hc' as <- <-. destruct Hstep as [Hstep Hop]. split_and!; try done.
      exists out. split; [by apply (lex_byte st c s d s' o acc)|done].
  - cbn [highs] in Hh. apply andb_true_iff in Hh as [Hh1 Hh2]. specialize (Hin ltac:(done)).
    rewrite (step_high c s Hh1 Hin) in E. injection E as <- <-. cbn in Hc.
    rewrite Hin, (emit_high c acc Hh1) in He. injection He as <- <-. injection Hc as <- <-.
    destruct Hstep as [Hstep _]. split_and!; try done. exists []. split; [|done].
    destruct Hk as [->|[n Hm]]; [done|congruence].
Qed.

Lemma compactFrom_follows st src : forall skip s d t out acc accF said,
  compactFrom skip src s = (t, out) -> failed t = false -> follows st s d -> kept acc s ->
  highs skip src = true -> (skip <> 0%nat -> step s = InString) ->
  Z.of_nat (length st + nesting src s) <= maxNestingDepth -> lex src s acc = (accF, said) ->
  follows st t (scan out d) /\ lex out d acc = (accF, drop skip said) /\ kept accF t.
Proof.
  induction src as [|c src IH]; intros skip s d t out acc accF said E Hf Hd Hk Hh Hin Hn Hl.
  { injection E as <- <-. injection Hl as <- <-. by destruct skip. }
  cbn [compactFrom] in E. cbn [nesting] in Hn. cbn [lex] in Hl.
  destruct (follows_not_failed st s d Hd) as [Hs Hs']. pose proof (stepByte_error c s Hs') as Herr.
  pose proof (stepByte_failed c s Hs) as He. destruct (stepByte c s) as [s' o] eqn:Es.
  cbn [fst snd] in *. destruct (decide (o = ScanError)) as [->|Ho].
  { specialize (Herr eq_refl). simplify_eq. congruence. }
  destruct (compactByte skip c src o) as [text k] eqn:Ec.
  destruct (compactFrom k src s') as [t' out'] eqn:Er.
  assert (t' = t /\ out = text +:+ out') as [-> ->] by (by destruct o; simplify_eq).
  destruct (emit c (step s) o acc) as [acc' now] eqn:Ee.
  destruct (lex src s' acc') as [accF' more] eqn:El. injection Hl as <- <-.
  assert (Hf' : failed s' = false).
  { apply not_true_is_false. intros Hf'. pose proof (compactFrom_failed k src s' (He Hf') Hf') as Hx.
    rewrite Er in Hx. simpl in Hx. congruence. }
  destruct (compactByte_follows st skip c src s d s' o text k acc acc' now)
    as (Hd' & Hh' & Hin' & said & Hsaid & Hmore); try done.
  { destruct src; cbn [nesting] in Hn; lia. }
  destruct (IH k s' (scan text d) t out' acc' accF' more) as (H1 & H2 & H3); try done.
  { by apply (emit_kept c s s' o acc acc' now). }
  { lia. }
  rewrite scan_app. split_and!; try done. rewrite <- (Hmore more accF' El).
  by apply (lex_app text out' d acc acc').
Qed.

(** Where a scanner may stop, the one inside has read a value. *)
Lemma follows_eof st s d : follows st s d -> eof s = true -> ended st d.
Proof.
  intros [m ps Hm _ Hps|m ps Hm|d' Hd]; [| |done]; intros He.
  - assert (final m = true /\ ps = []) as [Hfm ->]; [|left; by exists m].
    by destruct m as [| | | | | | | | | | | | | | | | |[]|]; try done; destruct ps as [|[] ps].
  - destruct ps; [|done]. left. by exists m.
Qed.

Lemma kept_eof st s d acc : follows st s d -> kept acc s -> eof s = true -> acc = 0.
Proof.
  intros Hd [->|[n Hn]] He; [done|]. destruct Hd; cbn in Hn; by subst.
Qed.

(** A text that a [json.Marshaler] returned says the same wherever it is put. *)
Lemma compact_value st src out :
  compact src = Ok out -> Z.of_nat (length st + nesting src newScanner) <= maxNestingDepth ->
  value_text BeginValue st out (symbols src).
Proof.
  unfold compact, symbols. destruct (compactFrom 0 src newScanner) as [t out'] eqn:E.
  destruct (eof t) eqn:He; [|done]. intros [= ->] Hn.
  assert (Hf : failed t = false) by (unfold eof in He; by destruct (failed t)).
  destruct (lex src newScanner 0) as [accF said] eqn:El.
  destruct (compactFrom_follows st src 0 newScanner (at_ BeginValue st) t out 0 accF said)
    as (Hd & Hl & Hk); try done.
  { by apply (f_same st BeginValue []). }
  { by left. }
  exists (scan out (at_ BeginValue st)). split; [by apply (follows_eof st t)|]. split; [done|].
  by rewrite (kept_eof st t _ accF Hd Hk He) in Hl.
Qed.

(** ** Values *)

(** Induction on values, with the hypothesis for all elements and members. *)
Lemma json_elim (P : json -> Prop) :
  P JNull -> (forall b, P (JBool b)) -> (forall n, P (JNumber n)) -> (forall s, P (JString s)) ->
  (forall vs, Forall P vs -> P (JArray vs)) ->
  (forall ms, Forall (fun m => P m.2) ms -> P (JObject ms)) ->
  (forall fs, Forall (fun m => P m.2) fs -> P (JStruct fs)) ->
  (forall t, P (JRaw t)) -> forall v, P v.
Proof.
  intros H1 H2 H3 H4 H5 H6 H7 H8. fix IH 1. intros [ | b | n | s | vs | ms | fs | t];
    [exact H1|exact (H2 b)|exact (H3 n)|exact (H4 s)| | | |exact (H8 t)].
  - apply H5. induction vs as [|v vs IHvs]; constructor; [apply IH|exact IHvs].
  - apply H6. induction ms as [|[k v] ms IHms]; constructor; [apply IH|exact IHms].
  - apply H7. induction fs as [|[k v] fs IHfs]; constructor; [apply IH|exact IHfs].
Qed.

Fixpoint depth (v : json) : nat :=
  match v with
  | JArray vs => S (foldr (fun v n => Nat.max (depth v) n) 0%nat vs)
  | JObject ms | JStruct ms => S (foldr (fun '(_, v) n => Nat.max (depth v) n) 0%nat ms)
  | JRaw text => nesting text newScanner
  | _ => 0%nat
  end.

Definition members : list (string * json) -> result (list (string * string)) :=
  fix members ms :=
    match ms with
    | [] => Ok []
    | (k, v) :: rest =>
        let! text := Marshal v in let! texts := members rest in Ok ((k, text) :: texts)
    end.

Definition keyed (m : string * json) : string * list symbol := (m.1, content m.2).

Lemma members_values st ms : forall texts,
  Forall (fun m => forall st t, Marshal m.2 = Ok t ->
    Z.of_nat (length st + depth m.2) <= maxNestingDepth ->
    value_text BeginValue st t (content m.2)) ms ->
  members ms = Ok texts ->
  Z.of_nat (length st + foldr (fun '(_, v) n => Nat.max (depth v) n) 0%nat ms) <= maxNestingDepth ->
  Forall2 (fun m out => m.1 = out.1 /\ value_text BeginValue st m.2 out.2) texts (map keyed ms).
Proof.
  induction ms as [|[k v] ms IH]; intros texts Hms E Hd; [injection E as <-; constructor|].
  cbn [members] in E. apply result_bind_Ok in E as (text & Hv & E).
  apply result_bind_Ok in E as (rest & Hr & [= <-]). inversion_clear Hms as [|? ? Hv' Hms'].
  cbn [foldr] in Hd. constructor; [split; [done|apply Hv'; [done|simpl; lia]]|].
  apply IH; [done..|lia].
Qed.

Lemma content_keyed ms : map (fun '(k, v) => (k, content v)) ms = map keyed ms.
Proof. apply map_ext. by intros [k v]. Qed.

Lemma Marshal_value v : forall st t,
  Marshal v = Ok t -> Z.of_nat (length st + depth v) <= maxNestingDepth ->
  value_text BeginValue st t (content v).
Proof.
  assert (Hlit : forall st t out, reads (at_ BeginValue st) t (at_ EndValue st) out ->
    value_text BeginValue st t out).
  { intros st t out H. exists (at_ EndValue st). split; [left; by exists EndValue|done]. }
  induction v as [ |b|n|s|vs IH|ms IH|fs IH|text] using json_elim; intros st t E Hd.
  - injection E as <-. by apply Hlit.
  - injection E as <-. apply Hlit. by destruct b.
  - injection E as <-. apply formatInt_value.
  - injection E as <-. apply Hlit.
    apply (reads_cons _ _ (at_ InString st) [Sym quote]); [done|apply (reads_string s st)].
  - cbn [depth] in Hd. apply result_bind_Ok in E as (parts & Hp & [= <-]).
    apply writeArray_value; [lia|]. revert parts Hp Hd.
    induction IH as [|v vs Hv _ IHvs]; intros parts Hp Hd; [injection Hp as <-; constructor|].
    apply result_bind_Ok in Hp as (text & Ht & Hp). apply result_bind_Ok in Hp as (rest & Hr & [= <-]).
    cbn [foldr] in Hd. constructor; [apply Hv; [done|]; simpl; lia|].
    apply IHvs; [exact Hr|lia].
  - cbn [depth] in Hd. apply result_bind_Ok in E as (texts & Hm & [= <-]).
    cbn [content]. rewrite content_keyed. apply writeObject_value; [lia|].
    apply sortMembers_Forall2; [by intros m out []|].
    apply (members_values (ObjectValue :: st) ms); [exact IH|exact Hm|simpl; lia].
  - cbn [depth] in Hd. apply result_bind_Ok in E as (texts & Hm & [= <-]).
    cbn [content]. rewrite content_keyed. apply writeObject_value; [lia|].
    apply (members_values (ObjectValue :: st) fs); [exact IH|exact Hm|simpl; lia].
  - by apply (compact_value st text).
Qed.

(** What [json.Marshal] writes is one JSON text that says what the value says. *)
Lemma Marshal_text v t :
  Marshal v = Ok t -> Z.of_nat (depth v) <= maxNestingDepth ->
  checkValid t = true /\ symbols t = content v.
Proof.
  intros E Hd. destruct (Marshal_value v [] t E Hd) as (s & Hs & [Hr Hl]).
  unfold checkValid, symbols. change newScanner with (at_ BeginValue []). rewrite Hr, Hl.
  split; [by apply ended_eof|done].
Qed.

(** ** Indentation *)

(** The modes in which spaces change nothing. *)
Definition between_tokens (m : mode) : bool :=
  match m with
  | BeginValueOrEmpty | BeginValue | BeginStringOrEmpty | BeginString => true
  | _ => false
  end.

Definition orEmpty (m : mode) : bool :=
  match m with BeginValueOrEmpty | BeginStringOrEmpty => true | _ => false end.

(** The byte and the modes around it, from what a step reports. *)
Definition op_spec (c : ascii) (m m' : mode) (o : op) : Prop :=
  match o with
  | ScanContinue => between_tokens m = false /\ orEmpty m' = false
  | ScanBeginLiteral => (c ∉ punctuation) /\ orEmpty m' = false
  | ScanBeginObject => c = "{"%char /\ m' = BeginStringOrEmpty
  | ScanBeginArray => c = "["%char /\ m' = BeginValueOrEmpty
  | ScanObjectKey => c = ":"%char /\ m' = BeginValue /\ final m = true
  | ScanObjectValue => c = ","%char /\ m' = BeginString /\ final m = true
  | ScanArrayValue => c = ","%char /\ m' = BeginValue /\ final m = true
  | ScanEndObject => c = "}"%char /\ orEmpty m' = false /\ (final m || orEmpty m) = true
  | ScanEndArray => c = "]"%char /\ orEmpty m' = false /\ (final m || orEmpty m) = true
  | ScanSkipSpace => isSpace c = true /\ (m' = m \/ final m = true /\ m' = EndValue)
  | ScanEnd => isSpace c = true /\ (final m = true \/ m = EndTop) /\ m' = EndTop
  | ScanError => False
  end.

Lemma stateEndValue_op c s s' o :
  stateEndValue c s = (s', o) -> failed s' = false -> final (step s) = true ->
  op_spec c (step s) (step s') o.
Proof.
  unfold stateEndValue, stateEndTop, popParseState, scanError. intros E Hf Hm.
  destruct (stack s) as [|ps st] eqn:Es.
  - destruct (isSpace c) eqn:Hc; injection E as <- <-; [|done]. cbn. auto.
  - destruct (isSpace c) eqn:Hc; [injection E as <- <-; cbn; auto|].
    destruct ps; repeat case_decide; simplify_eq/=; try done;
      destruct st; simpl; split_and!; rewrite ?Hm; done.
Qed.

Lemma pushParseState_op p o s s' o' :
  pushParseState p o s = (s', o') -> failed s' = false -> o' = o /\ step s' = step s.
Proof. unfold pushParseState, scanError. case_decide; intros; by simplify_eq/=. Qed.

Lemma stateBeginValue_op c s s' o :
  stateBeginValue c s = (s', o) -> failed s' = false -> op_spec c (step s) (step s') o.
Proof.
  unfold stateBeginValue, scanError. intros E Hf.
  destruct (isSpace c) eqn:Hc; [injection E as <- <-; cbn; auto|].
  case_decide; [by apply pushParseState_op in E as [-> ->]|].
  case_decide; [by apply pushParseState_op in E as [-> ->]|].
  repeat (case_decide; [simplify_eq/=; split; [|done]; vm_compute; set_solver|]).
  destruct (isDigit c) eqn:Hd; simplify_eq/=. split; [|done]. intros Hin.
  set_unfold in Hin. by destruct_or!; subst.
Qed.

Lemma stepByte_op c s s' o :
  stepByte c s = (s', o) -> failed s' = false -> step s <> StateError ->
  op_spec c (step s) (step s') o.
Proof.
  intros E Hf He.
  assert (Hend : forall m, step s = m -> final m = true -> stateEndValue c s = (s', o) ->
    op_spec c m (step s') o) by (intros m <- Hm E'; by apply stateEndValue_op).
  pose proof (fun E' => stateBeginValue_op c s s' o E' Hf) as Hbegin.
  unfold stepByte, stateBeginString, state0, scanError in E.
  destruct (step s) eqn:Em; try done.
  - destruct (isSpace c) eqn:Hc; [injection E as <- <-; cbn; auto|]. case_decide as Hb; [|auto].
    subst c. unfold stateEndValue, stateEndTop, popParseState, scanError in E.
    destruct (stack s) as [|[] st]; try done; simplify_eq/=; try done. by destruct st.
  - auto.
  - destruct (isSpace c) eqn:Hc; [injection E as <- <-; cbn; auto|]. case_decide as Hb.
    + subst c. unfold stateEndValue, popParseState in E. simplify_eq/=. by destruct (tail (stack s)).
    + case_decide; simplify_eq/=. split; [vm_compute; set_solver|done].
  - destruct (isSpace c) eqn:Hc; [injection E as <- <-; cbn; auto|].
    case_decide; simplify_eq/=. split; [vm_compute; set_solver|done].
  - auto.
  - unfold stateEndTop in E. destruct (isSpace c) eqn:Hc; simplify_eq/=. rewrite Em. auto.
  - repeat case_decide; simplify_eq/=; by rewrite ?Em.
  - repeat case_decide; by simplify_eq/=.
  - destruct (isHex c); simplify_eq/=. by case_decide.
  - repeat case_decide; try destruct (isDigit c); by simplify_eq/=.
  - destruct (isDigit c); [simplify_eq/=; by rewrite Em|]. repeat case_decide; [by simplify_eq/=..|auto].
  - repeat case_decide; [by simplify_eq/=..|auto].
  - destruct (isDigit c); by simplify_eq/=.
  - destruct (isDigit c); [simplify_eq/=; by rewrite Em|]. case_decide; [by simplify_eq/=|auto].
  - repeat case_decide; try destruct (isDigit c); by simplify_eq/=.
  - destruct (isDigit c); by simplify_eq/=.
  - destruct (isDigit c); [simplify_eq/=; by rewrite Em|auto].
  - destruct l; cbn [literalNext] in E; case_decide; by simplify_eq/=.
Qed.

(** Outside of strings and numbers a byte says itself or nothing. *)
Lemma emit_plain c s s' o acc :
  stepByte c s = (s', o) -> o <> ScanContinue ->
  emit c (step s) o acc = (0, if skips o then [] else [Sym c]).
Proof.
  intros E Ho. unfold emit. destruct (skips o) eqn:Hs; [done|].
  destruct (step s) eqn:Hm; try done; unfold stepByte, scanError in E; rewrite Hm in E; exfalso.
  - by repeat case_decide; injection E as <- <-.
  - by repeat case_decide; injection E as <- <-.
  - by destruct (isHex c); injection E as <- <-.
Qed.

Lemma kept_plain c s s' o acc :
  stepByte c s = (s', o) -> kept acc s -> o <> ScanContinue -> o <> ScanError -> acc = 0.
Proof.
  intros E [->|[n Hm]] Ho He; [done|]. unfold stepByte, scanError in E. rewrite Hm in E.
  by destruct (isHex c); injection E as <- <-.
Qed.

Lemma reads_blank d d' c :
  isSpace c = true -> stepByte c d = (d', ScanSkipSpace) -> reads d (String c "") d' [].
Proof. intros Hc E. by apply (reads_step d c d' ScanSkipSpace). Qed.

Lemma reads_blanks n d : stepByte " "%char d = (d, ScanSkipSpace) -> reads d (blanks n) d [].
Proof.
  intros E. assert (Hb : reads d (String " "%char "") d []) by (by apply reads_blank).
  induction n as [|n IH]; [done|]. cbn [blanks].
  apply (reads_cons d _ d []); [done|]. by apply (reads_cons d _ d []).
Qed.

Lemma reads_newline n d : between_tokens (step d) = true -> reads d (appendNewline n) d [].
Proof.
  intros Hd. apply (reads_cons d _ d []).
  - apply reads_blank; [done|]. unfold stepByte. by destruct (step d).
  - apply reads_blanks. unfold stepByte. by destruct (step d).
Qed.

Lemma reads_newline_ended n ps st d :
  ended (ps :: st) d -> reads d (appendNewline n) (at_ EndValue (ps :: st)) [].
Proof.
  intros Hd. apply (reads_cons d _ (at_ EndValue (ps :: st)) []).
  - apply reads_blank; [done|]. by rewrite (ended_punct ps st d newline Hd) by set_solver.
  - by apply reads_blanks.
Qed.

Lemma follows_between st s d :
  follows st s d -> between_tokens (step s) = true -> between_tokens (step d) = true.
Proof. intros Hf. by destruct Hf. Qed.

Lemma follows_ended st s d :
  follows st s d -> final (step s) = true -> ended (stack s ++ st) d.
Proof. intros Hf Hm. destruct Hf as [m ps|m ps|]; [left; by exists m|left; by exists m|done]. Qed.

(** A byte that says itself, read by the scanner that follows. *)
Lemma reads_plain s d c s' o :
  follows [] s d -> stepByte c s = (s', o) -> (stepByte c d).2 = o -> o <> ScanContinue ->
  skips o = false -> reads d (String c "") (stepByte c d).1 [Sym c].
Proof.
  intros Hd E Ho Hc Hs. apply (reads_step d c _ o); [by rewrite <- Ho; destruct (stepByte c d)|].
  rewrite (follows_emit [] s d c o 0 Hd), (emit_plain c s s' o 0 E Hc). by rewrite Hs.
Qed.

(** A closing bracket, with a line of its own unless nothing was opened. *)
Lemma indent_close n c s d s' o :
  follows [] s d -> stepByte c s = (s', o) -> (stepByte c d).2 = o ->
  o = ScanEndObject \/ o = ScanEndArray ->
  (final (step s) || orEmpty (step s)) = true -> c ∈ ["}"; "]"]%char ->
  reads d (if orEmpty (step s) then String c "" else appendNewline n +:+ String c "")
    (stepByte c d).1 [Sym c].
Proof.
  intros Hd E Ho Hop Hm Hc.
  assert (Hone : reads d (String c "") (stepByte c d).1 [Sym c])
    by (apply (reads_plain s d c s' o); try done; by destruct Hop as [-> | ->]).
  destruct (orEmpty (step s)); [done|]. rewrite orb_false_r in Hm.
  pose proof (follows_ended [] s d Hd Hm) as He. rewrite app_nil_r in He.
  destruct (stack s) as [|ps st] eqn:Es.
  - exfalso. assert (o = ScanEnd) as ->; [|by destruct Hop].
    replace o with (stepByte c s).2 by (by rewrite E). unfold stepByte.
    set_unfold in Hc. destruct (step s); try done;
      destruct_or!; subst c; cbn; unfold state0, stateEndValue; by rewrite Es.
  - apply (reads_app d _ (at_ EndValue (ps :: st)) []); [by apply reads_newline_ended|].
    rewrite (ended_punct ps st d c He) by set_solver.
    apply (reads_punct ps st _ c _ o); [left; by exists EndValue|set_solver| |by destruct Hop as [-> | ->]].
    rewrite <- Ho, (ended_punct ps st d c He) by set_solver.
    by destruct (stepByte c (at_ EndValue (ps :: st))).
Qed.

(** Blanks before a byte, where a bracket was opened. *)
Lemma indent_before s d n text d' out :
  follows [] s d -> reads d text d' out ->
  reads d ((if orEmpty (step s) then appendNewline n else "") +:+ text) d' out.
Proof.
  intros Hd Hr. destruct (orEmpty (step s)) eqn:Em; [|done].
  apply (reads_app d _ d []); [|done]. apply reads_newline, (follows_between [] s d Hd).
  by destruct (step s).
Qed.

(** Blanks after a comma or a colon. *)
Lemma indent_after s' d c d' out n text :
  reads d (String c "") d' out -> follows [] s' d' -> between_tokens (step s') = true ->
  text = appendNewline n \/ text = " " -> reads d (String c text) d' out.
Proof.
  intros Hr Hd Hb Ht. rewrite <- (app_nil_r out). apply (reads_cons d c d'); [done|].
  pose proof (follows_between [] s' d' Hd Hb) as Hb'.
  destruct Ht as [-> | ->]; [by apply reads_newline|].
  apply reads_blank; [done|]. unfold stepByte. by destruct (step d').
Qed.

Lemma final_orEmpty m : final m = true -> orEmpty m = false.
Proof. by destruct m. Qed.

Lemma step_space_ended d c :
  ended [] d -> isSpace c = true -> stepByte c d = (topEnded, ScanEnd).
Proof. intros [(m & Hm & ->)|[_ ->]] H; revert H; [destruct m; try done; each_byte c|each_byte c]. Qed.

(** One turn of the loop on a byte that does not continue a literal. *)
Lemma indentByte_plain need depth c s d s' o text need' depth' :
  follows [] s d -> stepByte c s = (s', o) -> failed s' = false -> o <> ScanError ->
  o <> ScanContinue -> Z.of_nat (length (stack s')) <= maxNestingDepth -> need = orEmpty (step s) ->
  indentByte need depth c o = (text, need', depth') ->
  need' = orEmpty (step s') /\
  exists d', follows [] s' d' /\ reads d text d' (if skips o then [] else [Sym c]).
Proof.
  intros Hd E Hf Ho Hcont Hn Hneed Hi. destruct (follows_not_failed [] s d Hd) as [_ Hs].
  assert (Hstep : follows_to [] (stepByte c s) d (stepByte c d)) by (apply follows_step; by rewrite ?E).
  unfold follows_to in Hstep. rewrite E in Hstep. cbn [fst snd] in Hstep.
  pose proof (stepByte_op c s s' o E Hf Hs) as Hop.
  pose proof (fun n text d' out Hr => indent_before s d n text d' out Hd Hr) as Hpre.
  pose proof (fun H => reads_plain s d c s' o Hd E H Hcont) as Hone.
  pose proof (fun n H => indent_close n c s d s' o Hd E H) as Hclose. rewrite <- Hneed in Hpre, Hclose.
  unfold indentByte in Hi. destruct o; try done; cbn [op_spec skips] in *;
    try (destruct Hstep as [Hstep Hsame]; specialize (Hone Hsame eq_refl)).
  - destruct Hop as [Hc Hm']. unfold punctuation in Hc. rewrite !decide_False in Hi by set_solver.
    rewrite Hm'. destruct need; injection Hi as <- <- <-; (split; [done|]);
      eexists; (split; [exact Hstep|]); by apply Hpre.
  - destruct Hop as [-> ->]. destruct need; injection Hi as <- <- <-; (split; [done|]);
      eexists; (split; [exact Hstep|]); by apply Hpre.
  - destruct Hop as (-> & Hm' & Hm). rewrite (final_orEmpty _ Hm) in Hneed. subst need.
    injection Hi as <- <- <-. rewrite Hm'. split; [done|]. eexists. split; [exact Hstep|].
    apply (indent_after s' d _ _ _ 0 " "); try done; [by rewrite Hm'|by right].
  - destruct Hop as (-> & Hm' & Hm). rewrite (final_orEmpty _ Hm) in Hneed. subst need.
    injection Hi as <- <- <-. rewrite Hm'. split; [done|]. eexists. split; [exact Hstep|].
    apply (indent_after s' d _ _ _ depth (appendNewline depth)); try done; [by rewrite Hm'|by left].
  - destruct Hop as (-> & Hm' & Hm). rewrite Hm'. rewrite <- Hneed in Hm.
    specialize (Hclose (pred depth) Hsame ltac:(by left) Hm ltac:(set_solver)).
    destruct need; injection Hi as <- <- <-; (split; [done|]); by eexists.
  - destruct Hop as [-> ->]. destruct need; injection Hi as <- <- <-; (split; [done|]);
      eexists; (split; [exact Hstep|]); by apply Hpre.
  - destruct Hop as (-> & Hm' & Hm). rewrite (final_orEmpty _ Hm) in Hneed. subst need.
    injection Hi as <- <- <-. rewrite Hm'. split; [done|]. eexists. split; [exact Hstep|].
    apply (indent_after s' d _ _ _ depth (appendNewline depth)); try done; [by rewrite Hm'|by left].
  - destruct Hop as (-> & Hm' & Hm). rewrite Hm'. rewrite <- Hneed in Hm.
    specialize (Hclose (pred depth) Hsame ltac:(by right) Hm ltac:(set_solver)).
    destruct need; injection Hi as <- <- <-; (split; [done|]); by eexists.
  - injection Hi as <- <- <-. subst need. split; [|by exists d].
    destruct Hop as [_ [-> | [Hm ->]]]; [done|]. by destruct (step s).
  - destruct Hop as (Hc & Hm & Hm'). assert (need = false) as ->
      by (subst need; destruct Hm as [Hm|Hm]; [by destruct (step s)|by rewrite Hm]).
    rewrite !decide_False in Hi by (intros H; destruct_or?; by subst c).
    injection Hi as <- <- <-. rewrite Hm'. split; [done|]. exists topEnded.
    inversion Hstep as [? ? Hx| |? He]; subst; try done. split; [by apply f_top; right|].
    apply (reads_step d c topEnded ScanEnd); [by apply step_space_ended|done].
Qed.

(** One turn of the loop. *)
Lemma indentByte_follows need depth c s d s' o text need' depth' acc acc' out :
  follows [] s d -> kept acc s -> stepByte c s = (s', o) -> failed s' = false -> o <> ScanError ->
  Z.of_nat (length (stack s')) <= maxNestingDepth -> need = orEmpty (step s) ->
  indentByte need depth c o = (text, need', depth') -> emit c (step s) o acc = (acc', out) ->
  follows [] s' (scan text d) /\ lex text d acc = (acc', out) /\ need' = orEmpty (step s').
Proof.
  intros Hd Hk E Hf Ho Hn Hneed Hi He. destruct (decide (o = ScanContinue)) as [->|Hcont].
  - destruct (follows_not_failed [] s d Hd) as [_ Hs].
    assert (Hstep : follows_to [] (stepByte c s) d (stepByte c d)) by (apply follows_step; by rewrite ?E).
    rewrite E in Hstep. destruct Hstep as [Hstep Hop].
    destruct (stepByte_op c s s' _ E Hf Hs) as [Hm Hm'].
    assert (need = false) as -> by (rewrite Hneed; by destruct (step s)).
    injection Hi as <- <- <-. rewrite Hm'. split_and!; try done.
    by apply (lex_byte [] c s d s' ScanContinue).
  - destruct (indentByte_plain need depth c s d s' o text need' depth') as (H1 & d' & H2 & [<- H3]);
      try done.
    rewrite (emit_plain c s s' o acc E Hcont) in He. injection He as <- <-.
    by rewrite (kept_plain c s s' o acc E Hk Hcont Ho).
Qed.

Lemma pushParseState_depth p o s :
  failed (pushParseState p o s).1 = false ->
  Z.of_nat (length (stack (pushParseState p o s).1)) <= maxNestingDepth.
Proof. unfold pushParseState. by case_decide. Qed.

Lemma stateEndValue_depth c s :
  (length (stack (stateEndValue c s).1) <= length (stack s))%nat.
Proof.
  unfold stateEndValue, stateEndTop, popParseState. destruct (stack s) as [|p st] eqn:Es.
  - by destruct (isSpace c).
  - destruct (isSpace c); [simpl; by rewrite Es|]. destruct p; repeat case_decide; simpl;
      rewrite ?Es; simpl; try lia; destruct st; simpl; lia.
Qed.

(** The stack of a scanner that has not failed is bounded. *)
Lemma stepByte_depth c s :
  failed (stepByte c s).1 = false -> Z.of_nat (length (stack s)) <= maxNestingDepth ->
  (step s = BeginStringOrEmpty -> stack s <> []) ->
  Z.of_nat (length (stack (stepByte c s).1)) <= maxNestingDepth.
Proof.
  intros Hf Hs Hne. pose proof (stateEndValue_depth c s) as Hend.
  assert (Hbegin : failed (stateBeginValue c s).1 = false ->
    Z.of_nat (length (stack (stateBeginValue c s).1)) <= maxNestingDepth).
  { unfold stateBeginValue. destruct (isSpace c); [done|].
    do 2 (case_decide; [by apply pushParseState_depth|]).
    repeat (case_decide; [done|]). by destruct (isDigit c). }
  unfold stepByte, stateBeginString, state0, stateEndTop in *.
  destruct (step s); repeat case_decide; try done; try lia; auto;
    repeat (case_match; try done; try lia; auto).
  specialize (Hne eq_refl). pose proof (stateEndValue_depth c (set_top ObjectValue s)) as Hset.
  revert Hset. destruct (stack s) as [|p st] eqn:Es; [done|]. simpl. rewrite Es. simpl in *. lia.
Qed.

Lemma indentFrom_failed need depth src s :
  step s = StateError -> failed s = true -> failed (indentFrom need depth src s).1 = true.
Proof. intros Hs Hf. destruct src as [|c src]; [done|]. simpl. unfold stepByte. by rewrite Hs. Qed.

Lemma follows_stack st s d : follows st s d -> step s = BeginStringOrEmpty -> stack s <> [].
Proof. intros [m ps|m ps|d'] E; cbn in *; auto; done. Qed.

Lemma indentFrom_follows src : forall need depth s d t out acc,
  indentFrom need depth src s = (t, out) -> failed t = false -> follows [] s d -> kept acc s ->
  need = orEmpty (step s) -> Z.of_nat (length (stack s)) <= maxNestingDepth ->
  follows [] t (scan out d) /\ lex out d acc = lex src s acc.
Proof.
  induction src as [|c src IH]; intros need depth s d t out acc E Hf Hd Hk Hneed Hn.
  { by injection E as <- <-. }
  cbn [indentFrom] in E. cbn [lex]. pose proof (follows_stack [] s d Hd) as Hst.
  destruct (follows_not_failed [] s d Hd) as [Hs Hs']. pose proof (stepByte_error c s Hs') as Herr.
  pose proof (stepByte_failed c s Hs) as He. pose proof (stepByte_depth c s) as Hdepth.
  destruct (stepByte c s) as [s' o] eqn:Es. cbn [fst snd] in *.
  destruct (decide (o = ScanError)) as [->|Ho].
  { specialize (Herr eq_refl). simplify_eq. congruence. }
  destruct (indentByte need depth c o) as [[text need'] depth'] eqn:Ei.
  destruct (indentFrom need' depth' src s') as [t' out'] eqn:Er.
  assert (t' = t /\ out = text +:+ out') as [-> ->] by (by destruct o; simplify_eq).
  destruct (emit c (step s) o acc) as [acc' now] eqn:Ee.
  assert (Hf' : failed s' = false).
  { apply not_true_is_false. intros Hf'.
    pose proof (indentFrom_failed need' depth' src s' (He Hf') Hf') as Hx.
    rewrite Er in Hx. simpl in Hx. congruence. }
  specialize (Hdepth Hf' Hn Hst).
  destruct (indentByte_follows need depth c s d s' o text need' depth' acc acc' now)
    as (Hd' & Hl & Hneed'); try done.
  destruct (IH need' depth' s' (scan text d) t out' acc') as (H1 & H2); try done.
  { by apply (emit_kept c s s' o acc acc' now). }
  rewrite scan_app. split; [done|]. destruct (lex src s' acc') as [accF more].
  by apply (lex_app text out' d acc acc').
Qed.

(** [json.Indent] writes one JSON text that says what its source says. *)
Lemma indent_text src out :
  indent src = Ok out -> checkValid out = true /\ symbols out = symbols src.
Proof.
  unfold indent. destruct (indentFrom false 0 src newScanner) as [t out'] eqn:E.
  destruct (eof t) eqn:He; [|done]. intros [= ->].
  assert (Hf : failed t = false) by (unfold eof in He; by destruct (failed t)).
  destruct (indentFrom_follows src false 0 newScanner newScanner t out 0) as [Hd Hl]; try done.
  { by apply (f_same [] BeginValue []). }
  { by left. }
  split; [|by unfold symbols; rewrite Hl]. by apply ended_eof, (follows_eof [] t).
Qed.

Lemma MarshalIndent_text v t :
  MarshalIndent v = Ok t -> Z.of_nat (depth v) <= maxNestingDepth ->
  checkValid t = true /\ symbols t = content v.
Proof.
  intros E Hd. apply result_bind_Ok in E as (b & Hb & Hi).
  destruct (Marshal_text v b Hb Hd) as [_ <-]. by apply indent_text.
Qed.

(** ** Nothing fails *)

Lemma stepByte_stuck c s : (stepByte c s).2 = ScanError -> step (stepByte c s).1 = StateError.
Proof.
  assert (Hend : forall s', (stateEndValue c s').2 = ScanError ->
    step (stateEndValue c s').1 = StateError).
  { intros s'. unfold stateEndValue, stateEndTop, popParseState. repeat case_match; simpl; congruence. }
  assert (Hbegin : (stateBeginValue c s).2 = ScanError ->
    step (stateBeginValue c s).1 = StateError).
  { unfold stateBeginValue, pushParseState. repeat case_decide; simpl; try congruence;
      repeat case_match; simpl; congruence. }
  unfold stepByte, stateBeginString, state0.
  destruct (step s) eqn:Es; repeat case_decide; simpl; try congruence; auto;
    repeat case_match; simpl; try congruence; auto.
Qed.

Lemma compactFrom_scan src : forall skip s, (compactFrom skip src s).1 = scan src s.
Proof.
  induction src as [|c src IH]; intros skip s; [done|]. cbn [compactFrom scan].
  pose proof (stepByte_stuck c s) as Hst. destruct (stepByte c s) as [s' o]. cbn [fst snd] in *.
  destruct (decide (o = ScanError)) as [->|Ho]; [by rewrite scan_StateError by auto|].
  destruct (compactByte skip c src o) as [text k]. specialize (IH k s').
  by destruct (compactFrom k src s') as [t out], o.
Qed.

Lemma indentFrom_scan src : forall need depth s, (indentFrom need depth src s).1 = scan src s.
Proof.
  induction src as [|c src IH]; intros need depth s; [done|]. cbn [indentFrom scan].
  pose proof (stepByte_stuck c s) as Hst. destruct (stepByte c s) as [s' o]. cbn [fst snd] in *.
  destruct (decide (o = ScanError)) as [->|Ho]; [by rewrite scan_StateError by auto|].
  destruct (indentByte need depth c o) as [[text need'] depth'].
  specialize (IH need' depth' s').
  by destruct (indentFrom need' depth' src s') as [t out], o.
Qed.

Lemma compact_Ok text : checkValid text = true -> exists out, compact text = Ok out.
Proof.
  unfold checkValid, compact. rewrite <- (compactFrom_scan text 0).
  destruct (compactFrom 0 text newScanner) as [s out]. cbn [fst]. intros ->. by exists out.
Qed.

Lemma indent_Ok text : checkValid text = true -> exists out, indent text = Ok out.
Proof.
  unfold checkValid, indent. rewrite <- (indentFrom_scan text false 0).
  destruct (indentFrom false 0 text newScanner) as [s out]. cbn [fst]. intros ->. by exists out.
Qed.

(** The texts of [json.Marshaler]s in a value are valid. *)
Fixpoint sound (v : json) : bool :=
  match v with
  | JArray vs => forallb sound vs
  | JObject ms | JStruct ms => forallb (fun '(_, v) => sound v) ms
  | JRaw text => checkValid text
  | _ => true
  end.

Lemma members_Ok ms :
  Forall (fun m => sound m.2 = true -> exists t, Marshal m.2 = Ok t) ms ->
  forallb (fun '(_, v) => sound v) ms = true -> exists texts, members ms = Ok texts.
Proof.
  induction 1 as [|[k v] ms Hv Hms IH]; intros Hs; [by exists []|].
  cbn [forallb] in Hs. apply andb_true_iff in Hs as [Hs1 Hs2].
  destruct (Hv Hs1) as [t Ht], (IH Hs2) as [texts Htexts]. cbn [snd] in Ht.
  exists ((k, t) :: texts). cbn [members]. by rewrite Ht, Htexts.
Qed.

Lemma Marshal_Ok v : sound v = true -> exists t, Marshal v = Ok t.
Proof.
  induction v as [ |b|n|s|vs IH|ms IH|fs IH|text] using json_elim; intros Hs; try by eexists.
  - assert (exists parts, (fix elements (vs : list json) : result (list string) :=
      match vs with
      | [] => Ok []
      | v :: rest => let! text := Marshal v in let! texts := elements rest in Ok (text :: texts)
      end) vs = Ok parts) as [parts Hp]; [|exists (writeArray parts); cbn [Marshal]; by rewrite Hp].
    cbn [sound] in Hs. induction IH as [|v vs Hv _ IHvs]; [by exists []|].
    cbn [forallb] in Hs. apply andb_true_iff in Hs as [Hs1 Hs2].
    destruct (Hv Hs1) as [t Ht], (IHvs Hs2) as [parts Hp]. exists (t :: parts). by rewrite Ht, Hp.
  - destruct (members_Ok ms IH Hs) as [texts Ht]. exists (writeObject (sortMembers texts)).
    change (Marshal (JObject ms)) with (let! texts := members ms in Ok (writeObject (sortMembers texts))).
    by rewrite Ht.
  - destruct (members_Ok fs IH Hs) as [texts Ht]. exists (writeObject texts).
    change (Marshal (JStruct fs)) with (let! texts := members fs in Ok (writeObject texts)).
    by rewrite Ht.
  - by apply compact_Ok.
Qed.

(** ** The result *)

(** A text that is valid JSON and says what a value says. *)
Definition renders (t : string) (v : json) : Prop := checkValid t = true /\ symbols t = content v.

Lemma Marshal_renders v :
  sound v = true -> Z.of_nat (depth v) <= maxNestingDepth ->
  exists t, Marshal v = Ok t /\ renders t v.
Proof.
  intros Hs Hd. destruct (Marshal_Ok v Hs) as [t Ht]. exists t. split; [done|]. by apply Marshal_text.
Qed.

Lemma MarshalIndent_renders v :
  sound v = true -> Z.of_nat (depth v) <= maxNestingDepth ->
  exists t, MarshalIndent v = Ok t /\ renders t v.
Proof.
  intros Hs Hd. destruct (Marshal_renders v Hs Hd) as (b & Hb & [Hv _]).
  destruct (indent_Ok b Hv) as [t Ht]. exists t.
  assert (E : MarshalIndent v = Ok t) by (unfold MarshalIndent; by rewrite Hb).
  split; [done|]. by apply MarshalIndent_text.
Qed.

(** ** [json.Unmarshal] into a [json.RawMessage] *)

(** The states of a scanner that has not failed. *)
Definition live (s : scanner) : Prop :=
  (exists d, follows [] s d) /\ Z.of_nat (length (stack s)) <= maxNestingDepth.

Lemma live_new : live newScanner.
Proof. split; [exists newScanner; by apply (f_same [] BeginValue [])|done]. Qed.

Lemma live_step c s : live s -> failed (stepByte c s).1 = false -> live (stepByte c s).1.
Proof.
  intros [[d Hd] Hn] Hf. pose proof (stepByte_depth c s Hf Hn (follows_stack [] s d Hd)) as Hn'.
  split; [|done]. pose proof (follows_step [] c s d Hd Hf Hn') as Hs. unfold follows_to in Hs.
  destruct (skips _); [by exists d|destruct Hs as [Hs _]; by eexists].
Qed.

Lemma live_valid c text s :
  live s -> eof (scan (String c text) s) = true -> live (stepByte c s).1.
Proof.
  intros Hl He. apply live_step; [done|]. apply not_true_is_false. intros Hf.
  destruct Hl as [[d Hd] _]. destruct (follows_not_failed [] s d Hd) as [Hs _].
  cbn [scan] in He. rewrite scan_StateError in He by (by apply stepByte_failed).
  unfold eof in He. by rewrite Hf in He.
Qed.

(** A space at the end. *)
Lemma eof_space c s acc :
  isSpace c = true -> live s -> kept acc s -> eof (stepByte c s).1 = true ->
  eof s = true /\ acc = 0 /\ skips (stepByte c s).2 = true.
Proof.
  intros Hc [[d Hd] _] Hk He. assert (c ∈ [" "; "009"; return_; newline]%char) as Hin.
  { revert Hc. each_byte c; set_solver. }
  assert (eof s = true /\ skips (stepByte c s).2 = true) as [He' Hs].
  { clear Hk Hc. set_unfold in Hin.
    destruct Hd as [m ps Hm Hm' Hps|m ps Hm|d Hd];
      [destruct m as [| | | | | | | | | | | | | | | | |[]|]|..]; try done;
      destruct ps as [|[] ps]; destruct_or!; subst c; try done; by case_decide. }
  split_and!; try done. by apply (kept_eof [] s d acc).
Qed.

Lemma trimRight_text text : forall s acc,
  live s -> kept acc s -> eof (scan text s) = true ->
  eof (scan (trimRight text) s) = true /\ lex (trimRight text) s acc = lex text s acc.
Proof.
  induction text as [|c text IH]; intros s acc Hl Hk He; [done|].
  pose proof (live_valid c text s Hl He) as Hl'. cbn [scan] in He. cbn [trimRight lex].
  pose proof (fun out acc' => emit_kept c s (stepByte c s).1 (stepByte c s).2 acc acc' out) as Hk'.
  pose proof (eof_space c s acc) as Hsp. destruct (stepByte c s) as [s' o] eqn:Es.
  destruct (emit c (step s) o acc) as [acc' out] eqn:Ee. cbn [fst snd] in *.
  destruct (IH s' acc' Hl' (Hk' out acc' eq_refl Ee) He) as [He' Hx].
  destruct (isSpace c && bool_decide (trimRight text = "")) eqn:Hc.
  - apply andb_true_iff in Hc as [Hc Hr%bool_decide_eq_true]. rewrite Hr in He', Hx.
    destruct (Hsp Hc Hl Hk He') as (H1 & -> & H2). split; [done|].
    unfold emit in Ee. rewrite H2 in Ee. injection Ee as <- <-. by rewrite <- Hx.
  - cbn [scan lex]. rewrite Es. split; [done|]. by rewrite Ee, Hx.
Qed.

Lemma trimLeft_text text :
  scan (trimLeft text) newScanner = scan text newScanner /\
  lex (trimLeft text) newScanner 0 = lex text newScanner 0.
Proof.
  induction text as [|c text IH]; [done|]. cbn [trimLeft]. destruct (isSpace c) eqn:Hc; [|done].
  cbn [scan lex]. assert (E : stepByte c newScanner = (newScanner, ScanSkipSpace))
    by (unfold stepByte, stateBeginValue; cbn; by rewrite Hc).
  rewrite E. cbn [fst emit skips]. destruct IH as [-> ->]. by destruct (lex text newScanner 0).
Qed.

(** What is kept of a text is valid and says the same. *)
Lemma UnmarshalRaw_text text raw :
  UnmarshalRaw text = Ok raw -> checkValid raw = true /\ symbols raw = symbols text.
Proof.
  unfold UnmarshalRaw, checkValid, symbols. destruct (eof _) eqn:He; [|done]. intros [= <-].
  destruct (trimLeft_text text) as [Hs Hl]. rewrite <- Hl. rewrite <- Hs in He.
  destruct (trimRight_text (trimLeft text) newScanner 0 live_new (or_introl eq_refl) He) as [H1 H2].
  by rewrite H1, H2.
Qed.

(** Reading a text that was read already. *)
Lemma trimRight_idem text : trimRight (trimRight text) = trimRight text.
Proof.
  induction text as [|c text IH]; [done|]. cbn [trimRight]. destruct (isSpace c && _) eqn:E; [done|].
  cbn [trimRight]. by rewrite IH, E.
Qed.

Lemma trimLeft_trimRight text : trimLeft (trimRight (trimLeft text)) = trimRight (trimLeft text).
Proof.
  induction text as [|c text IH]; [done|]. cbn [trimLeft]. destruct (isSpace c) eqn:Hc; [done|].
  cbn [trimRight]. rewrite Hc. cbn [andb trimLeft]. by rewrite Hc.
Qed.

Lemma UnmarshalRaw_idem text raw : UnmarshalRaw text = Ok raw -> UnmarshalRaw raw = Ok raw.
Proof.
  intros E. destruct (UnmarshalRaw_text text raw E) as [Hv _]. revert E. unfold UnmarshalRaw.
  destruct (checkValid text); [|done]. intros [= <-].
  by rewrite Hv, trimLeft_trimRight, trimRight_idem.
Qed.

Lemma UnmarshalRaw_nonempty text raw : UnmarshalRaw text = Ok raw -> raw <> "".
Proof. intros [Hv _]%UnmarshalRaw_text ->. done. Qed.

(** A text that ends in a newline. *)
Lemma live_scan text : forall s, live s -> eof (scan text s) = true -> live (scan text s).
Proof.
  induction text as [|c text IH]; intros s Hl He; [done|].
  apply IH; [by apply (live_valid c text)|done].
Qed.

Lemma eof_newline s :
  live s -> eof s = true ->
  eof (stepByte newline s).1 = true /\ skips (stepByte newline s).2 = true.
Proof.
  intros [[d Hd] _]. destruct Hd as [m ps Hm Hm' Hps|m ps Hm|d Hd];
    [destruct m as [| | | | | | | | | | | | | | | | |[]|]|..]; try done; by destruct ps as [|[] ps].
Qed.

Lemma text_newline text :
  checkValid text = true ->
  checkValid (text +:+ String newline "") = true /\
  symbols (text +:+ String newline "") = symbols text.
Proof.
  unfold checkValid, symbols. intros He. rewrite scan_app.
  destruct (eof_newline _ (live_scan text newScanner live_new He) He) as [H1 H2].
  split; [done|]. destruct (lex text newScanner 0) as [acc out] eqn:E.
  rewrite (lex_app text (String newline "") newScanner 0 acc 0 out []); [by rewrite app_nil_r|done|].
  cbn [lex]. destruct (stepByte newline _) as [s' o]. cbn [snd] in H2. unfold emit. by rewrite H2.
Qed.

(** ** Members *)

Lemma separate_infix part parts :
  part ∈ parts -> exists before after, separate parts = before ++ part ++ after.
Proof.
  induction parts as [|p parts IH]; [by intros ?%not_elem_of_nil|]. intros [->|Hin]%elem_of_cons.
  - destruct parts as [|q parts]; [exists [], []; simpl; by rewrite app_nil_r|].
    by exists [], (Sym ","%char :: separate (q :: parts)).
  - destruct (IH Hin) as (before & after & E). destruct parts as [|q parts];
      [by apply not_elem_of_nil in Hin|].
    exists (p ++ Sym ","%char :: before), after.
    change (separate (p :: q :: parts)) with (p ++ Sym ","%char :: separate (q :: parts)).
    by rewrite E, <- app_assoc.
Qed.

(** A struct says each of its fields. *)
Lemma content_field fs k v :
  (k, v) ∈ fs ->
  exists before after, content (JStruct fs) = before ++ memberSymbols (k, content v) ++ after.
Proof.
  intros Hin. cbn [content]. rewrite content_keyed. unfold objectSymbols.
  destruct (separate_infix (memberSymbols (k, content v)) (map memberSymbols (map keyed fs)))
    as (before & after & ->).
  { apply list_elem_of_fmap. exists (k, content v). split; [done|]. apply list_elem_of_fmap.
    by exists (k, v). }
  exists (Sym "{"%char :: before), (after ++ [Sym "}"%char]). by rewrite <- app_comm_cons, <- !app_assoc.
Qed.

Lemma content_only k v :
  exists before after, content (JObject [(k, v)]) = before ++ content v ++ after.
Proof.
  exists (Sym "{"%char :: stringSymbols k ++ [Sym ":"%char]), [Sym "}"%char].
  cbn [content map sortKeys foldr insertKey]. unfold objectSymbols. cbn [map separate].
  unfold memberSymbols. cbn [fst snd]. by rewrite <- app_comm_cons, <- !app_assoc.
Qed.

(** ** Strings without escapes *)

Lemma reads_safe text st :
  all_bytes htmlSafe text = true ->
  reads (at_ InString st) text (at_ InString st) (map Chr (String.list_ascii_of_string text)).
Proof.
  induction text as [|c text IH]; [done|]. cbn [all_bytes]. intros [Hc Ht]%andb_true_iff.
  apply (reads_cons _ c (at_ InString st) [Chr c]); [|by apply IH]. revert Hc. each_byte c.
Qed.

Lemma sanitize_safe text :
  all_bytes htmlSafe text = true -> sanitize 0 text = String.list_ascii_of_string text.
Proof.
  induction text as [|c text IH]; [done|]. cbn [all_bytes]. intros [Hc Ht]%andb_true_iff.
  cbn [sanitize]. rewrite decide_True; [cbn; f_equal; by apply IH|].
  unfold htmlSafe, between in Hc. apply andb_true_iff in Hc as [Hc%bool_decide_eq_true _]. lia.
Qed.

(** A quoted text, as a [json.Marshaler] writes it, says the same as the
    string. *)
Definition quoted (text : string) : string := String quote (text +:+ String quote "").

Lemma quoted_text text :
  all_bytes htmlSafe text = true -> renders (quoted text) (JString text).
Proof.
  intros Ht. assert (reads newScanner (quoted text) (at_ EndValue []) (stringSymbols text)) as [Hs Hl].
  { unfold stringSymbols. rewrite (sanitize_safe text Ht).
    apply (reads_cons _ quote (at_ InString []) [Sym quote]); [done|].
    eapply reads_app; [by apply reads_safe|done]. }
  unfold renders, checkValid, symbols. by rewrite Hs, Hl.
Qed.

Lemma nesting_safe text st :
  all_bytes htmlSafe text = true ->
  nesting (text +:+ String quote "") (at_ InString st) = length st.
Proof.
  induction text as [|c text IH]; intros Ht; [apply Nat.max_id|].
  cbn [all_bytes] in Ht. apply andb_true_iff in Ht as [Hc Ht]. rewrite append_cons. cbn [nesting].
  assert (stepByte c (at_ InString st) = (at_ InString st, ScanContinue)) as ->
    by (revert Hc; each_byte c).
  cbn [fst]. rewrite IH by done. apply Nat.max_id.
Qed.

Lemma nesting_quoted text : all_bytes htmlSafe text = true -> nesting (quoted text) newScanner = 0%nat.
Proof. intros Ht. apply (nesting_safe text []). done. Qed.

End JsonText.
