(* ===== verification/Times.v ===== *)
(** * Dates in JSON

    [time.Time.MarshalJSON]: the date of an instant in the proleptic Gregorian
    calendar, and its RFC 3339 text.  The calendar counts in days from
    January 1 of the year 1; the offset of the location that a time carries is
    a parameter. *)

From stdpp Require Import base list strings option.
From Stdlib Require Import ZArith Lia Strings.Ascii.
From S2P Require Import Prelude GoStrings Json JsonText.

#[local] Open Scope Z_scope.

Module Times.
Import Json JsonText.

(** ** The calendar *)

Definition isLeap (year : Z) : bool :=
  bool_decide (year mod 4 = 0) && (negb (bool_decide (year mod 100 = 0)) || bool_decide (year mod 400 = 0)).

Definition daysPer400Years : Z := 365 * 400 + 97.
Definition daysPer100Years : Z := 365 * 100 + 24.
Definition daysPer4Years : Z := 365 * 4 + 1.

(** The days of a common year before each month. *)
Definition daysBefore (month : Z) : Z :=
  match month with
  | 1 => 0 | 2 => 31 | 3 => 59 | 4 => 90 | 5 => 120 | 6 => 151
  | 7 => 181 | 8 => 212 | 9 => 243 | 10 => 273 | 11 => 304 | 12 => 334 | _ => 365
  end.

Definition daysIn (month year : Z) : Z :=
  if isLeap year && bool_decide (month = 2) then 29 else daysBefore (month + 1) - daysBefore month.

(** The year and the day in it, from zero: cycles of 400, 100, 4 and 1 years,
    the last of the shorter cycles being a day longer than the others. *)
Definition yearDay (d : Z) : Z * Z :=
  let n := d / daysPer400Years in
  let (y, d) := (400 * n, d - daysPer400Years * n) in
  let n := d / daysPer100Years in let n := n - Z.shiftr n 2 in
  let (y, d) := (y + 100 * n, d - daysPer100Years * n) in
  let n := d / daysPer4Years in
  let (y, d) := (y + 4 * n, d - daysPer4Years * n) in
  let n := d / 365 in let n := n - Z.shiftr n 2 in
  (y + n + 1, d - 365 * n).

(** The month and the day in it of a day of a common year: every month has at
    most 31 days, so that the estimate is off by at most one. *)
Definition monthDay (day : Z) : Z * Z :=
  let month := day / 31 in
  let end_ := daysBefore (month + 2) in
  if decide (day >= end_) then (month + 2, day - end_ + 1)
  else (month + 1, day - daysBefore (month + 1) + 1).

(** [t.Date()] *)
Definition date (d : Z) : Z * (Z * Z) :=
  let (year, yday) := yearDay d in
  if isLeap year then
    if decide (yday > 31 + 29 - 1) then (year, monthDay (yday - 1))
    else if decide (yday = 31 + 29 - 1) then (year, (2, 29))
    else (year, monthDay yday)
  else (year, monthDay yday).

(** ** The calendar is right *)

(** The days before a year, and before a day of it. *)
Definition daysBeforeYear (year : Z) : Z :=
  let y := year - 1 in 365 * y + y / 4 - y / 100 + y / 400.

Definition dayNumber (year month day : Z) : Z :=
  daysBeforeYear year + daysBefore month
  + (if isLeap year && bool_decide (2 < month) then 1 else 0) + (day - 1).

Lemma isLeap_spec y :
  isLeap y = true <-> y mod 4 = 0 /\ (y mod 100 <> 0 \/ y mod 400 = 0).
Proof.
  unfold isLeap. rewrite andb_true_iff, orb_true_iff, negb_true_iff, bool_decide_eq_false,
    !bool_decide_eq_true. done.
Qed.

(** The cycles of a year. *)
Definition cycles (y a b c e : Z) : Prop :=
  y = 400 * a + 100 * b + 4 * c + e + 1 /\ 0 <= b <= 3 /\ 0 <= c <= 24 /\ 0 <= e <= 3.

Lemma cycles_before y a b c e :
  cycles y a b c e ->
  daysBeforeYear y = daysPer400Years * a + daysPer100Years * b + daysPer4Years * c + 365 * e.
Proof.
  intros (-> & Hb & Hc & He). unfold daysBeforeYear, daysPer400Years, daysPer100Years, daysPer4Years.
  replace (400 * a + 100 * b + 4 * c + e + 1 - 1) with (400 * a + 100 * b + 4 * c + e) by lia.
  assert ((400 * a + 100 * b + 4 * c + e) / 4 = 100 * a + 25 * b + c)
    by (symmetry; apply Z.div_unique with e; lia).
  assert ((400 * a + 100 * b + 4 * c + e) / 100 = 4 * a + b)
    by (symmetry; apply Z.div_unique with (4 * c + e); lia).
  assert ((400 * a + 100 * b + 4 * c + e) / 400 = a)
    by (symmetry; apply Z.div_unique with (100 * b + 4 * c + e); lia).
  lia.
Qed.

(** The fourth year of a cycle is a leap year, unless it ends a century that
    does not end a cycle of 400 years. *)
Lemma cycles_leap y a b c e :
  cycles y a b c e -> isLeap y = true <-> e = 3 /\ (c < 24 \/ b = 3).
Proof.
  intros (-> & Hb & Hc & He). rewrite isLeap_spec.
  rewrite (Z.mod_eq _ 4), (Z.mod_eq _ 100), (Z.mod_eq _ 400) by lia.
  Z.to_euclidean_division_equations. lia.
Qed.

Lemma last_cycle n : 0 <= n <= 4 -> n - Z.shiftr n 2 = Z.min n 3.
Proof.
  intros H. rewrite Z.shiftr_div_pow2 by lia. change (2 ^ 2) with 4.
  destruct (decide (n = 4)) as [->|]; [done|]. rewrite Z.div_small by lia. lia.
Qed.

Lemma yearDay_spec d :
  let (y, yday) := yearDay d in
  d = daysBeforeYear y + yday /\ 0 <= yday < 365 + (if isLeap y then 1 else 0).
Proof.
  unfold yearDay. cbv zeta beta iota.
  pose proof (Z.div_mod d daysPer400Years ltac:(done)) as Ha.
  pose proof (Z.mod_pos_bound d daysPer400Years ltac:(done)) as Hr0.
  set (a := d / daysPer400Years) in *. set (r0 := d mod daysPer400Years) in *.
  replace (d - daysPer400Years * a) with r0 by lia.
  unfold daysPer400Years, daysPer100Years, daysPer4Years in *.
  rewrite (last_cycle (r0 / (365 * 100 + 24))) by
    (split; [apply Z.div_pos; lia|apply Z.lt_succ_r, Z.div_lt_upper_bound; lia]).
  set (b := Z.min (r0 / (365 * 100 + 24)) 3).
  assert (Hb : 0 <= b <= 3 /\ 0 <= r0 - 36524 * b <= 36524 /\ (b < 3 -> r0 - 36524 * b < 36524))
    by (subst b; Z.to_euclidean_division_equations; lia).
  clearbody b. set (r1 := r0 - (365 * 100 + 24) * b) in *.
  set (c := r1 / (365 * 4 + 1)).
  assert (Hc : 0 <= c <= 24 /\ 0 <= r1 - 1461 * c < 1461)
    by (subst c; Z.to_euclidean_division_equations; lia).
  clearbody c. set (r2 := r1 - (365 * 4 + 1) * c) in *.
  rewrite (last_cycle (r2 / 365)) by
    (split; [apply Z.div_pos; lia|apply Z.lt_succ_r, Z.div_lt_upper_bound; lia]).
  set (e := Z.min (r2 / 365) 3).
  assert (He : 0 <= e <= 3 /\ 0 <= r2 - 365 * e <= 365 /\ (e < 3 -> r2 - 365 * e < 365))
    by (subst e; Z.to_euclidean_division_equations; lia).
  clearbody e. assert (Hy : cycles (400 * a + 100 * b + 4 * c + e + 1) a b c e) by (split; lia).
  rewrite (cycles_before _ a b c e Hy). pose proof (cycles_leap _ a b c e Hy) as Hl.
  unfold daysPer400Years, daysPer100Years, daysPer4Years. split; [lia|].
  destruct (isLeap _); [lia|]. split; [lia|].
  assert (~ (e = 3 /\ (c < 24 \/ b = 3))) by (by rewrite <- Hl). lia.
Qed.

(** Evaluates the table on numbers. *)
Ltac compute_days :=
  repeat match goal with
  | H : context [daysBefore ?m] |- _ =>
      let v := eval vm_compute in (daysBefore m) in progress change (daysBefore m) with v in H
  | |- context [daysBefore ?m] =>
      let v := eval vm_compute in (daysBefore m) in progress change (daysBefore m) with v
  end.

Lemma monthDay_spec day :
  0 <= day < 365 ->
  let (m, dd) := monthDay day in
  1 <= m <= 12 /\ 1 <= dd <= daysBefore (m + 1) - daysBefore m /\ day = daysBefore m + (dd - 1).
Proof.
  intros Hd. unfold monthDay. pose proof (Z.div_mod day 31 ltac:(done)) as Hq.
  pose proof (Z.mod_pos_bound day 31 ltac:(done)) as Hr.
  assert (Hm : 0 <= day / 31 <= 11)
    by (split; [apply Z.div_pos; lia|apply Z.lt_succ_r, Z.div_lt_upper_bound; lia]).
  set (q := day / 31) in *. set (r := day mod 31) in *. clearbody q r.
  assert (q = 0 \/ q = 1 \/ q = 2 \/ q = 3 \/ q = 4 \/ q = 5 \/ q = 6 \/ q = 7 \/ q = 8 \/ q = 9
    \/ q = 10 \/ q = 11) as Hc by lia.
  destruct_or! Hc; subst q; case_decide as Hx; compute_days; lia.
Qed.

Lemma month_cases m :
  1 <= m <= 12 -> m = 1 \/ m = 2 \/ m = 3 \/ m = 4 \/ m = 5 \/ m = 6 \/ m = 7 \/ m = 8 \/ m = 9
  \/ m = 10 \/ m = 11 \/ m = 12.
Proof. lia. Qed.

(** A date is in the calendar, and names the day. *)
Lemma date_spec d :
  let '(y, (m, dd)) := date d in
  1 <= m <= 12 /\ 1 <= dd <= daysIn m y /\ dayNumber y m dd = d.
Proof.
  unfold date. pose proof (yearDay_spec d) as Hy. destruct (yearDay d) as [y yday].
  destruct Hy as [Hd Hr]. unfold dayNumber, daysIn. destruct (isLeap y) eqn:Hl; cbn [andb].
  - destruct (decide (yday > 31 + 29 - 1)) as [Hx|Hx];
      [|destruct (decide (yday = 31 + 29 - 1)) as [Hx'|Hx']].
    + pose proof (monthDay_spec (yday - 1) ltac:(lia)) as Hm.
      destruct (monthDay (yday - 1)) as [m dd]. destruct Hm as (Hm & Hdd & He).
      assert (2 < m) by (pose proof (month_cases m Hm) as Hc; destruct_or! Hc; subst m; compute_days; lia).
      rewrite (bool_decide_true (2 < m)), (bool_decide_false (m = 2)) by lia. rewrite Hl; cbv iota; cbn [andb]. lia.
    + rewrite (bool_decide_true (2 = 2)), (bool_decide_false (2 < 2)) by lia. rewrite Hl; cbv iota; cbn [andb].
      compute_days. lia.
    + pose proof (monthDay_spec yday ltac:(lia)) as Hm.
      destruct (monthDay yday) as [m dd]. destruct Hm as (Hm & Hdd & He).
      assert (m <= 2) by (pose proof (month_cases m Hm) as Hc; destruct_or! Hc; subst m; compute_days; lia).
      rewrite (bool_decide_false (2 < m)) by lia.
      destruct (decide (m = 2)) as [->|]; [rewrite bool_decide_true by done; rewrite Hl; cbv iota; cbn [andb]; compute_days; lia|].
      rewrite bool_decide_false by done. rewrite Hl; cbv iota; cbn [andb]. lia.
  - pose proof (monthDay_spec yday ltac:(lia)) as Hm. destruct (monthDay yday) as [m dd]. rewrite Hl. cbn [andb]. lia.
Qed.

(** ** Texts *)

(** [appendInt] of a number that has at most [width] digits *)
Fixpoint fixed (width : nat) (n : Z) : string :=
  match width with
  | O => ""
  | S w => fixed w (n / 10) +:+ String (digit (n mod 10)) ""
  end.

Fixpoint trimZeros (s : string) : string :=
  match s with
  | EmptyString => ""
  | String c s' =>
      let rest := trimZeros s' in
      if bool_decide (c = "0"%char) && bool_decide (rest = "") then "" else String c rest
  end.

(** The fraction of a second, without the zeros at its end. *)
Definition fraction (nanos : Z) : string :=
  if decide (nanos = 0) then "" else String "."%char (trimZeros (fixed 9 nanos)).

(** [Z] or the offset in hours and minutes. *)
Definition zoneText (offset : Z) : string :=
  if decide (offset = 0) then "Z"
  else
    let zone := Z.abs (Z.quot offset 60) in
    (if decide (Z.quot offset 60 < 0) then "-" else "+") +:+
    fixed 2 (zone / 60) +:+ ":" +:+ fixed 2 (zone mod 60).

Definition errYear : error :=
  Errorf "Time.MarshalJSON: year outside of range [0,9999]".
Definition errZoneHour : error :=
  Errorf "Time.MarshalJSON: timezone hour outside of range [0,23]".

(** Days from the year 1 to 1970. *)
Definition unixDays : Z := 719162.

(** [appendStrictRFC3339]; an instant is in nanoseconds from 1970, and
    [offset] in seconds. *)
Definition formatRFC3339 (offset : Z) (t : time) : result string :=
  let seconds := t / second + offset in
  let '(year, (month, day)) := date (seconds / 86400 + unixDays) in
  let sod := seconds mod 86400 in
  if decide (0 <= year <= 9999) then
    if decide (Z.abs (Z.quot offset 60) / 60 < 24) then
      Ok (fixed 4 year +:+ "-" +:+ fixed 2 month +:+ "-" +:+ fixed 2 day +:+ "T" +:+
          fixed 2 (sod / 3600) +:+ ":" +:+ fixed 2 (sod mod 3600 / 60) +:+ ":" +:+
          fixed 2 (sod mod 60) +:+ fraction (t mod second) +:+ zoneText offset)
    else Err errZoneHour
  else Err errYear.

(** [time.Time.MarshalJSON] *)
Definition MarshalJSON (offset : Z) (t : time) : result string :=
  let! text := formatRFC3339 offset t in Ok (quoted text).

(** ** The texts are plain *)

Lemma all_bytes_append (P : ascii -> bool) a b :
  all_bytes P (a +:+ b) = all_bytes P a && all_bytes P b.
Proof.
  induction a as [|c a IH]; [done|]. rewrite append_cons. cbn [all_bytes]. by rewrite IH, andb_assoc.
Qed.

Lemma fixed_safe width n : all_bytes htmlSafe (fixed width n) = true.
Proof.
  revert n. induction width as [|w IH]; intros n; [done|]. cbn [fixed].
  rewrite all_bytes_append, IH. cbn [all_bytes]. rewrite andb_true_r.
  assert (isDigit (digit (n mod 10)) = true) as Hd by (apply digit_isDigit, Z.mod_pos_bound; lia).
  revert Hd. generalize (digit (n mod 10)). intros c. each_byte c.
Qed.

Lemma trimZeros_safe s : all_bytes htmlSafe s = true -> all_bytes htmlSafe (trimZeros s) = true.
Proof.
  induction s as [|c s IH]; [done|]. cbn [all_bytes trimZeros]. intros [Hc Hs]%andb_true_iff.
  destruct (_ && _); [done|]. cbn [all_bytes]. by rewrite Hc, IH.
Qed.

Lemma fraction_safe n : all_bytes htmlSafe (fraction n) = true.
Proof. unfold fraction. case_decide; [done|]. cbn [all_bytes]. by rewrite trimZeros_safe by apply fixed_safe. Qed.

Lemma zoneText_safe offset : all_bytes htmlSafe (zoneText offset) = true.
Proof.
  unfold zoneText. case_decide; [done|]. rewrite !all_bytes_append, !fixed_safe. by case_decide.
Qed.

Lemma formatRFC3339_safe offset t text :
  formatRFC3339 offset t = Ok text -> all_bytes htmlSafe text = true.
Proof.
  unfold formatRFC3339. destruct (date _) as [y [m d]]. repeat case_decide; try done.
  intros E. apply (inj Ok) in E as <-. by rewrite !all_bytes_append, !fixed_safe, fraction_safe, zoneText_safe.
Qed.

(** The text of a time is a JSON string. *)
Lemma MarshalJSON_text offset t text :
  MarshalJSON offset t = Ok text ->
  exists date, formatRFC3339 offset t = Ok date /\ renders text (JString date) /\
    nesting text newScanner = 0%nat.
Proof.
  intros H. apply result_bind_Ok in H as (d & Hd & [= <-]). exists d. split; [done|].
  pose proof (formatRFC3339_safe offset t d Hd) as Hs.
  split; [by apply quoted_text|by apply nesting_quoted].
Qed.

End Times.
