(* ===== verification/Wire.v ===== *)
(** * The ssh wire format

    [ssh.Marshal] and [ssh.Unmarshal] of the vendored ssh package walk the
    fields of a struct by reflection.  A struct type is described by its name,
    the names and kinds of its fields, and the message types its [sshtype] tag
    allows.  The structs of this program ([forwardRequest], [tunnelData] in two
    packages, the [exec] payload and the [exit-status] payload) and those of
    the authentication protocol have the kinds below; the codec has the cases
    of these kinds (arrays, 64-bit integers, name lists and big integers are
    not among them). *)

From stdpp Require Import base list strings.
From Stdlib Require Import ZArith Lia Ascii.
From Stdlib Require Import Strings.Byte.
From S2P Require Import Prelude GoStrings Bytes.

#[local] Open Scope Z_scope.

(** ** Reflection over a struct *)

(** [KBytes] is a [[]byte]; [KRest] one with the tag [ssh:"rest"]. *)
Inductive kind : Set := KBool | KUint8 | KUint32 | KString | KBytes | KRest.

#[export] Instance kind_eq_dec : EqDecision kind.
Proof. solve_decision. Defined.

Definition field (k : kind) : Type :=
  match k with
  | KBool => bool
  | KUint8 => byte
  | KUint32 => Z
  | KString => string
  | KBytes | KRest => list byte
  end.

Fixpoint fields (ks : list kind) : Type :=
  match ks with
  | [] => unit
  | k :: ks' => (field k * fields ks')%type
  end.

(** A struct type: its name, its message types, the names and kinds of its
    fields in order, and its values as tuples of field values. *)
Class WireStruct (T : Type) : Type := {
  struct_name : string;
  struct_types : list byte;
  struct_names : list string;
  struct_kinds : list kind;
  struct_fields : T -> fields struct_kinds;
  struct_make : fields struct_kinds -> T;
  struct_make_fields : forall t, struct_make (struct_fields t) = t;
  struct_fields_make : forall vs, struct_fields (struct_make vs) = vs;
}.

Definition errShortRead : error := Sentinel "ssh: short read".
Definition parseError (tag : byte) : error :=
  Errorf ("ssh: parse error in message type " +:+ formatUint32 (byte_val tag)).
Definition fieldError (name typeName : string) : error :=
  Errorf ("ssh: unmarshal error for field " +:+ name +:+ " of type " +:+ typeName).

Definition parseString (inp : list byte) : option (list byte * list byte) :=
  match inp with
  | b0 :: b1 :: b2 :: b3 :: inp' =>
      let length := be_uint32 b0 b1 b2 b3 in
      if decide (uint32 (len inp') < length) then None
      else Some (take (Z.to_nat length) inp', drop (Z.to_nat length) inp')
  | _ => None
  end.

Definition parseUint32 (inp : list byte) : option (Z * list byte) :=
  match inp with
  | b0 :: b1 :: b2 :: b3 :: inp' => Some (be_uint32 b0 b1 b2 b3, inp')
  | _ => None
  end.

(** One iteration of the loop of [Unmarshal] over the fields. *)
Definition unmarshalField (typeName name : string) (k : kind)
    : list byte -> result (field k * list byte) :=
  match k with
  | KBool => fun data =>
      match data with
      | b :: rest => Ok (bool_decide (b <> x00), rest)
      | [] => Err errShortRead
      end
  | KUint32 => fun data =>
      match parseUint32 data with
      | Some (u32, rest) => Ok (u32, rest)
      | None => Err errShortRead
      end
  | KUint8 => fun data =>
      match data with
      | b :: rest => Ok (b, rest)
      | [] => Err errShortRead
      end
  | KString => fun data =>
      match parseString data with
      | Some (s, rest) => Ok (string_of_bytes s, rest)
      | None => Err (fieldError name typeName)
      end
  | KRest => fun data => Ok (data, [])
  | KBytes => fun data =>
      match parseString data with
      | Some (s, rest) => Ok (s, rest)
      | None => Err errShortRead
      end
  end.

Fixpoint unmarshalFields (typeName : string) (names : list string) (ks : list kind)
    (data : list byte) : result (fields ks * list byte) :=
  match ks with
  | [] => Ok (tt, data)
  | k :: ks' =>
      let! (v, data1) := unmarshalField typeName (default "" (head names)) k data in
      let! (vs, data2) := unmarshalFields typeName (tail names) ks' data1 in
      Ok ((v, vs), data2)
  end.

Definition errUnexpectedType (got : byte) (types : list byte) : error :=
  Errorf ("ssh: unexpected message type " +:+ formatUint32 (byte_val got) +:+
          " (expected one of [" +:+
          Join " "%char (map (fun b => formatUint32 (byte_val b)) types) +:+ "])").

(** The message type at the front, when the struct has one. *)
Definition stripType (types : list byte) (data : list byte) : result (list byte) :=
  match types, data with
  | [], _ => Ok data
  | _, [] => Err (parseError (default x00 (head types)))
  | _, b :: rest =>
      if decide (b <> x00 /\ b ∈ types) then Ok rest else Err (errUnexpectedType b types)
  end.

Definition Unmarshal {T} `{WireStruct T} (data : list byte) : result T :=
  let expectedType := default x00 (head struct_types) in
  if decide (len data = 0) then Err (parseError expectedType)
  else
    let! data := stripType struct_types data in
    let! (vs, rest) := unmarshalFields struct_name struct_names struct_kinds data in
    if decide (len rest <> 0) then Err (parseError expectedType)
    else Ok (struct_make vs).

(** One iteration of the loop of [marshalStruct]. *)
Definition marshalField (k : kind) : list byte -> field k -> list byte :=
  match k with
  | KBool => fun out (v : bool) => out ++ [if v then x01 else x00]
  | KUint32 => fun out v => appendU32 out (uint32 v)
  | KUint8 => fun out v => out ++ [v]
  | KString => fun out s => appendInt out (slen s) ++ bytes_of_string s
  | KBytes => fun out s => appendInt out (len s) ++ s
  | KRest => fun out s => out ++ s
  end.

Fixpoint marshalFields (ks : list kind) (out : list byte) : fields ks -> list byte :=
  match ks with
  | [] => fun _ => out
  | k :: ks' => fun vs => marshalFields ks' (marshalField k out vs.1) vs.2
  end.

Definition Marshal {T} `{WireStruct T} (msg : T) : list byte :=
  marshalFields struct_kinds (take 1 struct_types) (struct_fields msg).

(** ** The gateway's messages *)

Record forwardRequest := { fwd_Host : string; fwd_Port : Z }.

#[export] Instance forwardRequest_wire : WireStruct forwardRequest := {
  struct_name := "forwardRequest";
  struct_types := [];
  struct_names := ["Host"; "Port"];
  struct_kinds := [KString; KUint32];
  struct_fields r := (fwd_Host r, (fwd_Port r, tt));
  struct_make vs := {| fwd_Host := vs.1; fwd_Port := vs.2.1 |};
  struct_make_fields := ltac:(by intros []);
  struct_fields_make := ltac:(by intros (? & ? & []));
}.

Record tunnelData := {
  td_Host : string;
  td_Port : Z;
  td_OriginAddress : string;
  td_OriginPort : Z;
}.

#[export] Instance tunnelData_wire : WireStruct tunnelData := {
  struct_name := "tunnelData";
  struct_types := [];
  struct_names := ["Host"; "Port"; "OriginAddress"; "OriginPort"];
  struct_kinds := [KString; KUint32; KString; KUint32];
  struct_fields d :=
    (td_Host d, (td_Port d, (td_OriginAddress d, (td_OriginPort d, tt))));
  struct_make vs :=
    {| td_Host := vs.1; td_Port := vs.2.1;
       td_OriginAddress := vs.2.2.1; td_OriginPort := vs.2.2.2.1 |};
  struct_make_fields := ltac:(by intros []);
  struct_fields_make := ltac:(by intros (? & ? & ? & ? & []));
}.

(** [var execute struct{ Command string }] in [handleSession]. *)
Record executeRequest := { exec_Command : string }.

#[export] Instance executeRequest_wire : WireStruct executeRequest := {
  struct_name := "";
  struct_types := [];
  struct_names := ["Command"];
  struct_kinds := [KString];
  struct_fields e := (exec_Command e, tt);
  struct_make vs := {| exec_Command := vs.1 |};
  struct_make_fields := ltac:(by intros []);
  struct_fields_make := ltac:(by intros (? & []));
}.

(** [exitStatus := struct{ Status uint32 }{}] in [handleSession]. *)
Record exitStatus := { exit_Status : Z }.

#[export] Instance exitStatus_wire : WireStruct exitStatus := {
  struct_name := "";
  struct_types := [];
  struct_names := ["Status"];
  struct_kinds := [KUint32];
  struct_fields e := (exit_Status e, tt);
  struct_make vs := {| exit_Status := vs.1 |};
  struct_make_fields := ltac:(by intros []);
  struct_fields_make := ltac:(by intros (? & []));
}.

Definition ErrInvalidForwardRequest : error := Sentinel "gateway: invalid forward request".
Definition ErrInvalidTunnelData : error := Sentinel "gateway: invalid tunnel data".

Definition unmarshalForwardRequest (payload : list byte) : result forwardRequest :=
  let! request := Unmarshal (T := forwardRequest) payload in
  if decide (fwd_Port request > 65535) then Err ErrInvalidForwardRequest
  else Ok request.

Definition unmarshalTunnelData (payload : list byte) : result tunnelData :=
  let! data := Unmarshal (T := tunnelData) payload in
  if decide (td_Port data > 65535) then Err ErrInvalidTunnelData
  else if decide (td_OriginPort data > 65535) then Err ErrInvalidTunnelData
  else Ok data.

Definition marshalTunnelData (data : tunnelData) : list byte := Marshal data.

(** The extra data of the channel [dialPostgresViaPeer] opens to a peer node. *)
Definition postgresTunnelData : tunnelData :=
  {| td_Host := "postgres"; td_Port := 5432;
     td_OriginAddress := "localhost"; td_OriginPort := 0 |}.

(** ** Well-formed field values *)

(** A [uint32] is in range, and a string or a slice is short enough for its
    length to be a [uint32]. *)
Definition field_wf (k : kind) : field k -> Prop :=
  match k with
  | KUint32 => fun v => 0 <= v < 4294967296
  | KString => fun s => slen s < 4294967296
  | KBytes => fun s => len s < 4294967296
  | KBool | KUint8 | KRest => fun _ => True
  end.

Fixpoint fields_wf (ks : list kind) : fields ks -> Prop :=
  match ks with
  | [] => fun _ => True
  | k :: ks' => fun vs => field_wf k vs.1 /\ fields_wf ks' vs.2
  end.

Definition struct_wf {T} `{WireStruct T} (t : T) : Prop :=
  fields_wf struct_kinds (struct_fields t).

(** A field that takes the rest of the message is the last one, and nothing
    follows the message. *)
Fixpoint rest_last (ks : list kind) (rest : list byte) : Prop :=
  match ks with
  | [] => True
  | KRest :: ks' => ks' = [] /\ rest = []
  | _ :: ks' => rest_last ks' rest
  end.

(** A message type is not 0. *)
Definition types_wf (types : list byte) : Prop :=
  match types with
  | [] => True
  | b :: _ => b <> x00
  end.

(** ** Round trips of one field *)

Lemma parseUint32_append n rest :
  0 <= n < 4294967296 -> parseUint32 (appendU32 [] n ++ rest) = Some (n, rest).
Proof. intros Hn. simpl. by rewrite be_uint32_appendU32. Qed.

Lemma parseString_append bs rest :
  len bs < 4294967296 -> len bs + len rest < 4294967296 ->
  parseString (appendInt [] (len bs) ++ bs ++ rest) = Some (bs, rest).
Proof.
  intros Hb Hr. pose proof (len_nonneg bs). pose proof (len_nonneg rest).
  unfold appendInt. rewrite uint32_small by lia. simpl.
  rewrite be_uint32_appendU32, len_app, uint32_small by lia.
  rewrite decide_False by lia. unfold len. rewrite Nat2Z.id.
  by rewrite take_app_length, drop_app_length.
Qed.

Lemma appendU32_app out n : appendU32 out n = out ++ appendU32 [] n.
Proof. done. Qed.

Lemma marshalField_app k out v : marshalField k out v = out ++ marshalField k [] v.
Proof.
  destruct k; simpl; try done; unfold appendInt, appendU32; by rewrite <- !app_assoc.
Qed.

Lemma marshalFields_app ks out vs : marshalFields ks out vs = out ++ marshalFields ks [] vs.
Proof.
  revert out. induction ks as [|k ks IH]; intros out; cbn [marshalFields]; [by rewrite app_nil_r|].
  rewrite IH, (IH vs.2 (marshalField k [] vs.1)), marshalField_app. by rewrite app_assoc.
Qed.

Lemma parseString_marshal bs rest :
  len bs < 4294967296 -> len ((appendInt [] (len bs) ++ bs) ++ rest) < 4294967296 ->
  parseString ((appendInt [] (len bs) ++ bs) ++ rest) = Some (bs, rest).
Proof.
  intros Hb Hlen. rewrite <- app_assoc. apply parseString_append; [done|].
  rewrite !len_app in Hlen. pose proof (len_nonneg (appendInt [] (len bs))). lia.
Qed.

Lemma unmarshalField_marshal tn n k v rest :
  field_wf k v -> rest_last [k] rest -> len (marshalField k [] v ++ rest) < 4294967296 ->
  unmarshalField tn n k (marshalField k [] v ++ rest) = Ok (v, rest).
Proof.
  destruct k; intros Hwf Hl Hlen;
    cbn [unmarshalField marshalField field_wf field rest_last app] in *.
  - by destruct v.
  - done.
  - rewrite uint32_small by done. by rewrite parseUint32_append.
  - rewrite <- len_bytes_of_string in *. rewrite parseString_marshal by done.
    by rewrite string_of_bytes_of_string.
  - by rewrite parseString_marshal.
  - destruct Hl as [_ ->]. by rewrite app_nil_r.
Qed.

Lemma rest_last_cons k ks rest (vs : fields ks) :
  rest_last (k :: ks) rest -> rest_last [k] (marshalFields ks [] vs ++ rest) /\ rest_last ks rest.
Proof. destruct k; simpl; try done. by intros [-> ->]. Qed.

Lemma unmarshalFields_marshal tn names ks vs rest :
  fields_wf ks vs -> rest_last ks rest -> len (marshalFields ks [] vs ++ rest) < 4294967296 ->
  unmarshalFields tn names ks (marshalFields ks [] vs ++ rest) = Ok (vs, rest).
Proof.
  revert names. induction ks as [|k ks IH]; intros names Hwf Hl Hlen.
  { by destruct vs. }
  destruct vs as [v vs], Hwf as [Hv Hvs]. cbn [unmarshalFields marshalFields fst snd] in *.
  apply (rest_last_cons k ks rest vs) in Hl as [Hk Hl].
  rewrite marshalFields_app, <- app_assoc in Hlen |- *.
  rewrite unmarshalField_marshal by done. cbn [result_bind].
  rewrite IH; [done..|]. rewrite len_app in Hlen.
  pose proof (len_nonneg (marshalField k [] v)). lia.
Qed.

(** The converse: what the parser of a field accepts is the encoding of what
    it returns, booleans apart, for which any byte but 0 is true. *)
Lemma parseString_Some data s rest :
  len data < 4294967296 -> parseString data = Some (s, rest) ->
  data = (appendInt [] (len s) ++ s) ++ rest /\ len s < 4294967296.
Proof.
  intros Hlen E. unfold parseString in E. do 4 (destruct data as [|? data]; [done|]).
  case_decide as Hd; [done|]. simplify_eq.
  assert (Hl : len data < 4294967296) by (unfold len in *; cbn [length] in Hlen; lia).
  pose proof (be_uint32_bound b b0 b1 b2). pose proof (len_nonneg data).
  rewrite uint32_small in Hd by lia.
  set (n := be_uint32 b b0 b1 b2) in *.
  assert (Hn : len (take (Z.to_nat n) data) = n)
    by (unfold len in *; rewrite length_take; lia).
  rewrite Hn. split; [|lia].
  unfold appendInt. rewrite uint32_small by done. unfold n.
  rewrite appendU32_be_uint32, <- app_assoc. cbn [app]. by rewrite take_drop.
Qed.

Lemma marshal_unmarshalField tn n k data v rest :
  k <> KBool -> len data < 4294967296 -> unmarshalField tn n k data = Ok (v, rest) ->
  data = marshalField k [] v ++ rest /\ field_wf k v.
Proof.
  destruct k; intros Hk Hlen H; cbn [unmarshalField marshalField field_wf field] in *.
  - done.
  - destruct data; by simplify_eq.
  - destruct (parseUint32 data) as [[u r]|] eqn:E; [|done]. simplify_eq.
    unfold parseUint32 in E. do 4 (destruct data as [|? data]; [done|]). simplify_eq.
    pose proof (be_uint32_bound b b0 b1 b2). rewrite uint32_small by done.
    by rewrite appendU32_be_uint32.
  - destruct (parseString data) as [[s r]|] eqn:E; [|done]. simplify_eq.
    rewrite bytes_of_string_of_bytes, slen_string_of_bytes. by apply parseString_Some.
  - destruct (parseString data) as [[s r]|] eqn:E; [|done]. simplify_eq.
    by apply parseString_Some.
  - simplify_eq. by rewrite app_nil_r.
Qed.

Lemma marshal_unmarshalFields tn names ks data vs rest :
  KBool ∉ ks -> len data < 4294967296 -> unmarshalFields tn names ks data = Ok (vs, rest) ->
  data = marshalFields ks [] vs ++ rest /\ fields_wf ks vs.
Proof.
  revert names data. induction ks as [|k ks IH]; intros names data Hb Hlen H.
  { cbn in H. by simplify_eq. }
  apply not_elem_of_cons in Hb as [Hk Hb]. cbn [unmarshalFields] in H.
  apply result_bind_Ok in H as ([v data1] & H1 & H).
  apply result_bind_Ok in H as ([vs' data2] & H2 & H). simplify_eq.
  apply marshal_unmarshalField in H1 as [-> Hwf]; [|done..].
  rewrite len_app in Hlen. pose proof (len_nonneg (marshalField k [] v)).
  apply IH in H2 as [-> Hwfs]; [|done|lia]. cbn [marshalFields fields_wf fst snd].
  rewrite (marshalFields_app ks (marshalField k [] v)), <- app_assoc. done.
Qed.

(** ** Round trips of whole messages *)

Section messages.
Context {T : Type} `{WireStruct T}.

Lemma stripType_Marshal (t : T) :
  types_wf struct_types ->
  stripType struct_types (Marshal t) = Ok (marshalFields struct_kinds [] (struct_fields t)).
Proof.
  unfold Marshal. rewrite marshalFields_app.
  destruct struct_types as [|b types]; [done|]. simpl. intros Hb.
  rewrite decide_True; [done|]. split; [done|]. by left.
Qed.

Lemma Unmarshal_Marshal (t : T) :
  types_wf struct_types -> rest_last struct_kinds [] -> struct_wf t ->
  0 < len (Marshal t) < 4294967296 ->
  Unmarshal (Marshal t) = Ok t.
Proof.
  intros Ht Hr Hwf Hlen. unfold Unmarshal. rewrite decide_False by lia.
  rewrite stripType_Marshal by done. cbn [result_bind].
  rewrite <- (app_nil_r (marshalFields _ _ _)).
  rewrite unmarshalFields_marshal; [|done..|].
  - cbn [result_bind]. rewrite decide_False by (unfold len; simpl; lia).
    by rewrite struct_make_fields.
  - unfold Marshal in Hlen. rewrite marshalFields_app, len_app in Hlen. rewrite app_nil_r.
    pose proof (len_nonneg (take 1 struct_types)). lia.
Qed.

(** Encoding is injective on the values that can be decoded. *)
Lemma Marshal_inj (t t' : T) :
  types_wf struct_types -> rest_last struct_kinds [] -> struct_wf t -> struct_wf t' ->
  0 < len (Marshal t) < 4294967296 -> Marshal t = Marshal t' -> t = t'.
Proof.
  intros Ht Hr Hw Hw' Hlen E. apply Unmarshal_Marshal in Hw; [|done..].
  rewrite E in Hw, Hlen. rewrite Unmarshal_Marshal in Hw by done. congruence.
Qed.

Lemma Marshal_Unmarshal data (t : T) :
  struct_types = [] -> KBool ∉ struct_kinds ->
  len data < 4294967296 -> Unmarshal data = Ok t -> Marshal t = data /\ struct_wf t.
Proof.
  unfold Unmarshal, Marshal, struct_wf. intros Ht Hb Hlen Hu. rewrite Ht in *.
  case_decide as Hz; [done|]. cbn [stripType result_bind] in Hu.
  apply result_bind_Ok in Hu as ([vs rest] & Hf & Hu).
  case_decide as Hr; simplify_eq. rewrite struct_fields_make.
  assert (rest = []) as -> by (destruct rest; [done|]; unfold len in Hr; simpl in Hr; lia).
  apply marshal_unmarshalFields in Hf as [-> Hwf]; [|done..]. by rewrite app_nil_r.
Qed.
End messages.

(** A message whose first field does not take the rest is not empty. *)
Lemma Marshal_nonempty {T} `{WireStruct T} (t : T) k :
  head struct_kinds = Some k -> k <> KRest -> 0 < len (Marshal t).
Proof.
  unfold Marshal. generalize (struct_fields t). destruct struct_kinds as [|k' ks]; [done|].
  cbn [head marshalFields]. intros vs [= ->] Hk.
  rewrite marshalFields_app, len_app, marshalField_app, len_app.
  pose proof (len_nonneg (marshalFields ks [] vs.2)).
  pose proof (len_nonneg (take 1 struct_types)).
  enough (0 < len (marshalField k [] vs.1)) by lia.
  destruct k; try done; cbn [marshalField]; unfold appendInt, appendU32, len;
    rewrite ?length_app; cbn [length app]; lia.
Qed.

(** Decoding is the inverse of encoding, both ways, for messages without a
    type, of strings and numbers. *)
Lemma Unmarshal_iff {T} `{WireStruct T} (data : list byte) (t : T) :
  struct_types = [] -> KBool ∉ struct_kinds -> rest_last struct_kinds [] ->
  head struct_kinds = Some KString -> len data < 4294967296 ->
  Unmarshal data = Ok t <-> data = Marshal t /\ struct_wf t.
Proof.
  intros Ht Hb Hr Hs Hlen. split.
  - intros Hu. by destruct (Marshal_Unmarshal data t Ht Hb Hlen Hu).
  - intros [-> Hwf]. apply Unmarshal_Marshal; try done; [by rewrite Ht|].
    split; [by eapply Marshal_nonempty|done].
Qed.

(** The valid values of the two messages clients send. *)
Definition tunnelData_valid (d : tunnelData) : Prop :=
  slen (td_Host d) < 4294967296 /\ 0 <= td_Port d <= 65535 /\
  slen (td_OriginAddress d) < 4294967296 /\ 0 <= td_OriginPort d <= 65535.

Definition forwardRequest_valid (r : forwardRequest) : Prop :=
  slen (fwd_Host r) < 4294967296 /\ 0 <= fwd_Port r <= 65535.

Lemma unmarshalTunnelData_iff payload d :
  len payload < 4294967296 ->
  unmarshalTunnelData payload = Ok d <-> payload = marshalTunnelData d /\ tunnelData_valid d.
Proof.
  intros Hlen. unfold unmarshalTunnelData, marshalTunnelData, tunnelData_valid.
  rewrite result_bind_Ok. setoid_rewrite Unmarshal_iff; [|done || by apply (bool_decide_unpack _)..].
  unfold struct_wf. simpl. split.
  - intros (d' & [-> Hwf] & Hd). repeat (case_decide; [done|]). simplify_eq.
    split; [done|]. destruct_and!. repeat split; lia.
  - intros [-> Hv]. exists d. destruct_and!.
    rewrite !decide_False by lia. repeat split; try done; lia.
Qed.

Lemma unmarshalForwardRequest_iff payload r :
  len payload < 4294967296 ->
  unmarshalForwardRequest payload = Ok r <-> payload = Marshal r /\ forwardRequest_valid r.
Proof.
  intros Hlen. unfold unmarshalForwardRequest, forwardRequest_valid.
  rewrite result_bind_Ok. setoid_rewrite Unmarshal_iff; [|done || by apply (bool_decide_unpack _)..].
  unfold struct_wf. simpl. split.
  - intros (r' & [-> Hwf] & Hd). case_decide; [done|]. simplify_eq.
    split; [done|]. destruct_and!. repeat split; lia.
  - intros [-> Hv]. exists r. destruct_and!.
    rewrite decide_False by lia. repeat split; try done; lia.
Qed.

Lemma len_marshalTunnelData d :
  len (marshalTunnelData d) = 16 + slen (td_Host d) + slen (td_OriginAddress d).
Proof.
  unfold marshalTunnelData, Marshal. cbn [struct_kinds tunnelData_wire marshalFields marshalField].
  unfold appendInt, appendU32. rewrite !len_app. simpl.
  rewrite !len_bytes_of_string. unfold len. simpl. lia.
Qed.

(** A valid request decodes at the next hop to itself. *)
Lemma unmarshal_marshalTunnelData d :
  tunnelData_valid d -> slen (td_Host d) + slen (td_OriginAddress d) < 4294967280 ->
  unmarshalTunnelData (marshalTunnelData d) = Ok d.
Proof.
  intros Hv Hlen. apply unmarshalTunnelData_iff; [|done]. rewrite len_marshalTunnelData. lia.
Qed.

(** C29: the two decoders of client payloads accept exactly the encodings of
    the valid messages: a payload decodes to a tunnel request (or to a forward
    request) if and only if it is that message's encoding, byte for byte, with
    nothing missing or left over, and the ports are 16-bit numbers; so no two
    payloads decode to the same message, and re-encoding a decoded request for
    the next hop reproduces what arrived. *)
Theorem decoders_exact (payload : list byte) (d : tunnelData) (r : forwardRequest) :
  len payload < 4294967296 ->
  (unmarshalTunnelData payload = Ok d <->
     payload = marshalTunnelData d /\ tunnelData_valid d) /\
  (unmarshalForwardRequest payload = Ok r <->
     payload = Marshal r /\ forwardRequest_valid r).
Proof.
  intros Hlen. split; [by apply unmarshalTunnelData_iff|by apply unmarshalForwardRequest_iff].
Qed.

Lemma decoders_exact_witness :
  unmarshalTunnelData (marshalTunnelData postgresTunnelData) = Ok postgresTunnelData.
Proof.
  refine (proj2 (proj1 (decoders_exact _ _ {| fwd_Host := "web"; fwd_Port := 80 |} _)) _);
    [vm_compute; reflexivity|].
  split; [reflexivity|]. vm_compute. repeat split; intros [=].
Defined.
