(* ===== verification/Window.v ===== *)
(** * Flow control of ssh channels

    The bytes of a tunnel travel in the channels of the vendored ssh package:
    the windows of [common.go], the buffers of [buffer.go], and [channel.go],
    which sends no more than the window of the other side allows and opens its
    own window as its reader takes bytes.  A receiver is first considered
    against any packets, then together with a sender of the same code, as on a
    channel between two nodes; goroutines interleave at the locks. *)

From stdpp Require Import base list strings option relations.
From Stdlib Require Import ZArith Lia.
From Stdlib Require Import Strings.Byte.
From S2P Require Import Prelude Bytes.

#[local] Open Scope Z_scope.

Module Window.

Definition channelMaxPacket : Z := 2 ^ 15.
Definition channelWindowSize : Z := 64 * channelMaxPacket.
(** The largest packet that the transport passes on. *)
Definition maxPacket : Z := 256 * 1024.
Definition msgChannelData : Z := 94.
Definition msgChannelExtendedData : Z := 95.

(** ** The window of the other side, [window] *)

Record window := { win : Z; win_closed : bool }.

(** [add]; [None] is the answer false. *)
Definition add (n : Z) (w : window) : option window :=
  if decide (n = 0) then Some w
  else if decide (uint32 (win w + n) < n) then None
  else Some {| win := uint32 (win w + n); win_closed := win_closed w |}.

(** [reserve]: the bytes reserved and whether the window is closed; [None]
    while it waits. *)
Definition reserve (n : Z) (w : window) : option (Z * bool * window) :=
  if decide (win w = 0 /\ win_closed w = false) then None
  else
    let n := if decide (win w < n) then win w else n in
    Some (n, win_closed w, {| win := uint32 (win w - n); win_closed := win_closed w |}).

Definition minPayloadSize (limit length : Z) : Z :=
  if decide (length > limit) then limit else uint32 length.

(** ** Buffers *)

(** The elements from the head to the tail; there is always one. *)
Record buffer := { elements : list (list byte); buf_closed : bool }.

Definition newBuffer : buffer := {| elements := [[]]; buf_closed := false |}.

Definition write (data : list byte) (b : buffer) : buffer :=
  {| elements := elements b ++ [data]; buf_closed := buf_closed b |}.

Definition eof (b : buffer) : buffer := {| elements := elements b; buf_closed := true |}.

(** The loop of [Read]: what is copied into a slice of [n] bytes, and the
    elements that are left. *)
Fixpoint readElements (n : nat) (es : list (list byte)) : list byte * list (list byte) :=
  match es with
  | [] => ([], [])
  | e :: rest =>
      let got := take n e in
      let n' := (n - length got)%nat in
      match drop n e, rest, n' with
      | [], _ :: _, S _ =>
          let (more, es') := readElements n' rest in (got ++ more, es')
      | e', _, _ => (got, e' :: rest)
      end
  end.

(** [Read]: the bytes and whether it is the end; [None] while it waits. *)
Definition Read (n : nat) (b : buffer) : option (list byte * bool * buffer) :=
  let (data, es) := readElements n (elements b) in
  let b' := {| elements := es; buf_closed := buf_closed b |} in
  if decide (n = O \/ data <> []) then Some (data, false, b')
  else if buf_closed b then Some ([], true, b')
  else None.

Definition contents (b : buffer) : list byte := concat (elements b).

(** ** Receiving *)

Record receiver := {
  myWindow : Z;
  myConsumed : Z;
  maxIncomingPayload : Z;
  pending : buffer;
  extPending : buffer;
}.

(** A channel that was accepted or opened. *)
Definition newChannel : receiver :=
  {| myWindow := channelWindowSize; myConsumed := 0; maxIncomingPayload := channelMaxPacket;
     pending := newBuffer; extPending := newBuffer |}.

Definition parseError : error := Foreign "ssh: parse error in message type %d".
Definition payloadTooLarge : error := Foreign "ssh: incoming packet exceeds maximum payload size".
Definition wrongLength : error := Foreign "ssh: wrong packet length".
Definition wroteTooMuch : error := Foreign "ssh: remote side wrote too much".

(** The header of a data packet: the extended code, the length and the data. *)
Definition splitPacket (packet : list byte) : option (Z * Z * list byte) :=
  match packet with
  | op :: _ :: _ :: _ :: _ :: b0 :: b1 :: b2 :: b3 :: rest =>
      if decide (byte_val op = msgChannelExtendedData) then
        match rest with
        | l0 :: l1 :: l2 :: l3 :: data => Some (be_uint32 b0 b1 b2 b3, be_uint32 l0 l1 l2 l3, data)
        | _ => None
        end
      else Some (0, be_uint32 b0 b1 b2 b3, rest)
  | _ => None
  end.

(** [handleData] up to the release of [windowMu]: the data to store with its
    extended code, if any. *)
Definition takeWindow (packet : list byte) (r : receiver)
    : result (option (Z * list byte) * receiver) :=
  match splitPacket packet with
  | None => Err parseError
  | Some (extended, length, data) =>
      if decide (length = 0) then Ok (None, r)
      else if decide (length > maxIncomingPayload r) then Err payloadTooLarge
      else if decide (length <> uint32 (len data)) then Err wrongLength
      else if decide (myWindow r < length) then Err wroteTooMuch
      else Ok (Some (extended, data),
               {| myWindow := uint32 (myWindow r - length); myConsumed := myConsumed r;
                  maxIncomingPayload := maxIncomingPayload r; pending := pending r;
                  extPending := extPending r |})
  end.

(** The rest of [handleData]; data with another extended code is dropped. *)
Definition storeData (extended : Z) (data : list byte) (r : receiver) : receiver :=
  if decide (extended = 1) then
    {| myWindow := myWindow r; myConsumed := myConsumed r; maxIncomingPayload := maxIncomingPayload r;
       pending := pending r; extPending := write data (extPending r) |}
  else if decide (extended > 0) then r
  else
    {| myWindow := myWindow r; myConsumed := myConsumed r; maxIncomingPayload := maxIncomingPayload r;
       pending := write data (pending r); extPending := extPending r |}.

Definition handleData (packet : list byte) (r : receiver) : result receiver :=
  let! (stored, r) := takeWindow packet r in
  match stored with
  | None => Ok r
  | Some (extended, data) => Ok (storeData extended data r)
  end.

(** [adjustWindow], with the number of bytes that is sent to the other side. *)
Definition adjustWindow (adj : Z) (r : receiver) : Z * receiver :=
  let consumed := uint32 (myConsumed r + adj) in
  if decide (uint32 (channelWindowSize - myWindow r) > uint32 (3 * maxIncomingPayload r)
             \/ myWindow r < channelWindowSize / 2)
  then (consumed,
        {| myWindow := uint32 (myWindow r + consumed); myConsumed := 0;
           maxIncomingPayload := maxIncomingPayload r; pending := pending r;
           extPending := extPending r |})
  else (0,
        {| myWindow := myWindow r; myConsumed := consumed; maxIncomingPayload := maxIncomingPayload r;
           pending := pending r; extPending := extPending r |}).

(** [ReadExtended] up to the call of [adjustWindow]. *)
Definition readData (extended : bool) (n : nat) (r : receiver)
    : option (list byte * bool * receiver) :=
  match Read n (if extended then extPending r else pending r) with
  | None => None
  | Some (data, ended, b) =>
      Some (data, ended,
        {| myWindow := myWindow r; myConsumed := myConsumed r;
           maxIncomingPayload := maxIncomingPayload r;
           pending := if extended then pending r else b;
           extPending := if extended then b else extPending r |})
  end.

(** ** Sending *)

(** The packet that [WriteExtended] makes. *)
Definition dataPacket (remoteId extendedCode : Z) (data : list byte) : list byte :=
  if decide (extendedCode > 0) then
    byte_of msgChannelExtendedData :: appendU32 (appendU32 (appendU32 [] remoteId) extendedCode) (len data)
      ++ data
  else byte_of msgChannelData :: appendU32 (appendU32 [] remoteId) (len data) ++ data.

(** One turn of the loop of [WriteExtended]: the packet and what is left to
    write, or the end of the channel; [None] while it waits. *)
Definition writeTurn (maxRemotePayload remoteId extendedCode : Z) (data : list byte) (w : window)
    : option (option (list byte * list byte) * window) :=
  match reserve (minPayloadSize maxRemotePayload (len data)) w with
  | None => None
  | Some (_, true, w) => Some (None, w)
  | Some (space, false, w) =>
      let todo := take (Z.to_nat space) data in
      Some (Some (dataPacket remoteId extendedCode todo, drop (length todo) data), w)
  end.

(** ** A receiver and any packets *)

(** The channel, the data between its window and its buffer, the counts that
    readers have taken but not yet given to [adjustWindow], and the number of
    bytes that were dropped. *)
Record side := {
  recv : receiver;
  arriving : option (Z * list byte);
  consuming : list Z;
  dropped : Z;
}.

Definition fresh : side := {| recv := newChannel; arriving := None; consuming := []; dropped := 0 |}.

Inductive label :=
| LTake (packet : list byte)
| LStore
| LRead (extended : bool) (data : list byte)
| LAdjust (adj : Z)
| LEof.

Definition closeBuffers (r : receiver) : receiver :=
  {| myWindow := myWindow r; myConsumed := myConsumed r; maxIncomingPayload := maxIncomingPayload r;
     pending := eof (pending r); extPending := eof (extPending r) |}.

Inductive rstep (s : side) : label -> side -> Prop :=
| r_take packet x r :
    len packet <= maxPacket -> arriving s = None -> takeWindow packet (recv s) = Ok (x, r) ->
    rstep s (LTake packet)
      {| recv := r; arriving := x; consuming := consuming s; dropped := dropped s |}
| r_store extended data :
    arriving s = Some (extended, data) ->
    rstep s LStore
      {| recv := storeData extended data (recv s); arriving := None; consuming := consuming s;
         dropped := if decide (extended > 1) then dropped s + len data else dropped s |}
| r_read extended n data ended r :
    readData extended n (recv s) = Some (data, ended, r) -> data <> [] ->
    rstep s (LRead extended data)
      {| recv := r; arriving := arriving s; consuming := consuming s ++ [len data];
         dropped := dropped s |}
| r_adjust l1 n l2 :
    consuming s = l1 ++ n :: l2 ->
    rstep s (LAdjust (adjustWindow n (recv s)).1)
      {| recv := (adjustWindow n (recv s)).2; arriving := arriving s; consuming := l1 ++ l2;
         dropped := dropped s |}
| r_eof :
    rstep s LEof
      {| recv := closeBuffers (recv s); arriving := arriving s; consuming := consuming s;
         dropped := dropped s |}.

(** ** Lemmas *)

Lemma readElements_spec es : forall n,
  (readElements n es).1 = take n (concat es) /\ concat (readElements n es).2 = drop n (concat es).
Proof.
  induction es as [|e rest IH]; intros n; [by destruct n|]. cbn [readElements concat].
  rewrite take_app, drop_app. destruct (drop n e) as [|b e'] eqn:Ed.
  - assert (Hl : (length e <= n)%nat).
    { apply (f_equal length) in Ed. rewrite length_drop in Ed. simpl in Ed. lia. }
    rewrite (take_ge e) by done. destruct rest as [|e1 rest]; [cbn [concat fst snd]; by rewrite take_nil, drop_nil, !app_nil_r|].
    destruct (n - length e)%nat as [|n'] eqn:En; [cbn [fst snd concat app]; by rewrite take_0, drop_0, app_nil_r|].
    specialize (IH (S n')) as [IH1 IH2]. destruct (readElements (S n') (e1 :: rest)) as [more es'].
    cbn [fst snd app] in *. by rewrite IH1, IH2.
  - assert (Hl : (n - length e = 0)%nat).
    { apply (f_equal length) in Ed. rewrite length_drop in Ed. simpl in Ed. lia. }
    rewrite Hl, take_0, drop_0, app_nil_r. by destruct rest.
Qed.

Lemma contents_write data b : contents (write data b) = contents b ++ data.
Proof. unfold contents, write. cbn. by rewrite concat_app, concat_cons, app_nil_r. Qed.

(** [Read] takes from the front of the contents, and waits only on an empty
    buffer. *)
Lemma Read_spec n b :
  match Read n b with
  | Some (data, ended, b') => contents b = data ++ contents b' /\ data = take n (contents b)
  | None => contents b = [] \/ n = O
  end.
Proof.
  unfold Read, contents. destruct (readElements_spec (elements b) n) as [H1 H2].
  destruct (readElements n (elements b)) as [data es]. cbn [fst snd] in H1, H2.
  destruct (decide (n = O \/ data <> [])) as [Hd|Hd].
  - cbn [elements]. by rewrite H2, H1, take_drop.
  - assert (data = []) as -> by (destruct data; naive_solver).
    destruct (buf_closed b); cbn [elements].
    + rewrite H2, H1. by rewrite take_drop.
    + destruct n; [naive_solver|]. left. by destruct (concat (elements b)).
Qed.

Lemma readData_spec extended n r :
  match readData extended n r with
  | Some (data, _, r') =>
      contents (if extended then extPending r else pending r) =
        data ++ contents (if extended then extPending r' else pending r')
      /\ data = take n (contents (if extended then extPending r else pending r))
      /\ contents (if extended then pending r else extPending r) =
           contents (if extended then pending r' else extPending r')
      /\ myWindow r' = myWindow r /\ myConsumed r' = myConsumed r
      /\ maxIncomingPayload r' = maxIncomingPayload r
  | None => contents (if extended then extPending r else pending r) = [] \/ n = O
  end.
Proof.
  unfold readData. pose proof (Read_spec n (if extended then extPending r else pending r)) as H.
  destruct (Read _ _) as [[[data ended] b]|]; [|done]. destruct H as [H1 H2]. by destruct extended.
Qed.

(** ** The window and the buffers of a receiver *)

Definition total (l : list Z) : Z := foldr Z.add 0 l.

Lemma total_app l k : total (l ++ k) = total l + total k.
Proof. unfold total. induction l as [|x l IH]; cbn [foldr app]; lia. Qed.

Lemma total_nonneg l : Forall (fun n => 0 < n) l -> 0 <= total l.
Proof. induction 1; unfold total in *; cbn [foldr]; lia. Qed.

Definition arrived (s : side) : Z :=
  match arriving s with Some (_, data) => len data | None => 0 end.

(** Every byte of the window is granted to the other side, or on its way to a
    reader, or taken by one and not granted again, or dropped. *)
Record rinv (s : side) : Prop := {
  rinv_max : maxIncomingPayload (recv s) = channelMaxPacket;
  rinv_window : 0 <= myWindow (recv s);
  rinv_consumed : 0 <= myConsumed (recv s) <= 3 * channelMaxPacket;
  rinv_consuming : Forall (fun n => 0 < n) (consuming s);
  rinv_dropped : 0 <= dropped s;
  rinv_sum : myWindow (recv s) + myConsumed (recv s) + total (consuming s)
    + len (contents (pending (recv s))) + len (contents (extPending (recv s)))
    + arrived s + dropped s = channelWindowSize;
}.

Lemma fresh_inv : rinv fresh.
Proof. split; vm_compute; try done; try constructor; congruence. Qed.

Lemma takeWindow_Ok packet r x r' :
  len packet <= maxPacket -> maxIncomingPayload r = channelMaxPacket -> 0 <= myWindow r <= channelWindowSize ->
  takeWindow packet r = Ok (x, r') ->
  pending r' = pending r /\ extPending r' = extPending r /\ myConsumed r' = myConsumed r
  /\ maxIncomingPayload r' = maxIncomingPayload r
  /\ match x with
     | None => myWindow r' = myWindow r
     | Some (_, data) => data <> [] /\ myWindow r' = myWindow r - len data /\ len data <= myWindow r
     end.
Proof.
  intros Hlen Hmax Hw. unfold takeWindow.
  destruct (splitPacket packet) as [[[extended length] data]|] eqn:E; [|done].
  assert (Hd : len data <= len packet).
  { unfold splitPacket in E. unfold len. do 9 (destruct packet as [|? packet]; [done|]).
    case_decide; [do 4 (destruct packet as [|? packet]; [done|])|]; injection E as _ _ <-; simpl; lia. }
  pose proof (len_nonneg data). unfold maxPacket in Hlen.
  destruct (decide (length = 0)); [by intros [= <- <-]|].
  destruct (decide (length > _)); [done|]. destruct (decide (length <> _)) as [|Hl%dec_stable]; [done|].
  destruct (decide (myWindow r < length)); [done|]. intros [= <- <-]. cbn.
  rewrite uint32_small in Hl by lia. subst length. unfold channelWindowSize, channelMaxPacket in *.
  rewrite uint32_small by lia. split_and!; try done; [|lia]. by intros ->.
Qed.

Lemma adjustWindow_spec adj r :
  maxIncomingPayload r = channelMaxPacket -> 0 <= myWindow r -> 0 <= myConsumed r -> 0 < adj ->
  myWindow r + myConsumed r + adj <= channelWindowSize ->
  let '(sent, r') := adjustWindow adj r in
  pending r' = pending r /\ extPending r' = extPending r /\ maxIncomingPayload r' = maxIncomingPayload r
  /\ myWindow r' = myWindow r + sent
  /\ myWindow r' + myConsumed r' = myWindow r + myConsumed r + adj
  /\ 0 <= sent /\ 0 <= myConsumed r' <= 3 * channelMaxPacket.
Proof.
  intros Hmax Hw Hc Ha Hs. unfold adjustWindow. rewrite Hmax.
  unfold channelWindowSize, channelMaxPacket in *.
  rewrite (uint32_small (myConsumed r + adj)), (uint32_small (64 * 2 ^ 15 - myWindow r)),
    (uint32_small (3 * 2 ^ 15)) by lia.
  destruct (decide (_ \/ _)) as [Hd|Hd]; cbn.
  - rewrite uint32_small by lia. split_and!; lia || done.
  - split_and!; lia || done.
Qed.

Lemma elem_total l1 n l2 : Forall (fun n => 0 < n) (l1 ++ n :: l2) ->
  0 < n /\ Forall (fun n => 0 < n) (l1 ++ l2) /\ total (l1 ++ n :: l2) = n + total (l1 ++ l2).
Proof.
  intros [H1 [Hn H2]%list.Forall_cons]%Forall_app. split_and!; [done|by apply Forall_app|].
  rewrite !total_app. unfold total. cbn [foldr]. lia.
Qed.

Lemma rstep_inv s l s' : rinv s -> rstep s l s' -> rinv s'.
Proof.
  intros [Hmax Hw Hc Hcs Hd Hsum] Hstep.
  pose proof (total_nonneg _ Hcs). pose proof (len_nonneg (contents (pending (recv s)))).
  pose proof (len_nonneg (contents (extPending (recv s)))).
  assert (Harr : 0 <= arrived s) by (unfold arrived; destruct (arriving s) as [[? ?]|]; [apply len_nonneg|done]).
  destruct Hstep as [packet x r Hl Ha Ht|extended data Ha|extended n data ended r Hr Hne|l1 n l2 Hn|];
    unfold arrived in *.
  - apply takeWindow_Ok in Ht as (Hp & He & Hcn & Hm & Hx); [|done|done|lia]. rewrite Ha in Hsum.
    split; unfold arrived; cbn -[total contents write decide]; rewrite ?Hp, ?He, ?Hcn, ?Hm; try done;
      (destruct x as [[e d]|]; [destruct Hx as (_ & Hx & Hle)|]; lia).
  - rewrite Ha in Hsum, Harr. unfold storeData. case_decide as He1; [|case_decide as He2].
    + split; unfold arrived; cbn -[total contents write decide]; try done; rewrite ?contents_write, ?len_app, ?decide_False by lia; lia.
    + split; unfold arrived; cbn -[total contents write decide]; try done; rewrite ?decide_True by lia; lia.
    + split; unfold arrived; cbn -[total contents write decide]; try done; rewrite ?contents_write, ?len_app, ?decide_False by lia; lia.
  - pose proof (readData_spec extended n (recv s)) as Hrd. rewrite Hr in Hrd.
    destruct Hrd as (Hr1 & _ & Hr2 & Hw' & Hc' & Hm'). apply (f_equal len) in Hr1, Hr2. rewrite len_app in Hr1.
    assert (0 < len data) by (destruct data; [done|unfold len; simpl; lia]).
    split; unfold arrived; cbn -[total contents write decide]; rewrite ?Hw', ?Hc', ?Hm'; try done.
    + apply Forall_app. split; [done|]. by constructor.
    + rewrite total_app. unfold total at 2. cbn [foldr]. destruct extended; lia.
  - rewrite Hn in *. apply elem_total in Hcs as (Hpos & Hrest & Htot). pose proof (total_nonneg _ Hrest).
    pose proof (adjustWindow_spec n (recv s) Hmax Hw ltac:(lia) Hpos ltac:(lia)) as Hadj.
    destruct (adjustWindow n (recv s)) as [sent r']. destruct Hadj as (Hp & He & Hm & Hw' & Hsum' & Hsent & Hc').
    split; unfold arrived; cbn -[total contents write decide]; rewrite ?Hp, ?He, ?Hm; try done; lia.
  - split; unfold arrived; cbn -[total contents write decide]; done.
Qed.

(** ** A sender and a receiver *)

(** One direction of a channel between two nodes: the window of the sender and
    what its call of [Write] has left, the packets and the window adjustments
    under way, and the receiver; the bytes that were given to [Write] and got
    from [Read]; and whether one of the sides gave up on the other. *)
Record system := {
  remoteWin : window;
  writing : list byte;
  wire : list (list byte);
  adjustments : list Z;
  receiving : side;
  written : list byte;
  readBytes : list byte;
  failed : bool;
}.

(** The window that the receiver announced when the channel was opened. *)
Definition opened : system :=
  {| remoteWin := default {| win := 0; win_closed := false |}
                    (add (myWindow newChannel) {| win := 0; win_closed := false |});
     writing := []; wire := []; adjustments := []; receiving := fresh; written := []; readBytes := [];
     failed := false |}.

Section pair.
Context (remoteId : Z).

(** The steps that the goroutines and the connection take by themselves. *)
Inductive internal (s : system) : system -> Prop :=
| w_turn packet rest w :
    writing s <> [] ->
    writeTurn channelMaxPacket remoteId 0 (writing s) (remoteWin s) = Some (Some (packet, rest), w) ->
    internal s {| remoteWin := w; writing := rest; wire := wire s ++ [packet];
                  adjustments := adjustments s; receiving := receiving s; written := written s;
                  readBytes := readBytes s; failed := failed s |}
| w_take packet packets side :
    wire s = packet :: packets -> rstep (receiving s) (LTake packet) side ->
    internal s {| remoteWin := remoteWin s; writing := writing s; wire := packets;
                  adjustments := adjustments s; receiving := side; written := written s;
                  readBytes := readBytes s; failed := failed s |}
| w_refuse packet packets e :
    wire s = packet :: packets -> arriving (receiving s) = None ->
    takeWindow packet (recv (receiving s)) = Err e ->
    internal s {| remoteWin := remoteWin s; writing := writing s; wire := packets;
                  adjustments := adjustments s; receiving := receiving s; written := written s;
                  readBytes := readBytes s; failed := true |}
| w_store side :
    rstep (receiving s) LStore side ->
    internal s {| remoteWin := remoteWin s; writing := writing s; wire := wire s;
                  adjustments := adjustments s; receiving := side; written := written s;
                  readBytes := readBytes s; failed := failed s |}
| w_read data side :
    rstep (receiving s) (LRead false data) side ->
    internal s {| remoteWin := remoteWin s; writing := writing s; wire := wire s;
                  adjustments := adjustments s; receiving := side; written := written s;
                  readBytes := readBytes s ++ data; failed := failed s |}
| w_adjust adj side :
    rstep (receiving s) (LAdjust adj) side ->
    internal s {| remoteWin := remoteWin s; writing := writing s; wire := wire s;
                  adjustments := adjustments s ++ (if decide (adj = 0) then [] else [adj]);
                  receiving := side; written := written s; readBytes := readBytes s;
                  failed := failed s |}
| w_add adj adjs :
    adjustments s = adj :: adjs ->
    internal s {| remoteWin := default (remoteWin s) (add adj (remoteWin s)); writing := writing s;
                  wire := wire s; adjustments := adjs; receiving := receiving s; written := written s;
                  readBytes := readBytes s;
                  failed := match add adj (remoteWin s) with Some _ => failed s | None => true end |}.

(** A call of [Write], once the one before has returned. *)
Inductive step (s : system) : system -> Prop :=
| s_internal s' : internal s s' -> step s s'
| s_write data :
    writing s = [] ->
    step s {| remoteWin := remoteWin s; writing := data; wire := wire s;
              adjustments := adjustments s; receiving := receiving s; written := written s ++ data;
              readBytes := readBytes s; failed := failed s |}.

(** *** Packets *)

Lemma splitPacket_data data :
  len data < 2 ^ 32 -> splitPacket (dataPacket remoteId 0 data) = Some (0, len data, data).
Proof.
  intros Hl. pose proof (len_nonneg data). unfold dataPacket. rewrite decide_False by lia.
  unfold appendU32. cbn [app splitPacket]. rewrite byte_val_of, decide_False by done.
  by rewrite be_uint32_appendU32 by lia.
Qed.

Lemma len_dataPacket data : len (dataPacket remoteId 0 data) = 9 + len data.
Proof.
  unfold dataPacket. rewrite decide_False by lia. unfold appendU32, len. cbn [app length]. lia.
Qed.

Lemma takeWindow_data data r :
  data <> [] -> len data <= channelMaxPacket -> maxIncomingPayload r = channelMaxPacket ->
  len data <= myWindow r -> myWindow r <= channelWindowSize ->
  exists r', takeWindow (dataPacket remoteId 0 data) r = Ok (Some (0, data), r').
Proof.
  intros Hne Hl Hm Hw Hs. assert (0 < len data) by (destruct data; [done|unfold len; simpl; lia]).
  unfold channelWindowSize, channelMaxPacket in *. unfold takeWindow.
  rewrite splitPacket_data by lia. rewrite decide_False by lia. rewrite Hm, decide_False by lia.
  rewrite uint32_small by lia. rewrite decide_False by (by intros ?). rewrite decide_False by lia.
  by eexists.
Qed.

Lemma take_len (data : list byte) k :
  0 < k <= len data -> len (take (Z.to_nat k) data) = k.
Proof. unfold len. intros Hk. rewrite length_take. lia. Qed.

(** A turn of [Write] waits only for the window; it sends at least a byte, and
    no more than the window and the largest payload. *)
Lemma writeTurn_spec data w :
  data <> [] -> 0 <= win w < 2 ^ 32 -> win_closed w = false ->
  if decide (win w = 0) then writeTurn channelMaxPacket remoteId 0 data w = None
  else exists chunk rest w',
    writeTurn channelMaxPacket remoteId 0 data w = Some (Some (dataPacket remoteId 0 chunk, rest), w')
    /\ data = chunk ++ rest /\ chunk <> [] /\ len chunk <= channelMaxPacket
    /\ win w' = win w - len chunk /\ 0 <= win w' /\ win_closed w' = false.
Proof.
  intros Hne Hw Hc. assert (0 < len data) by (destruct data; [done|unfold len; simpl; lia]).
  unfold writeTurn, reserve. destruct (decide (win w = 0)) as [E|E].
  { by rewrite decide_True. }
  rewrite decide_False by (by intros [? _]). rewrite Hc.
  set (want := minPayloadSize channelMaxPacket (len data)).
  assert (Hwant : 0 < want <= channelMaxPacket /\ want <= len data).
  { unfold want, minPayloadSize. case_decide; unfold channelMaxPacket in *; [lia|]. rewrite uint32_small by lia. lia. }
  set (space := if decide (win w < want) then win w else want).
  assert (Hspace : 0 < space <= want /\ space <= win w) by (unfold space; case_decide; lia).
  exists (take (Z.to_nat space) data), (drop (length (take (Z.to_nat space) data)) data).
  eexists. split; [reflexivity|]. pose proof (take_len data space ltac:(lia)) as Ht.
  assert (Hlen : length (take (Z.to_nat space) data) = Z.to_nat space) by (unfold len in Ht; lia).
  rewrite Hlen, take_drop. cbn. rewrite Ht, uint32_small by lia. split_and!; try done; try lia.
  intros E'. rewrite E' in Ht. unfold len in Ht. simpl in Ht. lia.
Qed.

(** *** Invariant *)

Definition arrivingBytes (s : side) : list byte :=
  match arriving s with Some (_, data) => data | None => [] end.

Definition chunk_ok (chunk : list byte) : Prop := chunk <> [] /\ len chunk <= channelMaxPacket.

(** The packets under way are chunks of the stream, between what the receiver
    has and what is left to write; the window that the receiver granted is the
    one the sender has, the packets and the adjustments. *)
Definition flows (s : system) : Prop :=
  exists chunks, wire s = map (dataPacket remoteId 0) chunks /\ Forall chunk_ok chunks
    /\ myWindow (recv (receiving s)) =
         win (remoteWin s) + total (map len chunks) + total (adjustments s)
    /\ written s = readBytes s ++ contents (pending (recv (receiving s)))
         ++ arrivingBytes (receiving s) ++ concat chunks ++ writing s.

Record inv (s : system) : Prop := {
  inv_failed : failed s = false;
  inv_open : win_closed (remoteWin s) = false;
  inv_win : 0 <= win (remoteWin s);
  inv_side : rinv (receiving s);
  inv_code : forall e data, arriving (receiving s) = Some (e, data) -> e = 0;
  inv_ext : contents (extPending (recv (receiving s))) = [];
  inv_none_dropped : dropped (receiving s) = 0;
  inv_adjustments : Forall (fun n => 0 < n) (adjustments s);
  inv_flows : flows s;
}.

Lemma opened_inv : inv opened.
Proof.
  pose proof fresh_inv. split; try done. exists []. split_and!; [done|constructor|reflexivity|done].
Qed.

Lemma rinv_bounds s : rinv s ->
  0 <= myWindow (recv s) <= channelWindowSize /\ len (contents (pending (recv s))) <= channelWindowSize.
Proof.
  intros [_ Hw Hc Hcs Hd Hsum]. pose proof (total_nonneg _ Hcs).
  pose proof (len_nonneg (contents (pending (recv s)))). pose proof (len_nonneg (contents (extPending (recv s)))).
  assert (0 <= arrived s) by (unfold arrived; destruct (arriving s) as [[? ?]|]; [apply len_nonneg|done]). lia.
Qed.

Lemma total_len_nonneg {A} (l : list (list A)) : 0 <= total (map len l).
Proof. unfold total. induction l as [|x l IH]; cbn [map foldr]; [done|]. pose proof (len_nonneg x). lia. Qed.

Lemma flows_bounds s : inv s ->
  0 <= win (remoteWin s) <= channelWindowSize /\ win (remoteWin s) + total (adjustments s) <= channelWindowSize.
Proof.
  intros [_ _ Hw Hs _ _ _ Ha (chunks & _ & _ & Hsum & _)]. apply rinv_bounds in Hs.
  pose proof (total_nonneg _ Ha). pose proof (total_len_nonneg chunks). lia.
Qed.

(** The packet at the front is taken, and the next bytes of the stream arrive. *)
Lemma front_taken s chunks packet packets :
  inv s -> wire s = map (dataPacket remoteId 0) chunks -> Forall chunk_ok chunks ->
  myWindow (recv (receiving s)) = win (remoteWin s) + total (map len chunks) + total (adjustments s) ->
  wire s = packet :: packets ->
  exists chunk rest r', chunks = chunk :: rest /\ chunk <> [] /\ packet = dataPacket remoteId 0 chunk
    /\ packets = map (dataPacket remoteId 0) rest /\ Forall chunk_ok rest /\ len packet <= maxPacket
    /\ takeWindow packet (recv (receiving s)) = Ok (Some (0, chunk), r').
Proof.
  intros Hi Hwire Hok Hsum E. rewrite E in Hwire. destruct chunks as [|chunk rest]; [done|].
  injection Hwire as -> ->. apply list.Forall_cons in Hok as [[Hne Hl] Hok].
  destruct (rinv_bounds _ (inv_side _ Hi)) as [Hw _]. pose proof (inv_win _ Hi).
  pose proof (total_nonneg _ (inv_adjustments _ Hi)). pose proof (total_len_nonneg rest).
  unfold total in Hsum. cbn [map foldr] in Hsum. fold (total (map len rest)) in Hsum. fold (total (adjustments s)) in Hsum.
  destruct (takeWindow_data chunk (recv (receiving s)) Hne Hl (rinv_max _ (inv_side _ Hi))) as [r' Hr'];
    [lia|lia|]. exists chunk, rest, r'. split_and!; try done.
  rewrite len_dataPacket. unfold channelMaxPacket, maxPacket in *. lia.
Qed.

Lemma total_snoc l x : total (l ++ [x]) = total l + x.
Proof. rewrite total_app. unfold total. cbn [foldr]. lia. Qed.

(** A step that only the receiver takes leaves the sender's side as it is. *)
Lemma inv_receiving s sd data label :
  inv s -> rstep (receiving s) label sd ->
  (forall e d, arriving sd = Some (e, d) -> e = 0) ->
  contents (extPending (recv sd)) = [] -> dropped sd = 0 ->
  myWindow (recv sd) = myWindow (recv (receiving s)) ->
  contents (pending (recv (receiving s))) ++ arrivingBytes (receiving s) =
    data ++ contents (pending (recv sd)) ++ arrivingBytes sd ->
  inv {| remoteWin := remoteWin s; writing := writing s; wire := wire s; adjustments := adjustments s;
         receiving := sd; written := written s; readBytes := readBytes s ++ data; failed := failed s |}.
Proof.
  intros Hi Hr Hc He Hd Hw Hb. pose proof (rstep_inv _ _ _ (inv_side _ Hi) Hr) as Hside.
  destruct Hi as [Hf Hopen Hwin _ _ _ _ Hadj (chunks & Hwire & Hok & Hsum & Hstream)].
  split; cbn; try done. exists chunks. cbn -[total]. split_and!; [done|done|congruence|].
  rewrite Hstream. rewrite (app_assoc (contents (pending (recv (receiving s))))), Hb.
  by rewrite <- !app_assoc.
Qed.

Lemma turn_inv s packet rest w :
  inv s -> writing s <> [] ->
  writeTurn channelMaxPacket remoteId 0 (writing s) (remoteWin s) = Some (Some (packet, rest), w) ->
  inv {| remoteWin := w; writing := rest; wire := wire s ++ [packet]; adjustments := adjustments s;
         receiving := receiving s; written := written s; readBytes := readBytes s; failed := failed s |}.
Proof.
  intros Hi Hne Ht. pose proof (flows_bounds s Hi) as [Hwb _].
  destruct Hi as [Hf Hopen Hwin Hside Hcode Hext Hdrop Hadj (chunks & Hwire & Hok & Hsum & Hstream)].
  pose proof (writeTurn_spec (writing s) (remoteWin s) Hne) as Hs. rewrite Ht in Hs.
  destruct (decide (win (remoteWin s) = 0)).
  { discriminate Hs; [|done]. unfold channelWindowSize, channelMaxPacket in Hwb. lia. }
  destruct Hs as (chunk & rest' & w' & [= -> -> ->] & Hd & Hc & Hl & Hw & Hw0 & Hcl);
    [unfold channelWindowSize, channelMaxPacket in Hwb; lia|done|].
  split; cbn; try done. exists (chunks ++ [chunk]). cbn -[total]. split_and!.
  - by rewrite map_app, Hwire.
  - apply Forall_app. split; [done|]. by repeat constructor.
  - rewrite map_app. cbn [map]. rewrite total_snoc. lia.
  - rewrite Hstream, Hd, concat_app. cbn [concat]. rewrite app_nil_r. by rewrite <- !app_assoc.
Qed.

Lemma take_inv s packet packets sd :
  inv s -> wire s = packet :: packets -> rstep (receiving s) (LTake packet) sd ->
  inv {| remoteWin := remoteWin s; writing := writing s; wire := packets; adjustments := adjustments s;
         receiving := sd; written := written s; readBytes := readBytes s; failed := failed s |}.
Proof.
  intros Hi Hw Hr. pose proof (rstep_inv _ _ _ (inv_side _ Hi) Hr) as Hside'.
  pose proof Hi as [Hf Hopen Hwin Hside Hcode Hext Hdrop Hadj (chunks & Hwire & Hok & Hsum & Hstream)].
  destruct (front_taken s chunks packet packets Hi Hwire Hok Hsum Hw)
    as (chunk & rest & r' & -> & Hne & Hp & Hps & Hrest & Hlen & Ht).
  inversion Hr as [packet' x r Hl Ha Ht'| | | |]; subst packet' sd. rewrite Ht in Ht'. injection Ht' as <- <-.
  apply takeWindow_Ok in Ht as (Hpend & He & _ & _ & _ & Hmy & _); [|done|apply Hside|apply (rinv_bounds _ Hside)].
  split; cbn; try done; [by intros e d [= <- _]|by rewrite He|].
  exists rest. cbn -[total]. split_and!; [done|done| |].
  - unfold total in *. cbn [map foldr] in Hsum. lia.
  - rewrite Hstream. unfold arrivingBytes. rewrite Ha. cbn. by rewrite Hpend, <- app_assoc.
Qed.

Lemma add_inv s adj adjs :
  inv s -> adjustments s = adj :: adjs ->
  inv {| remoteWin := default (remoteWin s) (add adj (remoteWin s)); writing := writing s; wire := wire s;
         adjustments := adjs; receiving := receiving s; written := written s; readBytes := readBytes s;
         failed := match add adj (remoteWin s) with Some _ => failed s | None => true end |}.
Proof.
  intros Hi Ha. pose proof (flows_bounds s Hi) as [Hwb Hab].
  destruct Hi as [Hf Hopen Hwin Hside Hcode Hext Hdrop Hadj (chunks & Hwire & Hok & Hsum & Hstream)].
  rewrite Ha in *. apply list.Forall_cons in Hadj as [Hpos Hadj]. pose proof (total_nonneg _ Hadj).
  unfold total in Hab, Hsum. cbn [foldr] in Hab, Hsum. fold (total adjs) in Hab, Hsum.
  unfold channelWindowSize, channelMaxPacket in Hab.
  assert (E : add adj (remoteWin s) = Some {| win := win (remoteWin s) + adj; win_closed := false |}).
  { unfold add. rewrite decide_False by lia. rewrite uint32_small by lia. rewrite decide_False by lia. by rewrite Hopen. }
  rewrite E. cbn [default from_option id]. split; cbn; try done; [lia|].
  exists chunks. cbn -[total]. split_and!; [done|done| |done]. unfold total in *. lia.
Qed.

Lemma adjust_inv s adj sd :
  inv s -> rstep (receiving s) (LAdjust adj) sd ->
  inv {| remoteWin := remoteWin s; writing := writing s; wire := wire s;
         adjustments := adjustments s ++ (if decide (adj = 0) then [] else [adj]);
         receiving := sd; written := written s; readBytes := readBytes s; failed := failed s |}.
Proof.
  intros Hi Hr. pose proof (rstep_inv _ _ _ (inv_side _ Hi) Hr) as Hside'.
  destruct Hi as [Hf Hopen Hwin Hside Hcode Hext Hdrop Hadj (chunks & Hwire & Hok & Hsum & Hstream)].
  inversion Hr as [| | |l1 n l2 Hc|]; subst sd. destruct Hside as [Hmax Hw Hcs Hcons Hd Hs].
  rewrite Hc in Hcons, Hs. apply elem_total in Hcons as (Hpos & Hrest & Htot). pose proof (total_nonneg _ Hrest).
  pose proof (len_nonneg (contents (pending (recv (receiving s))))).
  assert (0 <= arrived (receiving s)) by (unfold arrived; destruct (arriving (receiving s)) as [[? ?]|]; [apply len_nonneg|done]).
  rewrite Hext in Hs. change (len []) with 0 in Hs.
  pose proof (adjustWindow_spec n (recv (receiving s)) Hmax Hw ltac:(lia) Hpos ltac:(lia)) as Ha.
  destruct (adjustWindow n (recv (receiving s))) as [sent r']. cbn [fst snd] in *. subst adj.
  destruct Ha as (Hp & He & _ & Hw' & _ & Hsent & _).
  split; cbn -[decide]; try done; [by rewrite He| |].
  - apply Forall_app. split; [done|]. case_decide; repeat constructor. lia.
  - exists chunks. cbn -[decide total]. split_and!; [done|done| |].
    + assert (Ht : total (if decide (sent = 0) then [] else [sent]) = sent)
        by (case_decide; unfold total; cbn [foldr]; lia).
      rewrite total_app, Ht. lia.
    + rewrite Hstream. unfold arrivingBytes. cbn. by rewrite Hp.
Qed.

Lemma store_cases s sd :
  inv s -> rstep (receiving s) LStore sd ->
  exists data, arriving (receiving s) = Some (0, data) /\ arriving sd = None
    /\ contents (pending (recv sd)) = contents (pending (recv (receiving s))) ++ data
    /\ contents (extPending (recv sd)) = [] /\ dropped sd = 0 /\ consuming sd = consuming (receiving s)
    /\ myWindow (recv sd) = myWindow (recv (receiving s)).
Proof.
  intros Hi Hr. inversion Hr as [|e data Ha| | |]; subst sd. pose proof (inv_code _ Hi _ _ Ha) as ->.
  exists data. unfold storeData. rewrite !decide_False by lia. cbn -[contents write].
  rewrite contents_write, (inv_ext _ Hi), (inv_none_dropped _ Hi). done.
Qed.

Lemma read_cases s data sd :
  inv s -> rstep (receiving s) (LRead false data) sd ->
  data <> [] /\ arriving sd = arriving (receiving s)
  /\ contents (pending (recv (receiving s))) = data ++ contents (pending (recv sd))
  /\ contents (extPending (recv sd)) = [] /\ dropped sd = 0
  /\ consuming sd = consuming (receiving s) ++ [len data]
  /\ myWindow (recv sd) = myWindow (recv (receiving s)).
Proof.
  intros Hi Hr. inversion Hr as [| |e n d ended r Hrd Hne| |]; subst. cbn.
  pose proof (readData_spec false n (recv (receiving s))) as H. rewrite Hrd in H.
  destruct H as (H1 & _ & H2 & Hw & _). rewrite (inv_none_dropped _ Hi), <- H2, (inv_ext _ Hi). done.
Qed.

Lemma carried_inv s s' : inv s -> internal s s' -> inv s'.
Proof.
  intros Hi Hstep.
  destruct Hstep as [packet rest w Hne Ht|packet packets sd Hw Hr|packet packets e Hw Ha He|sd Hr|data sd Hr|adj sd Hr|adj adjs Ha].
  - by apply turn_inv.
  - by apply (take_inv s packet).
  - destruct (inv_flows _ Hi) as (chunks & Hwire & Hok & Hsum & _).
    destruct (front_taken s chunks packet packets Hi Hwire Hok Hsum Hw) as (? & ? & ? & _ & _ & _ & _ & _ & _ & Ht).
    congruence.
  - destruct (store_cases s sd Hi Hr) as (data & Ha & Ha' & Hp & He & Hd & _ & Hw).
    rewrite <- (app_nil_r (readBytes s)). apply (inv_receiving s sd [] LStore); try done.
    + by rewrite Ha'.
    + unfold arrivingBytes. by rewrite Ha, Ha', Hp, app_nil_r.
  - destruct (read_cases s data sd Hi Hr) as (_ & Ha & Hp & He & Hd & _ & Hw).
    apply (inv_receiving s sd data (LRead false data)); try done.
    + rewrite Ha. apply Hi.
    + unfold arrivingBytes. by rewrite Ha, Hp, <- app_assoc.
  - by apply adjust_inv.
  - by apply add_inv.
Qed.

Lemma system_inv s s' : inv s -> step s s' -> inv s'.
Proof.
  intros Hi [s'' Hs|data Hw]; [by apply (carried_inv s)|].
  destruct Hi as [Hf Hopen Hwin Hside Hcode Hext Hdrop Hadj (chunks & Hwire & Hok & Hsum & Hstream)].
  split; cbn; try done. exists chunks. cbn -[total]. split_and!; [done..|].
  rewrite Hstream, Hw, app_nil_r. by rewrite <- !app_assoc.
Qed.

(** *** Progress *)

(** The work that is left before the channel is quiet. *)
Definition arrivingWork (s : side) : Z :=
  match arriving s with Some (_, data) => 1 + 4 * len data | None => 0 end.

Definition work (s : system) : Z :=
  60 * len (writing s) + 5 * total (map len (wire s)) + arrivingWork (receiving s)
  + 3 * len (contents (pending (recv (receiving s)))) + 2 * len (consuming (receiving s))
  + len (adjustments s).

Lemma work_nonneg s : 0 <= work s.
Proof.
  unfold work. pose proof (total_len_nonneg (wire s)).
  pose proof (len_nonneg (writing s)). pose proof (len_nonneg (contents (pending (recv (receiving s))))).
  assert (0 <= arrivingWork (receiving s)).
  { unfold arrivingWork. destruct (arriving _) as [[? data]|]; [pose proof (len_nonneg data)|]; lia. }
  pose proof (len_nonneg (consuming (receiving s))). pose proof (len_nonneg (adjustments s)). lia.
Qed.

Lemma len_pos {A} (l : list A) : l <> [] -> 1 <= len l.
Proof. destruct l; [done|]. unfold len. simpl. lia. Qed.

Lemma internal_work s s' : inv s -> internal s s' -> work s' < work s.
Proof.
  intros Hi Hstep. pose proof (flows_bounds s Hi) as [Hwb _]. unfold channelWindowSize, channelMaxPacket in Hwb.
  destruct (inv_flows _ Hi) as (chunks & Hwire & Hok & Hsum & _).
  destruct Hstep as [packet rest w Hne Ht|packet packets sd Hw Hr|packet packets e Hw Ha He|sd Hr|data sd Hr|adj sd Hr|adj adjs Ha];
    unfold work; cbn -[total len contents Z.mul Z.add decide].
  - pose proof (writeTurn_spec (writing s) (remoteWin s) Hne ltac:(lia) (inv_open _ Hi)) as Hs.
    rewrite Ht in Hs. case_decide; [done|]. destruct Hs as (chunk & rest' & w' & [= -> -> ->] & -> & Hc & _).
    apply len_pos in Hc. rewrite map_app, len_app. cbn [map]. rewrite total_snoc, len_dataPacket. lia.
  - destruct (front_taken s chunks packet packets Hi Hwire Hok Hsum Hw) as (chunk & rest & r' & _ & _ & Hp & _ & _ & _ & Ht).
    inversion Hr as [packet' x r Hl Ha Ht'| | | |]; subst packet' sd. rewrite Ht in Ht'. injection Ht' as <- <-.
    apply takeWindow_Ok in Ht as (Hpend & _); [|done|apply Hi|apply (rinv_bounds _ (inv_side _ Hi))].
    unfold arrivingWork. cbn -[total len contents Z.mul Z.add]. rewrite Ha, Hw, Hpend. unfold total. cbn [map foldr].
    rewrite Hp, len_dataPacket. pose proof (len_nonneg chunk). lia.
  - destruct (front_taken s chunks packet packets Hi Hwire Hok Hsum Hw) as (? & ? & ? & _ & _ & _ & _ & _ & _ & Ht).
    congruence.
  - destruct (store_cases s sd Hi Hr) as (data & Ha & Ha' & Hp & _ & _ & Hc & _).
    unfold arrivingWork. rewrite Ha, Ha', Hp, Hc, len_app. pose proof (len_nonneg data). lia.
  - destruct (read_cases s data sd Hi Hr) as (Hne%len_pos & Ha & Hp & _ & _ & Hc & _).
    unfold arrivingWork. rewrite Ha, Hp, Hc, !len_app. change (len [len data]) with 1. lia.
  - inversion Hr as [| | |l1 n l2 Hc|]; subst. cbn -[total len contents Z.mul Z.add decide].
    assert (Hp : pending (adjustWindow n (recv (receiving s))).2 = pending (recv (receiving s)))
      by (unfold adjustWindow; by case_decide).
    rewrite Hp, Hc, !len_app. unfold arrivingWork. cbn -[len Z.mul Z.add decide].
    unfold len. case_decide; cbn [length]; lia.
  - rewrite Ha. unfold len. cbn [length]. lia.
Qed.

(** The receiver can always go on while it has something to do. *)
Lemma quiet_receiver s :
  inv s -> (forall s', ~ internal s s') ->
  arriving (receiving s) = None /\ contents (pending (recv (receiving s))) = []
  /\ consuming (receiving s) = [] /\ wire s = [] /\ adjustments s = [].
Proof.
  intros Hi Hq. assert (Ha : arriving (receiving s) = None).
  { destruct (arriving (receiving s)) as [[e data]|] eqn:E; [|done].
    destruct (Hq _ (w_store s _ (r_store _ e data E))). }
  split_and!; [done|..].
  - destruct (contents (pending (recv (receiving s)))) as [|b bs] eqn:E; [done|].
    pose proof (readData_spec false 1 (recv (receiving s))) as Hr.
    destruct (readData false 1 (recv (receiving s))) as [[[data ended] r]|] eqn:Er.
    + destruct Hr as (_ & Hd & _). rewrite E in Hd. cbn in Hd.
      destruct (Hq _ (w_read s data _ (r_read _ false 1 data ended r Er ltac:(by rewrite Hd)))).
    + destruct Hr as [Hr|Hr]; [congruence|done].
  - destruct (consuming (receiving s)) as [|n l] eqn:E; [done|].
    destruct (Hq _ (w_adjust s _ _ (r_adjust _ [] n l E))).
  - destruct (wire s) as [|packet packets] eqn:E; [done|].
    destruct (inv_flows _ Hi) as (chunks & Hwire & Hok & Hsum & _). rewrite E in Hwire. rewrite <- E in Hwire.
    destruct (front_taken s chunks packet packets Hi Hwire Hok Hsum E) as (chunk & rest & r' & _ & _ & _ & _ & _ & Hl & Ht).
    destruct (Hq _ (w_take s packet packets _ E (r_take _ packet _ r' Hl Ha Ht))).
  - destruct (adjustments s) as [|adj adjs] eqn:E; [done|]. destruct (Hq _ (w_add s adj adjs E)).
Qed.

(** Where nothing moves by itself, everything has arrived. *)
Lemma quiet_delivered s :
  inv s -> (forall s', ~ internal s s') -> writing s = [] /\ readBytes s = written s.
Proof.
  intros Hi Hq. destruct (quiet_receiver s Hi Hq) as (Ha & Hp & Hc & Hw & Hadj).
  destruct (inv_side _ Hi) as [_ Hmy Hcons _ _ Hs]. unfold arrived in Hs.
  rewrite Ha, Hp, Hc, (inv_ext _ Hi), (inv_none_dropped _ Hi) in Hs. change (len []) with 0 in Hs.
  destruct (inv_flows _ Hi) as (chunks & Hwire & _ & Hsum & Hstream).
  rewrite Hw in Hwire. destruct chunks; [|done]. rewrite Hadj in Hsum.
  change (total []) with 0 in Hs, Hsum. change (total (map len [])) with 0 in Hsum.
  assert (Hwr : writing s = []).
  { destruct (decide (writing s = [])) as [|Hne]; [done|]. exfalso.
    unfold channelWindowSize, channelMaxPacket in *.
    pose proof (writeTurn_spec (writing s) (remoteWin s) Hne ltac:(lia) (inv_open _ Hi)) as Ht.
    rewrite decide_False in Ht by lia. destruct Ht as (chunk & rest & w & Ht & _).
    destruct (Hq _ (w_turn s _ rest w Hne Ht)). }
  split; [done|]. unfold arrivingBytes in Hstream. rewrite Ha, Hp, Hwr in Hstream. cbn in Hstream.
  by rewrite app_nil_r in Hstream.
Qed.

(** C33: A channel delivers, in bounded memory.  Whatever packets the other side
    sends and however readers interleave, the two buffers of a channel never
    hold more than the window of 2 MiB, and its counters of 32 bits do not wrap
    around.  Between two nodes, in one direction of a channel that stays open
    and whose reader reads on, neither side gives up on the other: no packet is
    larger than the window that is open, and no adjustment overflows.  What is
    read is the beginning of what was written; the goroutines take only
    finitely many steps by themselves, and where they stop, [Write] has
    returned and every byte was read. *)
Theorem channel_flow_control :
  (forall s, rtc (fun a b => exists l, rstep a l b) fresh s ->
     len (contents (pending (recv s))) + len (contents (extPending (recv s))) <= channelWindowSize
     /\ 0 <= myWindow (recv s) /\ 0 <= myConsumed (recv s)
     /\ myWindow (recv s) + myConsumed (recv s) <= channelWindowSize)
  /\ (forall s, rtc step opened s ->
     failed s = false /\ (exists unread, written s = readBytes s ++ unread)
     /\ (forall s', internal s s' -> 0 <= work s' < work s)
     /\ ((forall s', ~ internal s s') -> writing s = [] /\ readBytes s = written s)).
Proof.
  split.
  - intros s Hr. assert (Hi : rinv s).
    { refine (rtc_invariant _ rinv fresh s fresh_inv _ Hr). intros a b Ha [l Hl]. by apply (rstep_inv a l). }
    destruct Hi as [_ Hw Hc Hcs Hd Hsum]. pose proof (total_nonneg _ Hcs).
    pose proof (len_nonneg (contents (pending (recv s)))). pose proof (len_nonneg (contents (extPending (recv s)))).
    assert (0 <= arrived s) by (unfold arrived; destruct (arriving s) as [[? ?]|]; [apply len_nonneg|done]). lia.
  - intros s Hr. assert (Hi : inv s).
    { refine (rtc_invariant _ inv opened s opened_inv _ Hr). apply system_inv. }
    split_and!; [apply Hi| | |by apply quiet_delivered].
    + destruct (inv_flows _ Hi) as (chunks & _ & _ & _ & E). eexists. exact E.
    + intros s' Hs. split; [apply work_nonneg|]. by apply internal_work.
Qed.
End pair.

(** A run that carries two bytes. *)
Lemma two_bytes_carried : exists s, rtc (step 7) opened s /\ readBytes s = [x68; x69] /\ written s = [x68; x69].
Proof.
  eexists. split; [|split].
  - eapply rtc_l; [apply (s_write 7 opened [x68; x69]); reflexivity|].
    eapply rtc_l; [apply s_internal, w_turn; [done|vm_compute; reflexivity]|].
    eapply rtc_l; [apply s_internal; eapply w_take; [reflexivity|eapply r_take; [by vm_compute|reflexivity|vm_compute; reflexivity]]|].
    eapply rtc_l; [apply s_internal; eapply w_store; eapply r_store; reflexivity|].
    eapply rtc_l; [apply s_internal; eapply w_read; eapply (r_read _ false 4); [vm_compute; reflexivity|done]|].
    apply rtc_refl.
  - reflexivity.
  - reflexivity.
Qed.
End Window.
