(* ===== verification/TtlCache.v ===== *)
(** * Bounded caches with a time to live

    The route cache ([gateway/routecache.go]) and the login flags cache
    ([auth/auth.go]) are maps whose entries carry an expiry time.  A write
    into a full map first drops the expired entries, and resets the map when
    that freed nothing.  The operations and the lemmas the two caches share;
    [RouteCache] instantiates them for routes and [Auth] for login flags. *)

From stdpp Require Import base list strings gmap fin_maps.
From Stdlib Require Import ZArith Lia.
From S2P Require Import Prelude.

Section ttl.
Context {V : Type} (expiresAt : V -> time) (maxEntries : Z).

(** [for key, entry := range entries { if now.After(entry.expiresAt) { delete(entries, key) } }] *)
Definition drop_expired (now : time) (entries : gmap string V) : gmap string V :=
  filter (fun kv => time_after now (expiresAt kv.2) = false) entries.

(** [len(m)] of a Go map. *)
Definition map_len {A} (m : gmap string A) : Z := Z.of_nat (size m).

(** The write [entries[key] = entry] with the eviction before it. *)
Definition put_bounded (now : time) (key : string) (entry : V)
    (entries : gmap string V) : gmap string V :=
  let kept :=
    if decide (maxEntries <= map_len entries)%Z then
      let fresh := drop_expired now entries in
      if decide (maxEntries <= map_len fresh)%Z then ∅ else fresh
    else entries in
  <[key := entry]> kept.

(** A write or a removal, as a value, so that histories can be stated. *)
Inductive cache_op : Type :=
| CachePut (now : time) (key : string) (entry : V)
| CacheDelete (key : string).

Definition cache_op_key (op : cache_op) : string :=
  match op with
  | CachePut _ key _ => key
  | CacheDelete key => key
  end.

Definition cache_step (entries : gmap string V) (op : cache_op) : gmap string V :=
  match op with
  | CachePut now key entry => put_bounded now key entry entries
  | CacheDelete key => delete key entries
  end.

(** The contents of a cache, empty at first, after a history of operations. *)
Definition cache_run (ops : list cache_op) : gmap string V :=
  foldl cache_step ∅ ops.

(** ** Lemmas *)

Lemma lookup_drop_expired now entries key entry :
  drop_expired now entries !! key = Some entry <->
  entries !! key = Some entry /\ time_after now (expiresAt entry) = false.
Proof. unfold drop_expired. rewrite map_lookup_filter_Some. done. Qed.

Lemma put_bounded_eq now key entry entries :
  put_bounded now key entry entries !! key = Some entry.
Proof. unfold put_bounded. apply lookup_insert_eq. Qed.

(** A write of one key leaves every other key as it was or drops it. *)
Lemma put_bounded_ne now key key' entry entry' entries :
  key <> key' ->
  put_bounded now key entry entries !! key' = Some entry' ->
  entries !! key' = Some entry'.
Proof.
  intros Hne. unfold put_bounded. rewrite lookup_insert_ne by done.
  repeat case_decide; [by rewrite lookup_empty| |done].
  intros Hf. by apply lookup_drop_expired in Hf as [].
Qed.

(** It is dropped only when the map was full. *)
Lemma put_bounded_keeps now key key' entry entries :
  key <> key' -> (map_len entries < maxEntries)%Z ->
  put_bounded now key entry entries !! key' = entries !! key'.
Proof.
  intros Hne Hs. unfold put_bounded. rewrite lookup_insert_ne by done.
  rewrite decide_False by lia. done.
Qed.

(** A full map in which something has expired keeps all its fresh entries. *)
Lemma put_bounded_keeps_fresh now key key' entry entry' entries expired gone :
  key <> key' -> (map_len entries <= maxEntries)%Z ->
  entries !! expired = Some gone -> time_after now (expiresAt gone) = true ->
  entries !! key' = Some entry' -> time_after now (expiresAt entry') = false ->
  put_bounded now key entry entries !! key' = Some entry'.
Proof.
  intros Hne Hs Hx Hgone Hk Hfresh. unfold put_bounded.
  rewrite lookup_insert_ne by done. case_decide; [|done].
  rewrite decide_False; [by apply lookup_drop_expired|].
  assert (size (drop_expired now entries) < size entries)%nat; [|unfold map_len in *; lia].
  apply map_subset_size. split; [apply map_filter_subseteq|].
  intros Hsub. eapply lookup_weaken in Hx; [|exact Hsub].
  apply lookup_drop_expired in Hx as [_ Hx]. congruence.
Qed.

Lemma put_bounded_size now key entry entries :
  (0 < maxEntries)%Z -> (map_len entries <= maxEntries)%Z ->
  (map_len (put_bounded now key entry entries) <= maxEntries)%Z.
Proof.
  intros Hpos Hs. unfold put_bounded.
  assert (Hi : forall m : gmap string V, (map_len m < maxEntries)%Z ->
    (map_len (<[key := entry]> m) <= maxEntries)%Z).
  { unfold map_len. intros m Hm. rewrite map_size_insert. destruct (m !! key); simpl; lia. }
  repeat case_decide; apply Hi; unfold map_len in *; rewrite ?map_size_empty; lia.
Qed.

Lemma delete_size_le key (entries : gmap string V) :
  (size (delete key entries) <= size entries)%nat.
Proof. rewrite map_size_delete. destruct (entries !! key); simpl; lia. Qed.

Lemma cache_run_snoc ops op : cache_run (ops ++ [op]) = cache_step (cache_run ops) op.
Proof. unfold cache_run. by rewrite foldl_app. Qed.

Lemma cache_run_size ops :
  (0 < maxEntries)%Z -> (map_len (cache_run ops) <= maxEntries)%Z.
Proof.
  intros Hpos. induction ops as [|op ops IH] using rev_ind.
  { unfold cache_run. unfold map_len. simpl. rewrite map_size_empty. lia. }
  rewrite cache_run_snoc. destruct op; simpl; [by apply put_bounded_size|].
  pose proof (delete_size_le key (cache_run ops)). unfold map_len in *. lia.
Qed.

(** Whatever a cache holds for a key is what the last operation on that key
    wrote. *)
Lemma cache_run_sound ops key entry :
  cache_run ops !! key = Some entry ->
  exists before now after,
    ops = before ++ CachePut now key entry :: after /\
    Forall (fun op => cache_op_key op <> key) after.
Proof.
  induction ops as [|op ops IH] using rev_ind; [done|].
  rewrite cache_run_snoc. intros H.
  destruct (decide (cache_op_key op = key)) as [<-|Hne].
  - destruct op as [now k e|k]; simpl in H.
    + rewrite put_bounded_eq in H. simplify_eq. by exists ops, now, [].
    + by rewrite lookup_delete_eq in H.
  - assert (Hk : cache_run ops !! key = Some entry).
    { destruct op as [now k e|k]; simpl in *;
        [by eapply put_bounded_ne|by rewrite lookup_delete_ne in H]. }
    apply IH in Hk as (before & now & after & -> & Hafter).
    exists before, now, (after ++ [op]). rewrite <- app_assoc. split; [done|].
    apply Forall_app. auto.
Qed.
End ttl.

Arguments cache_op : clear implicits.
