(* ===== verification/RouteCache.v ===== *)
(** * The route cache of [gateway/routecache.go]

    Remembers which node a user is on.  The mutex makes each operation
    atomic, so an operation is a function on the map; the clock reading it
    makes is a parameter. *)

From stdpp Require Import base list strings gmap fin_maps.
From Stdlib Require Import ZArith Lia.
From S2P Require Import Prelude TtlCache.

Module RouteCache.

Definition routeCacheTimeToLive : duration := (15 * second)%Z.
Definition routeCacheMaxEntries : Z := 4096%Z.

Record routeCacheEntry := { nodeId : string; expiresAt : time }.

Abbreviation routeCache := (gmap string routeCacheEntry).

Definition newRouteCache : routeCache := ∅.

(** [get(userId)]; [Some nodeId] stands for [(nodeId, true)] and [None] for
    [("", false)]. *)
Definition get (now : time) (userId : string) (self : routeCache) : option string :=
  match self !! userId with
  | None => None
  | Some entry => if time_after now (expiresAt entry) then None else Some (nodeId entry)
  end.

Definition invalidate (userId : string) (self : routeCache) : routeCache :=
  delete userId self.

(** The entry [put] stores, [now] being the clock at the end of [put]. *)
Definition newEntry (now : time) (node : string) : routeCacheEntry :=
  {| nodeId := node; expiresAt := time_add now routeCacheTimeToLive |}.

Definition put (now : time) (userId node : string) (self : routeCache) : routeCache :=
  put_bounded expiresAt routeCacheMaxEntries now userId (newEntry now node) self.

(** ** Histories *)

Inductive op : Type :=
| Put (now : time) (userId node : string)
| Invalidate (userId : string).

Definition step (self : routeCache) (o : op) : routeCache :=
  match o with
  | Put now userId node => put now userId node self
  | Invalidate userId => invalidate userId self
  end.

Definition run (ops : list op) : routeCache := foldl step newRouteCache ops.

Definition op_user (o : op) : string :=
  match o with
  | Put _ userId _ => userId
  | Invalidate userId => userId
  end.

Definition to_cache_op (o : op) : cache_op routeCacheEntry :=
  match o with
  | Put now userId node => CachePut now userId (newEntry now node)
  | Invalidate userId => CacheDelete userId
  end.

(** ** Lemmas *)

Lemma run_cache_run ops :
  run ops = cache_run expiresAt routeCacheMaxEntries (map to_cache_op ops).
Proof.
  unfold run, cache_run, newRouteCache. generalize (∅ : routeCache).
  induction ops as [|o ops IH]; intros m; [done|]. simpl. rewrite IH. by destruct o.
Qed.

Lemma get_put now now' userId node self :
  get now' userId (put now userId node self) =
  if time_after now' (time_add now routeCacheTimeToLive) then None else Some node.
Proof. unfold get, put. by rewrite put_bounded_eq. Qed.

Lemma get_invalidate now userId userId' self :
  get now userId (invalidate userId' self) =
  if decide (userId' = userId) then None else get now userId self.
Proof. unfold get, invalidate. rewrite lookup_delete. by case_decide. Qed.

(** Writing one user's route never makes another user's route appear or
    change. *)
Lemma get_put_ne now now' userId userId' node node' self :
  userId <> userId' ->
  get now' userId' (put now userId node self) = Some node' ->
  get now' userId' self = Some node'.
Proof.
  unfold get, put. intros Hne.
  destruct (put_bounded _ _ _ _ _ _ !! userId') as [e|] eqn:E; [|done].
  by rewrite (put_bounded_ne _ _ _ _ _ _ _ _ Hne E).
Qed.

(** after any history of writes and invalidations the route cache holds
    at most 4096 entries, and a hit for a user at a time [now] is the node of
    the last operation on that user, which was a write at most 15 seconds
    before [now]. *)
Theorem run_get_sound (ops : list op) (now : time) (userId node : string) :
  (map_len (run ops) <= 4096)%Z /\
  (get now userId (run ops) = Some node ->
   exists before at_ after,
     ops = before ++ Put at_ userId node :: after /\
     Forall (fun o => op_user o <> userId) after /\
     (now <= at_ + 15 * second)%Z).
Proof.
  rewrite run_cache_run. split.
  { apply cache_run_size. unfold routeCacheMaxEntries. lia. }
  unfold get. destruct (cache_run _ _ _ !! userId) as [e|] eqn:E; [|done].
  destruct (time_after now (expiresAt e)) eqn:Hfresh; [done|]. intros [= <-].
  apply cache_run_sound in E as (before & at_ & after & Hops & Hafter).
  apply map_eq_app in Hops as (before' & rest & -> & <- & Hrest).
  destruct rest as [|o after']; [done|]. simpl in Hrest. simplify_eq.
  destruct o as [t u n|]; simpl in *; simplify_eq.
  exists before', at_, after'. split; [done|]. split.
  - rewrite Forall_map in Hafter. eapply Forall_impl; [exact Hafter|].
    intros [|]; done.
  - unfold time_after in Hfresh. apply bool_decide_eq_false in Hfresh. simpl in Hfresh.
    unfold time_add, routeCacheTimeToLive in Hfresh. lia.
Qed.

Lemma run_get_sound_witness :
  exists before at_ after,
    [Put 5 "alice" "node-a"; Put 6 "bob" "node-b"; Invalidate "bob"] =
      before ++ Put at_ "alice" "node-a" :: after /\
    Forall (fun o => op_user o <> "alice") after /\ (10 <= at_ + 15 * second)%Z.
Proof.
  apply (proj2 (run_get_sound
    [Put 5 "alice" "node-a"; Put 6 "bob" "node-b"; Invalidate "bob"] 10 "alice" "node-a")).
  vm_compute. reflexivity.
Defined.

End RouteCache.
