(* ===== verification/Usage.v ===== *)
(** * Traffic accounting of [gateway/utils.go]

    [usageStats] and the [wrappedConn] that feeds it.  Each field is updated
    by one atomic instruction, so an update is a function on the record; the
    64-bit counters wrap around. *)

From stdpp Require Import base list strings.
From Stdlib Require Import ZArith Lia.
From S2P Require Import Prelude.

#[local] Open Scope Z_scope.

Module Usage.

Record usageStats := {
  bytesRead : Z;
  bytesWritten : Z;
  usedAtNano : Z;
  createdAt : time;
}.

Definition newUsage (now : time) : usageStats :=
  {| bytesRead := 0; bytesWritten := 0; usedAtNano := now; createdAt := now |}.

Definition update (now : time) (read written : Z) (self : usageStats) : usageStats :=
  {| bytesRead := if decide (read > 0) then uint64 (bytesRead self + read) else bytesRead self;
     bytesWritten := if decide (written > 0) then uint64 (bytesWritten self + written)
                     else bytesWritten self;
     usedAtNano := now;
     createdAt := createdAt self |}.

Definition read (now : time) (n : Z) (self : usageStats) : usageStats := update now n 0 self.
Definition write (now : time) (n : Z) (self : usageStats) : usageStats := update now 0 n self.

Definition getBytesRead (self : usageStats) : Z := bytesRead self.
Definition getBytesWritten (self : usageStats) : Z := bytesWritten self.
Definition getUsedAt (self : usageStats) : time := usedAtNano self.

(** [wrappedConn.Read] and [Write]; [size] and [err] are what the wrapped
    connection returned, and are returned as they are. *)
Definition Read (now : time) (size : Z) (err : option error) (self : usageStats)
    : usageStats * (Z * option error) :=
  ((if decide (err = None /\ size >= 0) then read now (uint64 size) self else self), (size, err)).

Definition Write (now : time) (size : Z) (err : option error) (self : usageStats)
    : usageStats * (Z * option error) :=
  ((if decide (err = None /\ size >= 0) then write now (uint64 size) self else self), (size, err)).

(** A call on the wrapped connection with its outcome. *)
Inductive io : Type :=
| IoRead (now : time) (size : Z) (err : option error)
| IoWrite (now : time) (size : Z) (err : option error).

Definition io_step (self : usageStats) (c : io) : usageStats :=
  match c with
  | IoRead now size err => (Read now size err self).1
  | IoWrite now size err => (Write now size err self).1
  end.

Definition io_run (now : time) (calls : list io) : usageStats :=
  foldl io_step (newUsage now) calls.

(** What a call contributes: bytes read, bytes written, and the instant it
    marks the connection as used. *)
Definition io_read (c : io) : Z :=
  match c with IoRead _ size None => Z.max 0 size | _ => 0 end.
Definition io_written (c : io) : Z :=
  match c with IoWrite _ size None => Z.max 0 size | _ => 0 end.
Definition io_used (c : io) : option time :=
  match c with
  | IoRead now size None | IoWrite now size None => if decide (size >= 0) then Some now else None
  | _ => None
  end.

Definition sum_Z (f : io -> Z) (calls : list io) : Z := foldr (fun c n => f c + n) 0 calls.

(** ** Lemmas *)

Lemma uint64_add_uint64 a b : uint64 (uint64 a + uint64 b) = uint64 (a + b).
Proof. unfold uint64. by rewrite <- Z.add_mod by lia. Qed.

Lemma counter_add (n : Z) (size : Z) :
  (if decide (uint64 size > 0) then uint64 (uint64 n + uint64 size) else uint64 n) =
  uint64 (n + size).
Proof.
  pose proof (uint64_bound size). case_decide; [apply uint64_add_uint64|].
  assert (uint64 size = 0) as Hz by lia.
  rewrite <- (uint64_add_uint64 n size), Hz, Z.add_0_r. unfold uint64.
  by rewrite Zmod_mod.
Qed.

Lemma sum_Z_snoc f calls c : sum_Z f (calls ++ [c]) = sum_Z f calls + f c.
Proof. unfold sum_Z. induction calls; simpl; lia. Qed.

Lemma io_run_snoc now calls c : io_run now (calls ++ [c]) = io_step (io_run now calls) c.
Proof. unfold io_run. by rewrite foldl_app. Qed.

(** One call adds what it moved to the counters. *)
Lemma io_step_counters self c r w :
  bytesRead self = uint64 r -> bytesWritten self = uint64 w ->
  bytesRead (io_step self c) = uint64 (r + io_read c) /\
  bytesWritten (io_step self c) = uint64 (w + io_written c) /\
  createdAt (io_step self c) = createdAt self /\
  usedAtNano (io_step self c) = default (usedAtNano self) (io_used c).
Proof.
  intros Hr Hw.
  destruct c as [now size [e|]|now size [e|]];
    unfold io_step, Read, Write, read, write, update;
    cbn [fst io_read io_written io_used]; case_decide as Hd; cbn [usedAtNano bytesRead
      bytesWritten createdAt]; rewrite ?Hr, ?Hw, ?counter_add.
  all: try (destruct Hd as [? Hs]; done).
  all: rewrite ?Z.add_0_r, ?(decide_False (P := 0 > 0)) by lia; try done.
  all: destruct (decide (size >= 0)); [|try tauto];
    rewrite ?Z.max_r, ?Z.max_l, ?Z.add_0_r by lia; try done.
  all: by destruct Hd.
Qed.

(** After any sequence of reads and writes on a wrapped connection, with
    any outcomes, the byte counters are the total sizes of the calls that
    succeeded, modulo 2^64, and the connection counts as used at the time of
    the last successful call. *)
Theorem io_run_accounts (start : time) (calls : list io) :
  getBytesRead (io_run start calls) = uint64 (sum_Z io_read calls) /\
  getBytesWritten (io_run start calls) = uint64 (sum_Z io_written calls) /\
  getUsedAt (io_run start calls) = List.last (omap io_used calls) start /\
  createdAt (io_run start calls) = start.
Proof.
  unfold getBytesRead, getBytesWritten, getUsedAt.
  induction calls as [|c calls IH] using rev_ind; [done|].
  destruct IH as (Hr & Hw & Hu & Hc). rewrite io_run_snoc, !sum_Z_snoc.
  destruct (io_step_counters (io_run start calls) c _ _ Hr Hw) as (-> & -> & Hc' & ->).
  rewrite Hc', Hc, Hu. do 2 (split; [done|]). split; [|done].
  rewrite omap_app. simpl. destruct (io_used c) as [t|]; simpl.
  - by rewrite last_last.
  - by rewrite app_nil_r.
Qed.

End Usage.
