(* ===== verification/Conns.v ===== *)
(** * Connections in disguise: implementations of [net.Conn]

    [net.Conn] is the class [NetConn]; the program implements it three times:
    [wrappedConn] in [gateway/utils.go], which counts the traffic of a
    connection, and [tunnelConn] in [db/ssh.go] and [channelConn] in
    [gateway/httpproxy.go], which make an ssh channel look like a connection. *)

From stdpp Require Import base list strings option.
From Stdlib Require Import ZArith Lia.
From Stdlib Require Import Strings.Byte.
From S2P Require Import Prelude Bytes Usage.

#[local] Open Scope Z_scope.

Module Conns.

(** ** Interfaces *)

(** [net.Conn]; a read is given the size of its buffer. *)
Class NetConn (C : Type) := {
  conn_Read : Z -> C -> C * (list byte * option error);
  conn_Write : list byte -> C -> C * (Z * option error);
  conn_Close : C -> C * option error;
  conn_LocalAddr : C -> string;
  conn_RemoteAddr : C -> string;
  conn_SetDeadline : time -> C -> C * option error;
  conn_SetReadDeadline : time -> C -> C * option error;
  conn_SetWriteDeadline : time -> C -> C * option error;
}.

(** What is used of [ssh.Channel]. *)
Class SshChannel (Ch : Type) := {
  channel_Read : Z -> Ch -> Ch * (list byte * option error);
  channel_Write : list byte -> Ch -> Ch * (Z * option error);
  channel_Close : Ch -> Ch * option error;
}.

(** What is used of [ssh.Client]. *)
Class SshClient (Cl : Type) := { client_Close : Cl -> Cl * option error }.

(** [(&net.TCPAddr{}).String()] *)
Definition emptyAddr : string := ":0".

(** ** wrappedConn *)

Record wrappedConn (C : Type) := wrapConn { conn : C; usage : Usage.usageStats }.
Arguments wrapConn {C} conn usage.
Arguments conn {C} w : rename.
Arguments usage {C} w : rename.

(** A method of the wrapped connection. *)
Definition delegate {C A} (method : C -> C * A) (w : wrappedConn C) : wrappedConn C * A :=
  let (c, r) := method (conn w) in (wrapConn c (usage w), r).

(** [now] is the clock after the call. *)
#[export] Instance wrapped_conn `{NetConn C} (now : time) : NetConn (wrappedConn C) := {|
  conn_Read size w :=
    let (c, r) := conn_Read size (conn w) in
    (wrapConn c (Usage.Read now (len r.1) r.2 (usage w)).1, r);
  conn_Write data w :=
    let (c, r) := conn_Write data (conn w) in
    (wrapConn c (Usage.Write now r.1 r.2 (usage w)).1, r);
  conn_Close := delegate conn_Close;
  conn_LocalAddr w := conn_LocalAddr (conn w);
  conn_RemoteAddr w := conn_RemoteAddr (conn w);
  conn_SetDeadline t := delegate (conn_SetDeadline t);
  conn_SetReadDeadline t := delegate (conn_SetReadDeadline t);
  conn_SetWriteDeadline t := delegate (conn_SetWriteDeadline t);
|}.

(** ** tunnelConn *)

Record tunnelConn (Ch Cl : Type) := { tunnel_channel : Ch; tunnel_client : Cl }.
Arguments Build_tunnelConn {Ch Cl} tunnel_channel tunnel_client.
Arguments tunnel_channel {Ch Cl} t.
Arguments tunnel_client {Ch Cl} t.

#[export] Instance tunnel_conn `{SshChannel Ch, SshClient Cl} : NetConn (tunnelConn Ch Cl) := {|
  conn_Read size t :=
    let (ch, r) := channel_Read size (tunnel_channel t) in
    (Build_tunnelConn ch (tunnel_client t), r);
  conn_Write data t :=
    let (ch, r) := channel_Write data (tunnel_channel t) in
    (Build_tunnelConn ch (tunnel_client t), r);
  conn_Close t :=
    let (ch, _) := channel_Close (tunnel_channel t) in
    let (cl, err) := client_Close (tunnel_client t) in (Build_tunnelConn ch cl, err);
  conn_LocalAddr _ := emptyAddr;
  conn_RemoteAddr _ := emptyAddr;
  conn_SetDeadline _ t := (t, None);
  conn_SetReadDeadline _ t := (t, None);
  conn_SetWriteDeadline _ t := (t, None);
|}.

(** ** channelConn *)

(** Closing only closes the tunnel; the channel is closed by the goroutine of
    [handleRequests]. *)
Record channelConn (Ch : Type) := { cc_channel : Ch; cc_tunnelClosed : bool }.
Arguments Build_channelConn {Ch} cc_channel cc_tunnelClosed.
Arguments cc_channel {Ch} c.
Arguments cc_tunnelClosed {Ch} c.

#[export] Instance channel_conn `{SshChannel Ch} : NetConn (channelConn Ch) := {|
  conn_Read size c :=
    let (ch, r) := channel_Read size (cc_channel c) in
    (Build_channelConn ch (cc_tunnelClosed c), r);
  conn_Write data c :=
    let (ch, r) := channel_Write data (cc_channel c) in
    (Build_channelConn ch (cc_tunnelClosed c), r);
  conn_Close c := (Build_channelConn (cc_channel c) true, None);
  conn_LocalAddr _ := emptyAddr;
  conn_RemoteAddr _ := emptyAddr;
  conn_SetDeadline _ c := (c, None);
  conn_SetReadDeadline _ c := (c, None);
  conn_SetWriteDeadline _ c := (c, None);
|}.

(** ** Sequences of calls *)

Inductive call : Type :=
| CallRead (now : time) (size : Z)
| CallWrite (now : time) (data : list byte)
| CallClose
| CallLocalAddr
| CallRemoteAddr
| CallSetDeadline (t : time)
| CallSetReadDeadline (t : time)
| CallSetWriteDeadline (t : time).

Inductive answer : Type :=
| Bytes (data : list byte) (err : option error)
| Size (n : Z) (err : option error)
| Address (a : string)
| Status (err : option error).

Definition perform {C} (impl : time -> NetConn C) (k : call) (c : C) : C * answer :=
  match k with
  | CallRead now size => let (c, r) := @conn_Read C (impl now) size c in (c, Bytes r.1 r.2)
  | CallWrite now data => let (c, r) := @conn_Write C (impl now) data c in (c, Size r.1 r.2)
  | CallClose => let (c, e) := @conn_Close C (impl 0) c in (c, Status e)
  | CallLocalAddr => (c, Address (@conn_LocalAddr C (impl 0) c))
  | CallRemoteAddr => (c, Address (@conn_RemoteAddr C (impl 0) c))
  | CallSetDeadline t => let (c, e) := @conn_SetDeadline C (impl 0) t c in (c, Status e)
  | CallSetReadDeadline t => let (c, e) := @conn_SetReadDeadline C (impl 0) t c in (c, Status e)
  | CallSetWriteDeadline t => let (c, e) := @conn_SetWriteDeadline C (impl 0) t c in (c, Status e)
  end.

Fixpoint run {C} (impl : time -> NetConn C) (ks : list call) (c : C) : C * list answer :=
  match ks with
  | [] => (c, [])
  | k :: ks =>
      let (c, a) := perform impl k c in
      let (c, answers) := run impl ks c in (c, a :: answers)
  end.

(** The traffic of a sequence of calls, from their answers. *)
Definition traffic (k : call) (a : answer) : list Usage.io :=
  match k, a with
  | CallRead now _, Bytes data err => [Usage.IoRead now (len data) err]
  | CallWrite now _, Size n err => [Usage.IoWrite now n err]
  | _, _ => []
  end.

Section wrapped.
Context {C : Type} `{NetConn C}.

Lemma perform_wrapped k (w : wrappedConn C) :
  perform wrapped_conn k w =
  let (c, a) := perform (fun _ => H) k (conn w) in
  (wrapConn c (foldl Usage.io_step (usage w) (traffic k a)), a).
Proof.
  destruct w as [c u]. destruct k; simpl; unfold delegate; simpl.
  - by destruct (conn_Read size c) as [c' [data err]].
  - by destruct (conn_Write data c) as [c' [n err]].
  - by destruct (conn_Close c).
  - done.
  - done.
  - by destruct (conn_SetDeadline t c).
  - by destruct (conn_SetReadDeadline t c).
  - by destruct (conn_SetWriteDeadline t c).
Qed.

(** A wrapped connection refines the connection it wraps.  Any sequence of
    calls gets the same answers and does the same to the connection below as
    without the wrapper, and afterwards the counters are exactly what the
    successful reads and writes among them add up to. *)
Theorem wrapConn_transparent (now : time) (ks : list call) (c : C) :
  let (c', answers) := run (fun _ => H) ks c in
  let calls := mjoin (zip_with traffic ks answers) in
  run wrapped_conn ks (wrapConn c (Usage.newUsage now)) =
    (wrapConn c' (Usage.io_run now calls), answers)
  /\ Usage.getBytesRead (Usage.io_run now calls) = uint64 (Usage.sum_Z Usage.io_read calls)
  /\ Usage.getBytesWritten (Usage.io_run now calls) = uint64 (Usage.sum_Z Usage.io_written calls).
Proof.
  destruct (run (fun _ => H) ks c) as [c' answers] eqn:E. cbn zeta.
  split; [|by destruct (Usage.io_run_accounts now (mjoin (zip_with traffic ks answers))) as (? & ? & _)].
  unfold Usage.io_run. revert c E. generalize (Usage.newUsage now). revert answers.
  induction ks as [|k ks IH]; intros answers u c E; simpl in E |- *; [by simplify_eq|].
  rewrite perform_wrapped. simpl. destruct (perform (fun _ => H) k c) as [c1 a].
  destruct (run (fun _ => H) ks c1) as [c2 answers2] eqn:E2. injection E as <- <-.
  rewrite (IH answers2 _ c1 E2). simpl. by rewrite foldl_app.
Qed.
End wrapped.

End Conns.
