(* ===== verification/Models.v ===== *)
(** * The database of [db/]

    The tables and the statements of [db/users.go] and [db/nodes.go].  A row
    holds the columns the migrations create; every column but the primary key
    is nullable ([None] is NULL), because rows written before a column was
    added keep NULL in it.  Each method of the Go [Database] interface is one
    SQL statement or one transaction, so it is a function from the tables to
    the tables and a result; the clock it reads is a parameter.  Timestamps
    are kept at full resolution. *)

From stdpp Require Import base list strings gmap fin_maps option.
From Stdlib Require Import ZArith Lia.
From Stdlib Require Import Strings.Byte.
From S2P Require Import Prelude.

#[local] Open Scope Z_scope.

(** ** Go structs *)

(** A [float64] is kept as its bit pattern. *)
Record Location := {
  Latitude : Z;
  Longitude : Z;
  TimeZone : string;
  Country : string;
  City : string;
}.

Definition zeroLocation : Location :=
  {| Latitude := 0; Longitude := 0; TimeZone := ""; Country := ""; City := "" |}.

(** A [Status] is its JSON text, empty when there is none; a [Screenshot] is
    [None] when the slice is nil. *)
Record User := {
  ID : string;
  CreatedAt : time;
  ModifiedAt : time;
  Comment : string;
  IP : string;
  UserLocation : Location;
  Status : string;
  Administrator : bool;
  Screenshot : option (list byte);
  Disabled : bool;
  NodeID : string;
  OnlineAt : time;
  Online : bool;
}.

Definition zeroUser : User :=
  {| ID := ""; CreatedAt := zeroTime; ModifiedAt := zeroTime; Comment := ""; IP := "";
     UserLocation := zeroLocation; Status := ""; Administrator := false; Screenshot := None;
     Disabled := false; NodeID := ""; OnlineAt := zeroTime; Online := false |}.

Record Node := {
  Node_ID : string;
  Node_CreatedAt : time;
  Node_ModifiedAt : time;
  Node_Address : string;
  Node_HostPublicKey : string;
  Node_Online : bool;
  Node_OnlineAt : time;
}.

Definition zeroNode : Node :=
  {| Node_ID := ""; Node_CreatedAt := zeroTime; Node_ModifiedAt := zeroTime;
     Node_Address := ""; Node_HostPublicKey := ""; Node_Online := false;
     Node_OnlineAt := zeroTime |}.

(** ** Rows *)

Record user_row := {
  created_at : option time;
  modified_at : option time;
  comment : option string;
  ip : option string;
  location : option Location;
  status : option string;
  administrator : option bool;
  screenshot : option (list byte);
  disabled : option bool;
  node_id : option string;
  online_at : option time;
}.

Record node_row := {
  node_created_at : option time;
  node_modified_at : option time;
  node_address : option string;
  node_host_public_key : option string;
  node_online : option bool;
  node_online_at : option time;
}.

Record tables := {
  users : gmap string user_row;
  nodes : gmap string node_row;
}.

Definition empty_tables : tables := {| users := ∅; nodes := ∅ |}.

Definition set_users (f : gmap string user_row -> gmap string user_row) (t : tables) : tables :=
  {| users := f (users t); nodes := nodes t |}.
Definition set_nodes (f : gmap string node_row -> gmap string node_row) (t : tables) : tables :=
  {| users := users t; nodes := f (nodes t) |}.

(** A SQL condition that is NULL does not select the row. *)
Definition sql_gt (a : option time) (b : time) : bool :=
  match a with
  | Some x => bool_decide (x > b)
  | None => false
  end.
Definition sql_true (a : option bool) : bool := default false a.
Definition sql_eq (a : option string) (b : string) : bool :=
  match a with
  | Some x => bool_decide (x = b)
  | None => false
  end.

(** Scanning a row into a [User]: NULL leaves the zero value.  [details] says
    whether the status column is selected ([userDetailColumns]) or not
    ([userListColumns]); the screenshot never is. *)
Definition scanUser (details : bool) (id : string) (row : user_row) : User :=
  {| ID := id;
     CreatedAt := default zeroTime (created_at row);
     ModifiedAt := default zeroTime (modified_at row);
     Comment := default "" (comment row);
     IP := default "" (ip row);
     UserLocation := default zeroLocation (location row);
     Status := if details then default "" (status row) else "";
     Administrator := default false (administrator row);
     Screenshot := None;
     Disabled := default false (disabled row);
     NodeID := default "" (node_id row);
     OnlineAt := default zeroTime (online_at row);
     Online := false |}.

(** The whole row, as [First] without a column list reads it. *)
Definition scanUserFull (id : string) (row : user_row) : User :=
  let user := scanUser true id row in
  {| ID := ID user; CreatedAt := CreatedAt user; ModifiedAt := ModifiedAt user;
     Comment := Comment user; IP := IP user; UserLocation := UserLocation user;
     Status := Status user; Administrator := Administrator user;
     Screenshot := screenshot row;
     Disabled := Disabled user; NodeID := NodeID user; OnlineAt := OnlineAt user;
     Online := false |}.

(** [Status.Value]: an empty status is stored as NULL. *)
Definition statusValue (s : string) : option string := if decide (s = "") then None else Some s.

(** The row [Create] and [Save] write for a [User]; [Online] and
    [Connections] are not columns. *)
Definition userRow (u : User) : user_row :=
  {| created_at := Some (CreatedAt u);
     modified_at := Some (ModifiedAt u);
     comment := Some (Comment u);
     ip := Some (IP u);
     location := Some (UserLocation u);
     status := statusValue (Status u);
     administrator := Some (Administrator u);
     screenshot := Screenshot u;
     disabled := Some (Disabled u);
     node_id := Some (NodeID u);
     online_at := Some (OnlineAt u) |}.

Definition scanNode (id : string) (row : node_row) : Node :=
  {| Node_ID := id;
     Node_CreatedAt := default zeroTime (node_created_at row);
     Node_ModifiedAt := default zeroTime (node_modified_at row);
     Node_Address := default "" (node_address row);
     Node_HostPublicKey := default "" (node_host_public_key row);
     Node_Online := default false (node_online row);
     Node_OnlineAt := default zeroTime (node_online_at row) |}.

Definition nodeRow (n : Node) : node_row :=
  {| node_created_at := Some (Node_CreatedAt n);
     node_modified_at := Some (Node_ModifiedAt n);
     node_address := Some (Node_Address n);
     node_host_public_key := Some (Node_HostPublicKey n);
     node_online := Some (Node_Online n);
     node_online_at := Some (Node_OnlineAt n) |}.

(** ** Statements on the user table *)

(** [Find(&models, conditions...)]; a query without ORDER BY returns the rows
    in some order, here that of the map. *)
Definition listUsers (condition : string -> user_row -> bool) (t : tables) : list User :=
  map (fun '(id, row) => scanUser false id row)
      (filter (fun '(id, row) => condition id row = true) (map_to_list (users t))).

Definition ListUsers (t : tables) : list User := listUsers (fun _ _ => true) t.

Definition ListOnlineUsers (since : time) (t : tables) : list User :=
  listUsers (fun _ row => sql_gt (online_at row) since) t.

Definition GetUsers (userIds : list string) (t : tables) : list User :=
  listUsers (fun id _ => bool_decide (id ∈ userIds)) t.

(** The ids selected by the subquery of [userNodeGone]. *)
Definition liveNode (staleBefore : time) (t : tables) (id : string) : bool :=
  match nodes t !! id with
  | Some row => sql_true (node_online row) && sql_gt (node_online_at row) staleBefore
  | None => false
  end.

Definition userNodeGone (staleBefore : time) (t : tables) (row : user_row) : bool :=
  match node_id row with
  | None => true
  | Some node => bool_decide (node = "") || negb (liveNode staleBefore t node)
  end.

Definition set_online_at (now : time) (row : user_row) : user_row :=
  {| created_at := created_at row; modified_at := modified_at row; comment := comment row;
     ip := ip row; location := location row; status := status row;
     administrator := administrator row; screenshot := screenshot row;
     disabled := disabled row; node_id := node_id row; online_at := Some now |}.

Definition set_node_id (now : time) (node : string) (row : user_row) : user_row :=
  {| created_at := created_at row; modified_at := Some now; comment := comment row;
     ip := ip row; location := location row; status := status row;
     administrator := administrator row; screenshot := screenshot row;
     disabled := disabled row; node_id := Some node; online_at := online_at row |}.

(** [UPDATE "user" SET ... WHERE id IN ?]: every SET expression sees the old
    row. *)
Definition markUserOnline (now staleBefore : time) (nodeId : string) (t : tables)
    (row : user_row) : user_row :=
  let adopted := if userNodeGone staleBefore t row then set_node_id now nodeId row else row in
  set_online_at now adopted.

Definition update_where (ids : list string) (f : user_row -> user_row)
    (us : gmap string user_row) : gmap string user_row :=
  map_imap (fun id row => Some (if bool_decide (id ∈ ids) then f row else row)) us.

Definition MarkUsersOnline (now : time) (userIds : list string) (nodeId : string)
    (nodeStaleAfter : duration) (t : tables) : tables :=
  match userIds with
  | [] => t
  | _ =>
      if decide (nodeId = "") then
        set_users (update_where userIds (set_online_at now)) t
      else
        let staleBefore := time_add now (- nodeStaleAfter) in
        set_users (update_where userIds (markUserOnline now staleBefore nodeId t)) t
  end.

Definition ClearUserNodeID (now : time) (userId nodeId : string) (t : tables) : tables :=
  set_users (alter (fun row => if sql_eq (node_id row) nodeId then set_node_id now "" row else row)
                   userId) t.

Definition GetUser (userId : string) (t : tables) : option User :=
  scanUser true userId <$> users t !! userId.

Definition GetUserScreenshot (userId : string) (t : tables) : option (list byte) :=
  users t !! userId ≫= screenshot.

Definition GetUserNodeID (userId : string) (t : tables) : string :=
  match users t !! userId with
  | Some row => default "" (node_id row)
  | None => ""
  end.

(** [INSERT ... ON CONFLICT (id) DO UPDATE ... RETURNING ...]. *)
Definition UpsertUserOnConnect (now : time) (userId address : string) (loc : Location)
    (nodeId : string) (t : tables) : tables * User :=
  let model :=
    {| ID := userId; CreatedAt := now; ModifiedAt := now; Comment := ""; IP := address;
       UserLocation := loc; Status := ""; Administrator := false; Screenshot := None;
       Disabled := false; NodeID := nodeId; OnlineAt := now; Online := false |} in
  let row :=
    match users t !! userId with
    | None => userRow model
    | Some old =>
        {| created_at := created_at old; modified_at := Some now; comment := comment old;
           ip := Some address; location := Some loc; status := status old;
           administrator := administrator old; screenshot := screenshot old;
           disabled := disabled old;
           node_id := if sql_true (disabled old) then node_id old else Some nodeId;
           online_at := if sql_true (disabled old) then online_at old else Some now |}
    end in
  (set_users <[userId := row]> t, scanUser false userId row).

Definition ErrRecordNotFound : error := Sentinel "record not found".

(** [updateUserColumn] for the two columns it is called with: [f] sets the
    column, the statement sets [modified_at] too, and no row is an error. *)
Definition updateUserColumn (now : time) (userId : string) (f : user_row -> user_row)
    (t : tables) : tables * option error :=
  match users t !! userId with
  | None => (t, Some ErrRecordNotFound)
  | Some row =>
      let row' := f row in
      (set_users <[userId :=
         {| created_at := created_at row'; modified_at := Some now; comment := comment row';
            ip := ip row'; location := location row'; status := status row';
            administrator := administrator row'; screenshot := screenshot row';
            disabled := disabled row'; node_id := node_id row'; online_at := online_at row' |}]> t,
       None)
  end.

Definition UpdateUserStatus (now : time) (userId newStatus : string) (t : tables)
    : tables * option error :=
  updateUserColumn now userId (fun row =>
    {| created_at := created_at row; modified_at := modified_at row; comment := comment row;
       ip := ip row; location := location row; status := statusValue newStatus;
       administrator := administrator row; screenshot := screenshot row;
       disabled := disabled row; node_id := node_id row; online_at := online_at row |}) t.

Definition UpdateUserScreenshot (now : time) (userId : string) (shot : option (list byte))
    (t : tables) : tables * option error :=
  updateUserColumn now userId (fun row =>
    {| created_at := created_at row; modified_at := modified_at row; comment := comment row;
       ip := ip row; location := location row; status := status row;
       administrator := administrator row; screenshot := shot;
       disabled := disabled row; node_id := node_id row; online_at := online_at row |}) t.

(** [PutUser]: the read-modify-write transaction. *)
Definition PutUser (now : time) (userId : string) (modifier : User -> result User)
    (t : tables) : tables * result User :=
  let found := users t !! userId in
  let model := match found with Some row => scanUserFull userId row | None => zeroUser end in
  match modifier model with
  | Err e => (t, Err e)
  | Ok m =>
      let m' :=
        {| ID := userId;
           CreatedAt := match found with None => now | Some _ => CreatedAt m end;
           ModifiedAt := now; Comment := Comment m; IP := IP m; UserLocation := UserLocation m;
           Status := Status m; Administrator := Administrator m; Screenshot := Screenshot m;
           Disabled := Disabled m; NodeID := NodeID m; OnlineAt := OnlineAt m;
           Online := Online m |} in
      (set_users <[userId := userRow m']> t, Ok m')
  end.

(** ** Statements on the node table *)

Definition ListNodes (t : tables) : list Node :=
  map (fun '(id, row) => scanNode id row) (map_to_list (nodes t)).

Definition GetNode (nodeId : string) (t : tables) : option Node :=
  scanNode nodeId <$> nodes t !! nodeId.

Definition PutNode (now : time) (nodeId : string) (modifier : Node -> result Node)
    (t : tables) : tables * result Node :=
  let found := nodes t !! nodeId in
  let model := match found with Some row => scanNode nodeId row | None => zeroNode end in
  match modifier model with
  | Err e => (t, Err e)
  | Ok m =>
      let m' :=
        {| Node_ID := nodeId;
           Node_CreatedAt := match found with None => now | Some _ => Node_CreatedAt m end;
           Node_ModifiedAt := now; Node_Address := Node_Address m;
           Node_HostPublicKey := Node_HostPublicKey m; Node_Online := Node_Online m;
           Node_OnlineAt := Node_OnlineAt m |} in
      (set_nodes <[nodeId := nodeRow m']> t, Ok m')
  end.

(** ** Lemmas on the statements *)

(** A row does not place its user on a node. *)
Definition off_node (node : string) (row : user_row) : Prop := node_id row <> Some node.

Lemma ClearUserNodeID_off now userId node t row :
  node <> "" -> users (ClearUserNodeID now userId node t) !! userId = Some row ->
  off_node node row.
Proof.
  intros Hn. unfold ClearUserNodeID, off_node. simpl. rewrite lookup_alter, decide_True by done.
  intros (old & _ & ->)%fmap_Some. destruct (sql_eq (node_id old) node) eqn:E; simpl.
  - congruence.
  - unfold sql_eq in E. destruct (node_id old); [|done]. case_bool_decide; congruence.
Qed.

(** Releasing users never places anyone on a node. *)
Lemma ClearUserNodeID_keeps_off now userId node node' t u :
  node' <> "" ->
  (forall row, users t !! u = Some row -> off_node node' row) ->
  forall row, users (ClearUserNodeID now userId node t) !! u = Some row -> off_node node' row.
Proof.
  intros Hn Hoff row. unfold ClearUserNodeID. simpl. rewrite lookup_alter.
  case_decide; [|apply Hoff]. subst. intros (old & Hold & ->)%fmap_Some.
  destruct (sql_eq (node_id old) node); [unfold off_node; simpl; congruence|by apply Hoff].
Qed.

Lemma ClearUserNodeID_other now userId node t u :
  u <> userId -> users (ClearUserNodeID now userId node t) !! u = users t !! u.
Proof. intros Hne. unfold ClearUserNodeID. simpl. by rewrite lookup_alter_ne. Qed.

Lemma update_where_lookup ids f us u :
  update_where ids f us !! u =
  (fun row => if bool_decide (u ∈ ids) then f row else row) <$> us !! u.
Proof. unfold update_where. rewrite map_lookup_imap. by destruct (us !! u). Qed.

(** What a heartbeat does to a user's row. *)
Lemma MarkUsersOnline_lookup now userIds node stale t u :
  users (MarkUsersOnline now userIds node stale t) !! u =
  (fun row =>
     if bool_decide (u ∈ userIds) then
       if decide (node = "") then set_online_at now row
       else markUserOnline now (time_add now (- stale)) node t row
     else row) <$> users t !! u.
Proof.
  unfold MarkUsersOnline. destruct userIds as [|id ids].
  - rewrite bool_decide_false by apply not_elem_of_nil. by destruct (users t !! u).
  - case_decide; unfold set_users; cbn [users]; by rewrite update_where_lookup.
Qed.

Lemma elem_of_listUsers condition t user :
  user ∈ listUsers condition t <->
  exists row, users t !! ID user = Some row /\ condition (ID user) row = true /\
              user = scanUser false (ID user) row.
Proof.
  unfold listUsers. rewrite list_elem_of_fmap. split.
  - intros ([id row] & -> & [Hc Hin%elem_of_map_to_list]%list_elem_of_filter). eauto.
  - intros (row & Hrow & Hc & Hu). exists (ID user, row). split; [done|].
    apply list_elem_of_filter. split; [done|]. by apply elem_of_map_to_list.
Qed.

Lemma map_ID_listUsers condition t :
  map ID (listUsers condition t) =
  map fst (filter (fun '(id, row) => condition id row = true) (map_to_list (users t))).
Proof. unfold listUsers. rewrite map_map. apply map_ext. by intros []. Qed.

(** A listing names every user at most once. *)
Lemma NoDup_listUsers condition t : NoDup (map ID (listUsers condition t)).
Proof.
  rewrite map_ID_listUsers. eapply sublist_NoDup; [apply (NoDup_fst_map_to_list (users t))|].
  apply fmap_sublist, sublist_filter.
Qed.

Lemma elem_of_ListNodes t node :
  node ∈ ListNodes t <->
  exists row, nodes t !! Node_ID node = Some row /\ node = scanNode (Node_ID node) row.
Proof.
  unfold ListNodes. rewrite list_elem_of_fmap. split.
  - intros ([id row] & -> & Hin%elem_of_map_to_list). eauto.
  - intros (row & Hrow & Hn). exists (Node_ID node, row). split; [done|].
    by apply elem_of_map_to_list.
Qed.
