(* ===== verification/Database.v ===== *)
(** * The [Database] interface of [db/db.go]

    The gateway and the authenticator reach postgres through the Go interface
    [Database].  Every method runs one statement or one transaction; what can
    go wrong is the connection to the server.  [Executor] is that contract: a
    call either runs the statement and reports its result, or reports an
    error, after which the statement was run or was not.  The methods are
    defined once, over any executor, and the clients' theorems are proved
    against the interface; [server] is an executor with an arbitrary schedule
    of outages. *)

From stdpp Require Import base list strings gmap fin_maps option.
From Stdlib Require Import ZArith Lia.
From Stdlib Require Import Strings.Byte.
From S2P Require Import Prelude Models.

#[local] Open Scope Z_scope.

(** ** The interface *)

Class Executor (DB : Type) : Type := {
  db_tables : DB -> tables;
  db_exec : forall {A}, (tables -> tables * result A) -> DB -> DB * result A;
  db_exec_spec : forall {A} (op : tables -> tables * result A) (d : DB),
    let (d', r) := db_exec op d in
    (db_tables d' = (op (db_tables d)).1 /\ r = (op (db_tables d)).2) \/
    (exists text, r = Err (Foreign text) /\
       (db_tables d' = db_tables d \/ db_tables d' = (op (db_tables d)).1));
}.

(** ** The methods *)

Section methods.
Context {DB : Type} `{Executor DB}.

Definition query {A} (q : tables -> A) (d : DB) : DB * result A :=
  db_exec (fun t => (t, Ok (q t))) d.

Definition execute (s : tables -> tables) (d : DB) : DB * result unit :=
  db_exec (fun t => (s t, Ok tt)) d.

Definition executeErr (s : tables -> tables * option error) (d : DB) : DB * result unit :=
  db_exec (fun t => let (t', e) := s t in
                    (t', match e with Some err => Err err | None => Ok tt end)) d.

Definition db_ListUsers (d : DB) : DB * result (list User) := query ListUsers d.

Definition db_ListOnlineUsers (since : time) (d : DB) : DB * result (list User) :=
  query (ListOnlineUsers since) d.

Definition db_GetUsers (userIds : list string) (d : DB) : DB * result (list User) :=
  match userIds with
  | [] => (d, Ok [])
  | _ => query (GetUsers userIds) d
  end.

Definition db_MarkUsersOnline (now : time) (userIds : list string) (nodeId : string)
    (nodeStaleAfter : duration) (d : DB) : DB * result unit :=
  match userIds with
  | [] => (d, Ok tt)
  | _ => execute (MarkUsersOnline now userIds nodeId nodeStaleAfter) d
  end.

Definition db_ClearUserNodeID (now : time) (userId nodeId : string) (d : DB)
    : DB * result unit :=
  execute (ClearUserNodeID now userId nodeId) d.

Definition db_GetUser (userId : string) (d : DB) : DB * result (option User) :=
  query (GetUser userId) d.

Definition db_GetUserNodeID (userId : string) (d : DB) : DB * result string :=
  query (GetUserNodeID userId) d.

Definition db_GetUserScreenshot (userId : string) (d : DB) : DB * result (option (list byte)) :=
  query (GetUserScreenshot userId) d.

Definition db_UpsertUserOnConnect (now : time) (userId address : string) (loc : Location)
    (nodeId : string) (d : DB) : DB * result User :=
  db_exec (fun t => let (t', u) := UpsertUserOnConnect now userId address loc nodeId t in
                    (t', Ok u)) d.

Definition db_UpdateUserStatus (now : time) (userId newStatus : string) (d : DB)
    : DB * result unit :=
  executeErr (UpdateUserStatus now userId newStatus) d.

Definition db_UpdateUserScreenshot (now : time) (userId : string) (shot : option (list byte))
    (d : DB) : DB * result unit :=
  executeErr (UpdateUserScreenshot now userId shot) d.

Definition db_PutUser (now : time) (userId : string) (modifier : User -> result User) (d : DB)
    : DB * result User :=
  db_exec (PutUser now userId modifier) d.

Definition db_ListNodes (d : DB) : DB * result (list Node) := query ListNodes d.

Definition db_GetNode (nodeId : string) (d : DB) : DB * result (option Node) :=
  query (GetNode nodeId) d.

Definition db_PutNode (now : time) (nodeId : string) (modifier : Node -> result Node) (d : DB)
    : DB * result Node :=
  db_exec (PutNode now nodeId modifier) d.

(** ** What a client may rely on *)

(** A query leaves the tables alone and, if it succeeds, its answer is right. *)
Lemma query_spec {A} (q : tables -> A) d d' r :
  query q d = (d', r) ->
  db_tables d' = db_tables d /\
  (r = Ok (q (db_tables d)) \/ exists text, r = Err (Foreign text)).
Proof.
  unfold query. intros E. pose proof (db_exec_spec (fun t => (t, Ok (q t))) d) as S.
  rewrite E in S. simpl in S. naive_solver.
Qed.

(** A statement that reports success has run exactly once. *)
Lemma execute_spec s d d' r :
  execute s d = (d', r) ->
  (r = Ok tt /\ db_tables d' = s (db_tables d)) \/
  (exists text, r = Err (Foreign text) /\
     (db_tables d' = db_tables d \/ db_tables d' = s (db_tables d))).
Proof.
  unfold execute. intros E. pose proof (db_exec_spec (fun t => (s t, Ok tt)) d) as S.
  rewrite E in S. simpl in S. naive_solver.
Qed.

Lemma db_UpsertUserOnConnect_spec now userId address loc nodeId d d' r :
  db_UpsertUserOnConnect now userId address loc nodeId d = (d', r) ->
  (r = Ok (UpsertUserOnConnect now userId address loc nodeId (db_tables d)).2 /\
   db_tables d' = (UpsertUserOnConnect now userId address loc nodeId (db_tables d)).1) \/
  (exists text, r = Err (Foreign text) /\
     (db_tables d' = db_tables d \/
      db_tables d' = (UpsertUserOnConnect now userId address loc nodeId (db_tables d)).1)).
Proof.
  unfold db_UpsertUserOnConnect. intros E.
  match type of E with db_exec ?op _ = _ => pose proof (db_exec_spec op d) as S end.
  rewrite E in S. destruct (UpsertUserOnConnect _ _ _ _ _ _). simpl in *. naive_solver.
Qed.

(** No call fails. *)
Definition reliable : Prop :=
  forall A (op : tables -> tables * result A) (d : DB),
    (db_exec op d).2 = (op (db_tables d)).2 /\ db_tables (db_exec op d).1 = (op (db_tables d)).1.

Lemma execute_reliable s d :
  reliable -> (execute s d).2 = Ok tt /\ db_tables (execute s d).1 = s (db_tables d).
Proof. intros R. exact (R _ _ d). Qed.

Lemma query_reliable {A} (q : tables -> A) d :
  reliable -> (query q d).2 = Ok (q (db_tables d)) /\ db_tables (query q d).1 = db_tables d.
Proof. intros R. exact (R _ _ d). Qed.
End methods.

Arguments reliable DB {H}.

(** ** A server with outages *)

Inductive outcome : Set :=
| Served                (* the statement ran and its result arrived *)
| Refused               (* the statement did not run *)
| Lost.                 (* the statement ran, the answer was lost *)

(** The tables, and what happens to the next calls; calls after the end of
    the schedule are served. *)
Record server := { srv_tables : tables; srv_schedule : list outcome }.

Definition server_exec {A} (op : tables -> tables * result A) (s : server)
    : server * result A :=
  let (t', r) := op (srv_tables s) in
  match srv_schedule s with
  | Refused :: rest =>
      ({| srv_tables := srv_tables s; srv_schedule := rest |}, Err (Foreign "connection refused"))
  | Lost :: rest =>
      ({| srv_tables := t'; srv_schedule := rest |}, Err (Foreign "unexpected EOF"))
  | Served :: rest => ({| srv_tables := t'; srv_schedule := rest |}, r)
  | [] => ({| srv_tables := t'; srv_schedule := [] |}, r)
  end.

Lemma server_exec_spec {A} (op : tables -> tables * result A) (s : server) :
  let (s', r) := server_exec op s in
  (srv_tables s' = (op (srv_tables s)).1 /\ r = (op (srv_tables s)).2) \/
  (exists text, r = Err (Foreign text) /\
     (srv_tables s' = srv_tables s \/ srv_tables s' = (op (srv_tables s)).1)).
Proof.
  unfold server_exec. destruct (op (srv_tables s)) as [t' r].
  destruct (srv_schedule s) as [|[] rest]; simpl; naive_solver.
Qed.

#[export] Instance server_Executor : Executor server := {
  db_tables := srv_tables;
  db_exec := @server_exec;
  db_exec_spec := @server_exec_spec;
}.

(** A server that is always there. *)
#[export] Instance tables_Executor : Executor tables | 100 := {
  db_tables t := t;
  db_exec A op t := op t;
  db_exec_spec := ltac:(intros A op t; destruct (op t); by left);
}.

Lemma tables_reliable : reliable tables.
Proof. by intros A op d. Qed.
