(* ===== verification/Certs.v ===== *)
(** * Certificate checking of the vendored ssh package

    [CertChecker.Authenticate] and [CheckCert] of
    [vendor/golang.org/x/crypto/ssh/certs.go], which [auth/auth.go] calls for
    every login.  A public key is its wire encoding, or a certificate; the
    verification of the certificate's signature is cryptography and is the
    parameter [verify]. *)

From stdpp Require Import base list strings gmap fin_maps option.
From Stdlib Require Import ZArith Lia.
From S2P Require Import Prelude GoStrings.

#[local] Open Scope Z_scope.

Record Permissions := {
  CriticalOptions : gmap string string;
  Extensions : gmap string string;
}.

(** A certificate; keys are given by their wire encoding ([Marshal]). *)
Record Certificate := {
  cert_Key : string;
  cert_Serial : Z;
  cert_CertType : Z;
  cert_KeyId : string;
  cert_ValidPrincipals : list string;
  cert_ValidAfter : Z;
  cert_ValidBefore : Z;
  cert_Permissions : Permissions;
  cert_SignatureKey : string;
  cert_Signature : string;
}.

Inductive PublicKey : Type :=
| PlainKey (blob : string)
| CertificateKey (certificate : Certificate).

(** What the callbacks read of [ssh.ConnMetadata]. *)
Record ConnMetadata := { meta_User : string; meta_IP : string }.

Definition UserCert : Z := 1.
Definition CertTimeInfinity : Z := 2 ^ 64 - 1.
Definition sourceAddressCriticalOption : string := "source-address".

(** [int64(u)] of a [uint64]. *)
Definition int64 (u : Z) : Z := if decide (u < 2 ^ 63) then u else u - 2 ^ 64.

(** [t.Unix()]. *)
Definition unix (t : time) : Z := t / second.

Record CertChecker := {
  SupportedCriticalOptions : list string;
  IsUserAuthority : option (string -> bool);
  UserKeyFallback : option (ConnMetadata -> PublicKey -> result Permissions);
  IsRevoked : option (Certificate -> bool);
}.

Section checker.
(** [caKey.Verify(cert.bytesForSigning(), cert.Signature)] succeeds. *)
Context (verify : Certificate -> bool).

Definition supportedOption (c : CertChecker) (opt : string) : bool :=
  bool_decide (opt = sourceAddressCriticalOption) ||
  bool_decide (opt ∈ SupportedCriticalOptions c).

Definition CheckCert (c : CertChecker) (now : time) (principal : string) (cert : Certificate)
    : option error :=
  if match IsRevoked c with Some revoked => revoked cert | None => false end
  then Some (Errorf ("ssh: certificate serial " +:+ formatUint64 (cert_Serial cert) +:+ " revoked"))
  else if negb (forallb (supportedOption c)
                        (map fst (map_to_list (CriticalOptions (cert_Permissions cert)))))
  then Some (Errorf "ssh: unsupported critical option %q in certificate")
  else if bool_decide (cert_ValidPrincipals cert <> []) &&
          negb (bool_decide (principal ∈ cert_ValidPrincipals cert))
  then Some (Errorf ("ssh: principal %q not in the set of valid principals for " +:+
                     "given certificate: %q"))
  else if bool_decide (int64 (cert_ValidAfter cert) < 0) ||
          bool_decide (unix now < int64 (cert_ValidAfter cert))
  then Some (Errorf "ssh: cert is not yet valid")
  else if bool_decide (cert_ValidBefore cert <> CertTimeInfinity) &&
          (bool_decide (unix now >= int64 (cert_ValidBefore cert)) ||
           bool_decide (int64 (cert_ValidBefore cert) < 0))
  then Some (Errorf "ssh: cert has expired")
  else if negb (verify cert)
  then Some (Errorf "ssh: certificate signature does not verify")
  else None.

Definition Authenticate (c : CertChecker) (now : time) (conn : ConnMetadata) (pubKey : PublicKey)
    : result Permissions :=
  match pubKey with
  | PlainKey _ =>
      match UserKeyFallback c with
      | Some fallback => fallback conn pubKey
      | None => Err (Foreign "ssh: normal key pairs not accepted")
      end
  | CertificateKey cert =>
      if decide (cert_CertType cert <> UserCert) then
        Err (Errorf ("ssh: cert has type " +:+ formatUint32 (cert_CertType cert)))
      else match IsUserAuthority c with
           | None => Err (Foreign "ssh: cannot verify certificate, IsUserAuthority not set")
           | Some authority =>
               if authority (cert_SignatureKey cert) then
                 match CheckCert c now (meta_User conn) cert with
                 | Some err => Err err
                 | None => Ok (cert_Permissions cert)
                 end
               else Err (Errorf "ssh: certificate signed by unrecognized authority")
           end
  end.

(** ** What an accepted certificate satisfies *)

(** The certificate is a user certificate, names [user] (or nobody in
    particular), is within its validity interval and is correctly signed by
    one of [authorities]. *)
Record cert_valid (authorities : list string) (now : time) (user : string)
    (cert : Certificate) : Prop := {
  valid_type : cert_CertType cert = UserCert;
  valid_authority : cert_SignatureKey cert ∈ authorities;
  valid_principal : cert_ValidPrincipals cert = [] \/ user ∈ cert_ValidPrincipals cert;
  valid_after : 0 <= int64 (cert_ValidAfter cert) <= unix now;
  valid_before : cert_ValidBefore cert = CertTimeInfinity \/
                 unix now < int64 (cert_ValidBefore cert);
  valid_options : forall opt value,
    CriticalOptions (cert_Permissions cert) !! opt = Some value ->
    opt = sourceAddressCriticalOption;
  valid_signature : verify cert = true;
}.

(** The checker both callbacks of [auth/auth.go] build. *)
Definition authorityChecker (authorities : list string) : CertChecker :=
  {| SupportedCriticalOptions := [];
     IsUserAuthority := Some (fun key => existsb (fun ca => bool_decide (ca = key)) authorities);
     UserKeyFallback := None;
     IsRevoked := None |}.

Lemma authority_elem (authorities : list string) (key : string) :
  existsb (fun ca => bool_decide (ca = key)) authorities = true <-> key ∈ authorities.
Proof.
  rewrite existsb_exists. setoid_rewrite bool_decide_eq_true.
  setoid_rewrite <- list_elem_of_In. naive_solver.
Qed.

Lemma supportedOption_source authorities opt :
  supportedOption (authorityChecker authorities) opt = true <-> opt = sourceAddressCriticalOption.
Proof.
  unfold supportedOption. simpl. rewrite orb_true_iff, !bool_decide_eq_true.
  set_solver.
Qed.

Lemma CheckCert_None authorities now user cert :
  CheckCert (authorityChecker authorities) now user cert = None <->
  (cert_ValidPrincipals cert = [] \/ user ∈ cert_ValidPrincipals cert) /\
  0 <= int64 (cert_ValidAfter cert) <= unix now /\
  (cert_ValidBefore cert = CertTimeInfinity \/ unix now < int64 (cert_ValidBefore cert)) /\
  (forall opt value, CriticalOptions (cert_Permissions cert) !! opt = Some value ->
     opt = sourceAddressCriticalOption) /\
  verify cert = true.
Proof.
  unfold CheckCert. cbn [IsRevoked authorityChecker].
  destruct (forallb _ _) eqn:Eopt; cbn [negb].
  - assert (Ho : forall opt value, CriticalOptions (cert_Permissions cert) !! opt = Some value ->
      opt = sourceAddressCriticalOption).
    { intros opt value Hl. rewrite forallb_forall in Eopt.
      apply (supportedOption_source authorities), Eopt.
      apply in_map_iff. exists (opt, value). split; [done|].
      by apply list_elem_of_In, elem_of_map_to_list. }
    repeat case_bool_decide; simpl;
      destruct (verify cert) eqn:Ev; simpl; try (split; [done|]); try (split; [|done]).
    all: try (intros (? & ? & ? & ? & ?)); try intros _; repeat split; try tauto; try lia.
    all: try (destruct (decide (cert_ValidPrincipals cert = [])); tauto).
  - split; [done|]. intros (_ & _ & _ & Ho & _). exfalso.
    assert (forallb (supportedOption (authorityChecker authorities))
      (map fst (map_to_list (CriticalOptions (cert_Permissions cert)))) = true); [|congruence].
    apply forallb_forall. intros opt Hin.
    apply in_map_iff in Hin as ([k v] & <- & Hin).
    apply list_elem_of_In, elem_of_map_to_list in Hin.
    apply supportedOption_source. eauto.
Qed.

(** The checker accepts exactly the valid certificates, with the permissions
    they carry. *)
Lemma Authenticate_Ok authorities now conn pubKey perms :
  Authenticate (authorityChecker authorities) now conn pubKey = Ok perms <->
  exists cert, pubKey = CertificateKey cert /\ perms = cert_Permissions cert /\
    cert_valid authorities now (meta_User conn) cert.
Proof.
  destruct pubKey as [blob|cert]; simpl; [split; [done|by intros (? & ? & _)]|].
  case_decide as Ht.
  { split; [done|]. intros (c & [= <-] & _ & Hv). by destruct Hv. }
  destruct (existsb _ _) eqn:Ea.
  - apply authority_elem in Ea.
    destruct (CheckCert _ _ _ _) as [e|] eqn:Ec.
    + split; [done|]. intros (c & [= <-] & _ & []).
      assert (CheckCert (authorityChecker authorities) now (meta_User conn) cert = None)
        by (apply CheckCert_None; naive_solver). congruence.
    + apply CheckCert_None in Ec as (? & ? & ? & ? & ?). split.
      * intros [= <-]. exists cert. do 2 (split; [done|]).
        by constructor.
      * by intros (c & [= <-] & -> & _).
  - split; [done|]. intros (c & [= <-] & _ & []).
    assert (existsb (fun ca => bool_decide (ca = cert_SignatureKey cert)) authorities = true)
      by (by apply authority_elem). congruence.
Qed.
End checker.
