(* ===== verification/Auth.v ===== *)
(** * Authentication, [auth/auth.go]

    The authenticator's cache of account flags and its two public key
    callbacks: [authenticate] for users and [authenticatePeer] for nodes.  A
    login decided by cached flags is recorded by a goroutine; it is returned
    as a value ([login]) and run by [recordLogin]. *)

From stdpp Require Import base list strings gmap fin_maps option.
From Stdlib Require Import ZArith Lia.
From S2P Require Import Prelude TtlCache Models Database Certs.

#[local] Open Scope Z_scope.

Module Auth.

Definition ErrInvalidCredentials : error := Sentinel "auth: invalid credentials".
Definition PeerUser : string := "peer".
Definition userFlagsTimeToLive : duration := minute.
Definition userFlagsMaxEntries : Z := 4096.

Record Settings := {
  CAPublicKeys : list string;
  PeerCAPublicKeys : list string;
  AuthNodeID : string;
}.

Record userFlags := {
  flags_administrator : bool;
  flags_disabled : bool;
  flags_expiresAt : time;
}.

(** The mutable state of an authenticator. *)
Abbreviation flagsCache := (gmap string userFlags).

Definition newAuthenticator : flagsCache := ∅.

(** ** The flags cache *)

Definition getUserFlags (now : time) (userId : string) (self : flagsCache)
    : flagsCache * option userFlags :=
  match self !! userId with
  | None => (self, None)
  | Some flags =>
      if time_after now (flags_expiresAt flags) then (delete userId self, None)
      else (self, Some flags)
  end.

Definition flagsOf (now : time) (user : User) : userFlags :=
  {| flags_administrator := Administrator user;
     flags_disabled := Disabled user;
     flags_expiresAt := time_add now userFlagsTimeToLive |}.

Definition putUserFlags (now : time) (userId : string) (user : User) (self : flagsCache)
    : flagsCache :=
  put_bounded flags_expiresAt userFlagsMaxEntries now userId (flagsOf now user) self.

Definition revokeUserFlags (userId : string) (self : flagsCache) : flagsCache :=
  delete userId self.

(** ** Location *)

(** The fields [lookupLocation] reads of a geoip record. *)
Record cityRecord := {
  city_ISOCode : string;
  city_Latitude : option Z;
  city_Longitude : option Z;
  city_Name : string;
  city_TimeZone : string;
}.

(** [opened] is whether the database file could be opened, [record] what
    [reader.City] returned. *)
Definition lookupLocation (opened : bool) (record : option cityRecord) : Location :=
  if opened then
    match record with
    | None => zeroLocation
    | Some r =>
        {| Latitude := default 0 (city_Latitude r); Longitude := default 0 (city_Longitude r);
           TimeZone := city_TimeZone r; Country := city_ISOCode r; City := city_Name r |}
    end
  else zeroLocation.

(** ** The callbacks *)

Definition with_extensions (f : gmap string string -> gmap string string) (p : Permissions)
    : Permissions :=
  {| CriticalOptions := CriticalOptions p; Extensions := f (Extensions p) |}.

(** What the goroutine of a login decided by cached flags will record. *)
Record login := { login_user : string; login_ip : string; login_location : Location }.

Section callbacks.
Context (verify : Certificate -> bool).
Context {DB : Type} `{Executor DB}.
(** The geoip reader of the vendored library: whether the file opens, and the
    record of an address. *)
Context (geoip_opened : bool) (geoip_city : string -> option cityRecord).

Definition authenticatePeer (settings : Settings) (now : time) (meta : ConnMetadata)
    (publicKey : PublicKey) : result Permissions :=
  match PeerCAPublicKeys settings with
  | [] => Err ErrInvalidCredentials
  | _ =>
      let! _ := Authenticate verify (authorityChecker (PeerCAPublicKeys settings))
                             now meta publicKey in
      match publicKey with
      | PlainKey _ => Err ErrInvalidCredentials
      | CertificateKey certificate =>
          if decide (cert_KeyId certificate = "") then Err ErrInvalidCredentials
          else Ok {| CriticalOptions := ∅;
                     Extensions := <["peer" := ""]> {["identity" := cert_KeyId certificate]} |}
      end
  end.

(** [now] is the clock when the login arrives, [after] the clock when the
    database has answered. *)
Definition authenticate (settings : Settings) (now after : time) (meta : ConnMetadata)
    (publicKey : PublicKey) (self : flagsCache) (d : DB)
    : flagsCache * DB * result Permissions * option login :=
  if decide (meta_User meta = PeerUser) then
    (self, d, authenticatePeer settings now meta publicKey, None)
  else
    let address := meta_IP meta in
    let loc := lookupLocation geoip_opened (geoip_city address) in
    match Authenticate verify (authorityChecker (CAPublicKeys settings)) now meta publicKey with
    | Err err => (self, d, Err err, None)
    | Ok permissions =>
        let permissions := with_extensions (fun e => delete "identity" (delete "peer" e))
                                           permissions in
        let userId := meta_User meta in
        let finish (self : flagsCache) (d : DB) (flags : userFlags) (background : option login) :=
          if flags_disabled flags then (self, d, Err ErrInvalidCredentials, None)
          else
            let permissions :=
              if flags_administrator flags
              then with_extensions <["administrator" := ""]> permissions else permissions in
            (self, d, Ok permissions, background) in
        match getUserFlags now userId self with
        | (self, Some flags) =>
            finish self d flags
              (Some {| login_user := userId; login_ip := address; login_location := loc |})
        | (self, None) =>
            match db_UpsertUserOnConnect now userId address loc (AuthNodeID settings) d with
            | (d, Err err) => (self, d, Err err, None)
            | (d, Ok user) =>
                finish (putUserFlags after userId user self) d
                  {| flags_administrator := Administrator user; flags_disabled := Disabled user;
                     flags_expiresAt := zeroTime |} None
            end
        end
    end.

(** The goroutine that records a login decided by cached flags. *)
Definition recordLogin (settings : Settings) (now after : time) (l : login)
    (self : flagsCache) (d : DB) : flagsCache * DB :=
  match db_UpsertUserOnConnect now (login_user l) (login_ip l) (login_location l)
                               (AuthNodeID settings) d with
  | (d, Err _) => (self, d)
  | (d, Ok user) => (putUserFlags after (login_user l) user self, d)
  end.
End callbacks.

(** ** Histories of the flags cache *)

Inductive flags_op : Type :=
| FlagsGet (now : time) (userId : string)
| FlagsPut (now : time) (userId : string) (user : User)
| FlagsRevoke (userId : string).

Definition flags_step (self : flagsCache) (op : flags_op) : flagsCache :=
  match op with
  | FlagsGet now userId => (getUserFlags now userId self).1
  | FlagsPut now userId user => putUserFlags now userId user self
  | FlagsRevoke userId => revokeUserFlags userId self
  end.

Definition flags_run (ops : list flags_op) : flagsCache := foldl flags_step newAuthenticator ops.

(** Whether an operation writes or revokes the flags of a user. *)
Definition flags_writes (userId : string) (op : flags_op) : bool :=
  match op with
  | FlagsGet _ _ => false
  | FlagsPut _ u _ => bool_decide (u = userId)
  | FlagsRevoke u => bool_decide (u = userId)
  end.

(** ** Lemmas on the flags cache *)

Lemma getUserFlags_Some now userId self self' flags :
  getUserFlags now userId self = (self', Some flags) ->
  self' = self /\ self !! userId = Some flags /\ now <= flags_expiresAt flags.
Proof.
  unfold getUserFlags, time_after. destruct (self !! userId) as [f|]; [|done].
  case_bool_decide; intros; simplify_eq. repeat split; try done. lia.
Qed.

Lemma getUserFlags_revoked now userId self :
  getUserFlags now userId (revokeUserFlags userId self) = (revokeUserFlags userId self, None).
Proof. unfold getUserFlags, revokeUserFlags. by rewrite lookup_delete_eq. Qed.

Lemma getUserFlags_size now userId self :
  map_len self <= userFlagsMaxEntries ->
  map_len (getUserFlags now userId self).1 <= userFlagsMaxEntries.
Proof.
  unfold getUserFlags. intros Hs. destruct (self !! userId); [|done].
  destruct (time_after _ _); [|done]. simpl.
  pose proof (delete_size_le userId self). unfold map_len in *. lia.
Qed.

Lemma putUserFlags_size now userId user self :
  map_len self <= userFlagsMaxEntries ->
  map_len (putUserFlags now userId user self) <= userFlagsMaxEntries.
Proof. by apply put_bounded_size. Qed.

(** ** Lemmas on the statement a login runs *)

Lemma Upsert_flags now userId address loc nodeId t :
  let user := (UpsertUserOnConnect now userId address loc nodeId t).2 in
  Administrator user = default false (users t !! userId ≫= administrator) /\
  Disabled user = default false (users t !! userId ≫= disabled).
Proof. unfold UpsertUserOnConnect. simpl. by destruct (users t !! userId). Qed.

(** A login statement that succeeds returns the account flags of the row. *)
Lemma db_Upsert_Ok {DB} `{Executor DB} now userId address loc nodeId (d d' : DB) user :
  db_UpsertUserOnConnect now userId address loc nodeId d = (d', Ok user) ->
  Administrator user = default false (users (db_tables d) !! userId ≫= administrator) /\
  Disabled user = default false (users (db_tables d) !! userId ≫= disabled) /\
  db_tables d' = (UpsertUserOnConnect now userId address loc nodeId (db_tables d)).1.
Proof.
  intros E. apply db_UpsertUserOnConnect_spec in E as [[E Ht]|(text & [=] & _)].
  assert (user = (UpsertUserOnConnect now userId address loc nodeId (db_tables d)).2) as ->
    by congruence.
  pose proof (Upsert_flags now userId address loc nodeId (db_tables d)) as [Ha Hd]. auto.
Qed.

(** A login never changes the account columns, and changes nothing about other
    users. *)
Lemma Upsert_other now userId address loc nodeId t other :
  other <> userId ->
  users (UpsertUserOnConnect now userId address loc nodeId t).1 !! other = users t !! other.
Proof. intros Hne. unfold UpsertUserOnConnect. simpl. by rewrite lookup_insert_ne. Qed.

(** The presence columns of a disabled user survive a login attempt. *)
Lemma Upsert_disabled_presence now userId address loc nodeId t row :
  users t !! userId = Some row -> disabled row = Some true ->
  exists row',
    users (UpsertUserOnConnect now userId address loc nodeId t).1 !! userId = Some row' /\
    node_id row' = node_id row /\ online_at row' = online_at row /\ disabled row' = Some true.
Proof.
  intros Hrow Hd. unfold UpsertUserOnConnect. rewrite Hrow. simpl.
  eexists. rewrite lookup_insert_eq. rewrite Hd. split; [done|]. by simpl.
Qed.

Lemma flags_run_snoc ops op : flags_run (ops ++ [op]) = flags_step (flags_run ops) op.
Proof. unfold flags_run. by rewrite foldl_app. Qed.

Lemma flags_run_size ops : map_len (flags_run ops) <= userFlagsMaxEntries.
Proof.
  induction ops as [|op ops IH] using rev_ind; [by vm_compute|].
  rewrite flags_run_snoc. destruct op; simpl.
  - by apply getUserFlags_size.
  - by apply putUserFlags_size.
  - pose proof (delete_size_le userId (flags_run ops)). unfold map_len, revokeUserFlags in *. lia.
Qed.

(** An operation that does not write a user's flags can only drop them. *)
Lemma flags_step_other op userId self flags :
  flags_writes userId op = false ->
  flags_step self op !! userId = Some flags -> self !! userId = Some flags.
Proof.
  destruct op as [now u|now u user|u]; simpl; intros Hw.
  - unfold getUserFlags. destruct (self !! u) as [f|]; [|done].
    destruct (time_after _ _); [|done]. simpl. by intros [_ ?]%lookup_delete_Some.
  - apply bool_decide_eq_false in Hw. by apply put_bounded_ne.
  - apply bool_decide_eq_false in Hw. unfold revokeUserFlags. by intros [_ ?]%lookup_delete_Some.
Qed.

Lemma flags_run_sound ops userId flags :
  flags_run ops !! userId = Some flags ->
  exists before now user after,
    ops = before ++ FlagsPut now userId user :: after /\
    Forall (fun op => flags_writes userId op = false) after /\ flags = flagsOf now user.
Proof.
  induction ops as [|op ops IH] using rev_ind; [done|].
  rewrite flags_run_snoc. intros Hl.
  destruct (flags_writes userId op) eqn:Hw.
  - destruct op as [now u|now u user|u]; simpl in *; [done|..];
      apply bool_decide_eq_true in Hw; subst u.
    + unfold putUserFlags in Hl. rewrite put_bounded_eq in Hl. simplify_eq.
      by exists ops, now, user, [].
    + unfold revokeUserFlags in Hl. by rewrite lookup_delete_eq in Hl.
  - apply flags_step_other in Hl; [|done].
    apply IH in Hl as (before & now & user & after & -> & Hafter & Hf).
    exists before, now, user, (after ++ [op]). rewrite <- app_assoc.
    split; [done|]. split; [|done]. apply Forall_app. auto.
Qed.

(** whatever logins, background writes and revocations have happened, the
    login flags cache holds at most 4096 users, and flags served from it at a
    time [now] are those of the last database read recorded for that user, at
    most a minute before [now] and not revoked since. *)
Theorem flags_hit_sound (ops : list flags_op) (now : time) (userId : string) (flags : userFlags) :
  map_len (flags_run ops) <= 4096 /\
  ((getUserFlags now userId (flags_run ops)).2 = Some flags ->
   exists before at_ user after,
     ops = before ++ FlagsPut at_ userId user :: after /\
     Forall (fun op => flags_writes userId op = false) after /\
     flags_administrator flags = Administrator user /\
     flags_disabled flags = Disabled user /\
     now <= at_ + 60 * second).
Proof.
  split; [apply flags_run_size|].
  destruct (getUserFlags now userId (flags_run ops)) as [self' [f|]] eqn:E; [|done].
  simpl. intros [= ->]. apply getUserFlags_Some in E as (-> & Hl & Hnow).
  apply flags_run_sound in Hl as (before & at_ & user & after & -> & Hafter & ->).
  exists before, at_, user, after. repeat split; done.
Qed.

Lemma flags_hit_sound_witness :
  exists before at_ user after,
    [FlagsPut 1 "alice" zeroUser; FlagsRevoke "bob"] =
      before ++ FlagsPut at_ "alice" user :: after /\
    Forall (fun op => flags_writes "alice" op = false) after /\
    false = Administrator user /\ false = Disabled user /\ 5 <= at_ + 60 * second.
Proof.
  apply (proj2 (flags_hit_sound [FlagsPut 1 "alice" zeroUser; FlagsRevoke "bob"] 5 "alice"
    {| flags_administrator := false; flags_disabled := false; flags_expiresAt := 60000000001 |})).
  vm_compute. reflexivity.
Defined.

(** ** What the callbacks accept *)

(** The extensions of an accepted login: those of the certificate but for the
    reserved ones, and [administrator] if the account has it. *)
Lemma login_extensions (isAdministrator : bool) (p : Permissions) (name : string) :
  Extensions (let base := with_extensions (fun e => delete "identity" (delete "peer" e)) p in
              if isAdministrator then with_extensions <["administrator" := ""]> base else base)
    !! name =
  if decide (name = "administrator" /\ isAdministrator = true) then Some ""
  else if decide (name = "peer" \/ name = "identity") then None
  else Extensions p !! name.
Proof.
  destruct isAdministrator; simpl; rewrite ?lookup_insert, !lookup_delete;
    repeat case_decide; subst; naive_solver.
Qed.

Section theorems.
Context (verify : Certificate -> bool).
Context {DB : Type} `{Executor DB}.
Context (geoip_opened : bool) (geoip_city : string -> option cityRecord).

Abbreviation authenticate_ := (authenticate verify geoip_opened geoip_city).

(** Everything a successful login of a user implies about its certificate, its
    permissions and the account flags that decided it. *)
Lemma authenticate_user_Ok settings now after meta publicKey self d self' d' perms bg :
  meta_User meta <> PeerUser ->
  authenticate_ settings now after meta publicKey self d = (self', d', Ok perms, bg) ->
  exists cert flags,
    publicKey = CertificateKey cert /\
    cert_valid verify (CAPublicKeys settings) now (meta_User meta) cert /\
    flags_disabled flags = false /\
    perms =
      (let base := with_extensions (fun e => delete "identity" (delete "peer" e))
                                   (cert_Permissions cert) in
       if flags_administrator flags then with_extensions <["administrator" := ""]> base else base) /\
    ((self !! meta_User meta = Some flags /\ now <= flags_expiresAt flags /\ d' = d /\ self' = self /\
      bg <> None) \/
     (flags_administrator flags =
        default false (users (db_tables d) !! meta_User meta ≫= administrator) /\
      flags_disabled flags =
        default false (users (db_tables d) !! meta_User meta ≫= disabled) /\ bg = None)).
Proof.
  intros Hu. unfold authenticate. rewrite decide_False by done.
  destruct (Authenticate _ _ _ _ _) as [p|e] eqn:Ea; [|done].
  apply Authenticate_Ok in Ea as (cert & -> & -> & Hv).
  destruct (getUserFlags now (meta_User meta) self) as [self1 [flags|]] eqn:Eg.
  - apply getUserFlags_Some in Eg as (-> & Hl & Hnow).
    destruct (flags_disabled flags) eqn:Ed; intros [= <- <- <- <-].
    exists cert, flags. do 4 (split; [done|]). by left.
  - destruct (db_UpsertUserOnConnect _ _ _ _ _ d) as [d1 [user|e]] eqn:Eu; [|done].
    destruct (Disabled user) eqn:Ed; simpl; intros [= <- <- <- <-].
    exists cert, {| flags_administrator := Administrator user; flags_disabled := Disabled user;
                    flags_expiresAt := zeroTime |}.
    do 4 (split; [done|]). right. cbn [flags_administrator flags_disabled].
    by apply db_Upsert_Ok in Eu as (? & ? & _).
Qed.


Lemma authenticatePeer_iff settings now meta publicKey perms :
  authenticatePeer verify settings now meta publicKey = Ok perms <->
  exists cert,
    publicKey = CertificateKey cert /\
    cert_valid verify (PeerCAPublicKeys settings) now (meta_User meta) cert /\
    cert_KeyId cert <> "" /\
    perms = {| CriticalOptions := ∅;
               Extensions := <["peer" := ""]> {["identity" := cert_KeyId cert]} |}.
Proof.
  unfold authenticatePeer.
  destruct (PeerCAPublicKeys settings) as [|ca cas] eqn:Eca.
  { split; [done|]. intros (cert & _ & [_ Ha _ _ _ _ _] & _). by apply elem_of_nil in Ha. }
  rewrite result_bind_Ok. split.
  - intros (p & Ha & Hk). apply Authenticate_Ok in Ha as (cert & -> & -> & Hv).
    case_decide; simplify_eq. eauto 10.
  - intros (cert & -> & Hv & Hk & ->). exists (cert_Permissions cert).
    rewrite Authenticate_Ok, decide_False by done. eauto.
Qed.


(** A login of an account the database has marked disabled, when no flags
    are cached for it, is refused, whatever the database does with the
    statement, and leaves the account's recorded node and heartbeat as they
    were. *)
Theorem authenticate_disabled settings now after meta publicKey self d self' d' r bg row :
  meta_User meta <> PeerUser ->
  (getUserFlags now (meta_User meta) self).2 = None ->
  users (db_tables d) !! meta_User meta = Some row -> disabled row = Some true ->
  authenticate_ settings now after meta publicKey self d = (self', d', r, bg) ->
  (exists err, r = Err err) /\ bg = None /\
  exists row', users (db_tables d') !! meta_User meta = Some row' /\
    node_id row' = node_id row /\ online_at row' = online_at row.
Proof.
  intros Hu Hc Hrow Hd. unfold authenticate. rewrite decide_False by done.
  destruct (Authenticate _ _ _ _ _) as [p|e]; [|intros; simplify_eq; eauto 10].
  destruct (getUserFlags now (meta_User meta) self) as [self1 [flags|]]; [done|]. clear Hc.
  destruct (db_UpsertUserOnConnect _ _ _ _ _ d) as [d1 ru] eqn:Eu.
  pose proof (db_UpsertUserOnConnect_spec _ _ _ _ _ _ _ _ Eu) as Hs.
  destruct (Upsert_disabled_presence now (meta_User meta) (meta_IP meta)
    (lookupLocation geoip_opened (geoip_city (meta_IP meta))) (AuthNodeID settings) _ _ Hrow Hd)
    as (row' & Hrow' & Hn & Ho & _).
  assert (Htables : exists row'', users (db_tables d1) !! meta_User meta = Some row'' /\
    node_id row'' = node_id row /\ online_at row'' = online_at row).
  { destruct Hs as [[_ ->]|(t & _ & [->| ->])]; eauto. }
  destruct ru as [user|e]; [|intros; simplify_eq; eauto 10].
  apply db_Upsert_Ok in Eu as (_ & Hdis & _). rewrite Hrow in Hdis. simpl in Hdis.
  rewrite Hd in Hdis. cbn [flags_disabled]. rewrite Hdis. cbn.
  intros; simplify_eq. eauto 10.
Qed.

(** after [revokeUserFlags], the next login of that user is decided by the
    account row the database holds at that moment: a refusal of the account
    takes effect at once, and an accepted login has just been recorded. *)
Theorem authenticate_after_revoke settings now after meta publicKey self d self' d' r bg :
  meta_User meta <> PeerUser ->
  authenticate_ settings now after meta publicKey (revokeUserFlags (meta_User meta) self) d =
    (self', d', r, bg) ->
  bg = None /\
  (forall perms, r = Ok perms ->
     default false (users (db_tables d) !! meta_User meta ≫= disabled) = false /\
     exists row, users (db_tables d') !! meta_User meta = Some row /\
       node_id row = Some (AuthNodeID settings) /\ online_at row = Some now).
Proof.
  intros Hu. unfold authenticate. rewrite decide_False by done.
  destruct (Authenticate _ _ _ _ _) as [p|e]; [|by intros; simplify_eq].
  rewrite getUserFlags_revoked.
  destruct (db_UpsertUserOnConnect _ _ _ _ _ d) as [d1 ru] eqn:Eu.
  destruct ru as [user|e]; [|by intros; simplify_eq].
  apply db_Upsert_Ok in Eu as (_ & Hf & Ht). cbn [flags_disabled flags_administrator].
  destruct (Disabled user); intros; simplify_eq; (split; [done|]); [done|].
  intros perms _. split; [done|]. rewrite Ht. unfold UpsertUserOnConnect. simpl.
  rewrite lookup_insert_eq. eexists. split; [done|].
  destruct (users (db_tables d) !! meta_User meta) as [row|]; simpl in *; [|done].
  unfold sql_true. by destruct (disabled row) as [[]|].
Qed.

(** an [administrator] extension in the user's certificate gives the login
    administrator rights whatever the account row says: only [peer] and
    [identity] are stripped from the certificate's extensions. *)
Theorem certificate_administrator_kept settings now after meta cert self d self' d' perms bg value :
  meta_User meta <> PeerUser ->
  Extensions (cert_Permissions cert) !! "administrator" = Some value ->
  authenticate_ settings now after meta (CertificateKey cert) self d = (self', d', Ok perms, bg) ->
  is_Some (Extensions perms !! "administrator").
Proof.
  intros Hu Hc E. apply authenticate_user_Ok in E as (c & flags & [= <-] & _ & _ & -> & _); [|done].
  destruct (flags_administrator flags); simpl.
  - rewrite lookup_insert_eq. eauto.
  - rewrite !lookup_delete_ne by done. eauto.
Qed.
End theorems.

(** ** Concrete logins *)

Module Examples.

Definition settings : Settings :=
  {| CAPublicKeys := ["user-ca"]; PeerCAPublicKeys := ["peer-ca"]; AuthNodeID := "node-a" |}.

Definition permissions (names : list string) : Permissions :=
  {| CriticalOptions := ∅; Extensions := list_to_map (map (fun n => (n, "")) names) |}.

(** A certificate signed by [ca] for [user] with the given extensions. *)
Definition certificate (ca user : string) (names : list string) : Certificate :=
  {| cert_Key := "key"; cert_Serial := 1; cert_CertType := 1; cert_KeyId := "node-b";
     cert_ValidPrincipals := [user]; cert_ValidAfter := 0; cert_ValidBefore := CertTimeInfinity;
     cert_Permissions := permissions names; cert_SignatureKey := ca; cert_Signature := "sig" |}.

Definition meta (user : string) : ConnMetadata := {| meta_User := user; meta_IP := "10.0.0.1" |}.

(** A database in which [user] exists, possibly disabled. *)
Definition database (user : string) (off : bool) : server :=
  {| srv_tables :=
       {| users := {[user := userRow
            {| ID := user; CreatedAt := 0; ModifiedAt := 0; Comment := ""; IP := "";
               UserLocation := zeroLocation; Status := ""; Administrator := false;
               Screenshot := None; Disabled := off; NodeID := "node-z"; OnlineAt := 7;
               Online := false |}]};
          nodes := ∅ |};
     srv_schedule := [] |}.

Definition login (user : string) (key : PublicKey) (self : flagsCache) (d : server)
    : flagsCache * server * result Permissions * option Auth.login :=
  authenticate (fun _ => true) false (fun _ => None) settings (100 * second) (100 * second)
    (meta user) key self d.

End Examples.


Lemma authenticate_disabled_witness :
  exists self' d' r bg,
    Examples.login "alice" (CertificateKey (Examples.certificate "user-ca" "alice" []))
      ∅ (Examples.database "alice" true) = (self', d', r, bg) /\
    (exists err, r = Err err).
Proof.
  destruct (Examples.login "alice" (CertificateKey (Examples.certificate "user-ca" "alice" []))
      ∅ (Examples.database "alice" true)) as [[[self' d'] r] bg] eqn:E.
  exists self', d', r, bg. split; [reflexivity|].
  eapply (authenticate_disabled (fun _ => true) false (fun _ => None) _ _ _
    (Examples.meta "alice")); [discriminate| | | |exact E]; vm_compute; reflexivity.
Defined.

Lemma authenticate_after_revoke_witness :
  exists self' d' r bg,
    Examples.login "alice" (CertificateKey (Examples.certificate "user-ca" "alice" []))
      (revokeUserFlags "alice" {["alice" := flagsOf 0 zeroUser]}) (Examples.database "alice" true)
      = (self', d', r, bg) /\ bg = None.
Proof.
  destruct (Examples.login "alice" (CertificateKey (Examples.certificate "user-ca" "alice" []))
      (revokeUserFlags "alice" {["alice" := flagsOf 0 zeroUser]}) (Examples.database "alice" true))
    as [[[self' d'] r] bg] eqn:E.
  exists self', d', r, bg. split; [reflexivity|].
  eapply (authenticate_after_revoke (fun _ => true) false (fun _ => None) _ _ _
    (Examples.meta "alice")); [discriminate|exact E].
Defined.

Lemma certificate_administrator_kept_witness :
  exists self' d' perms bg,
    Examples.login "alice" (CertificateKey (Examples.certificate "user-ca" "alice" ["administrator"]))
      ∅ (Examples.database "alice" false) = (self', d', Ok perms, bg) /\
    is_Some (Extensions perms !! "administrator").
Proof.
  destruct (Examples.login "alice"
    (CertificateKey (Examples.certificate "user-ca" "alice" ["administrator"]))
    ∅ (Examples.database "alice" false)) as [[[self' d'] [perms|e]] bg] eqn:E;
    [|vm_compute in E; discriminate E].
  exists self', d', perms, bg. split; [reflexivity|].
  eapply (certificate_administrator_kept (fun _ => true) false (fun _ => None) _ _ _
    (Examples.meta "alice")); [discriminate| |exact E]. vm_compute. reflexivity.
Defined.

End Auth.
