(* ===== verification/Handshake.v ===== *)
(** * User authentication of the ssh handshake

    [serverAuthenticate] of [vendor/golang.org/x/crypto/ssh/server.go], the
    loop that reads the client's authentication requests and calls the public
    key callback, with the configuration that [NewConfig] of [auth/auth.go]
    makes and [NewServerConn] completes: a public key callback and no other
    method, six tries, the default algorithms.  The parsing of keys, the
    verification of signatures and the matching of source addresses are
    parameters, and so is the callback, which works on a state that others
    may change between two requests. *)

From stdpp Require Import base list strings gmap fin_maps option.
From Stdlib Require Import ZArith Lia.
From Stdlib Require Import Strings.Byte.
From S2P Require Import Prelude GoStrings Bytes Wire TtlCache Models Database Certs Auth.

#[local] Open Scope Z_scope.

Module Handshake.

(** ** Algorithms *)

Definition KeyAlgoRSA : string := "ssh-rsa".
Definition InsecureKeyAlgoDSA : string := "ssh-dss".
Definition KeyAlgoECDSA256 : string := "ecdsa-sha2-nistp256".
Definition KeyAlgoSKECDSA256 : string := "sk-ecdsa-sha2-nistp256@openssh.com".
Definition KeyAlgoECDSA384 : string := "ecdsa-sha2-nistp384".
Definition KeyAlgoECDSA521 : string := "ecdsa-sha2-nistp521".
Definition KeyAlgoED25519 : string := "ssh-ed25519".
Definition KeyAlgoSKED25519 : string := "sk-ssh-ed25519@openssh.com".
Definition KeyAlgoRSASHA256 : string := "rsa-sha2-256".
Definition KeyAlgoRSASHA512 : string := "rsa-sha2-512".

Definition CertAlgoRSAv01 : string := "ssh-rsa-cert-v01@openssh.com".
Definition InsecureCertAlgoDSAv01 : string := "ssh-dss-cert-v01@openssh.com".
Definition CertAlgoECDSA256v01 : string := "ecdsa-sha2-nistp256-cert-v01@openssh.com".
Definition CertAlgoECDSA384v01 : string := "ecdsa-sha2-nistp384-cert-v01@openssh.com".
Definition CertAlgoECDSA521v01 : string := "ecdsa-sha2-nistp521-cert-v01@openssh.com".
Definition CertAlgoSKECDSA256v01 : string := "sk-ecdsa-sha2-nistp256-cert-v01@openssh.com".
Definition CertAlgoED25519v01 : string := "ssh-ed25519-cert-v01@openssh.com".
Definition CertAlgoSKED25519v01 : string := "sk-ssh-ed25519-cert-v01@openssh.com".
Definition CertAlgoRSASHA256v01 : string := "rsa-sha2-256-cert-v01@openssh.com".
Definition CertAlgoRSASHA512v01 : string := "rsa-sha2-512-cert-v01@openssh.com".

Definition certKeyAlgoNames : gmap string string := list_to_map
  [(CertAlgoRSAv01, KeyAlgoRSA); (CertAlgoRSASHA256v01, KeyAlgoRSASHA256);
   (CertAlgoRSASHA512v01, KeyAlgoRSASHA512); (InsecureCertAlgoDSAv01, InsecureKeyAlgoDSA);
   (CertAlgoECDSA256v01, KeyAlgoECDSA256); (CertAlgoECDSA384v01, KeyAlgoECDSA384);
   (CertAlgoECDSA521v01, KeyAlgoECDSA521); (CertAlgoSKECDSA256v01, KeyAlgoSKECDSA256);
   (CertAlgoED25519v01, KeyAlgoED25519); (CertAlgoSKED25519v01, KeyAlgoSKED25519)].

Definition underlyingAlgo (algo : string) : string := default algo (certKeyAlgoNames !! algo).

Definition algorithmsForKeyFormat (keyFormat : string) : list string :=
  if decide (keyFormat = KeyAlgoRSA) then [KeyAlgoRSASHA256; KeyAlgoRSASHA512; KeyAlgoRSA]
  else if decide (keyFormat = CertAlgoRSAv01)
  then [CertAlgoRSASHA256v01; CertAlgoRSASHA512v01; CertAlgoRSAv01]
  else [keyFormat].

Definition isRSA (algo : string) : bool :=
  bool_decide (underlyingAlgo algo ∈ algorithmsForKeyFormat KeyAlgoRSA).

Definition isAlgoCompatible (algo sigFormat : string) : bool :=
  if isRSA algo && isRSA sigFormat then true else bool_decide (underlyingAlgo algo = sigFormat).

(** The list [NewServerConn] fills in, on a build without FIPS 140. *)
Definition defaultPubKeyAuthAlgos : list string :=
  [KeyAlgoED25519; KeyAlgoSKED25519; KeyAlgoSKECDSA256; KeyAlgoECDSA256; KeyAlgoECDSA384;
   KeyAlgoECDSA521; KeyAlgoRSASHA256; KeyAlgoRSASHA512; KeyAlgoRSA; InsecureKeyAlgoDSA].

Definition MaxAuthTries : Z := 6.
Definition maxAuthServerAttempts : Z := 128.
Definition maxCachedPubKeys : Z := 1.

(** ** Messages *)

Definition msgUserAuthRequest : byte := x32.
Definition serviceSSH : string := "ssh-connection".

Record userAuthRequestMsg := {
  req_User : string;
  req_Service : string;
  req_Method : string;
  req_Payload : list byte;
}.

#[export] Instance userAuthRequestMsg_wire : WireStruct userAuthRequestMsg := {
  struct_name := "userAuthRequestMsg";
  struct_types := [msgUserAuthRequest];
  struct_names := ["User"; "Service"; "Method"; "Payload"];
  struct_kinds := [KString; KString; KString; KRest];
  struct_fields r := (req_User r, (req_Service r, (req_Method r, (req_Payload r, tt))));
  struct_make vs :=
    {| req_User := vs.1; req_Service := vs.2.1; req_Method := vs.2.2.1;
       req_Payload := vs.2.2.2.1 |};
  struct_make_fields := ltac:(by intros []);
  struct_fields_make := ltac:(by intros (? & ? & ? & ? & []));
}.

(** The anonymous struct of [buildDataSignedForAuth]. *)
Record signedMsg := {
  sig_Session : list byte;
  sig_Type : byte;
  sig_User : string;
  sig_Service : string;
  sig_Method : string;
  sig_Sign : bool;
  sig_Algo : string;
  sig_PubKey : list byte;
}.

#[export] Instance signedMsg_wire : WireStruct signedMsg := {
  struct_name := "";
  struct_types := [];
  struct_names := ["Session"; "Type"; "User"; "Service"; "Method"; "Sign"; "Algo"; "PubKey"];
  struct_kinds := [KBytes; KUint8; KString; KString; KString; KBool; KString; KBytes];
  struct_fields m :=
    (sig_Session m, (sig_Type m, (sig_User m, (sig_Service m, (sig_Method m,
     (sig_Sign m, (sig_Algo m, (sig_PubKey m, tt))))))));
  struct_make vs :=
    {| sig_Session := vs.1; sig_Type := vs.2.1; sig_User := vs.2.2.1;
       sig_Service := vs.2.2.2.1; sig_Method := vs.2.2.2.2.1; sig_Sign := vs.2.2.2.2.2.1;
       sig_Algo := vs.2.2.2.2.2.2.1; sig_PubKey := vs.2.2.2.2.2.2.2.1 |};
  struct_make_fields := ltac:(by intros []);
  struct_fields_make := ltac:(by intros (? & ? & ? & ? & ? & ? & ? & ? & []));
}.

Definition signedData (sessionID : list byte) (req : userAuthRequestMsg) (algo : string)
    (pubKey : list byte) : signedMsg :=
  {| sig_Session := sessionID; sig_Type := msgUserAuthRequest; sig_User := req_User req;
     sig_Service := req_Service req; sig_Method := req_Method req; sig_Sign := true;
     sig_Algo := algo; sig_PubKey := pubKey |}.

Definition buildDataSignedForAuth (sessionID : list byte) (req : userAuthRequestMsg)
    (algo : string) (pubKey : list byte) : list byte :=
  Marshal (signedData sessionID req algo pubKey).

Record Signature := { Format : string; Blob : list byte; Rest : list byte }.

(** The formats of security keys, whose signatures have more fields. *)
Definition skFormats : list string :=
  [KeyAlgoSKECDSA256; CertAlgoSKECDSA256v01; KeyAlgoSKED25519; CertAlgoSKED25519v01].

Definition parseSignatureBody (inp : list byte) : option (Signature * list byte) :=
  match parseString inp with
  | None => None
  | Some (format, inp) =>
      match parseString inp with
      | None => None
      | Some (blob, inp) =>
          let format := string_of_bytes format in
          if decide (format ∈ skFormats)
          then Some ({| Format := format; Blob := blob; Rest := inp |}, [])
          else Some ({| Format := format; Blob := blob; Rest := [] |}, inp)
      end
  end.

Definition parseSignature (inp : list byte) : option (Signature * list byte) :=
  match parseString inp with
  | None => None
  | Some (sigBytes, rest) =>
      match parseSignatureBody sigBytes with
      | Some (out, []) => Some (out, rest)
      | _ => None
      end
  end.

Definition noTouchRequiredExtension : string := "no-touch-required".

(** [perms] is nil when the callback returned an error. *)
Definition noTouchAllowed (pubKey : PublicKey) (perms : option Permissions) : bool :=
  match perms ≫= (fun p => Extensions p !! noTouchRequiredExtension) with
  | Some _ => true
  | None =>
      match pubKey with
      | CertificateKey cert =>
          bool_decide (is_Some (Extensions (cert_Permissions cert) !! noTouchRequiredExtension))
      | PlainKey _ => false
      end
  end.

(** ** Requests of a client *)

Definition sshString (bs : list byte) : list byte := appendInt [] (len bs) ++ bs.

(** A query whether a key is acceptable, and a request signed with it. *)
Definition keyRequest (user algo : string) (key : list byte) (sig : option Signature)
    : list byte :=
  Marshal
    {| req_User := user; req_Service := serviceSSH; req_Method := "publickey";
       req_Payload :=
         match sig with
         | None => x00 :: sshString (bytes_of_string algo) ++ sshString key
         | Some sig =>
             x01 :: sshString (bytes_of_string algo) ++ sshString key ++
             sshString (sshString (bytes_of_string (Format sig)) ++ sshString (Blob sig))
         end |}.

Lemma len_sshString bs : len (sshString bs) = 4 + len bs.
Proof. unfold sshString, appendInt, appendU32. rewrite len_app. unfold len. cbn [app length]. lia. Qed.

Lemma parseString_sshString bs rest :
  len (sshString bs ++ rest) < 4294967296 -> parseString (sshString bs ++ rest) = Some (bs, rest).
Proof.
  intros Hl. assert (Hb : len bs < 4294967296)
    by (rewrite len_app, len_sshString in Hl; pose proof (len_nonneg rest); lia).
  exact (parseString_marshal bs rest Hb Hl).
Qed.

Lemma len_request (req : userAuthRequestMsg) :
  len (Marshal req) =
  13 + slen (req_User req) + slen (req_Service req) + slen (req_Method req) + len (req_Payload req).
Proof.
  unfold Marshal.
  cbn [struct_kinds struct_types struct_fields userAuthRequestMsg_wire marshalFields marshalField
       fst snd take].
  unfold appendInt, appendU32. rewrite !len_app, !len_bytes_of_string.
  unfold len. cbn [length]. lia.
Qed.

(** The server decodes a request to what the client encoded. *)
Lemma Unmarshal_request (req : userAuthRequestMsg) :
  len (Marshal req) < 4294967296 -> Unmarshal (Marshal req) = Ok req.
Proof.
  intros Hl. apply Unmarshal_Marshal; [done|done| |].
  - rewrite len_request in Hl. pose proof (len_nonneg (req_Payload req)).
    assert (0 <= slen (req_User req) /\ 0 <= slen (req_Service req) /\ 0 <= slen (req_Method req))
      by (unfold slen; lia).
    repeat split; cbn [field_wf struct_fields userAuthRequestMsg_wire fst snd]; lia.
  - split; [|done]. by apply (Marshal_nonempty req KString).
Qed.

Lemma parseSignature_sshString (sig : Signature) :
  Format sig ∉ skFormats -> Rest sig = [] ->
  let body := sshString (bytes_of_string (Format sig)) ++ sshString (Blob sig) in
  len (sshString body) < 4294967296 -> parseSignature (sshString body) = Some (sig, []).
Proof.
  intros Hf Hr body Hl. unfold parseSignature.
  rewrite <- (app_nil_r (sshString body)), parseString_sshString by (by rewrite app_nil_r).
  rewrite len_sshString in Hl. unfold parseSignatureBody, body.
  assert (Hb : len (sshString (bytes_of_string (Format sig)) ++ sshString (Blob sig)) < 4294967296)
    by (unfold body in Hl; lia).
  rewrite (parseString_sshString _ _ Hb).
  rewrite <- (app_nil_r (sshString (Blob sig))), parseString_sshString.
  - rewrite string_of_bytes_of_string, decide_False by done. destruct sig. simpl in *. by subst.
  - rewrite app_nil_r. rewrite len_app in Hb.
    pose proof (len_nonneg (sshString (bytes_of_string (Format sig)))). lia.
Qed.

(** ** The loop *)

(** The outcome of a callback for a user and a key: [cached_err] is the
    callback's error or that of the source address check, [cached_perms] what
    the callback returned. *)
Record cachedPubKey := {
  cached_user : string;
  cached_pubKeyData : list byte;
  cached_err : option error;
  cached_perms : option Permissions;
}.

Abbreviation pubKeyCache := (list cachedPubKey).

Fixpoint cache_get (user : string) (pubKeyData : list byte) (c : pubKeyCache)
    : option cachedPubKey :=
  match c with
  | [] => None
  | k :: rest =>
      if decide (cached_user k = user /\ cached_pubKeyData k = pubKeyData) then Some k
      else cache_get user pubKeyData rest
  end.

Definition cache_add (candidate : cachedPubKey) (c : pubKeyCache) : pubKeyCache :=
  (if decide (maxCachedPubKeys <= len c) then tail c else c) ++ [candidate].

Definition ErrNoAuth : error := Sentinel "ssh: no auth passed yet".

(** What ends the handshake without a connection: the errors of all tries, or
    one error. *)
Inductive failure : Type :=
| ServerAuthError (errs : list error)
| Fatal (err : error).

Inductive reply : Type :=
| PubKeyOk (algo : string) (pubKey : list byte)
| Failure (methods : list string)
| Success
| Disconnect (reason : Z) (message : string).

Inductive outcome : Type :=
| Waiting
| Failed (f : failure)
| Authenticated (user : string) (perms : option Permissions).

Record authState := {
  cache : pubKeyCache;
  authFailures : Z;
  authAttempts : Z;
  noneAuthCount : Z;
  authErrs : list error;
}.

Definition initialState : authState :=
  {| cache := []; authFailures := 0; authAttempts := 0; noneAuthCount := 0; authErrs := [] |}.

(** What the [switch] over the methods makes of a request: it ends the
    handshake, answers a query, or sets [authErr] and [perms]. *)
Inductive verdict : Type :=
| Stop (err : error)
| QueryOk (algo : string) (pubKey : list byte)
| Judged (authErr : option error) (perms : option Permissions).

Definition errMalformed : error := parseError msgUserAuthRequest.

Section loop.
Context {S : Type}.
(** [config.PublicKeyCallback]; the times are the clock before and after its
    database statement. *)
Context (callback : time -> time -> ConnMetadata -> PublicKey -> S -> S * result Permissions).
(** [ParsePublicKey], [PublicKey.Type], [PublicKey.Verify] (with the
    user-presence check of security keys waived or not) and
    [checkSourceAddress] for the client's address. *)
Context (ParsePublicKey : list byte -> result PublicKey).
Context (Type_ : PublicKey -> string).
Context (Verify : bool -> PublicKey -> list byte -> Signature -> option error).
Context (checkSourceAddress : string -> option error).
(** The session identifier of the key exchange and the client's address. *)
Context (sessionID : list byte) (ip : string).
(** The outcome of writing the message of a disconnection. *)
Context (disconnectErr : option error).

(** A packet arrives, after others have worked on the shared state, and the
    answer to it is written; or reading fails. *)
Inductive event : Type :=
| Packet (others : S -> S) (now after : time) (data : list byte) (writeErr : option error)
| ReadEOF
| ReadFailed (err : error).

(** The restriction a certificate puts on the client's address. *)
Definition sourceCheck (perms : option Permissions) : option error :=
  let saco := default "" (perms ≫= (fun p => CriticalOptions p !! sourceAddressCriticalOption)) in
  if decide (saco = "") then None else checkSourceAddress saco.

(** The candidate for a user and a key: the cached one, or a new one from the
    callback. *)
Definition candidateFor (now after : time) (user : string) (pubKeyData : list byte)
    (pubKey : PublicKey) (c : pubKeyCache) (s : S) : S * pubKeyCache * cachedPubKey :=
  match cache_get user pubKeyData c with
  | Some candidate => (s, c, candidate)
  | None =>
      let (s, r) := callback now after {| meta_User := user; meta_IP := ip |} pubKey s in
      let candidate :=
        {| cached_user := user; cached_pubKeyData := pubKeyData;
           cached_err := match r with
                         | Ok perms => sourceCheck (Some perms)
                         | Err err => Some err
                         end;
           cached_perms := result_to_option r |} in
      (s, cache_add candidate c, candidate)
  end.

(** The checks on a request with a signature. *)
Definition checkSigned (req : userAuthRequestMsg) (algo : string) (pubKeyData : list byte)
    (pubKey : PublicKey) (payload : list byte) (candidate : cachedPubKey) : verdict :=
  match parseSignature payload with
  | Some (sig, []) =>
      if decide (algo ∉ algorithmsForKeyFormat (Type_ pubKey)) then
        Judged (Some (Errorf "ssh: public key type %q not compatible with selected algorithm %q"))
               None
      else if decide (Format sig ∉ defaultPubKeyAuthAlgos) then
        Judged (Some (Errorf "ssh: algorithm %q not accepted")) None
      else if isAlgoCompatible algo (Format sig) then
        match Verify (noTouchAllowed pubKey (cached_perms candidate)) pubKey
                     (buildDataSignedForAuth sessionID req algo pubKeyData) sig with
        | Some err => Stop err
        | None =>
            let perms := cached_perms candidate in
            Judged (match cached_err candidate with
                    | Some err => Some err
                    | None => sourceCheck perms
                    end) perms
        end
      else Judged (Some (Errorf "ssh: signature %q not compatible with selected algorithm %q"))
                  None
  | _ => Stop errMalformed
  end.

Definition publickey (now after : time) (req : userAuthRequestMsg) (c : pubKeyCache) (s : S)
    : S * pubKeyCache * verdict :=
  match req_Payload req with
  | [] => (s, c, Stop errMalformed)
  | flag :: payload =>
      let isQuery := bool_decide (flag = x00) in
      match parseString payload with
      | None => (s, c, Stop errMalformed)
      | Some (algoBytes, payload) =>
          let algo := string_of_bytes algoBytes in
          if decide (underlyingAlgo algo ∉ defaultPubKeyAuthAlgos) then
            (s, c, Judged (Some (Errorf "ssh: algorithm %q not accepted")) None)
          else
            match parseString payload with
            | None => (s, c, Stop errMalformed)
            | Some (pubKeyData, payload) =>
                match ParsePublicKey pubKeyData with
                | Err err => (s, c, Stop err)
                | Ok pubKey =>
                    let '(s, c, candidate) :=
                      candidateFor now after (req_User req) pubKeyData pubKey c s in
                    (s, c,
                     if isQuery then
                       match payload, cached_err candidate with
                       | _ :: _, _ => Stop errMalformed
                       | [], None => QueryOk algo pubKeyData
                       | [], Some err => Judged (Some err) None
                       end
                     else checkSigned req algo pubKeyData pubKey payload candidate)
                end
            end
      end
  end.

(** The [switch] on the method; only public keys are configured. *)
Definition method (now after : time) (req : userAuthRequestMsg) (c : pubKeyCache) (s : S)
    : S * pubKeyCache * verdict :=
  let refused (err : error) := (s, c, Judged (Some err) None) in
  if decide (req_Method req = "none") then refused ErrNoAuth
  else if decide (req_Method req = "password") then
    refused (Sentinel "ssh: password auth not configured")
  else if decide (req_Method req = "keyboard-interactive") then
    refused (Sentinel "ssh: keyboard-interactive auth not configured")
  else if decide (req_Method req = "publickey") then publickey now after req c s
  else if decide (req_Method req = "gssapi-with-mic") then
    refused (Sentinel "ssh: gssapi-with-mic auth not configured")
  else refused (Errorf "ssh: unknown method %q").

(** The [disconnectMsg] sent after too many requests. *)
Definition disconnect (message : string) (a : authState) (s : S) : S * list reply * outcome :=
  (s, [Disconnect 2 message],
   Failed (match disconnectErr with
           | Some err => Fatal err
           | None => ServerAuthError (authErrs a ++
                       [Errorf ("ssh: disconnect, reason 2: " +:+ message)])
           end)).

Fixpoint serverAuthenticate (events : list event) (a : authState) (s : S)
    : S * list reply * outcome :=
  if decide (authFailures a >= MaxAuthTries) then
    disconnect "too many authentication failures" a s
  else if decide (authAttempts a >= maxAuthServerAttempts) then
    disconnect "too many authentication attempts" a s
  else
    match events with
    | [] => (s, [], Waiting)
    | ReadEOF :: _ => (s, [], Failed (ServerAuthError (authErrs a)))
    | ReadFailed err :: _ => (s, [], Failed (Fatal err))
    | Packet others now after data writeErr :: rest =>
        let s := others s in
        match Unmarshal (T := userAuthRequestMsg) data with
        | Err err => (s, [], Failed (Fatal err))
        | Ok req =>
            if decide (req_Service req <> serviceSSH) then
              (s, [], Failed (Fatal (Errorf ("ssh: client attempted to negotiate for unknown service: "
                                               +:+ req_Service req))))
            else
              let none := if decide (req_Method req = "none") then noneAuthCount a + 1
                          else noneAuthCount a in
              let '(s, c, v) := method now after req (cache a) s in
              let answer (r : reply) (a' : authState) :=
                match writeErr with
                | Some err => (s, [r], Failed (Fatal err))
                | None => let '(s, replies, o) := serverAuthenticate rest a' s in (s, r :: replies, o)
                end in
              match v with
              | Stop err => (s, [], Failed (Fatal err))
              | QueryOk algo pubKey =>
                  answer (PubKeyOk algo pubKey)
                    {| cache := c; authFailures := authFailures a;
                       authAttempts := authAttempts a + 1; noneAuthCount := none;
                       authErrs := authErrs a |}
              | Judged None perms =>
                  match writeErr with
                  | Some err => (s, [Success], Failed (Fatal err))
                  | None => (s, [Success], Authenticated (req_User req) perms)
                  end
              | Judged (Some err) _ =>
                  let failures :=
                    if decide (authFailures a > 0 \/ req_Method req <> "none" \/ none <> 1)
                    then authFailures a + 1 else authFailures a in
                  let a' := {| cache := c; authFailures := failures;
                               authAttempts := authAttempts a + 1; noneAuthCount := none;
                               authErrs := authErrs a ++ [err] |} in
                  if decide (failures >= MaxAuthTries) then serverAuthenticate rest a' s
                  else answer (Failure ["publickey"]) a'
              end
        end
    end.

(** ** What an accepted handshake has seen *)

(** The outcome in [k] is that of a callback at times [P] allows. *)
Definition vouched (P : time -> time -> Prop) (k : cachedPubKey) : Prop :=
  exists now after key s0 s1 r,
    P now after /\ ParsePublicKey (cached_pubKeyData k) = Ok key /\
    callback now after {| meta_User := cached_user k; meta_IP := ip |} key s0 = (s1, r) /\
    cached_perms k = result_to_option r /\
    cached_err k = match r with Ok perms => sourceCheck (Some perms) | Err err => Some err end.

(** A request that was accepted: signed by a key the callback accepted. *)
Definition proved (P : time -> time -> Prop) (req : userAuthRequestMsg)
    (perms : option Permissions) : Prop :=
  exists k key algo sig,
    vouched P k /\ cached_user k = req_User req /\ cached_err k = None /\
    cached_perms k = perms /\ sourceCheck perms = None /\
    ParsePublicKey (cached_pubKeyData k) = Ok key /\
    Verify (noTouchAllowed key perms) key
      (buildDataSignedForAuth sessionID req algo (cached_pubKeyData k)) sig = None.

Lemma cache_get_Some user data c k :
  cache_get user data c = Some k ->
  k ∈ c /\ cached_user k = user /\ cached_pubKeyData k = data.
Proof.
  induction c as [|k' c IH]; simpl; [done|]. case_decide as Hk.
  - intros [= ->]. split; [by left|done].
  - intros Hc. destruct (IH Hc) as [? ?]. split; [by right|done].
Qed.

Lemma cache_add_Forall (Q : cachedPubKey -> Prop) k c :
  Q k -> Forall Q c -> Forall Q (cache_add k c).
Proof.
  intros Hk Hc. unfold cache_add. apply Forall_app. split; [|by constructor].
  case_decide; [|done]. by inversion_clear Hc.
Qed.

Lemma candidateFor_vouched P now after user data key c s s' c' k :
  P now after -> ParsePublicKey data = Ok key -> Forall (vouched P) c ->
  candidateFor now after user data key c s = (s', c', k) ->
  Forall (vouched P) c' /\ vouched P k /\ cached_user k = user /\ cached_pubKeyData k = data.
Proof.
  intros HP Hkey Hc. unfold candidateFor. destruct (cache_get user data c) as [k'|] eqn:Eg.
  - intros [= <- <- <-]. apply cache_get_Some in Eg as (Hin & Hu & Hd).
    rewrite list.Forall_forall in Hc. split_and!; auto. by apply list.Forall_forall.
  - destruct (callback _ _ _ _ s) as [s1 r] eqn:Ec. intros [= <- <- <-].
    assert (Hv : vouched P {| cached_user := user; cached_pubKeyData := data;
      cached_err := match r with Ok perms => sourceCheck (Some perms) | Err err => Some err end;
      cached_perms := result_to_option r |}) by (exists now, after, key, s, s1, r; done).
    split_and!; try done. by apply cache_add_Forall.
Qed.

Lemma method_vouched P now after req c s s' c' v :
  P now after -> Forall (vouched P) c -> method now after req c s = (s', c', v) ->
  Forall (vouched P) c' /\ (forall perms, v = Judged None perms -> proved P req perms).
Proof.
  intros HP Hc. unfold method.
  repeat (case_decide; [by intros [= <- <- <-]|]).
  case_decide as Hm; [|case_decide; by intros [= <- <- <-]].
  unfold publickey. destruct (req_Payload req) as [|flag payload]; [by intros [= <- <- <-]|].
  destruct (parseString payload) as [[algo payload1]|]; [|by intros [= <- <- <-]].
  case_decide; [by intros [= <- <- <-]|].
  destruct (parseString payload1) as [[data payload2]|]; [|by intros [= <- <- <-]].
  destruct (ParsePublicKey data) as [key|err] eqn:Ek; [|by intros [= <- <- <-]].
  destruct (candidateFor _ _ _ _ _ _ _) as [[s1 c1] k] eqn:Ec. intros [= <- <- <-].
  eapply candidateFor_vouched in Ec as (Hc1 & Hk & Hu & Hd); [|done..].
  split; [done|]. intros perms.
  case_bool_decide; [by destruct payload2, (cached_err k)|].
  unfold checkSigned. destruct (parseSignature payload2) as [[sig [|]]|]; try done.
  repeat (case_decide; [done|]). destruct (isAlgoCompatible _ _); [|done].
  destruct (Verify _ _ _ _) eqn:Ev; [done|].
  destruct (cached_err k) eqn:Ee; [done|]. intros [= Hs <-].
  exists k, key, (string_of_bytes algo), sig. rewrite Hd. by split_and!.
Qed.

Lemma serverAuthenticate_proved P events a s s' replies user perms :
  (forall others now after data w, Packet others now after data w ∈ events -> P now after) ->
  Forall (vouched P) (cache a) ->
  serverAuthenticate events a s = (s', replies, Authenticated user perms) ->
  exists req, req_User req = user /\ req_Service req = serviceSSH /\ proved P req perms.
Proof.
  revert a s replies. induction events as [|e events IH]; intros a s replies HP Hc;
    cbn [serverAuthenticate]; repeat (case_decide; [done|]); [done|].
  destruct e as [others now after data w| |]; [|done..].
  destruct (Unmarshal data) as [req|]; [|done]. case_decide as Hs; [done|].
  destruct (method _ _ _ _ _) as [[s1 c1] v] eqn:Em.
  eapply method_vouched in Em as [Hc1 Hv]; [|by eapply HP; left|done].
  assert (HP' : forall o n t d w', Packet o n t d w' ∈ events -> P n t)
    by (intros; eapply HP; by right).
  destruct v as [|algo key|[err|] p].
  - done.
  - destruct w; [done|].
    destruct (serverAuthenticate events _ s1) as [[s2 rs] o] eqn:E. intros [= <- <- ->].
    by eapply IH in E.
  - case_decide; [by apply IH|]. destruct w; [done|].
    destruct (serverAuthenticate events _ s1) as [[s2 rs] o] eqn:E. intros [= <- <- ->].
    by eapply IH in E.
  - destruct w; [done|]. intros [= <- <- <- <-]. exists req.
    split; [done|]. split; [done|]. by apply Hv.
Qed.

(** Every request counts, so the handshake is decided after 128 of them. *)
Lemma serverAuthenticate_decided events a s s' replies o :
  maxAuthServerAttempts - authAttempts a <= len events ->
  serverAuthenticate events a s = (s', replies, o) -> o <> Waiting.
Proof.
  revert a s replies. induction events as [|e events IH]; intros a s replies Hn;
    cbn [serverAuthenticate]; repeat (case_decide; [by intros [= <- <- <-]|]).
  { exfalso. unfold len in Hn. simpl in Hn. lia. }
  assert (Hn' : maxAuthServerAttempts - (authAttempts a + 1) <= len events)
    by (unfold len in *; cbn [length] in Hn; lia).
  destruct e as [others now after data w| |]; [|by intros [= <- <- <-]..].
  destruct (Unmarshal data) as [req|]; [|by intros [= <- <- <-]].
  case_decide; [by intros [= <- <- <-]|].
  destruct (method _ _ _ _ _) as [[s1 c1] v].
  destruct v as [|algo key|[err|] p].
  - by intros [= <- <- <-].
  - destruct w; [by intros [= <- <- <-]|].
    destruct (serverAuthenticate events _ s1) as [[s2 rs] o'] eqn:E. intros [= <- <- <-].
    by eapply IH in E.
  - case_decide; [intros E; by eapply IH in E|]. destruct w; [by intros [= <- <- <-]|].
    destruct (serverAuthenticate events _ s1) as [[s2 rs] o'] eqn:E. intros [= <- <- <-].
    by eapply IH in E.
  - destruct w; by intros [= <- <- <-].
Qed.

(** A query, after which the client hangs up: the callback has run, and the
    handshake fails. *)
Lemma serverAuthenticate_query now after user algo data key s :
  ParsePublicKey data = Ok key -> underlyingAlgo algo ∈ defaultPubKeyAuthAlgos ->
  len (keyRequest user algo data None) < 4294967296 ->
  exists replies f,
    serverAuthenticate
      [Packet (fun s => s) now after (keyRequest user algo data None) None; ReadEOF] initialState s =
    ((callback now after {| meta_User := user; meta_IP := ip |} key s).1, replies, Failed f).
Proof.
  intros Hk Ha Hl. unfold keyRequest in *.
  set (req := {| req_User := user; req_Service := _; req_Method := _; req_Payload := _ |}) in *.
  assert (Hm : exists v, method now after req [] s =
    (let '(s, c, k) := candidateFor now after user data key [] s in (s, c, v k)) /\
    (forall k, v k = match cached_err k with
                     | None => QueryOk algo data
                     | Some err => Judged (Some err) None
                     end)).
  { exists (fun k => match cached_err k with None => QueryOk algo data
                     | Some err => Judged (Some err) None end). split; [|done].
    rewrite len_request in Hl.
    assert (0 <= slen (req_User req) /\ 0 <= slen (req_Service req) /\ 0 <= slen (req_Method req))
      by (unfold slen; lia).
    unfold method. do 3 (rewrite decide_False by done). rewrite decide_True by done.
    unfold publickey. cbn [req_Payload req] in Hl |- *.
    assert (Hp : len (sshString (bytes_of_string algo) ++ sshString data) < 4294967296)
      by (unfold len in *; cbn [length] in Hl; lia).
    rewrite (parseString_sshString (bytes_of_string algo) (sshString data) Hp).
    rewrite string_of_bytes_of_string, decide_False by tauto.
    rewrite <- (app_nil_r (sshString data)), parseString_sshString, Hk; [done|].
    rewrite app_nil_r. rewrite len_app in Hp. pose proof (len_nonneg (sshString (bytes_of_string algo))).
    lia. }
  destruct Hm as (v & Hm & Hv). cbn [serverAuthenticate initialState authFailures authAttempts cache].
  do 2 (rewrite decide_False by (unfold MaxAuthTries, maxAuthServerAttempts; lia)).
  rewrite (Unmarshal_request req Hl), decide_False by (cbn [req_Service req]; tauto).
  rewrite Hm. unfold candidateFor. cbn [cache_get].
  destruct (callback now after _ key s) as [s1 r]. cbn [fst]. rewrite Hv.
  set (k := cached_err _). destruct k as [err|]; unfold disconnect; repeat case_decide; eauto.
Qed.

(** A request signed with an acceptable key is decided by the candidate. *)
Lemma method_signed now after user algo data key sig c s :
  ParsePublicKey data = Ok key -> underlyingAlgo algo ∈ defaultPubKeyAuthAlgos ->
  algo ∈ algorithmsForKeyFormat (Type_ key) -> Format sig ∈ defaultPubKeyAuthAlgos ->
  isAlgoCompatible algo (Format sig) = true -> Format sig ∉ skFormats -> Rest sig = [] ->
  len (keyRequest user algo data (Some sig)) < 4294967296 ->
  exists req,
    Unmarshal (keyRequest user algo data (Some sig)) = Ok req /\
    req_User req = user /\ req_Service req = serviceSSH /\ req_Method req = "publickey" /\
    method now after req c s =
      (let '(s, c, k) := candidateFor now after user data key c s in
       (s, c, match Verify (noTouchAllowed key (cached_perms k)) key
                      (buildDataSignedForAuth sessionID req algo data) sig with
              | Some err => Stop err
              | None => Judged (match cached_err k with
                                | Some err => Some err
                                | None => sourceCheck (cached_perms k)
                                end) (cached_perms k)
              end)).
Proof.
  intros Hk Ha Ht Hf Hc Hs Hr Hl. unfold keyRequest in *. eexists. split; [exact (Unmarshal_request _ Hl)|].
  split_and!; try done. rewrite len_request in Hl. cbn [req_Payload req_User req_Service req_Method] in Hl.
  assert (0 <= slen user) by (unfold slen; lia).
  unfold method. cbn [req_Method]. do 3 (rewrite decide_False by done). rewrite decide_True by done.
  unfold publickey. cbn [req_Payload].
  set (body := sshString (bytes_of_string (Format sig)) ++ sshString (Blob sig)) in *.
  assert (Hp : len (sshString (bytes_of_string algo) ++ sshString data ++ sshString body) < 4294967296).
  { change (slen serviceSSH) with 14 in Hl. change (slen "publickey") with 9 in Hl.
    unfold len in *. cbn [length] in Hl. lia. }
  rewrite (parseString_sshString (bytes_of_string algo) _ Hp).
  rewrite string_of_bytes_of_string, decide_False by tauto.
  rewrite len_app in Hp. pose proof (len_nonneg (sshString (bytes_of_string algo))).
  assert (Hp' : len (sshString data ++ sshString body) < 4294967296) by lia.
  rewrite (parseString_sshString data _ Hp'), Hk.
  destruct (candidateFor _ _ _ _ _ _ _) as [[s1 c1] k]. cbn [req_User].
  rewrite bool_decide_false by done. do 2 f_equal. unfold checkSigned.
  rewrite len_app in Hp'. pose proof (len_nonneg (sshString data)).
  unfold body. rewrite parseSignature_sshString; [|done..|fold body; lia].
  do 2 (rewrite decide_False by tauto). by rewrite Hc.
Qed.
End loop.
Arguments Packet {S} others now after data writeErr.
Arguments ReadEOF {S}.
Arguments ReadFailed {S} err.

(** ** The server's handshake *)

Section server.
Context (verify : Certificate -> bool).
Context {DB : Type} `{Executor DB}.
Context (geoip_opened : bool) (geoip_city : string -> option Auth.cityRecord).
Context (ParsePublicKey : list byte -> result PublicKey).
Context (Type_ : PublicKey -> string).
Context (Verify : bool -> PublicKey -> list byte -> Signature -> option error).
Context (checkSourceAddress : string -> option error).
Context (sessionID : list byte) (ip : string) (disconnectErr : option error).

(** What the callback shares with the other connections, and the goroutines it
    has left behind. *)
Record shared := {
  flags : Auth.flagsCache;
  database : DB;
  background : list Auth.login;
}.

(** [PublicKeyCallback: authenticator.authenticate] *)
Definition authCallback (settings : Auth.Settings) (now after : time) (meta : ConnMetadata)
    (key : PublicKey) (s : shared) : shared * result Permissions :=
  let '(self, d, r, bg) :=
    Auth.authenticate verify geoip_opened geoip_city settings now after meta key
      (flags s) (database s) in
  ({| flags := self; database := d; background := background s ++ option_list bg |}, r).

Definition authenticateConn (settings : Auth.Settings) (events : list (event (S := shared)))
    (s : shared) : shared * list reply * outcome :=
  serverAuthenticate (authCallback settings) ParsePublicKey Type_ Verify checkSourceAddress
    sessionID ip disconnectErr events initialState s.

Lemma authCallback_Ok settings now after meta key s s' perms :
  authCallback settings now after meta key s = (s', Ok perms) ->
  exists cert, key = CertificateKey cert /\
    (meta_User meta = Auth.PeerUser ->
       cert_valid verify (Auth.PeerCAPublicKeys settings) now Auth.PeerUser cert /\
       cert_KeyId cert <> "" /\
       perms = {| CriticalOptions := ∅;
                  Extensions := <["peer" := ""]> {["identity" := cert_KeyId cert]} |}) /\
    (meta_User meta <> Auth.PeerUser ->
       cert_valid verify (Auth.CAPublicKeys settings) now (meta_User meta) cert /\
       Extensions perms !! "peer" = None /\ Extensions perms !! "identity" = None /\
       Extensions perms !! "permit-port-forwarding" =
         Extensions (cert_Permissions cert) !! "permit-port-forwarding" /\
       CriticalOptions perms = CriticalOptions (cert_Permissions cert)).
Proof.
  unfold authCallback.
  destruct (Auth.authenticate _ _ _ _ _ _ _ _ _ _) as [[[self d] r] bg] eqn:E.
  intros [= _ ->]. destruct (decide (meta_User meta = Auth.PeerUser)) as [Hp|Hp].
  - unfold Auth.authenticate in E. rewrite decide_True in E by done.
    assert (Ea : Auth.authenticatePeer verify settings now meta key = Ok perms) by congruence.
    apply Auth.authenticatePeer_iff in Ea as (cert & -> & Hv & Hk & ->). rewrite Hp in Hv.
    exists cert. split; [done|]. split; [|done]. by intros _.
  - apply Auth.authenticate_user_Ok in E as (cert & fl & -> & Hv & _ & -> & _); [|done].
    exists cert. split; [done|]. split; [done|]. intros _. rewrite !Auth.login_extensions.
    split_and!; [done..|]. by destruct (Auth.flags_administrator fl).
Qed.

(** The signed data determines the session, the user, the algorithm and the
    key. *)
Lemma buildDataSignedForAuth_inj sid req algo key sid' req' algo' key' :
  struct_wf (signedData sid req algo key) -> struct_wf (signedData sid' req' algo' key') ->
  len (buildDataSignedForAuth sid req algo key) < 4294967296 ->
  buildDataSignedForAuth sid req algo key = buildDataSignedForAuth sid' req' algo' key' ->
  sid = sid' /\ req_User req = req_User req' /\ algo = algo' /\ key = key'.
Proof.
  intros Hw Hw' Hlen E.
  assert (signedData sid req algo key = signedData sid' req' algo' key') as Hd.
  { by apply Marshal_inj. }
  unfold signedData in Hd. injection Hd as -> Hu _ _ -> ->. by rewrite Hu.
Qed.

(** A signature by [key] over the data of this session for [user]. *)
Definition signedBy (key : PublicKey) (user : string) : Prop :=
  exists req data algo sig waive,
    req_User req = user /\ ParsePublicKey data = Ok key /\
    Verify waive key (buildDataSignedForAuth sessionID req algo data) sig = None.

(** What an accepted handshake has established about the user. *)
Record certified (settings : Auth.Settings) (events : list (event (S := shared))) (user : string)
    (cert : Certificate) (perms : Permissions) : Prop := {
  certified_signed : signedBy (CertificateKey cert) user;
  certified_peer : user = Auth.PeerUser ->
    (exists others now after packet w, Packet others now after packet w ∈ events /\
       cert_valid verify (Auth.PeerCAPublicKeys settings) now user cert) /\
    cert_KeyId cert <> "" /\
    perms = {| CriticalOptions := ∅;
               Extensions := <["peer" := ""]> {["identity" := cert_KeyId cert]} |};
  certified_user : user <> Auth.PeerUser ->
    (exists others now after packet w, Packet others now after packet w ∈ events /\
       cert_valid verify (Auth.CAPublicKeys settings) now user cert) /\
    Extensions perms !! "peer" = None /\ Extensions perms !! "identity" = None /\
    Extensions perms !! "permit-port-forwarding" =
      Extensions (cert_Permissions cert) !! "permit-port-forwarding" /\
    sourceCheck checkSourceAddress (Some (cert_Permissions cert)) = None;
}.

Lemma authenticateConn_certified settings events s s' replies user perms :
  authenticateConn settings events s = (s', replies, Authenticated user perms) ->
  exists cert p, perms = Some p /\ certified settings events user cert p.
Proof.
  intros E.
  eapply (serverAuthenticate_proved _ _ _ _ _ _ _ _ (fun now after =>
    exists others packet w, Packet others now after packet w ∈ events)) in E
    as (req & <- & _ & k & key & algo & sig & Hv & Hu & He & Hp & Hs & Hk & Hsig);
    [|eauto|constructor].
  destruct Hv as (now & after & key' & s0 & s1 & r & (others & packet & w & Hin) & Hk' & Hc & Hr
    & Hre).
  rewrite Hk' in Hk. injection Hk as ->. destruct r as [p|]; [|congruence].
  apply authCallback_Ok in Hc as (cert & -> & Hpeer & Huser). simpl in Hr, Hpeer, Huser.
  rewrite Hu in *. assert (perms = Some p) as -> by congruence.
  exists cert, p. split; [done|]. split.
  - exists req, (cached_pubKeyData k), algo, sig, (noTouchAllowed (CertificateKey cert) (Some p)).
    done.
  - intros Hpu. destruct (Hpeer Hpu) as (? & ? & ?). rewrite Hpu. eauto 10.
  - intros Hpu. destruct (Huser Hpu) as (? & ? & ? & ? & Hco).
    split_and!; [by exists others, now, after, packet, w|done..|].
    unfold sourceCheck in *. simpl in *. by rewrite Hco in Hs.
Qed.

(** C4: the handshake lets in only who holds the key of a valid certificate.
    Whatever requests a client sends, the handshake is decided after at most
    128 of them.  If it succeeds, the client has signed this session's data
    for that user with the key of a certificate, which was valid for the user
    when one of the client's requests arrived: signed by a peer certificate
    authority if the name is the peers' reserved one, by a user certificate
    authority otherwise.  Only a peer gets a node identity, and a user's
    certificate restricted to source addresses was used from one of them.  The
    signed data determines session, user, algorithm and key, so the signature
    is good for nothing else. *)
Theorem handshake_spec (settings : Auth.Settings) (events : list (event (S := shared)))
    (s s' : shared) (replies : list reply) (o : outcome) :
  authenticateConn settings events s = (s', replies, o) ->
  (maxAuthServerAttempts <= len events -> o <> Waiting) /\
  (forall user perms, o = Authenticated user perms ->
     exists cert p, perms = Some p /\ certified settings events user cert p) /\
  (forall sid req algo key sid' req' algo' key',
     struct_wf (signedData sid req algo key) -> struct_wf (signedData sid' req' algo' key') ->
     len (buildDataSignedForAuth sid req algo key) < 4294967296 ->
     buildDataSignedForAuth sid req algo key = buildDataSignedForAuth sid' req' algo' key' ->
     sid = sid' /\ req_User req = req_User req' /\ algo = algo' /\ key = key').
Proof.
  intros E. split; [|split; [|by apply buildDataSignedForAuth_inj]].
  { intros Hn. eapply serverAuthenticate_decided; [|exact E]. simpl. lia. }
  intros user perms ->. by apply authenticateConn_certified in E.
Qed.

(** C40: a source address restriction of a peer certificate is not enforced.
    The certificate checker accepts the restriction as one the server
    enforces, but the peer callback returns permissions without it, so a node
    whose certificate excludes the address it connects from is let in. *)
Theorem peer_source_address_ignored (settings : Auth.Settings) (now after : time) (algo : string)
    (data : list byte) (cert : Certificate) (sig : Signature) (s : shared)
    (addresses : string) (refused : error) :
  ParsePublicKey data = Ok (CertificateKey cert) ->
  cert_valid verify (Auth.PeerCAPublicKeys settings) now Auth.PeerUser cert ->
  cert_KeyId cert <> "" ->
  CriticalOptions (cert_Permissions cert) !! sourceAddressCriticalOption = Some addresses ->
  checkSourceAddress addresses = Some refused ->
  underlyingAlgo algo ∈ defaultPubKeyAuthAlgos ->
  algo ∈ algorithmsForKeyFormat (Type_ (CertificateKey cert)) ->
  Format sig ∈ defaultPubKeyAuthAlgos -> isAlgoCompatible algo (Format sig) = true ->
  Format sig ∉ skFormats -> Rest sig = [] ->
  (forall waive req, Verify waive (CertificateKey cert)
                       (buildDataSignedForAuth sessionID req algo data) sig = None) ->
  len (keyRequest Auth.PeerUser algo data (Some sig)) < 4294967296 ->
  exists s' perms,
    authenticateConn settings
      [Packet (fun s => s) now after (keyRequest Auth.PeerUser algo data (Some sig)) None] s =
      (s', [Success], Authenticated Auth.PeerUser (Some perms)) /\
    Extensions perms !! "identity" = Some (cert_KeyId cert).
Proof.
  intros Hk Hv Hid Hopt Hchk Ha Ht Hf Hc Hs Hr Hsig Hl. unfold authenticateConn.
  cbn [serverAuthenticate initialState authFailures authAttempts cache].
  do 2 (rewrite decide_False by (unfold MaxAuthTries, maxAuthServerAttempts; lia)).
  destruct (method_signed (authCallback settings) ParsePublicKey Type_ Verify checkSourceAddress
    sessionID ip now after Auth.PeerUser algo data (CertificateKey cert) sig [] s)
    as (req & Eu & Hu & Hsv & Hm & Em); [done..|].
  rewrite Eu, decide_False by tauto. rewrite Em. unfold candidateFor. cbn [cache_get].
  assert (Ecb : exists s1, authCallback settings now after
      {| meta_User := Auth.PeerUser; meta_IP := ip |} (CertificateKey cert) s =
    (s1, Ok {| CriticalOptions := ∅;
               Extensions := <["peer" := ""]> {["identity" := cert_KeyId cert]} |})).
  { unfold authCallback, Auth.authenticate. rewrite decide_True by done.
    eexists. f_equal. apply Auth.authenticatePeer_iff. exists cert. split_and!; done. }
  destruct Ecb as (s1 & ->). cbn [cached_perms cached_err result_to_option].
  rewrite Hsig. eexists s1, _. rewrite Hu. split; [done|]. done.
Qed.
End server.
Arguments flags {DB} s.
Arguments database {DB} s.
Arguments background {DB} s.
Arguments Build_shared {DB} flags database background.

(** ** Witnesses *)

Definition example_signature : Signature :=
  {| Format := KeyAlgoED25519; Blob := bytes_of_string "signature"; Rest := [] |}.

(** A handshake of [user] with a certificate by [ca], from an address that
    source address restrictions exclude. *)
Definition example_handshake (user : string) (cert : Certificate)
    (events : list (event (S := shared (DB := server)))) (d : server)
    : shared (DB := server) * list reply * outcome :=
  authenticateConn (fun _ => true) false (fun _ => None)
    (fun _ => Ok (CertificateKey cert)) (fun _ => CertAlgoED25519v01) (fun _ _ _ _ => None)
    (fun _ => Some (Foreign "not allowed")) (bytes_of_string "session") "10.0.0.1" None
    Auth.Examples.settings events {| flags := ∅; database := d; background := [] |}.

Definition example_request (user : string) (sig : option Signature)
    : event (S := shared (DB := server)) :=
  Packet (fun s => s) (100 * second) (100 * second)
    (keyRequest user CertAlgoED25519v01 (bytes_of_string "key") sig) None.

Lemma handshake_spec_witness :
  exists s' replies perms cert,
    example_handshake "alice" (Auth.Examples.certificate "user-ca" "alice" [])
      [example_request "alice" None; example_request "alice" (Some example_signature)]
      (Auth.Examples.database "alice" false) = (s', replies, Authenticated "alice" perms) /\
    "user-ca" = cert_SignatureKey cert.
Proof.
  destruct (example_handshake "alice" (Auth.Examples.certificate "user-ca" "alice" [])
      [example_request "alice" None; example_request "alice" (Some example_signature)]
      (Auth.Examples.database "alice" false)) as [[s' replies] o] eqn:E.
  pose proof E as Eo. vm_compute in Eo. injection Eo as _ _ <-.
  eapply handshake_spec in E as (_ & Hok & _).
  destruct (Hok _ _ eq_refl) as (cert & p & _ & [_ _ Hu]).
  eexists s', replies, _, cert. split; [reflexivity|].
  destruct Hu as ((others & now & after & packet & w & _ & Hv) & _); [discriminate|].
  destruct Hv as [_ Ha _ _ _ _ _]. by apply list_elem_of_singleton in Ha.
Defined.

(** A peer certificate restricted to other addresses. *)
Definition example_peer_certificate : Certificate :=
  {| cert_Key := "key"; cert_Serial := 1; cert_CertType := 1; cert_KeyId := "node-b";
     cert_ValidPrincipals := [Auth.PeerUser]; cert_ValidAfter := 0;
     cert_ValidBefore := CertTimeInfinity;
     cert_Permissions := {| CriticalOptions := {[sourceAddressCriticalOption := "192.0.2.1"]};
                            Extensions := ∅ |};
     cert_SignatureKey := "peer-ca"; cert_Signature := "sig" |}.

Lemma peer_source_address_ignored_witness :
  exists s' perms,
    example_handshake Auth.PeerUser example_peer_certificate
      [example_request Auth.PeerUser (Some example_signature)] (Auth.Examples.database "alice" false) =
      (s', [Success], Authenticated Auth.PeerUser (Some perms)) /\
    Extensions perms !! "identity" = Some "node-b".
Proof.
  apply (peer_source_address_ignored (fun _ => true) false (fun _ => None)
    (fun _ => Ok (CertificateKey example_peer_certificate)) (fun _ => CertAlgoED25519v01)
    (fun _ _ _ _ => None) (fun _ => Some (Foreign "not allowed")) (bytes_of_string "session")
    "10.0.0.1" None Auth.Examples.settings (100 * second) (100 * second) CertAlgoED25519v01
    (bytes_of_string "key") example_peer_certificate example_signature _ "192.0.2.1"
    (Foreign "not allowed")).
  all: try reflexivity.
  - split; simpl; try done.
    + by constructor.
    + right. by constructor.
    + by left.
    + intros opt value Hl. apply lookup_singleton_Some in Hl as [<- _]. done.
  - discriminate.
  - apply (bool_decide_unpack _). vm_compute. reflexivity.
  - apply (bool_decide_unpack _). vm_compute. reflexivity.
  - apply (bool_decide_unpack _). vm_compute. reflexivity.
  - apply (bool_decide_unpack _). vm_compute. reflexivity.
Defined.
End Handshake.
