(* ===== verification/Keys.v ===== *)
(** * Public keys in files and in the database

    [ParseAuthorizedKey] and [MarshalAuthorizedKey] of the vendored ssh
    package with the base64 encoding they use, [NewCertSigner], and the
    functions of [cli/flags.go] that read keys.  A key is a value of
    [Certs.PublicKey]; decoding the wire format of a key and of a private key
    is the parameters [ParsePublicKey] and [ParsePrivateKey]. *)

From stdpp Require Import base list strings option sets.
From Stdlib Require Import ZArith Lia Ascii.
From S2P Require Import Prelude GoStrings Bytes Wire Certs.
From S2P Require Import Handshake.

Module Base64.

#[local] Open Scope Z_scope.

(** ** encoding/base64, [StdEncoding] *)

Definition code (c : ascii) : Z := Z.of_nat (nat_of_ascii c).
Definition chr (z : Z) : ascii := ascii_of_nat (Z.to_nat (uint8 z)).

Definition alphabet : string :=
  "ABCDEFGHIJKLMNOPQRSTUVWXYZabcdefghijklmnopqrstuvwxyz0123456789+/".

Definition padding : ascii := "="%char.

Definition sextet (v : Z) : ascii := default padding (String.get (Z.to_nat v) alphabet).

Fixpoint index_byte (c : ascii) (s : string) (i : Z) : option Z :=
  match s with
  | EmptyString => None
  | String a s' => if decide (a = c) then Some i else index_byte c s' (i + 1)
  end.

Definition decodeMap (c : ascii) : option Z := index_byte c alphabet 0.

Definition triple (a b c : ascii) : Z :=
  Z.lor (code c) (Z.lor (Z.shiftl (code b) 8) (Z.shiftl (code a) 16)).

(** Bits [k] to [k + 5]. *)
Definition bits6 (val k : Z) : Z := Z.land (Z.shiftr val k) 63.

(** [Encode] *)
Fixpoint EncodeToString (src : string) : string :=
  match src with
  | EmptyString => ""
  | String a EmptyString =>
      let val := triple a zero zero in
      String (sextet (bits6 val 18)) (String (sextet (bits6 val 12))
        (String padding (String padding "")))
  | String a (String b EmptyString) =>
      let val := triple a b zero in
      String (sextet (bits6 val 18)) (String (sextet (bits6 val 12))
        (String (sextet (bits6 val 6)) (String padding "")))
  | String a (String b (String c rest)) =>
      let val := triple a b c in
      String (sextet (bits6 val 18)) (String (sextet (bits6 val 12))
        (String (sextet (bits6 val 6)) (String (sextet (bits6 val 0)) (EncodeToString rest))))
  end.

Definition corrupt : error := Foreign "illegal base64 data at input byte %d".

Definition line_end (c : ascii) : bool := bool_decide (c = newline) || bool_decide (c = return_).

(** The bytes of a quantum of four sextets; only the first [n] are kept. *)
Definition quantum (n : nat) (d0 d1 d2 d3 : Z) : string :=
  let val := Z.lor d3 (Z.lor (Z.shiftl d2 6) (Z.lor (Z.shiftl d1 12) (Z.shiftl d0 18))) in
  String.string_of_list_ascii
    (take n [chr (Z.shiftr val 16); chr (Z.shiftr val 8); chr val]).

(** The second of two padding bytes. *)
Fixpoint lastPadding (decoded : string) (src : string) : result string :=
  match src with
  | EmptyString => Err corrupt
  | String c src' =>
      if line_end c then lastPadding decoded src'
      else if decide (c <> padding) then Err corrupt
      else if all_bytes line_end src' then Ok decoded else Err corrupt
  end.

(** [Decode]: sextets are gathered until a quantum is full; line ends are
    skipped; padding ends the input. *)
Fixpoint DecodeString (pending : list Z) (src : string) : result string :=
  match src with
  | EmptyString => match pending with [] => Ok "" | _ => Err corrupt end
  | String c src' =>
      match decodeMap c with
      | Some v =>
          match pending with
          | [d0; d1; d2] =>
              let! rest := DecodeString [] src' in Ok (quantum 3 d0 d1 d2 v +:+ rest)
          | _ => DecodeString (pending ++ [v]) src'
          end
      | None =>
          if line_end c then DecodeString pending src'
          else if decide (c <> padding) then Err corrupt
          else match pending with
               | [d0; d1; d2] =>
                   if all_bytes line_end src' then Ok (quantum 2 d0 d1 d2 0) else Err corrupt
               | [d0; d1] => lastPadding (quantum 1 d0 d1 0 0) src'
               | _ => Err corrupt
               end
      end
  end.

(** ** Round trip *)

Lemma code_bound c : 0 <= code c < 256.
Proof. unfold code. pose proof (nat_ascii_bounded c). lia. Qed.

Lemma chr_code c z : uint8 z = code c -> chr z = c.
Proof. unfold chr, code. intros ->. rewrite Nat2Z.id. apply ascii_nat_embedding. Qed.

Lemma triple_val a b c : triple a b c = code a * 65536 + code b * 256 + code c.
Proof.
  unfold triple. pose proof (code_bound a); pose proof (code_bound b); pose proof (code_bound c).
  rewrite Z.lor_assoc, (lor_shiftl_add (code c)), lor_shiftl_add by lia. lia.
Qed.

Lemma bits6_val val k : 0 <= k -> bits6 val k = (val / 2 ^ k) mod 64.
Proof. intros Hk. unfold bits6. rewrite Z.shiftr_div_pow2 by lia. by apply (Z.land_ones _ 6). Qed.

Lemma bits6_bound val k : 0 <= bits6 val k < 64.
Proof. unfold bits6. rewrite (Z.land_ones _ 6) by lia. apply Z.mod_pos_bound. lia. Qed.

Lemma decodeMap_sextet v : 0 <= v < 64 -> decodeMap (sextet v) = Some v.
Proof.
  intros Hv. assert (Hall : Forall (fun n => decodeMap (sextet (Z.of_nat n)) = Some (Z.of_nat n)) (seq 0 64))
    by (apply (bool_decide_unpack _); vm_compute; done).
  rewrite list.Forall_forall in Hall. specialize (Hall (Z.to_nat v)).
  rewrite Z2Nat.id in Hall by lia. apply Hall, elem_of_seq. lia.
Qed.

Lemma quantum_full d0 d1 d2 d3 :
  0 <= d0 < 64 -> 0 <= d1 < 64 -> 0 <= d2 < 64 -> 0 <= d3 < 64 ->
  forall n, quantum n d0 d1 d2 d3 =
    String.string_of_list_ascii (take n
      (let val := d0 * 262144 + d1 * 4096 + d2 * 64 + d3 in
       [chr (val / 65536); chr (val / 256); chr val])).
Proof.
  intros H0 H1 H2 H3 n. unfold quantum.
  replace (Z.lor d3 _) with (d0 * 262144 + d1 * 4096 + d2 * 64 + d3).
  - by rewrite !Z.shiftr_div_pow2 by lia.
  - rewrite !Z.lor_assoc, (lor_shiftl_add d3), (lor_shiftl_add _ d1), (lor_shiftl_add _ d0) by lia.
    lia.
Qed.

(** The sextets of three bytes give them back. *)
Lemma quantum_triple a b c n :
  let val := triple a b c in
  quantum n (bits6 val 18) (bits6 val 12) (bits6 val 6) (bits6 val 0)
  = String.string_of_list_ascii (take n [a; b; c]).
Proof.
  intros val. rewrite quantum_full by apply bits6_bound. rewrite !bits6_val by lia.
  pose proof (code_bound a); pose proof (code_bound b); pose proof (code_bound c).
  pose proof (triple_val a b c) as Hv. fold val in Hv. do 2 f_equal. cbn zeta.
  change (2 ^ 18) with 262144. change (2 ^ 12) with 4096. change (2 ^ 6) with 64.
  change (2 ^ 0) with 1.
  replace (_ + _ + _ + _) with val by (Z.div_mod_to_equations; lia).
  repeat f_equal; apply chr_code; unfold uint8; change (2 ^ 8) with 256; Z.div_mod_to_equations; lia.
Qed.

Lemma bits6_low a b :
  bits6 (triple a b zero) 0 = 0 /\ bits6 (triple a zero zero) 6 = 0 /\ bits6 (triple a zero zero) 0 = 0.
Proof.
  rewrite !bits6_val, !triple_val by lia. change (code zero) with 0.
  change (2 ^ 6) with 64. change (2 ^ 0) with 1. repeat split; Z.div_mod_to_equations; lia.
Qed.

Lemma decodeMap_padding : decodeMap padding = None.
Proof. done. Qed.

Lemma decode_encode s : DecodeString [] (EncodeToString s) = Ok s.
Proof.
  induction s as [s IH] using (induction_ltof1 _ String.length). unfold ltof in IH.
  destruct s as [|a [|b [|c rest]]]; [done|..]; cbn [EncodeToString DecodeString];
    repeat (rewrite decodeMap_sextet by apply bits6_bound; cbn [app DecodeString]);
    rewrite ?decodeMap_padding; cbn -[quantum bits6 triple].
  - pose proof (quantum_triple a zero zero 1) as Hq. cbn zeta in Hq.
    destruct (bits6_low a zero) as (_ & E1 & E2). rewrite E1, E2 in Hq. by rewrite Hq.
  - pose proof (quantum_triple a b zero 2) as Hq. cbn zeta in Hq.
    destruct (bits6_low a b) as (E1 & _). rewrite E1 in Hq. by rewrite Hq.
  - rewrite IH by (simpl; lia). cbn [result_bind]. by rewrite quantum_triple.
Qed.

Lemma sextet_graphic v : graphic (sextet v) = true.
Proof.
  assert (Hall : all_bytes graphic alphabet = true) by done.
  unfold sextet. generalize (Z.to_nat v). revert Hall. generalize alphabet.
  induction s as [|c s IH]; intros Hall n; [by destruct n|].
  cbn [all_bytes] in Hall. apply andb_true_iff in Hall as [Hc Hall].
  destruct n as [|n]; simpl; [done|]. by apply IH.
Qed.

Lemma encode_graphic s : all_bytes graphic (EncodeToString s) = true.
Proof.
  induction s as [s IH] using (induction_ltof1 _ String.length). unfold ltof in IH.
  destruct s as [|a [|b [|c rest]]]; cbn [EncodeToString all_bytes];
    rewrite ?sextet_graphic; try done. apply IH. simpl. lia.
Qed.

Lemma encode_nil s : EncodeToString s = "" -> s = "".
Proof. by destruct s as [|a [|b [|c rest]]]. Qed.

End Base64.

(** ** Keys *)

Section keys.

(** [Marshal] and [Type] of a certificate. *)
Context (marshalCertificate certificateType : Certificate -> string).
Context (ParsePublicKey : string -> result PublicKey).

Definition tab : ascii := "009"%char.

Definition Marshal (key : PublicKey) : string :=
  match key with
  | PlainKey blob => blob
  | CertificateKey certificate => marshalCertificate certificate
  end.

(** The format name is the prefix of the wire encoding of a plain key. *)
Definition keyType (key : PublicKey) : string :=
  match key with
  | PlainKey blob =>
      match parseString (bytes_of_string blob) with
      | Some (name, _) => string_of_bytes name
      | None => ""
      end
  | CertificateKey certificate => certificateType certificate
  end.

Definition MarshalAuthorizedKey (key : PublicKey) : string :=
  keyType key +:+ String space (Base64.EncodeToString (Marshal key) +:+ String newline "").

Definition blank (c : ascii) : bool := bool_decide (c = space) || bool_decide (c = tab).

(** [in[:i]] and [in[i:]] for [i := bytes.IndexAny(in, " \t")]. *)
Fixpoint cutBlank (s : string) : option (string * string) :=
  match s with
  | EmptyString => None
  | String a s' =>
      if blank a then Some ("", s)
      else match cutBlank s' with
           | Some (before, after) => Some (String a before, after)
           | None => None
           end
  end.

(** [parseAuthorizedKey]: the key and the comment, after the type. *)
Definition parseAuthorizedKey (inp : string) : result (PublicKey * string) :=
  let inp := TrimSpace inp in
  let '(base64Key, after) := default (inp, "") (cutBlank inp) in
  let! key := Base64.DecodeString [] base64Key in
  let! out := ParsePublicKey key in
  Ok (out, TrimSpace after).

(** The loop over a field of options: the options before the first blank
    outside quotes, and the index where the loop stops. *)
Fixpoint scanOptions (s : string) (i : nat) (inQuote : bool) (prev : option ascii)
    (option_ : string) (candidateOptions : list string) : list string * nat :=
  match s with
  | EmptyString => (candidateOptions, pred i)
  | String b s' =>
      let isEnd := negb inQuote && blank b in
      let isSep := negb inQuote && bool_decide (b = ","%char) in
      let candidateOptions :=
        if (isSep || isEnd) && negb (bool_decide (option_ = ""))
        then candidateOptions ++ [option_] else candidateOptions in
      if isEnd then (candidateOptions, i)
      else
        let toggles := bool_decide (b = quote) && negb (bool_decide (prev = Some "\"%char)) in
        scanOptions s' (S i) (if toggles then negb inQuote else inQuote) (Some b)
          (if isSep then "" else option_ +:+ String b "") candidateOptions
  end.

Fixpoint drop_bytes (n : nat) (s : string) : string :=
  match n, s with
  | S n, String _ s' => drop_bytes n s'
  | _, _ => s
  end.

Fixpoint skipBlanks (s : string) : string :=
  match s with
  | EmptyString => ""
  | String c s' => if blank c then skipBlanks s' else s
  end.

(** The body of the loop of [ParseAuthorizedKey] for one line: the key, the
    comment and the options, an error to remember, or neither. *)
Definition parseLine (line : string) : option (result (PublicKey * string * list string)) :=
  let inp := match cut return_ line with Some (before, _) => before | None => line end in
  let inp := TrimSpace inp in
  match inp with
  | EmptyString => None
  | String first _ =>
      if decide (first = "#"%char) then None
      else match cutBlank inp with
      | None => None
      | Some (_, after) =>
          match parseAuthorizedKey after with
          | Ok (out, comment) => Some (Ok (out, comment, []))
          | Err lastErr =>
              let '(candidateOptions, i) := scanOptions inp 0 false None "" [] in
              let inp := skipBlanks (drop_bytes i inp) in
              if decide (inp = "") then Some (Err lastErr)
              else match cutBlank inp with
                   | None => Some (Err lastErr)
                   | Some (_, after) =>
                       match parseAuthorizedKey after with
                       | Ok (out, comment) => Some (Ok (out, comment, candidateOptions))
                       | Err lastErr => Some (Err lastErr)
                       end
                   end
          end
      end
  end.

Definition errNoKey (lastErr : option error) : error :=
  match lastErr with
  | Some _ => Errorf "ssh: no key found; last parsing error for ignored line: %w"
  | None => Foreign "ssh: no key found"
  end.

(** The line up to the newline, and the rest of the input. *)
Definition cutLine (inp : string) : string * string := default (inp, "") (cut newline inp).

(** Each turn consumes a line, so the length of the input is enough fuel. *)
Fixpoint nextKey (fuel : nat) (inp : string) (lastErr : option error)
    : result (PublicKey * string * list string * string) :=
  match fuel, inp with
  | O, _ | _, EmptyString => Err (errNoKey lastErr)
  | S fuel, _ =>
      let '(line, rest) := cutLine inp in
      match parseLine line with
      | Some (Ok (out, comment, options)) => Ok (out, comment, options, rest)
      | Some (Err err) => nextKey fuel rest (Some err)
      | None => nextKey fuel rest lastErr
      end
  end.

Definition ParseAuthorizedKey (inp : string) : result (PublicKey * string * list string * string) :=
  nextKey (String.length inp) inp None.

(** The loop of [parsePublicKeys]; each turn consumes a line. *)
Fixpoint parseKeys (fuel : nat) (raw : string) : result (list PublicKey) :=
  match raw with
  | EmptyString => Ok []
  | _ =>
      match fuel with
      | O => Err (errNoKey None)
      | S fuel =>
          let! (publicKey, _, _, rest) := ParseAuthorizedKey raw in
          let! publicKeys := parseKeys fuel rest in
          Ok (publicKey :: publicKeys)
      end
  end.

Definition parsePublicKeys (readFile : string -> result string) (path : string)
    : result (list PublicKey) :=
  let! raw := readFile path in
  parseKeys (String.length raw) raw.

(** ** Specification *)

(** The key a line holds, if any. *)
Definition lineKey (line : string) : option PublicKey :=
  match parseLine line with
  | Some (Ok (out, _, _)) => Some out
  | _ => None
  end.

(** The last line holds a key, or is empty and the line before holds one. *)
Definition ends_in_key (raw : string) : Prop :=
  raw = "" \/
  exists lines line, is_Some (lineKey line) /\
    (Split newline raw = lines ++ [line] \/ Split newline raw = lines ++ [line; ""]).

(** The formats of the vendored ssh package. *)
Definition keyFormats : list string :=
  [Handshake.KeyAlgoRSA; Handshake.InsecureKeyAlgoDSA; Handshake.KeyAlgoECDSA256;
   Handshake.KeyAlgoSKECDSA256; Handshake.KeyAlgoECDSA384; Handshake.KeyAlgoECDSA521;
   Handshake.KeyAlgoED25519; Handshake.KeyAlgoSKED25519; Handshake.CertAlgoRSAv01;
   Handshake.InsecureCertAlgoDSAv01; Handshake.CertAlgoECDSA256v01;
   Handshake.CertAlgoECDSA384v01; Handshake.CertAlgoECDSA521v01;
   Handshake.CertAlgoSKECDSA256v01; Handshake.CertAlgoED25519v01;
   Handshake.CertAlgoSKED25519v01].

(** What the ssh package documents of a key: [Type] is the name of its format,
    and [ParsePublicKey] reads the result of [Marshal] back. *)
Record documented (key : PublicKey) : Prop := {
  documented_type : keyType key ∈ keyFormats;
  documented_marshal : Marshal key <> "";
  documented_parse : ParsePublicKey (Marshal key) = Ok key;
}.

(** ** Lines *)

Lemma lineKey_nil : lineKey "" = None.
Proof. done. Qed.

Lemma Split_cutLine inp :
  (exists line rest, cutLine inp = (line, rest) /\ Split newline inp = line :: Split newline rest
     /\ (String.length rest < String.length inp)%nat)
  \/ (cutLine inp = (inp, "") /\ Split newline inp = [inp]).
Proof.
  unfold cutLine. destruct (cut newline inp) as [[line rest]|] eqn:E; simpl.
  - left. exists line, rest. apply cut_Some in E as [-> Hl]. split; [done|].
    rewrite Split_app, String_length_app by done. simpl. split; [done|lia].
  - right. split; [done|]. apply Split_no_sep. destruct (contains_byte newline inp) eqn:Hc; [|done].
    exfalso. revert E Hc. induction inp as [|a inp IH]; [done|]. simpl.
    case_decide; [done|]. rewrite bool_decide_false by done. simpl.
    destruct (cut newline inp) as [[]|]; [done|]. auto.
Qed.

(** The result of looking for the first line with a key. *)
Definition first_key (inp : string) (r : result (PublicKey * string * list string * string)) : Prop :=
  match r with
  | Ok (key, _, _, rest) =>
      exists lines line after,
        Split newline inp = lines ++ line :: after
        /\ Forall (fun l => lineKey l = None) lines /\ lineKey line = Some key
        /\ (String.length rest < String.length inp)%nat
        /\ (after = [] /\ rest = "" \/ after = Split newline rest)
  | Err _ => Forall (fun l => lineKey l = None) (Split newline inp)
  end.

Lemma first_key_later inp line rest r :
  lineKey line = None -> Split newline inp = line :: Split newline rest ->
  (String.length rest < String.length inp)%nat -> first_key rest r -> first_key inp r.
Proof.
  intros Hn Hs Hl. destruct r as [[[[key comment] options] rest']|]; simpl; [|rewrite Hs; by constructor].
  intros (lines & line' & after & Hs' & Hall & Hk & Hlen & Hor).
  exists (line :: lines), line', after. rewrite Hs, Hs'.
  split_and!; [done|by constructor|done|lia|done].
Qed.

Lemma first_key_none inp fuel e :
  Split newline inp = [inp] -> lineKey inp = None -> first_key inp (nextKey fuel "" e).
Proof.
  intros Hs Hn. destruct fuel; simpl; rewrite Hs; by repeat constructor.
Qed.

(** [ParseAuthorizedKey] finds the first line with a key. *)
Lemma nextKey_spec fuel inp lastErr :
  (String.length inp <= fuel)%nat -> first_key inp (nextKey fuel inp lastErr).
Proof.
  revert inp lastErr. induction fuel as [|fuel IH]; intros inp lastErr Hf.
  { destruct inp; [|simpl in Hf; lia]. simpl. repeat constructor. }
  destruct inp as [|c inp']; [simpl; repeat constructor|]. cbn [nextKey].
  set (inp := String c inp') in *.
  assert (Hk : forall line, match parseLine line with
    Some (Ok (key, _, _)) => lineKey line = Some key | _ => lineKey line = None end).
  { intros line. unfold lineKey. by destruct (parseLine line) as [[[[]]|]|]. }
  destruct (Split_cutLine inp) as [(line & rest & -> & Hs & Hl)|[-> Hs]].
  - specialize (Hk line). destruct (parseLine line) as [[[[key comment] options]|e]|].
    + exists [], line, (Split newline rest). split_and!; auto; done.
    + eapply first_key_later; eauto. apply IH. lia.
    + eapply first_key_later; eauto. apply IH. lia.
  - specialize (Hk inp). destruct (parseLine inp) as [[[[key comment] options]|e]|].
    + exists [], inp, []. split_and!; auto; simpl; lia.
    + by apply first_key_none.
    + by apply first_key_none.
Qed.

(** ** Files of keys *)

Lemma omap_none (lines : list string) :
  Forall (fun l => lineKey l = None) lines -> omap lineKey lines = [].
Proof. induction 1 as [|l lines Hl _ IH]; [done|]. simpl. by rewrite Hl. Qed.

Lemma Split_nil_inv rest : Split newline rest = [""] -> rest = "".
Proof. intros E. by rewrite <- (Join_Split newline rest), E. Qed.

Lemma ends_in_key_app raw lines rest :
  Split newline raw = lines ++ Split newline rest -> rest <> "" -> ends_in_key rest ->
  ends_in_key raw.
Proof.
  intros Hs Hne [->|(lines' & line & Hk & [E|E])]; [done|..]; right;
    exists (lines ++ lines'), line; rewrite Hs, E, app_assoc; auto.
Qed.

(** After a line with a key, the rest ends in a key when the whole does. *)
Lemma ends_in_key_rest raw lines line rest :
  Split newline raw = lines ++ line :: Split newline rest -> is_Some (lineKey line) ->
  ends_in_key raw -> ends_in_key rest.
Proof.
  intros Hs Hk. pose proof (Split_not_nil newline rest) as Hnn.
  intros [->|(lines' & line' & Hk' & Hor)].
  { simpl in Hs. destruct lines as [|? [|]]; simplify_eq/=. }
  assert (Htail : exists tail, Split newline raw = lines' ++ tail /\ (tail = [line'] \/ tail = [line'; ""]))
    by (destruct Hor; eauto).
  clear Hor. destruct Htail as (tail & E & Hor). rewrite Hs in E.
  apply app_eq_inv in E as [(k & _ & E)|(k & _ & E)].
  - left. destruct Hor as [-> | ->].
    + destruct k as [|? [|]]; simplify_eq/=.
    + destruct k as [|? [|? [|]]]; simplify_eq/=. by apply Split_nil_inv.
  - destruct k as [|x k]; simplify_eq/=.
    + left. destruct Hor as [E2|E2]; simplify_eq/=. by apply Split_nil_inv.
    + right. exists k, line'. split; [done|]. destruct Hor as [-> | ->]; auto.
Qed.

Lemma parseKeys_spec fuel raw ks :
  (String.length raw <= fuel)%nat ->
  parseKeys fuel raw = Ok ks <-> ks = omap lineKey (Split newline raw) /\ ends_in_key raw.
Proof.
  revert raw ks. induction fuel as [|fuel IH]; intros raw ks Hf.
  { destruct raw; [|simpl in Hf; lia]. simpl. split; [intros [= <-]; split; [done|by left]|by intros [-> _]]. }
  destruct (decide (raw = "")) as [->|Hne].
  { simpl. split; [intros [= <-]; split; [done|by left]|by intros [-> _]]. }
  replace (parseKeys (S fuel) raw) with
    (let! (publicKey, _, _, rest) := ParseAuthorizedKey raw in
     let! publicKeys := parseKeys fuel rest in Ok (publicKey :: publicKeys)) by (by destruct raw).
  pose proof (nextKey_spec (String.length raw) raw None (le_n _)) as Hn.
  fold (ParseAuthorizedKey raw) in Hn.
  destruct (ParseAuthorizedKey raw) as [[[[key comment] options] rest]|e];
    cbn [result_bind first_key] in *.
  - destruct Hn as (lines & line & after & Hs & Hall & Hk & Hl & Hafter).
    assert (Homap : omap lineKey (Split newline raw) = key :: omap lineKey (Split newline rest)
                    /\ (ends_in_key raw <-> ends_in_key rest)).
    { rewrite Hs, omap_app, (omap_none lines) by done. simpl. rewrite Hk.
      destruct Hafter as [[-> ->]|Ha].
      - split; [done|]. split; [by left|]. right. exists lines, line. eauto.
      - rewrite Ha in Hs |- *. split; [done|]. split; [by eapply ends_in_key_rest; eauto|].
        intros He. destruct (decide (rest = "")) as [->|Hr].
        + right. exists lines, line. eauto.
        + eapply (ends_in_key_app raw (lines ++ [line]) rest); [|done..].
          by rewrite <- app_assoc. }
    destruct Homap as [-> ->]. specialize (IH rest). rewrite result_bind_Ok.
    split.
    + intros (ks' & Hks & [= <-]). apply IH in Hks as [-> He]; [done|lia].
    + intros [-> He]. exists (omap lineKey (Split newline rest)). split; [|done]. by apply IH; [lia|].
  - split; [done|]. intros [_ [->|(lines & line & [k Hk] & Hor)]]; [done|].
    rewrite list.Forall_forall in Hn. specialize (Hn line). rewrite Hk in Hn.
    discriminate Hn. destruct Hor as [-> | ->]; set_solver.
Qed.

Lemma cutBlank_word word after :
  all_bytes graphic word = true ->
  cutBlank (word +:+ String space after) = Some (word, String space after)
  /\ cutBlank word = None.
Proof.
  induction word as [|c word IH]; [done|]. cbn [all_bytes]. intros [Hc Hw]%andb_true_iff.
  destruct (IH Hw) as [E1 E2]. rewrite append_cons. cbn [cutBlank].
  assert (Hb : blank c = false).
  { unfold blank. rewrite !bool_decide_false; [done|intros ->; done..]. }
  by rewrite Hb, E1, E2.
Qed.

Lemma keyFormats_plain name :
  name ∈ keyFormats ->
  all_bytes graphic name = true /\ exists c name', name = String c name' /\ c <> "#"%char.
Proof.
  assert (Hall : Forall (fun name => all_bytes graphic name = true /\
      match name with String c _ => c <> "#"%char | EmptyString => False end) keyFormats).
  { repeat (constructor; [by split|]). constructor. }
  rewrite list.Forall_forall in Hall. intros H. destruct (Hall _ H) as [Hg Hc].
  destruct name as [|c name']; [done|]. eauto.
Qed.

(** A line [MarshalAuthorizedKey] writes. *)
Lemma parseLine_marshal key :
  documented key ->
  parseLine (keyType key +:+ String space (Base64.EncodeToString (Marshal key)))
  = Some (Ok (key, "", [])).
Proof.
  intros [Ht Hm Hp]. apply keyFormats_plain in Ht as (Hg & c & name & Hname & Hc).
  pose proof (Base64.encode_graphic (Marshal key)) as Hb.
  pose proof (fun E => Hm (Base64.encode_nil _ E)) as Hbn.
  set (b := Base64.EncodeToString (Marshal key)) in *. unfold parseLine.
  rewrite (cut_None return_).
  2: { rewrite contains_byte_app. cbn [contains_byte].
       by rewrite !(all_bytes_contains graphic) by done. }
  destruct (TrimSpace_word b) as [_ Htb]; [done..|].
  assert (Hne : keyType key <> "") by (by rewrite Hname).
  rewrite TrimSpace_words by done. rewrite Hname, append_cons.
  rewrite decide_False by done. rewrite <- append_cons, <- Hname.
  destruct (cutBlank_word (keyType key) b Hg) as [-> _].
  unfold parseAuthorizedKey. rewrite Htb. destruct (cutBlank_word b "" Hb) as [_ ->].
  cbn [default]. unfold b. rewrite Base64.decode_encode. cbn [result_bind]. by rewrite Hp.
Qed.

Lemma marshal_line key :
  documented key ->
  contains_byte newline (keyType key +:+ String space (Base64.EncodeToString (Marshal key))) = false.
Proof.
  intros [Ht _ _]. apply keyFormats_plain in Ht as [Hg _]. rewrite contains_byte_app.
  cbn [contains_byte]. by rewrite !(all_bytes_contains graphic) by (done || apply Base64.encode_graphic).
Qed.

Lemma MarshalAuthorizedKey_app key rest :
  MarshalAuthorizedKey key +:+ rest =
  (keyType key +:+ String space (Base64.EncodeToString (Marshal key))) +:+ String newline rest.
Proof. unfold MarshalAuthorizedKey. by rewrite !append_assoc, !append_cons, !append_assoc. Qed.

Lemma nextKey_line fuel inp lastErr :
  inp <> "" ->
  nextKey (S fuel) inp lastErr =
    match parseLine (cutLine inp).1 with
    | Some (Ok (out, comment, options)) => Ok (out, comment, options, (cutLine inp).2)
    | Some (Err err) => nextKey fuel (cutLine inp).2 (Some err)
    | None => nextKey fuel (cutLine inp).2 lastErr
    end.
Proof. intros Hne. destruct inp as [|c inp]; [done|]. cbn [nextKey]. by destruct (cutLine _). Qed.

(** Reading the first of the keys written to a text. *)
Lemma ParseAuthorizedKey_marshal key rest :
  documented key ->
  ParseAuthorizedKey (MarshalAuthorizedKey key +:+ rest) = Ok (key, "", [], rest).
Proof.
  intros Hd. rewrite MarshalAuthorizedKey_app. unfold ParseAuthorizedKey.
  pose proof (marshal_line key Hd) as Hl. pose proof (parseLine_marshal key Hd) as Hp.
  set (line := keyType key +:+ _) in *.
  rewrite String_length_app, Nat.add_comm. cbn [String.length Nat.add].
  rewrite nextKey_line by (by destruct line). unfold cutLine. rewrite cut_app by done.
  cbn. by rewrite Hp.
Qed.

(** A key file, for certificate authorities or host keys, is read to the
    end, and the keys are those of the lines that hold one, in order; but only
    when no text follows the last key except one newline.  Otherwise no key is
    read at all. *)
Theorem parsePublicKeys_spec (readFile : string -> result string) (path : string)
    (ks : list PublicKey) :
  parsePublicKeys readFile path = Ok ks <->
  exists raw, readFile path = Ok raw /\ ks = omap lineKey (Split newline raw) /\ ends_in_key raw.
Proof.
  unfold parsePublicKeys. rewrite result_bind_Ok.
  split; intros (raw & Hr & H); exists raw; by apply (parseKeys_spec (String.length raw)) in H.
Qed.

(** Keys written with [MarshalAuthorizedKey] one after the other, as
    [ssh-keygen] does, are read back by [parsePublicKeys]. *)
Theorem parsePublicKeys_marshal (readFile : string -> result string) (path : string)
    (keys : list PublicKey) :
  Forall documented keys ->
  readFile path = Ok (foldr (fun key text => MarshalAuthorizedKey key +:+ text) "" keys) ->
  parsePublicKeys readFile path = Ok keys.
Proof.
  intros Hall Hr. unfold parsePublicKeys. rewrite Hr. cbn [result_bind]. clear Hr.
  generalize (le_n (String.length (foldr (fun key text => MarshalAuthorizedKey key +:+ text) "" keys))).
  generalize (String.length (foldr (fun key text => MarshalAuthorizedKey key +:+ text) "" keys)) at 2 3.
  induction Hall as [|key keys Hd _ IH]; intros fuel Hf; [by destruct fuel|]. cbn [foldr] in *.
  set (text := foldr _ "" keys) in *. pose proof (ParseAuthorizedKey_marshal key text Hd) as Hp.
  pose proof Hf as Hf'. rewrite MarshalAuthorizedKey_app, String_length_app in Hf'. simpl in Hf'.
  destruct fuel as [|fuel]; [lia|].
  destruct (MarshalAuthorizedKey key +:+ text) as [|c raw] eqn:E; [done|].
  cbn [parseKeys]. rewrite Hp. cbn [result_bind]. by rewrite IH by lia.
Qed.

Lemma trailing_line raw trailing :
  trailing <> "" -> Forall (fun line => lineKey line = None) (Split newline trailing) ->
  ~ ends_in_key (raw +:+ String newline trailing).
Proof.
  intros Hne Hall [E|(lines & line & [k Hk] & Hor)]; [by destruct raw|].
  rewrite list.Forall_forall in Hall. specialize (Hall line). rewrite Hk in Hall.
  enough (line ∈ Split newline trailing) by by discriminate Hall.
  rewrite Split_app_any in Hor. clear Hk Hall.
  pose proof (Split_not_nil newline trailing) as Hnn.
  destruct Hor as [E|E]; apply app_eq_inv in E as [(r & _ & E)|(r & _ & ->)]; try set_solver;
    destruct r as [|x r]; cbn [app] in E; try (rewrite <- E; set_solver); injection E as _ E.
  - symmetry in E. by apply app_eq_nil in E as [_ E].
  - destruct r as [|y r]; cbn [app] in E; [by symmetry in E; apply Split_nil_inv in E|].
    injection E as _ E. symmetry in E. by apply app_eq_nil in E as [_ E].
Qed.

(** A line without a key after the last key, such as a comment or an empty
    line, makes the whole file unreadable, although the same line before a key
    is skipped. *)
Theorem trailing_line_refused (readFile : string -> result string) (path raw trailing : string) :
  readFile path = Ok (raw +:+ String newline trailing) ->
  trailing <> "" -> Forall (fun line => lineKey line = None) (Split newline trailing) ->
  exists err, parsePublicKeys readFile path = Err err.
Proof.
  intros Hr Hne Hall. unfold parsePublicKeys. rewrite Hr. cbn [result_bind].
  destruct (parseKeys _ _) as [ks|err] eqn:E; [|eauto]. exfalso.
  apply parseKeys_spec in E as [_ He]; [|done]. by eapply trailing_line.
Qed.

End keys.

(** ** Examples *)

(** An ed25519 key whose encoding is short, and a reader of the encoding. *)
Definition example_key : PublicKey :=
  PlainKey (string_of_bytes (appendInt [] 11 ++ bytes_of_string "ssh-ed25519" ++ appendInt [] 2
    ++ bytes_of_string "pk")).

Definition example_parse (blob : string) : result PublicKey :=
  match parseString (bytes_of_string blob) with
  | Some (name, _) => if decide (string_of_bytes name ∈ keyFormats) then Ok (PlainKey blob)
                      else Err (Errorf "ssh: unknown key algorithm: %v")
  | None => Err (Foreign "ssh: short read")
  end.

Definition no_certificate (c : Certificate) : string := "".

Lemma example_key_documented :
  documented no_certificate no_certificate example_parse example_key.
Proof. split; [|done|done]. apply (bool_decide_unpack _). vm_compute. done. Qed.

Lemma parsePublicKeys_marshal_witness :
  parsePublicKeys example_parse
    (fun _ => Ok (foldr (fun key text => MarshalAuthorizedKey no_certificate no_certificate key +:+ text)
                        "" [example_key; example_key])) "id_rsa.ca.pub"
  = Ok [example_key; example_key].
Proof.
  apply (parsePublicKeys_marshal no_certificate no_certificate); [|done].
  repeat constructor; apply example_key_documented.
Defined.

Lemma trailing_line_refused_witness :
  exists err,
    parsePublicKeys example_parse
      (fun _ => Ok ((keyType no_certificate example_key +:+
                     String space (Base64.EncodeToString (Marshal no_certificate example_key)))
                    +:+ String newline ("# peers" +:+ String newline ""))) "id_rsa.ca.pub"
    = Err err.
Proof.
  eapply (trailing_line_refused example_parse _ _ _ ("# peers" +:+ String newline ""));
    [reflexivity|done|].
  repeat (constructor; [vm_compute; reflexivity|]). constructor.
Defined.
