(* ===== verification/SshConfig.v ===== *)
(** * Configuration of ssh connections, [util/sshconfig/sshconfig.go]

    The algorithms a node offers and the host key it expects from a peer,
    with the negotiation of algorithms of the vendored ssh package
    ([SetDefaults], [findAgreedAlgorithms], [sendKexInit]) that decides what is
    used. *)

From stdpp Require Import base list strings option sets.
From Stdlib Require Import ZArith.
From S2P Require Import Prelude GoStrings Certs.
From S2P Require Import Auth Handshake Keys.

Module SshConfig.

(** ** Names *)

Definition CipherAES128GCM : string := "aes128-gcm@openssh.com".
Definition CipherAES256GCM : string := "aes256-gcm@openssh.com".
Definition CipherChaCha20Poly1305 : string := "chacha20-poly1305@openssh.com".
Definition CipherAES128CTR : string := "aes128-ctr".
Definition CipherAES192CTR : string := "aes192-ctr".
Definition CipherAES256CTR : string := "aes256-ctr".
Definition InsecureCipherAES128CBC : string := "aes128-cbc".
Definition InsecureCipherTripleDESCBC : string := "3des-cbc".
Definition InsecureCipherRC4 : string := "arcfour".
Definition InsecureCipherRC4128 : string := "arcfour128".
Definition InsecureCipherRC4256 : string := "arcfour256".

Definition InsecureKeyExchangeDH1SHA1 : string := "diffie-hellman-group1-sha1".
Definition InsecureKeyExchangeDH14SHA1 : string := "diffie-hellman-group14-sha1".
Definition KeyExchangeDH14SHA256 : string := "diffie-hellman-group14-sha256".
Definition KeyExchangeDH16SHA512 : string := "diffie-hellman-group16-sha512".
Definition KeyExchangeECDHP256 : string := "ecdh-sha2-nistp256".
Definition KeyExchangeECDHP384 : string := "ecdh-sha2-nistp384".
Definition KeyExchangeECDHP521 : string := "ecdh-sha2-nistp521".
Definition KeyExchangeCurve25519 : string := "curve25519-sha256".
Definition InsecureKeyExchangeDHGEXSHA1 : string := "diffie-hellman-group-exchange-sha1".
Definition KeyExchangeDHGEXSHA256 : string := "diffie-hellman-group-exchange-sha256".
Definition KeyExchangeMLKEM768X25519 : string := "mlkem768x25519-sha256".
Definition keyExchangeCurve25519LibSSH : string := "curve25519-sha256@libssh.org".

Definition HMACSHA256ETM : string := "hmac-sha2-256-etm@openssh.com".
Definition HMACSHA512ETM : string := "hmac-sha2-512-etm@openssh.com".
Definition HMACSHA256 : string := "hmac-sha2-256".
Definition HMACSHA512 : string := "hmac-sha2-512".
Definition HMACSHA1 : string := "hmac-sha1".
Definition InsecureHMACSHA196 : string := "hmac-sha1-96".

Definition kexStrictClient : string := "kex-strict-c-v00@openssh.com".
Definition kexStrictServer : string := "kex-strict-s-v00@openssh.com".
Definition compressionNone : string := "none".

Definition defaultKexAlgos : list string :=
  [KeyExchangeMLKEM768X25519; KeyExchangeCurve25519; KeyExchangeECDHP256; KeyExchangeECDHP384;
   KeyExchangeECDHP521; KeyExchangeDH14SHA256; InsecureKeyExchangeDH14SHA1].
Definition insecureKexAlgos : list string :=
  [InsecureKeyExchangeDH14SHA1; InsecureKeyExchangeDH1SHA1; InsecureKeyExchangeDHGEXSHA1].
Definition defaultCiphers : list string :=
  [CipherAES128GCM; CipherAES256GCM; CipherChaCha20Poly1305; CipherAES128CTR; CipherAES192CTR;
   CipherAES256CTR].
Definition insecureCiphers : list string :=
  [InsecureCipherAES128CBC; InsecureCipherTripleDESCBC; InsecureCipherRC4256;
   InsecureCipherRC4128; InsecureCipherRC4].
Definition defaultMACs : list string :=
  [HMACSHA256ETM; HMACSHA512ETM; HMACSHA256; HMACSHA512; HMACSHA1; InsecureHMACSHA196].
Definition insecureMACs : list string := [InsecureHMACSHA196].
Definition defaultHostKeyAlgos : list string :=
  [Handshake.CertAlgoRSASHA256v01; Handshake.CertAlgoRSASHA512v01; Handshake.CertAlgoRSAv01;
   Handshake.InsecureCertAlgoDSAv01; Handshake.CertAlgoECDSA256v01; Handshake.CertAlgoECDSA384v01;
   Handshake.CertAlgoECDSA521v01; Handshake.CertAlgoED25519v01; Handshake.KeyAlgoECDSA256;
   Handshake.KeyAlgoECDSA384; Handshake.KeyAlgoECDSA521; Handshake.KeyAlgoRSASHA256;
   Handshake.KeyAlgoRSASHA512; Handshake.KeyAlgoRSA; Handshake.InsecureKeyAlgoDSA;
   Handshake.KeyAlgoED25519].

(** The names the package has an implementation for. *)
Definition cipherModes : list string := defaultCiphers ++ insecureCiphers.
Definition macModes : list string :=
  [HMACSHA512ETM; HMACSHA256ETM; HMACSHA512; HMACSHA256; HMACSHA1; InsecureHMACSHA196].
Definition kexAlgoMap : list string :=
  [KeyExchangeMLKEM768X25519; KeyExchangeECDHP521; KeyExchangeECDHP384; KeyExchangeECDHP256;
   InsecureKeyExchangeDH1SHA1; InsecureKeyExchangeDH14SHA1; KeyExchangeDH14SHA256;
   KeyExchangeDH16SHA512; KeyExchangeCurve25519; keyExchangeCurve25519LibSSH;
   InsecureKeyExchangeDHGEXSHA1; KeyExchangeDHGEXSHA256].

(** ** Configuration *)

(** [ssh.Config]; a list that is not set is empty. *)
Record Config := { KeyExchanges : list string; Ciphers : list string; MACs : list string }.

Definition unsetConfig : Config := {| KeyExchanges := []; Ciphers := []; MACs := [] |}.

Definition ApplySSHCryptoConfig (config : Config) : Config :=
  {| KeyExchanges := [KeyExchangeCurve25519; KeyExchangeECDHP256; KeyExchangeECDHP384;
                      KeyExchangeECDHP521; KeyExchangeDH14SHA256];
     Ciphers := [CipherAES128GCM; CipherAES256GCM; CipherAES128CTR; CipherAES192CTR;
                 CipherAES256CTR];
     MACs := [HMACSHA256ETM; HMACSHA512ETM; HMACSHA256; HMACSHA512; HMACSHA1] |}.

Definition orDefault (l default : list string) : list string :=
  match l with [] => default | _ => l end.

(** [SetDefaults], the fields of the negotiation. *)
Definition SetDefaults (c : Config) : Config :=
  let kexs := orDefault (KeyExchanges c) defaultKexAlgos in
  {| Ciphers := filter (fun x => x ∈ cipherModes) (orDefault (Ciphers c) defaultCiphers);
     KeyExchanges :=
       mjoin (map (fun k => if decide (k ∈ kexAlgoMap) then
                              if decide (k = KeyExchangeCurve25519 /\
                                         keyExchangeCurve25519LibSSH ∉ kexs)
                              then [k; keyExchangeCurve25519LibSSH] else [k]
                            else []) kexs);
     MACs := filter (fun x => x ∈ macModes) (orDefault (MACs c) defaultMACs) |}.

(** ** Negotiation *)

Record kexInitMsg := {
  KexAlgos : list string;
  ServerHostKeyAlgos : list string;
  CiphersClientServer : list string;
  CiphersServerClient : list string;
  MACsClientServer : list string;
  MACsServerClient : list string;
  CompressionClientServer : list string;
  CompressionServerClient : list string;
}.

(** [sendKexInit]; [hostKeyAlgos] are the algorithms of the host keys of a
    server, [first] whether there is no session yet. *)
Definition sendKexInit (isServer first : bool) (hostKeyAlgos : list string) (config : Config)
    : kexInitMsg :=
  {| KexAlgos := KeyExchanges config ++
       (if first then if isServer then [kexStrictServer] else ["ext-info-c"; kexStrictClient]
        else []);
     ServerHostKeyAlgos := if isServer then hostKeyAlgos else defaultHostKeyAlgos;
     CiphersClientServer := Ciphers config; CiphersServerClient := Ciphers config;
     MACsClientServer := MACs config; MACsServerClient := MACs config;
     CompressionClientServer := [compressionNone]; CompressionServerClient := [compressionNone] |}.

Definition errNoCommon (what : string) : error :=
  Errorf ("ssh: no common algorithm for " +:+ what +:+ "; we offered: %v, peer offered: %v").

(** The first algorithm of the client that the server has too. *)
Definition findCommon (what : string) (client server : list string) : result string :=
  match head (filter (fun c => c ∈ server) client) with
  | Some c => Ok c
  | None => Err (errNoCommon what)
  end.

Definition aeadCiphers : list string := [CipherAES128GCM; CipherAES256GCM; CipherChaCha20Poly1305].

Record DirectionAlgorithms := { Cipher : string; MAC : string; compression : string }.
Record NegotiatedAlgorithms := {
  KeyExchange : string;
  HostKey : string;
  ClientServer : DirectionAlgorithms;
  ServerClient : DirectionAlgorithms;
}.

(** The MAC of a direction is agreed upon only when the cipher needs one. *)
Definition findMAC (what cipher : string) (client server : list string) : result string :=
  if decide (cipher ∈ aeadCiphers) then Ok "" else findCommon what client server.

Definition findAgreedAlgorithms (c s : kexInitMsg) : result NegotiatedAlgorithms :=
  let! kex := findCommon "key exchange" (KexAlgos c) (KexAlgos s) in
  let! hostKey := findCommon "host key" (ServerHostKeyAlgos c) (ServerHostKeyAlgos s) in
  let! cs := findCommon "client to server cipher" (CiphersClientServer c) (CiphersClientServer s) in
  let! sc := findCommon "server to client cipher" (CiphersServerClient c) (CiphersServerClient s) in
  let! csMAC := findMAC "client to server MAC" cs (MACsClientServer c) (MACsClientServer s) in
  let! scMAC := findMAC "server to client MAC" sc (MACsServerClient c) (MACsServerClient s) in
  let! csZip := findCommon "client to server compression" (CompressionClientServer c)
                  (CompressionClientServer s) in
  let! scZip := findCommon "server to client compression" (CompressionServerClient c)
                  (CompressionServerClient s) in
  Ok {| KeyExchange := kex; HostKey := hostKey;
        ClientServer := {| Cipher := cs; MAC := csMAC; compression := csZip |};
        ServerClient := {| Cipher := sc; MAC := scMAC; compression := scZip |} |}.

(** [enterKeyExchange] up to the key exchange itself; [own] is what this side
    sent.  The strict mode of the transport and a packet sent on a wrong guess
    ([FirstKexFollows]) do not change what is agreed upon. *)
Definition enterKeyExchange (isClient : bool) (own other : kexInitMsg) : result NegotiatedAlgorithms :=
  let! algorithms := if isClient then findAgreedAlgorithms own other
                     else findAgreedAlgorithms other own in
  if decide (KeyExchange algorithms ∈ kexAlgoMap) then Ok algorithms
  else Err (Errorf "ssh: unexpected key exchange algorithm %v").

(** ** Peers *)

(** A signer is known by its public key. *)
Record Signer := { signer_PublicKey : PublicKey }.

Record ClientConfig := {
  User : string;
  AuthSigner : Signer;
  HostKeyCallback : string -> PublicKey -> option error;
  Timeout : duration;
  client_Config : Config;
}.

Section pinning.
Context (marshalCertificate : Certificate -> string).

(** The key itself, or the key a certificate is for. *)
Definition hostKeyOf (key : PublicKey) : PublicKey :=
  match key with
  | CertificateKey certificate => PlainKey (cert_Key certificate)
  | _ => key
  end.

Definition CheckPinnedHostKey (pinned : PublicKey) (hostname : string) (key : PublicKey)
    : option error :=
  if decide (Marshal marshalCertificate (hostKeyOf key) <> Marshal marshalCertificate pinned)
  then Some (Errorf ("sshconfig: host key mismatch for peer " +:+ hostname))
  else None.

Definition NewPeerClientConfig (signer : Signer) (pinnedHostKey : PublicKey) : ClientConfig :=
  {| User := Auth.PeerUser; AuthSigner := signer;
     HostKeyCallback := CheckPinnedHostKey pinnedHostKey; Timeout := (10 * second)%Z;
     client_Config := ApplySSHCryptoConfig unsetConfig |}.

(** [connectToPeer] up to [ssh.Dial]: the configuration for a node whose host key
    is published as [hostPublicKey]. *)
Definition peerClientConfig (ParsePublicKey : string -> result PublicKey) (signer : Signer)
    (hostPublicKey : string) : result ClientConfig :=
  let! (pinnedHostKey, _, _, _) := ParseAuthorizedKey ParsePublicKey hostPublicKey in
  Ok (NewPeerClientConfig signer pinnedHostKey).

Definition NewCertSigner (cert : Certificate) (signer : Signer) : result Signer :=
  if decide (cert_Key cert <> Marshal marshalCertificate (signer_PublicKey signer))
  then Err (Foreign "ssh: signer and cert have different public key")
  else Ok {| signer_PublicKey := CertificateKey cert |}.

Lemma CheckPinnedHostKey_spec pinned hostname key :
  CheckPinnedHostKey pinned hostname key = None <->
  Marshal marshalCertificate (hostKeyOf key) = Marshal marshalCertificate pinned.
Proof. unfold CheckPinnedHostKey. case_decide; naive_solver. Qed.

End pinning.

(** ** Theorems *)

Lemma findCommon_Ok what client server x :
  findCommon what client server = Ok x -> x ∈ client /\ x ∈ server.
Proof.
  unfold findCommon. destruct (filter _ client) as [|y l] eqn:E; simpl; [done|]. intros [= ->].
  assert (Hx : x ∈ filter (fun c => c ∈ server) client) by (rewrite E; by left).
  apply list_elem_of_filter in Hx as [? ?]. done.
Qed.

Lemma findMAC_Ok what cipher client server x :
  findMAC what cipher client server = Ok x ->
  cipher ∈ aeadCiphers /\ x = "" \/ x ∈ client /\ x ∈ server.
Proof.
  unfold findMAC. case_decide; [intros [= <-]; by left|]. intros E%findCommon_Ok. by right.
Qed.

(** What is agreed upon was offered by both sides. *)
Lemma findAgreedAlgorithms_Ok c s algs :
  findAgreedAlgorithms c s = Ok algs ->
  KeyExchange algs ∈ KexAlgos c /\ KeyExchange algs ∈ KexAlgos s
  /\ Cipher (ClientServer algs) ∈ CiphersClientServer c
  /\ Cipher (ClientServer algs) ∈ CiphersClientServer s
  /\ Cipher (ServerClient algs) ∈ CiphersServerClient c
  /\ Cipher (ServerClient algs) ∈ CiphersServerClient s
  /\ (Cipher (ClientServer algs) ∈ aeadCiphers /\ MAC (ClientServer algs) = "" \/
      MAC (ClientServer algs) ∈ MACsClientServer c /\ MAC (ClientServer algs) ∈ MACsClientServer s)
  /\ (Cipher (ServerClient algs) ∈ aeadCiphers /\ MAC (ServerClient algs) = "" \/
      MAC (ServerClient algs) ∈ MACsServerClient c /\ MAC (ServerClient algs) ∈ MACsServerClient s).
Proof.
  unfold findAgreedAlgorithms. intros H. invert_binds H. injection H as <-. simpl.
  repeat match goal with
  | E : findCommon _ _ _ = Ok _ |- _ => apply findCommon_Ok in E as [? ?]
  | E : findMAC _ _ _ _ = Ok _ |- _ => apply findMAC_Ok in E
  end. done.
Qed.

(** The hardened algorithms. *)
Definition hardened : Config := SetDefaults (ApplySSHCryptoConfig unsetConfig).

Lemma hardened_secure :
  Forall (fun x => (x ∉ insecureKexAlgos) /\ x ∈ kexAlgoMap) (KeyExchanges hardened)
  /\ Forall (fun x => (x ∉ insecureCiphers) /\ x ∈ cipherModes) (Ciphers hardened)
  /\ Forall (fun x => (x ∉ insecureMACs) /\ x ∈ macModes) (MACs hardened).
Proof. split_and!; apply (bool_decide_unpack _); vm_compute; done. Qed.

(** An algorithm agreed upon by one direction is secure. *)
Definition secure_direction (d : DirectionAlgorithms) : Prop :=
  (Cipher d ∈ Ciphers hardened /\ Cipher d ∉ insecureCiphers)
  /\ (Cipher d ∈ aeadCiphers /\ MAC d = "" \/ MAC d ∈ MACs hardened /\ MAC d ∉ insecureMACs).

Lemma extensions_not_kex (isServer first : bool) x :
  x ∈ KexAlgos (sendKexInit isServer first [] hardened) -> x ∈ kexAlgoMap ->
  x ∈ KeyExchanges hardened.
Proof.
  unfold sendKexInit. cbn [KexAlgos]. rewrite elem_of_app. intros [H|H] Hk; [done|]. exfalso. revert x H Hk.
  destruct first, isServer; simpl; intros x H Hk; rewrite ?list_elem_of_singleton, ?elem_of_cons in H;
    destruct_or?; subst; revert Hk; try (apply elem_of_nil in H; done);
    apply (bool_decide_unpack _); vm_compute; done.
Qed.



End SshConfig.
