(* ===== verification/Dsn.v ===== *)
(** * Opening the database, [db/db.go] and [db/ssh.go]

    The connection string [Open] builds and the parser of the vendored pgx
    package that reads it ([parseKeywordValueSettings]), and the connection
    through a peer, with what [Close] waits for.  The driver, the ssh client
    and its channels answer through parameters. *)

From stdpp Require Import base list strings gmap fin_maps option sets.
From Stdlib Require Import ZArith Lia Ascii.
From S2P Require Import Prelude GoStrings Bytes Conns Wire Certs.
From S2P Require Import Keys SshConfig.

Module Dsn.

(** ** Keyword/value strings *)

Definition equals : ascii := "="%char.
Definition apostrophe : ascii := "'"%char.
Definition backslash : ascii := "\"%char.

Definition asciiSpace (c : ascii) : bool :=
  bool_decide (9 <= nat_of_ascii c <= 13)%nat || bool_decide (c = space).

Fixpoint TrimLeft (s : string) : string :=
  match s with
  | EmptyString => ""
  | String c s' => if asciiSpace c then TrimLeft s' else s
  end.

Fixpoint TrimRight (s : string) : string :=
  match s with
  | EmptyString => ""
  | String c s' =>
      let rest := TrimRight s' in
      if asciiSpace c && bool_decide (rest = "") then "" else String c rest
  end.

Definition Trim (s : string) : string := TrimRight (TrimLeft s).

(** [strings.ReplaceAll] of a backslash followed by [c], by [c]. *)
Fixpoint unescape (c : ascii) (s : string) : string :=
  match s with
  | String a (String b s' as tail) =>
      if decide (a = backslash /\ b = c) then String c (unescape c s') else String a (unescape c tail)
  | _ => s
  end.

(** The two replacements, in order. *)
Definition unescapeValue (s : string) : string := unescape apostrophe (unescape backslash s).

Definition errKeyword : error := Foreign "invalid keyword/value".
Definition errBackslash : error := Foreign "invalid backslash".
Definition errUnterminated : error :=
  Foreign "unterminated quoted string in connection info string".
Definition panicSlice : error := Foreign "panic: slice bounds out of range".

(** [s[:end]] and [s[end:]] of an unquoted value. *)
Fixpoint scanPlain (s : string) : result (string * string) :=
  match s with
  | EmptyString => Ok ("", "")
  | String c s' =>
      if asciiSpace c then Ok ("", s)
      else if decide (c = backslash) then
        match s' with
        | EmptyString => Err errBackslash
        | String d s'' => let! (value, rest) := scanPlain s'' in Ok (String c (String d value), rest)
        end
      else let! (value, rest) := scanPlain s' in Ok (String c value, rest)
  end.

(** [s[:end]] and [s[end+1:]] of a quoted value, after the opening quote.  A
    backslash at the end moves [end] past the string. *)
Fixpoint scanQuoted (s : string) : result (string * string) :=
  match s with
  | EmptyString => Err errUnterminated
  | String c s' =>
      if decide (c = apostrophe) then Ok ("", s')
      else if decide (c = backslash) then
        match s' with
        | EmptyString => Err panicSlice
        | String d s'' => let! (value, rest) := scanQuoted s'' in Ok (String c (String d value), rest)
        end
      else let! (value, rest) := scanQuoted s' in Ok (String c value, rest)
  end.

Definition canonicalConnStringKey (k : string) : string :=
  if decide (k = "dbname") then "database" else k.

(** One value: its text and what follows it. *)
Definition scanValue (s : string) : result (string * string) :=
  match s with
  | EmptyString => Ok ("", "")
  | String c s' =>
      let! (value, rest) := if decide (c = apostrophe) then scanQuoted s' else scanPlain s in
      Ok (unescapeValue value, TrimLeft rest)
  end.

(** The loop; each turn consumes an equals sign, so the length is enough fuel. *)
Fixpoint parsePairs (fuel : nat) (s : string) (settings : gmap string string)
    : result (gmap string string) :=
  match s, fuel with
  | EmptyString, _ => Ok settings
  | _, O => Err errKeyword
  | _, S fuel =>
      match cut equals s with
      | None => Err errKeyword
      | Some (before, after) =>
          let! (val, s) := scanValue (TrimLeft after) in
          let key := canonicalConnStringKey (Trim before) in
          if decide (key = "") then Err errKeyword
          else if decide (key = "user" /\ val = "") then parsePairs fuel s settings
          else parsePairs fuel s (<[key := val]> settings)
      end
  end.

Definition parseKeywordValueSettings (s : string) : result (gmap string string) :=
  parsePairs (String.length s) (TrimLeft s) ∅.

(** ** Open *)

Record Settings := {
  Host : string;
  Port : Z;
  User : string;
  Password : string;
  DatabaseName : string;
  SSLMode : string;
  PeerAddress : string;
  PeerSigner : option SshConfig.Signer;
  PeerHostPublicKey : option PublicKey;
}.

Definition sslModeOf (settings : Settings) : string :=
  if decide (SSLMode settings = "") then "disable" else SSLMode settings.

Definition dsn (settings : Settings) : string :=
  "host=" +:+ Host settings +:+ " port=" +:+ formatUint32 (Port settings) +:+
  " user=" +:+ User settings +:+ " password=" +:+ Password settings +:+
  " dbname=" +:+ DatabaseName settings +:+ " sslmode=" +:+ sslModeOf settings.

(** The sources of connections: the driver's own, or a tunnel through a peer
    ([DialFunc]) with the settings of the string. *)
Inductive dialector : Type :=
| Direct (text : string)
| ViaPeer (config : gmap string string) (address : string) (signer : option SshConfig.Signer)
    (pinned : option PublicKey).

Definition maxIdleConnections : Z := 8.
Definition maxOpenConnections : Z := 16.
Definition connectionMaxIdleTime : duration := (5 * minute)%Z.

Record database := {
  source : dialector;
  maxIdleConns : Z;
  maxOpenConns : Z;
  connMaxIdleTime : duration;
}.

(** [Open]; [parse] are the further checks of [pgx.ParseConfig] on the
    settings, [gormOpen] the result of [gorm.Open] and [db.DB()]. *)
Definition Open (parse : gmap string string -> option error) (gormOpen : dialector -> option error)
    (settings : Settings) : result database :=
  let text := dsn settings in
  let! source :=
    if decide (PeerAddress settings <> "") then
      let! config := parseKeywordValueSettings text in
      match parse config with
      | Some err => Err err
      | None => Ok (ViaPeer config (PeerAddress settings) (PeerSigner settings)
                            (PeerHostPublicKey settings))
      end
    else Ok (Direct text) in
  match gormOpen source with
  | Some err => Err err
  | None => Ok {| source := source; maxIdleConns := maxIdleConnections;
                  maxOpenConns := maxOpenConnections; connMaxIdleTime := connectionMaxIdleTime |}
  end.

(** ** The tunnel *)

Section tunnel.
Context (marshalCertificate : Certificate -> string).
Context {Cl Ch : Type} `{Conns.SshClient Cl}.

(** [ssh.Dial] and [client.OpenChannel]. *)
Context (dial : string -> SshConfig.ClientConfig -> result Cl).
Context (openChannel : string -> list Byte.byte -> Cl -> Cl * result Ch).

(** [dialPostgresViaPeer]: the result, the client when it was closed again, and
    whether the goroutine that drops the requests of the channel was started. *)
Definition dialPostgresViaPeer (address : string) (signer : SshConfig.Signer)
    (pinnedHostKey : PublicKey) : result (Conns.tunnelConn Ch Cl) * option Cl * bool :=
  let config := SshConfig.NewPeerClientConfig marshalCertificate signer pinnedHostKey in
  match dial address config with
  | Err _ => (Err (Errorf "db: failed to dial peer: %w"), None, false)
  | Ok client =>
      match openChannel "direct-tcpip" (marshalTunnelData postgresTunnelData) client with
      | (client, Err _) =>
          (Err (Errorf "db: failed to open postgres tunnel: %w"),
           Some (Conns.client_Close client).1, false)
      | (client, Ok channel) => (Ok (Conns.Build_tunnelConn channel client), None, true)
      end
  end.

End tunnel.

(** ** Closing the database *)

(** The tunnels of the pool: the ssh clients that are up, the goroutines that
    drop the requests of a tunnel, which [waitGroup] counts, whether the pool is
    closed, and how far [Close] is. *)
Inductive closePhase := NotCalled | Waiting | Returned (err : option error).

Record tunnels := {
  clientsUp : gset positive;
  draining : gset positive;
  poolClosed : bool;
  closing : closePhase;
}.

Definition noTunnels : tunnels :=
  {| clientsUp := ∅; draining := ∅; poolClosed := false; closing := NotCalled |}.

(** [Close] up to the wait: [dbErr] and [closeErr] are the errors of [self.db.DB()]
    and of the pool's [Close], which closes the connections in the pool. *)
Definition beginClose (dbErr closeErr : option error) (s : tunnels) : tunnels :=
  match dbErr with
  | Some err => {| clientsUp := clientsUp s; draining := draining s; poolClosed := poolClosed s;
                   closing := Returned (Some err) |}
  | None =>
      {| clientsUp := ∅; draining := draining s; poolClosed := true;
         closing := match closeErr with Some err => Returned (Some err) | None => Waiting end |}
  end.

Inductive tunnelStep : tunnels -> tunnels -> Prop :=
| t_dial s p :                       (* dialPostgresViaPeer; a closed pool closes what it is given *)
    p ∉ draining s -> p ∉ clientsUp s ->
    tunnelStep s {| clientsUp := if poolClosed s then clientsUp s else {[p]} ∪ clientsUp s;
                    draining := {[p]} ∪ draining s; poolClosed := poolClosed s;
                    closing := closing s |}
| t_down s p :                       (* tunnelConn.Close, or the peer goes away *)
    tunnelStep s {| clientsUp := clientsUp s ∖ {[p]}; draining := draining s;
                    poolClosed := poolClosed s; closing := closing s |}
| t_drained s p :                    (* DiscardRequests returns; waitGroup.Done() *)
    p ∈ draining s -> p ∉ clientsUp s ->
    tunnelStep s {| clientsUp := clientsUp s; draining := draining s ∖ {[p]};
                    poolClosed := poolClosed s; closing := closing s |}
| t_close s dbErr closeErr :
    closing s = NotCalled -> tunnelStep s (beginClose dbErr closeErr s)
| t_return s :                       (* waitGroup.Wait() *)
    closing s = Waiting -> draining s = ∅ ->
    tunnelStep s {| clientsUp := clientsUp s; draining := draining s; poolClosed := poolClosed s;
                    closing := Returned None |}.

Lemma Open_source parse gormOpen settings d :
  Open parse gormOpen settings = Ok d ->
  (PeerAddress settings = "" /\ source d = Direct (dsn settings))
  \/ (PeerAddress settings <> "" /\ exists config,
       parseKeywordValueSettings (dsn settings) = Ok config
       /\ source d = ViaPeer config (PeerAddress settings) (PeerSigner settings)
                            (PeerHostPublicKey settings)).
Proof.
  unfold Open. intros E. apply result_bind_Ok in E as (src & Hsrc & E).
  destruct (gormOpen src); [done|]. injection E as <-. simpl. case_decide as Hp.
  - right. split; [done|]. apply result_bind_Ok in Hsrc as (config & Hc & Hs).
    destruct (parse config); [done|]. injection Hs as <-. eauto.
  - left. injection Hsrc as <-. split; [|done].
    destruct (decide (PeerAddress settings = "")); tauto.
Qed.

(** ** Specification *)

(** A value that needs no quotes. *)
Definition plain_byte (c : ascii) : bool := negb (asciiSpace c) && negb (bool_decide (c = backslash)).
Definition plain (v : string) : Prop :=
  all_bytes plain_byte v = true /\
  match v with EmptyString => False | String c _ => c <> apostrophe end.

(** A keyword. *)
Definition word (k : string) : Prop :=
  k <> "" /\ all_bytes graphic k = true /\ contains_byte equals k = false.

(** Settings in a row, with a space in front of a value or not. *)
Definition pad (padded : bool) : string := if padded then " " else "".

Fixpoint render (pairs : list (string * bool * string)) : string :=
  match pairs with
  | [] => ""
  | [(k, padded, v)] => k +:+ String equals (pad padded +:+ (v +:+ ""))
  | (k, padded, v) :: rest =>
      k +:+ String equals (pad padded +:+ (v +:+ String space (render rest)))
  end.

Definition renderable (pair : string * bool * string) : Prop := word pair.1.1 /\ plain pair.2.

(** ** Parsing rendered settings *)

Lemma graphic_not_space c : graphic c = true -> asciiSpace c = false.
Proof.
  unfold graphic, asciiSpace. intros H%bool_decide_eq_true. apply orb_false_iff.
  split; apply bool_decide_eq_false; [lia|]. intros ->. simpl in H. vm_compute in H. lia.
Qed.

Lemma TrimLeft_id c s : asciiSpace c = false -> TrimLeft (String c s) = String c s.
Proof. intros Hc. simpl. by rewrite Hc. Qed.

Lemma Trim_word k : word k -> Trim k = k.
Proof.
  intros (Hne & Hg & _). destruct k as [|c k]; [done|]. unfold Trim.
  pose proof Hg as Hg'. cbn [all_bytes] in Hg'. apply andb_true_iff in Hg' as [Hc _].
  rewrite TrimLeft_id by by apply graphic_not_space. clear Hne Hc. revert Hg.
  generalize (String c k). intros s. induction s as [|d s IH]; [done|]. cbn [all_bytes TrimRight].
  intros [Hd Hs]%andb_true_iff. rewrite IH by done. by rewrite (graphic_not_space d).
Qed.

Lemma unescape_plain c v : contains_byte backslash v = false -> unescape c v = v.
Proof.
  induction v as [|a v IH]; [done|]. cbn [contains_byte].
  intros [Ha%bool_decide_eq_false Hv]%orb_false_iff. destruct v as [|b v]; [done|].
  cbn [unescape] in *. rewrite decide_False by naive_solver. by rewrite IH.
Qed.

Lemma scanPlain_plain v tail :
  all_bytes plain_byte v = true ->
  (tail = "" \/ exists rest, tail = String space rest) -> scanPlain (v +:+ tail) = Ok (v, tail).
Proof.
  intros Hv Ht. induction v as [|c v IH].
  - by destruct Ht as [-> |[rest ->]].
  - rewrite append_cons. cbn [all_bytes] in Hv. apply andb_true_iff in Hv as [Hc Hv].
    apply andb_true_iff in Hc as [Hs%negb_true_iff Hb%negb_true_iff%bool_decide_eq_false].
    cbn [scanPlain]. by rewrite Hs, decide_False, IH by done.
Qed.

Lemma plain_no_backslash v : all_bytes plain_byte v = true -> contains_byte backslash v = false.
Proof. intros H. by apply (all_bytes_contains plain_byte). Qed.

Lemma scanValue_plain v tail :
  plain v -> (tail = "" \/ exists rest, tail = String space rest) ->
  scanValue (v +:+ tail) = Ok (v, TrimLeft tail).
Proof.
  intros [Hv Hq] Ht. pose proof (scanPlain_plain v tail Hv Ht) as Hs.
  destruct v as [|c v]; [done|]. rewrite append_cons in *. cbn [scanValue].
  rewrite decide_False, Hs by done. cbn [result_bind]. unfold unescapeValue.
  by rewrite !unescape_plain by (rewrite ?unescape_plain; by apply plain_no_backslash).
Qed.

(** One pair; the value may be preceded by a space. *)
Lemma parsePairs_pair fuel k v (padded : bool) tail settings :
  word k -> plain v -> (tail = "" \/ exists rest, tail = String space rest) ->
  parsePairs (S fuel) (k +:+ String equals (pad padded +:+ (v +:+ tail))) settings
  = parsePairs fuel (TrimLeft tail) (<[canonicalConnStringKey k := v]> settings).
Proof.
  intros Hk Hv Ht. pose proof Hk as (Hne & Hg & He). pose proof (Trim_word k Hk) as Htrim.
  replace (parsePairs (S fuel) (k +:+ _) settings) with
    (match cut equals (k +:+ String equals (pad padded +:+ (v +:+ tail))) with
     | None => Err errKeyword
     | Some (before, after) =>
         let! (val, s) := scanValue (TrimLeft after) in
         let key := canonicalConnStringKey (Trim before) in
         if decide (key = "") then Err errKeyword
         else if decide (key = "user" /\ val = "") then parsePairs fuel s settings
         else parsePairs fuel s (<[key := val]> settings)
     end) by (by destruct k).
  rewrite cut_app by done.
  replace (TrimLeft (pad padded +:+ (v +:+ tail))) with (v +:+ tail).
  - rewrite scanValue_plain by done. cbn [result_bind]. rewrite Htrim.
    rewrite decide_False by (unfold canonicalConnStringKey; by case_decide).
    rewrite decide_False; [done|]. intros [_ ->]. by destruct Hv.
  - destruct Hv as [Hv Hq]. destruct v as [|c v]; [done|]. rewrite append_cons.
    cbn [all_bytes] in Hv. apply andb_true_iff in Hv as [[Hs%negb_true_iff _]%andb_true_iff _].
    transitivity (TrimLeft (String c (v +:+ tail))); [by rewrite TrimLeft_id|by destruct padded].
Qed.

Definition settle (m : gmap string string) (pair : string * bool * string) : gmap string string :=
  <[canonicalConnStringKey pair.1.1 := pair.2]> m.

Lemma render_first pairs : Forall renderable pairs -> TrimLeft (render pairs) = render pairs.
Proof.
  intros Hall. destruct pairs as [|[[k padded] v] pairs]; [done|].
  inversion_clear Hall as [|? ? [Hk _] _].
  destruct Hk as (Hne & Hg & _). simpl in *. destruct k as [|c k]; [done|].
  cbn [all_bytes] in Hg. apply andb_true_iff in Hg as [Hc%graphic_not_space _].
  destruct pairs; rewrite append_cons; by apply TrimLeft_id.
Qed.

Lemma parsePairs_render fuel pairs settings :
  (length pairs <= fuel)%nat -> Forall renderable pairs ->
  parsePairs fuel (render pairs) settings = Ok (foldl settle settings pairs).
Proof.
  intros Hf Hall. revert fuel settings Hf.
  induction Hall as [|[[k padded] v] pairs [Hk Hv] Hall IH]; intros fuel settings Hf;
    [by destruct fuel|].
  simpl in Hf. destruct fuel as [|fuel]; [lia|]. destruct pairs as [|pair pairs].
  - cbn [render]. rewrite (parsePairs_pair fuel k v padded "") by auto. by destruct fuel.
  - change (render ((k, padded, v) :: pair :: pairs)) with
      (k +:+ String equals (pad padded +:+ (v +:+ String space (render (pair :: pairs))))).
    rewrite (parsePairs_pair fuel k v padded) by eauto.
    change (TrimLeft (String space ?x)) with (TrimLeft x). rewrite render_first by done.
    rewrite IH; [done|]. simpl in *. lia.
Qed.

Lemma render_length pairs : (length pairs <= String.length (render pairs))%nat.
Proof.
  induction pairs as [|[[k padded] v] pairs IH]; [done|].
  destruct pairs as [|pair pairs]; cbn [render length]; rewrite !String_length_app; simpl;
    rewrite !String_length_app; simpl in *; lia.
Qed.

Lemma parse_render pairs :
  Forall renderable pairs ->
  parseKeywordValueSettings (render pairs) = Ok (foldl settle ∅ pairs).
Proof.
  intros Hall. unfold parseKeywordValueSettings. rewrite render_first by done.
  apply parsePairs_render; [apply render_length|done].
Qed.

(** ** Numbers *)

Definition decimal (c : ascii) : bool := bool_decide (48 <= nat_of_ascii c <= 57)%nat.

Lemma digits_decimal fuel n :
  (0 <= n)%Z -> all_bytes decimal (digits fuel 10 n) = true.
Proof.
  assert (Hd : forall d, (0 <= d < 10)%Z -> decimal (digit d) = true).
  { intros d Hd. unfold digit, decimal. rewrite decide_True by lia. apply bool_decide_eq_true.
    rewrite nat_ascii_embedding by lia. lia. }
  revert n. induction fuel as [|fuel IH]; intros n Hn; [done|]. cbn [digits].
  case_decide; cbn [all_bytes]; [by rewrite Hd by lia|].
  rewrite all_bytes_app, IH by (apply Z.div_pos; lia). cbn [all_bytes].
  by rewrite Hd by (apply Z.mod_pos_bound; lia).
Qed.

Lemma digits_not_nil fuel base n : digits (S fuel) base n <> "".
Proof. cbn [digits]. case_decide; [done|]. by destruct (digits fuel base (n / base)). Qed.

Lemma all_bytes_impl (f g : ascii -> bool) s :
  (forall c, f c = true -> g c = true) -> all_bytes f s = true -> all_bytes g s = true.
Proof.
  intros Hfg. induction s as [|c s IH]; [done|]. cbn [all_bytes].
  rewrite !andb_true_iff. intros [Hc Hs]. auto.
Qed.

Lemma plain_number n : (0 <= n)%Z -> plain (formatUint32 n).
Proof.
  intros Hn. pose proof (digits_decimal 10 n Hn) as Hd. unfold formatUint32. split.
  - eapply all_bytes_impl; [|exact Hd]. intros c Hc%bool_decide_eq_true. apply andb_true_iff.
    rewrite !negb_true_iff. split; [apply orb_false_iff; split|]; apply bool_decide_eq_false; [lia|..];
      intros ->; vm_compute in Hc; lia.
  - destruct (digits 10 10 n) as [|c s] eqn:E.
    + by apply digits_not_nil in E.
    + cbn [all_bytes] in Hd. apply andb_true_iff in Hd as [Hc%bool_decide_eq_true _].
      intros ->. vm_compute in Hc. lia.
Qed.

(** ** Theorems *)

Lemma keywords_words (k : string) :
  k ∈ ["host"; "port"; "user"; "password"; "dbname"; "sslmode"] -> word k.
Proof.
  intros H. repeat (apply elem_of_cons in H as [->|H]; [by split_and!|]). by apply elem_of_nil in H.
Qed.

Ltac solve_renderable :=
  repeat (apply list.Forall_cons; split; [split; [apply keywords_words; set_solver|try done]|]);
  try by constructor.

(** The connection string of [Open] carries its settings to the driver:
    when no value is empty or has white space, a backslash or a quote in
    front, the driver reads back exactly the host, port, user, password,
    database and TLS mode that were configured. *)
Theorem dsn_roundtrip (settings : Settings) :
  plain (Host settings) -> plain (User settings) -> plain (Password settings) ->
  plain (DatabaseName settings) -> plain (sslModeOf settings) -> (0 <= Port settings)%Z ->
  parseKeywordValueSettings (dsn settings) =
  Ok {[ "sslmode" := sslModeOf settings; "database" := DatabaseName settings;
        "password" := Password settings; "user" := User settings;
        "port" := formatUint32 (Port settings); "host" := Host settings ]}.
Proof.
  intros Hh Hu Hp Hd Hs Hn%plain_number.
  replace (dsn settings) with (render
    [("host", false, Host settings); ("port", false, formatUint32 (Port settings));
     ("user", false, User settings); ("password", false, Password settings);
     ("dbname", false, DatabaseName settings); ("sslmode", false, sslModeOf settings)]).
  - by rewrite parse_render by solve_renderable.
  - cbn [render]. by rewrite append_nil.
Qed.

Lemma plain_prefixed k v : all_bytes plain_byte k = true -> plain v -> k <> "" ->
  match k with String c _ => c <> apostrophe | _ => False end -> plain (k +:+ v).
Proof.
  intros Hk [Hv _] Hne Hq. split; [by rewrite all_bytes_app, Hk|]. by destruct k.
Qed.

(** An empty password silently changes the settings: the driver takes the
    text after it for the password, so it logs in with the password
    [dbname=...] and no database name reaches it. *)
Theorem dsn_empty_password (settings : Settings) :
  plain (Host settings) -> plain (User settings) -> Password settings = "" ->
  plain (DatabaseName settings) -> plain (sslModeOf settings) -> (0 <= Port settings)%Z ->
  parseKeywordValueSettings (dsn settings) =
  Ok {[ "sslmode" := sslModeOf settings; "password" := "dbname=" +:+ DatabaseName settings;
        "user" := User settings; "port" := formatUint32 (Port settings);
        "host" := Host settings ]}.
Proof.
  intros Hh Hu Hp Hd Hs Hn%plain_number.
  replace (dsn settings) with (render
    [("host", false, Host settings); ("port", false, formatUint32 (Port settings));
     ("user", false, User settings); ("password", true, "dbname=" +:+ DatabaseName settings);
     ("sslmode", false, sslModeOf settings)]).
  - rewrite parse_render; [done|]. solve_renderable. by apply plain_prefixed.
  - unfold dsn. rewrite Hp. cbn [render]. by rewrite append_nil.
Qed.

Definition example_settings (password : string) : Settings :=
  {| Host := "127.0.0.1"; Port := 5432; User := "gatewaysshd"; Password := password;
     DatabaseName := "gatewaysshd"; SSLMode := ""; PeerAddress := ""; PeerSigner := None;
     PeerHostPublicKey := None |}.

Lemma dsn_roundtrip_witness :
  parseKeywordValueSettings (dsn (example_settings "secret")) =
  Ok {[ "sslmode" := "disable"; "database" := "gatewaysshd"; "password" := "secret";
        "user" := "gatewaysshd"; "port" := "5432"; "host" := "127.0.0.1" ]}.
Proof. apply (dsn_roundtrip (example_settings "secret")); done. Defined.

Lemma dsn_empty_password_witness :
  parseKeywordValueSettings (dsn (example_settings "")) =
  Ok {[ "sslmode" := "disable"; "password" := "dbname=gatewaysshd"; "user" := "gatewaysshd";
        "port" := "5432"; "host" := "127.0.0.1" ]}.
Proof. apply (dsn_empty_password (example_settings "")); done. Defined.

(** ** Close *)

(** While [Close] waits, the clients are closed. *)
Lemma waiting_down s : rtc tunnelStep noTunnels s ->
  clientsUp s ⊆ draining s /\ (poolClosed s = true -> clientsUp s = ∅) /\
  (closing s = Waiting -> poolClosed s = true).
Proof.
  intros Hr. apply (rtc_invariant tunnelStep (fun s => clientsUp s ⊆ draining s /\
    (poolClosed s = true -> clientsUp s = ∅) /\ (closing s = Waiting -> poolClosed s = true))
    noTunnels s); [by simpl| |done].
  clear s Hr. intros s s' (H1 & H2 & H3) Hst.
  destruct Hst as [s p Hd Hu|s p|s p Hd Hu|s [e|] closeErr Hc|s Hw Hd]; simpl in *; split_and!; try done.
  - destruct (poolClosed s); set_solver.
  - intros Hc. rewrite Hc. auto.
  - set_solver.
  - intros Hc. rewrite H2 by done. set_solver.
  - set_solver.
Qed.


End Dsn.
