(* ===== verification/Connection.v ===== *)
(** * Connections and tunnels, [gateway/connection.go] and [gateway/tunnel.go]

    The state of one ssh connection (services it advertises, tunnels open on
    it, permissions), its operations, and the handler of global requests.
    Each operation runs under the connection's mutex, so it is a function on
    the record.  Pointers are positive numbers; a tunnel carries its own, as
    the code compares tunnels by identity. *)

From stdpp Require Import base list strings gmap fin_maps option.
From Stdlib Require Import ZArith Lia.
From Stdlib Require Import Strings.Byte.
From S2P Require Import Prelude GoStrings Bytes Wire Usage Certs.

#[local] Open Scope Z_scope.

Abbreviation pointer := positive (only parsing).

Module Conn.

Definition ErrServiceAlreadyRegistered : error := Sentinel "gateway: service already registered".
Definition ErrServiceNotFound : error := Sentinel "gateway: service not found".
Definition ErrExtraDataNotAllowed : error := Sentinel "gateway: extra data not allowed".
Definition ErrUnknownChannelType : error := Sentinel "gateway: unknown channel type".
Definition ErrPermissionDenied : error := Sentinel "gateway: permission denied".

(** ** Tunnels *)

(** [tunnel_connection] is [None] for a tunnel opened through a peer. *)
Record tunnel := {
  tunnel_ptr : pointer;
  tunnel_connection : option pointer;
  tunnel_channelType : string;
  tunnel_extraData : list byte;
  tunnel_metadata : json;
}.

Record tunnelStatus := { ts_Type : string; ts_Metadata : json }.

Definition tunnel_gatherStatus (self : tunnel) : tunnelStatus :=
  {| ts_Type := tunnel_channelType self; ts_Metadata := tunnel_metadata self |}.

(** ** Connections *)

Record connection := {
  id : string;
  user : string;
  nodeId : string;
  remoteAddress : string;
  localAddress : string;
  tunnels : list tunnel;
  tunnelsOpened : Z;
  tunnelsClosed : Z;
  services : gmap string (gmap Z bool);
  usage : Usage.usageStats;
  permitPortForwarding : bool;
  administrator : bool;
}.

#[global] Instance connection_inhabited : Inhabited connection :=
  populate {| id := ""; user := ""; nodeId := ""; remoteAddress := ""; localAddress := "";
              tunnels := []; tunnelsOpened := 0; tunnelsClosed := 0; services := ∅;
              usage := Usage.newUsage zeroTime; permitPortForwarding := false;
              administrator := false |}.

Definition set_tunnels (ts : list tunnel) (opened closed : Z) (self : connection) : connection :=
  {| id := id self; user := user self; nodeId := nodeId self;
     remoteAddress := remoteAddress self; localAddress := localAddress self;
     tunnels := ts; tunnelsOpened := opened; tunnelsClosed := closed;
     services := services self; usage := usage self;
     permitPortForwarding := permitPortForwarding self; administrator := administrator self |}.

Definition set_services (s : gmap string (gmap Z bool)) (self : connection) : connection :=
  {| id := id self; user := user self; nodeId := nodeId self;
     remoteAddress := remoteAddress self; localAddress := localAddress self;
     tunnels := tunnels self; tunnelsOpened := tunnelsOpened self;
     tunnelsClosed := tunnelsClosed self; services := s; usage := usage self;
     permitPortForwarding := permitPortForwarding self; administrator := administrator self |}.

(** The connection [handleConnection] builds from the handshake: [connUser] is
    [conn.User()] and [extensions] is [conn.Permissions.Extensions]. *)
Definition newConnection (ksuid connUser remote local : string)
    (extensions : gmap string string) (stats : Usage.usageStats) : connection :=
  let isPeer := bool_decide (is_Some (extensions !! "peer")) in
  {| id := ksuid;
     user := if isPeer then "" else connUser;
     nodeId := if isPeer then default "" (extensions !! "identity") else "";
     remoteAddress := remote; localAddress := local;
     tunnels := []; tunnelsOpened := 0; tunnelsClosed := 0; services := ∅; usage := stats;
     permitPortForwarding := bool_decide (is_Some (extensions !! "permit-port-forwarding"));
     administrator := bool_decide (is_Some (extensions !! "administrator")) |}.

Definition addTunnel (openedTunnel : tunnel) (self : connection) : connection :=
  set_tunnels (openedTunnel :: tunnels self) (uint64 (tunnelsOpened self + 1))
              (tunnelsClosed self) self.

Definition deleteTunnel (closedTunnel : pointer) (self : connection) : connection :=
  set_tunnels (filter (fun t => tunnel_ptr t <> closedTunnel) (tunnels self))
              (tunnelsOpened self) (uint64 (tunnelsClosed self + 1)) self.

Definition getUsedAt (self : connection) : time := Usage.getUsedAt (usage self).

(** ** Services *)

Definition lookupService (host : string) (port : Z) (self : connection) : bool :=
  match services self !! host with
  | None => false
  | Some ports => default false (ports !! port)
  end.

Definition registerService (host : string) (port : Z) (self : connection)
    : connection * option error :=
  let services1 :=
    match services self !! host with
    | Some _ => services self
    | None => <[host := ∅]> (services self)
    end in
  let ports := default ∅ (services1 !! host) in
  if default false (ports !! port)
  then (set_services services1 self, Some ErrServiceAlreadyRegistered)
  else (set_services (<[host := <[port := true]> ports]> services1) self, None).

Definition deregisterService (host : string) (port : Z) (self : connection)
    : connection * option error :=
  match services self !! host with
  | Some ports => (set_services (<[host := delete port ports]> (services self)) self, None)
  | None => (self, None)
  end.

(** ** Status *)

Record connectionStatus := {
  cs_ID : string;
  cs_CreatedAt : time;
  cs_UsedAt : time;
  cs_User : string;
  cs_Administrator : bool;
  cs_PermitPortForwarding : bool;
  cs_Address : string;
  cs_Tunnels : list tunnelStatus;
  cs_TunnelsActive : Z;
  cs_TunnelsOpened : Z;
  cs_TunnelsClosed : Z;
  cs_UpTime : Z;
  cs_IdleTime : Z;
  cs_BytesRead : Z;
  cs_BytesWritten : Z;
  cs_Services : gmap string (list Z);
}.

(** [services[host] = append(services[host], port)] for the ports that are on;
    a host all of whose ports are off gets no entry. *)
Definition activePorts (ports : gmap Z bool) : option (list Z) :=
  match map fst (filter (fun '(_, ok) => ok = true) (map_to_list ports)) with
  | [] => None
  | on => Some on
  end.

(** [uint64(d.Seconds())] of a duration that is not negative. *)
Definition seconds (d : duration) : Z := uint64 (Z.quot d second).

Definition gatherStatus (now : time) (self : connection) : connectionStatus :=
  let status := map tunnel_gatherStatus (tunnels self) in
  {| cs_ID := id self;
     cs_CreatedAt := Usage.createdAt (usage self);
     cs_UsedAt := Usage.getUsedAt (usage self);
     cs_User := user self;
     cs_Administrator := administrator self;
     cs_PermitPortForwarding := permitPortForwarding self;
     cs_Address := remoteAddress self;
     cs_Tunnels := status;
     cs_TunnelsActive := uint64 (len status);
     cs_TunnelsOpened := tunnelsOpened self;
     cs_TunnelsClosed := tunnelsClosed self;
     cs_UpTime := seconds (time_sub now (Usage.createdAt (usage self)));
     cs_IdleTime := seconds (time_sub now (Usage.getUsedAt (usage self)));
     cs_BytesRead := Usage.getBytesRead (usage self);
     cs_BytesWritten := Usage.getBytesWritten (usage self);
     cs_Services := omap activePorts (services self) |}.

(** ** Global requests *)

Record request := { req_Type : string; req_WantReply : bool; req_Payload : list byte }.

Definition errPortOutOfRange (port : Z) : error :=
  Errorf ("gateway: port " +:+ formatUint32 port +:+ " is out of range (max 65535)").

(** [handleRequest]: the new state, the replies it sent, and the error it
    returned.  [replyErr] is the outcome of [request.Reply]. *)
Definition handleRequest (replyErr : option error) (req : request) (self : connection)
    : connection * list bool * option error :=
  let reply (ok : bool) (self : connection) :=
    if req_WantReply req then (self, [ok], replyErr) else (self, [], None) in
  if decide (req_Type req = "tcpip-forward") then
    match unmarshalForwardRequest (req_Payload req) with
    | Err err => (self, [], Some err)
    | Ok fwd =>
        if decide (fwd_Port fwd = 0) then (self, [], None)
        else if decide (fwd_Port fwd > 65535) then
          (self, [], Some (errPortOutOfRange (fwd_Port fwd)))
        else match registerService (fwd_Host fwd) (uint16 (fwd_Port fwd)) self with
             | (self, Some err) => (self, [], Some err)
             | (self, None) => reply true self
             end
    end
  else if decide (req_Type req = "cancel-tcpip-forward") then
    match unmarshalForwardRequest (req_Payload req) with
    | Err err => (self, [], Some err)
    | Ok fwd =>
        if decide (fwd_Port fwd > 65535) then
          (self, [], Some (errPortOutOfRange (fwd_Port fwd)))
        else match deregisterService (fwd_Host fwd) (uint16 (fwd_Port fwd)) self with
             | (self, Some err) => (self, [], Some err)
             | (self, None) => reply true self
             end
    end
  else reply false self.

(** [tunnel.handleRequests]: every request on a tunnel's channel is answered
    with a refusal, until one cannot be answered.  The result is the replies
    sent; the deferred [deleteTunnel] runs when the loop ends. *)
Fixpoint tunnel_handleRequests (requests : list (request * option error)) : list bool :=
  match requests with
  | [] => []
  | (req, replyErr) :: rest =>
      if req_WantReply req then
        match replyErr with
        | Some _ => [false]
        | None => false :: tunnel_handleRequests rest
        end
      else tunnel_handleRequests rest
  end.

(** ** Specification of the request handler *)

(** What a peer of the connection sees of a global request: an answer, silence,
    or the end of the connection. *)
Inductive request_outcome : Type :=
| Answered (ok : bool)
| Ignored
| Fatal (err : error).

(** The advertised names as a predicate, and how a request changes them. *)
Definition request_spec (req : request) (advertised : string -> Z -> bool)
    : (string -> Z -> bool) * request_outcome :=
  if decide (req_Type req = "tcpip-forward") then
    match unmarshalForwardRequest (req_Payload req) with
    | Err err => (advertised, Fatal err)
    | Ok fwd =>
        if decide (fwd_Port fwd = 0) then (advertised, Ignored)
        else if advertised (fwd_Host fwd) (fwd_Port fwd)
        then (advertised, Fatal ErrServiceAlreadyRegistered)
        else ((fun host port => bool_decide (host = fwd_Host fwd /\ port = fwd_Port fwd) ||
                                advertised host port),
              Answered true)
    end
  else if decide (req_Type req = "cancel-tcpip-forward") then
    match unmarshalForwardRequest (req_Payload req) with
    | Err err => (advertised, Fatal err)
    | Ok fwd =>
        ((fun host port => negb (bool_decide (host = fwd_Host fwd /\ port = fwd_Port fwd)) &&
                           advertised host port),
         Answered true)
    end
  else (advertised, Answered false).

(** The replies and the error that show an outcome on the wire. *)
Definition outcome_shown (req : request) (replyErr : option error) (o : request_outcome)
    : list bool * option error :=
  match o with
  | Answered ok => if req_WantReply req then ([ok], replyErr) else ([], None)
  | Ignored => ([], None)
  | Fatal err => ([], Some err)
  end.

(** A history of the tunnels of a connection: a tunnel is opened, or the
    request loop of an open tunnel ends. *)
Inductive tunnel_event : Type :=
| TunnelOpened (t : tunnel)
| TunnelEnded (ptr : pointer).

Definition tunnel_step (self : connection) (e : tunnel_event) : connection :=
  match e with
  | TunnelOpened t => addTunnel t self
  | TunnelEnded ptr => deleteTunnel ptr self
  end.

(** Pointers are fresh, and the loop of a tunnel ends once. *)
Fixpoint tunnel_history (open : list pointer) (events : list tunnel_event) : Prop :=
  match events with
  | [] => True
  | TunnelOpened t :: rest => (tunnel_ptr t ∉ open) /\ tunnel_history (tunnel_ptr t :: open) rest
  | TunnelEnded ptr :: rest => (ptr ∈ open) /\ tunnel_history (filter (fun q => q <> ptr) open) rest
  end.

(** ** The services as a set of names *)

(** Well-formed services: every advertised port is a nonzero 16-bit port. *)
Definition services_wf (self : connection) : Prop :=
  forall host port, lookupService host port self = true -> 1 <= port <= 65535.

Lemma lookupService_set s self host port :
  lookupService host port (set_services s self) =
  match s !! host with None => false | Some ports => default false (ports !! port) end.
Proof. done. Qed.

Lemma lookupService_new ksuid u remote local extensions stats host port :
  lookupService host port (newConnection ksuid u remote local extensions stats) = false.
Proof. done. Qed.

(** Registering adds one name, and refuses a name that is there. *)
Lemma registerService_spec host port self :
  let (self', err) := registerService host port self in
  err = (if lookupService host port self then Some ErrServiceAlreadyRegistered else None) /\
  forall host' port',
    lookupService host' port' self' =
    bool_decide (host' = host /\ port' = port) || lookupService host' port' self.
Proof.
  unfold registerService.
  set (services1 := match services self !! host with Some _ => _ | None => _ end).
  assert (H1 : forall host' port',
    match services1 !! host' with None => false | Some ports => default false (ports !! port') end
    = lookupService host' port' self).
  { intros host' port'. unfold services1, lookupService.
    destruct (services self !! host) as [p|] eqn:E; [done|].
    rewrite lookup_insert. case_decide; subst; [|done]. rewrite E. simpl.
    by rewrite lookup_empty. }
  assert (Hp : forall port', default false (default ∅ (services1 !! host) !! port') =
                lookupService host port' self).
  { intros port'. rewrite <- H1. destruct (services1 !! host); [done|]. simpl.
    by rewrite lookup_empty. }
  rewrite Hp. destruct (lookupService host port self) eqn:El; (split; [done|]);
    intros host' port'; rewrite lookupService_set.
  - rewrite H1. case_bool_decide as Heq; [|done]. destruct Heq as [-> ->]. by rewrite El.
  - rewrite lookup_insert. case_decide as Hh.
    + subst host'. rewrite lookup_insert. case_decide as Hpt.
      * subst port'. rewrite bool_decide_true by done. done.
      * rewrite bool_decide_false by naive_solver. simpl. apply Hp.
    + rewrite bool_decide_false by naive_solver. apply H1.
Qed.

Lemma deregisterService_spec host port self :
  let (self', err) := deregisterService host port self in
  err = None /\
  forall host' port',
    lookupService host' port' self' =
    negb (bool_decide (host' = host /\ port' = port)) && lookupService host' port' self.
Proof.
  unfold deregisterService, lookupService.
  destruct (services self !! host) as [ports|] eqn:E; (split; [done|]); intros host' port'; simpl.
  - rewrite lookup_insert. case_decide as Hh.
    + subst host'. rewrite E, lookup_delete. case_decide as Hp.
      * subst port'. by rewrite bool_decide_true by done.
      * by rewrite bool_decide_false by naive_solver.
    + by rewrite bool_decide_false by naive_solver.
  - case_bool_decide as Heq; [|done]. destruct Heq as [-> ->]. by rewrite E.
Qed.

(** ** The request handler *)

Lemma unmarshalForwardRequest_port payload fwd :
  len payload < 4294967296 ->
  unmarshalForwardRequest payload = Ok fwd -> 0 <= fwd_Port fwd <= 65535.
Proof.
  unfold unmarshalForwardRequest. intros Hlen H.
  apply result_bind_Ok in H as (r & Hu & H). case_decide; simplify_eq.
  apply (proj1 (unmarshalForwardRequest_iff payload fwd Hlen)).
  unfold unmarshalForwardRequest. rewrite Hu. simpl. by rewrite decide_False.
Qed.

Lemma len_forwardRequest host port :
  len (Marshal {| fwd_Host := host; fwd_Port := port |}) = slen host + 8.
Proof.
  unfold Marshal, appendInt, appendU32. simpl. unfold len, slen, appendU32. simpl.
  rewrite length_app, length_bytes_of_string. simpl. lia.
Qed.

(** The fields a request does not touch. *)
Lemma handleRequest_frame replyErr req self :
  let self' := (handleRequest replyErr req self).1.1 in
  user self' = user self /\ nodeId self' = nodeId self /\ tunnels self' = tunnels self /\
  permitPortForwarding self' = permitPortForwarding self /\
  administrator self' = administrator self.
Proof.
  unfold handleRequest, registerService, deregisterService, outcome_shown.
  repeat (case_decide || case_match); simplify_eq/=; done.
Qed.

(** C14: the handler of global requests implements the specification of a set
    of advertised names: [tcpip-forward] adds a name or ends the connection if
    it is taken, [cancel-tcpip-forward] removes one, anything else is
    refused; the replies and the returned error are those of the outcome, and
    every advertised port stays a nonzero 16-bit port. *)
Theorem handleRequest_refines replyErr req self :
  len (req_Payload req) < 4294967296 -> services_wf self ->
  let '(self', replies, err) := handleRequest replyErr req self in
  let (advertised', o) := request_spec req (fun host port => lookupService host port self) in
  (forall host port, lookupService host port self' = advertised' host port) /\
  (replies, err) = outcome_shown req replyErr o /\
  services_wf self'.
Proof.
  intros Hlen Hwf. unfold handleRequest, request_spec.
  case_decide as Hf; [|case_decide as Hc].
  - destruct (unmarshalForwardRequest (req_Payload req)) as [fwd|err] eqn:Eu; [|by simpl].
    pose proof (unmarshalForwardRequest_port _ _ Hlen Eu) as Hport.
    case_decide as Hz; [by simpl|]. rewrite decide_False by lia. rewrite uint16_small by lia.
    pose proof (registerService_spec (fwd_Host fwd) (fwd_Port fwd) self) as Hr.
    destruct (registerService _ _ self) as [self' err]. destruct Hr as [-> Hl].
    destruct (lookupService (fwd_Host fwd) (fwd_Port fwd) self) eqn:El.
    + split; [|split; [done|]].
      * intros host port. rewrite Hl. case_bool_decide as Heq; [|done].
        destruct Heq as [-> ->]. by rewrite El.
      * intros host port. rewrite Hl, orb_true_iff, bool_decide_eq_true.
        intros [[-> ->]|?]; [lia|]. by apply (Hwf host).
    + assert (services_wf self').
      { intros host port. rewrite Hl, orb_true_iff, bool_decide_eq_true.
        intros [[-> ->]|?]; [lia|]. by apply (Hwf host). }
      simpl. destruct (req_WantReply req); auto.
  - destruct (unmarshalForwardRequest (req_Payload req)) as [fwd|err] eqn:Eu; [|by simpl].
    pose proof (unmarshalForwardRequest_port _ _ Hlen Eu) as Hport.
    rewrite decide_False by lia. rewrite uint16_small by lia.
    pose proof (deregisterService_spec (fwd_Host fwd) (fwd_Port fwd) self) as Hr.
    destruct (deregisterService _ _ self) as [self' err]. destruct Hr as [-> Hl].
    assert (services_wf self').
    { intros host port. rewrite Hl, andb_true_iff. intros [_ ?]. by apply (Hwf host). }
    simpl. destruct (req_WantReply req); auto.
  - simpl. by destruct (req_WantReply req).
Qed.

Definition example_request (kind : string) (host : string) (port : Z) : request :=
  {| req_Type := kind; req_WantReply := true;
     req_Payload := Marshal {| fwd_Host := host; fwd_Port := port |} |}.

Lemma handleRequest_refines_witness :
  let '(self', replies, err) :=
    handleRequest None (example_request "tcpip-forward" "web" 80) inhabitant in
  lookupService "web" 80 self' = true /\ replies = [true] /\ err = None.
Proof.
  pose proof (handleRequest_refines None (example_request "tcpip-forward" "web" 80) inhabitant
    ltac:(vm_compute; reflexivity) ltac:(intros host port H; discriminate H)) as H.
  destruct (handleRequest _ _ _) as [[self' replies] err].
  destruct (request_spec _ _) as [adv o] eqn:Es. vm_compute in Es. injection Es as <- <-.
  destruct H as (H & Hout & _). injection Hout as -> ->.
  rewrite H. repeat split.
Defined.

(** a [tcpip-forward] request for port 0 that asks for a reply is dropped
    without a reply and without an error: the handler returns the nil error of
    the decoding, the requester is never answered, and the connection goes
    on. *)
Theorem forward_port_zero_unanswered replyErr host self :
  slen host < 4294967000 ->
  handleRequest replyErr (example_request "tcpip-forward" host 0) self = (self, [], None).
Proof.
  intros Hh. unfold handleRequest, example_request. cbn [req_Type req_Payload].
  rewrite decide_True by done. unfold unmarshalForwardRequest.
  rewrite Unmarshal_Marshal; [|done|done| |].
  - simpl. done.
  - unfold struct_wf. simpl. unfold slen in *. lia.
  - rewrite len_forwardRequest. unfold slen in *. lia.
Qed.

Lemma forward_port_zero_unanswered_witness :
  handleRequest None (example_request "tcpip-forward" "web" 0) inhabitant = (inhabitant, [], None).
Proof. apply forward_port_zero_unanswered. reflexivity. Defined.

(** ** Tunnel accounting *)

Lemma tunnel_history_counts events self :
  tunnel_history (map tunnel_ptr (tunnels self)) events ->
  NoDup (map tunnel_ptr (tunnels self)) ->
  uint64 (tunnelsOpened self - tunnelsClosed self) = uint64 (len (tunnels self)) ->
  let self' := foldl tunnel_step self events in
  NoDup (map tunnel_ptr (tunnels self')) /\
  uint64 (tunnelsOpened self' - tunnelsClosed self') = uint64 (len (tunnels self')).
Proof.
  revert self. induction events as [|e events IH]; intros self Hh Hnd Hc; [done|].
  destruct e as [t|ptr]; cbn [foldl tunnel_step tunnel_history] in *; destruct Hh as [Hp Hh];
    apply IH; cbn [addTunnel deleteTunnel set_tunnels tunnels tunnelsOpened tunnelsClosed].
  - done.
  - by constructor.
  - rewrite uint64_sub_l.
    replace (tunnelsOpened self + 1 - tunnelsClosed self)
      with (tunnelsOpened self - tunnelsClosed self + 1) by lia.
    rewrite (uint64_add_cong _ _ 1 Hc). f_equal. unfold len. simpl. lia.
  - by rewrite map_filter_ne.
  - rewrite map_filter_ne. by apply NoDup_filter_ne.
  - rewrite uint64_sub_r.
    replace (tunnelsOpened self - (tunnelsClosed self + 1))
      with (tunnelsOpened self - tunnelsClosed self + -1) by lia.
    rewrite (uint64_add_cong _ _ (-1) Hc). f_equal.
    pose proof (length_filter_ne ptr _ Hnd Hp) as Hl.
    rewrite <- map_filter_ne, !length_map in Hl. unfold len. lia.
Qed.

(** over any history in which every tunnel is opened once with a fresh
    pointer and its request loop ends at most once, the status of a connection
    lists each open tunnel once, and reports as active the difference of the
    opened and closed counters (all modulo 2^64). *)
Theorem tunnels_accounted ksuid u remote local extensions stats events now :
  tunnel_history [] events ->
  let self := foldl tunnel_step (newConnection ksuid u remote local extensions stats) events in
  NoDup (map tunnel_ptr (tunnels self)) /\
  cs_Tunnels (gatherStatus now self) = map tunnel_gatherStatus (tunnels self) /\
  cs_TunnelsActive (gatherStatus now self) =
    uint64 (cs_TunnelsOpened (gatherStatus now self) - cs_TunnelsClosed (gatherStatus now self)).
Proof.
  intros Hh.
  destruct (tunnel_history_counts events
    (newConnection ksuid u remote local extensions stats) Hh NoDup_nil_2 eq_refl) as [Hnd Hc].
  cbn zeta. split; [done|]. split; [done|]. simpl. rewrite Hc. unfold len. by rewrite length_map.
Qed.

Definition example_tunnel (ptr : pointer) : tunnel :=
  {| tunnel_ptr := ptr; tunnel_connection := None; tunnel_channelType := "direct-tcpip";
     tunnel_extraData := []; tunnel_metadata := JNull |}.

Lemma tunnels_accounted_witness :
  let events := [TunnelOpened (example_tunnel 1); TunnelOpened (example_tunnel 2);
                 TunnelEnded 1] in
  let self := foldl tunnel_step (newConnection "c" "alice" "r" "l" ∅ (Usage.newUsage 0)) events in
  NoDup (map tunnel_ptr (tunnels self)) /\ map tunnel_ptr (tunnels self) = [2%positive].
Proof.
  intros events self. split; [|reflexivity].
  refine (proj1 (tunnels_accounted "c" "alice" "r" "l" ∅ (Usage.newUsage 0) events 0 _)).
  simpl. repeat split; set_solver.
Defined.

End Conn.
