(* ===== verification/Registry.v ===== *)
(** * The connection registry of [gateway/gateway.go]

    The gateway keeps its connections twice, newest first: in a list and in
    an index by user.  A connection is shared (the registry, the index and
    the goroutines hold pointers to it), so the connections live in a heap
    and the registry holds pointers.  The gateway's mutex makes each
    operation atomic. *)

From stdpp Require Import base list strings gmap fin_maps option relations.
From Stdlib Require Import ZArith Lia.
From S2P Require Import Prelude GoStrings Usage Connection.

#[local] Open Scope Z_scope.

Module Registry.

Abbreviation heap := (gmap positive Conn.connection).

Record registry := {
  connectionsIndex : gmap string (list positive);
  connectionsList : list positive;
}.

Definition emptyRegistry : registry := {| connectionsIndex := ∅; connectionsList := [] |}.

(** [p.user] of a connection pointer. *)
Definition userOf (h : heap) (p : positive) : string := Conn.user (h !!! p).

(** [connectionsIndex[user]]; a missing key reads as the nil slice. *)
Definition indexed (userId : string) (self : registry) : list positive :=
  default [] (connectionsIndex self !! userId).

Definition addConnection (h : heap) (addedConnection : positive) (self : registry) : registry :=
  let u := userOf h addedConnection in
  {| connectionsIndex := <[u := addedConnection :: indexed u self]> (connectionsIndex self);
     connectionsList := addedConnection :: connectionsList self |}.

Definition deleteConnection (h : heap) (deletedConnection : positive) (self : registry)
    : registry :=
  let u := userOf h deletedConnection in
  {| connectionsIndex :=
       <[u := filter (fun c => c <> deletedConnection) (indexed u self)]> (connectionsIndex self);
     connectionsList := filter (fun c => c <> deletedConnection) (connectionsList self) |}.

(** The inner loop of [lookupConnectionService]. *)
Fixpoint firstWithService (h : heap) (host : string) (port : Z) (connections : list positive)
    : option positive :=
  match connections with
  | [] => None
  | p :: rest =>
      if Conn.lookupService host port (h !!! p) then Some p else firstWithService h host port rest
  end.

(** The outer loop, over the ways to split the name. *)
Fixpoint lookupCandidates (h : heap) (self : registry) (port : Z)
    (splits : list (string * string)) : option (positive * string * Z) :=
  match splits with
  | [] => None
  | (host, userId) :: rest =>
      match firstWithService h host port (indexed userId self) with
      | Some p => Some (p, host, port)
      | None => lookupCandidates h self port rest
      end
  end.

(** [None] stands for [nil, "", 0]. *)
Definition lookupConnectionService (h : heap) (host : string) (port : Z) (self : registry)
    : option (positive * string * Z) :=
  lookupCandidates h self port (candidates host).

Definition listConnections (self : registry) : list positive := connectionsList self.

(** [connectedUserIds]: the keys of the index, in some order, except the empty
    name and those with no connection left. *)
Definition connectedUserIds (self : registry) : list string :=
  map fst (filter (fun '(userId, connections) => userId <> "" /\ connections <> [])
                  (map_to_list (connectionsIndex self))).

(** [remaining := len(self.connectionsIndex[userId])] in [releaseUserNode]. *)
Definition remaining (userId : string) (self : registry) : Z :=
  Z.of_nat (length (indexed userId self)).

(** ** Specification *)

(** A name resolves to the first (split, connection) pair, splits in the order
    of [candidates] and connections newest first, such that the connection is
    one of the user's and advertises the service. *)
Definition lookup_matches (h : heap) (connections : list positive) (host : string) (port : Z)
    : list (positive * string * Z) :=
  split ← candidates host;
  p ← filter (fun p => userOf h p = split.2 /\ Conn.lookupService split.1 port (h !!! p) = true)
             connections;
  [(p, split.1, port)].

(** The invariant: no pointer is listed twice, every pointer is allocated, and
    the index is the list grouped by user, in the same order. *)
Record wf (h : heap) (self : registry) : Prop := {
  wf_nodup : NoDup (connectionsList self);
  wf_alloc : forall p, p ∈ connectionsList self -> is_Some (h !! p);
  wf_index : forall userId,
    indexed userId self = filter (fun p => userOf h p = userId) (connectionsList self);
}.

(** ** Steps *)

(** A fresh connection is allocated and added; a listed connection changes in
    place without changing its user; a connection is deleted (and may be
    deleted again, or while it is not listed). *)
Inductive step : heap * registry -> heap * registry -> Prop :=
| step_add h self p c :
    h !! p = None ->
    step (h, self) (<[p := c]> h, addConnection (<[p := c]> h) p self)
| step_mutate h self p c c' :
    h !! p = Some c -> Conn.user c' = Conn.user c ->
    step (h, self) (<[p := c']> h, self)
| step_delete h self p :
    is_Some (h !! p) ->
    step (h, self) (h, deleteConnection h p self).

(** ** Lemmas *)

Lemma indexed_insert userId userId' ps index ps' :
  indexed userId {| connectionsIndex := <[userId' := ps]> index; connectionsList := ps' |} =
  if decide (userId' = userId) then ps else default [] (index !! userId).
Proof. unfold indexed. simpl. rewrite lookup_insert. by case_decide. Qed.

Lemma wf_empty : wf ∅ emptyRegistry.
Proof.
  constructor; simpl.
  - constructor.
  - by intros p ?%elem_of_nil.
  - done.
Qed.

Lemma filter_userOf_ext h h' userId (ps : list positive) :
  (forall p, p ∈ ps -> userOf h p = userOf h' p) ->
  filter (fun p => userOf h p = userId) ps = filter (fun p => userOf h' p = userId) ps.
Proof.
  induction ps as [|p ps IH]; intros Hext; [done|].
  rewrite !filter_cons, (Hext p) by set_solver.
  rewrite IH by set_solver. done.
Qed.

(** Changes of the heap that keep the users of the listed connections keep the
    invariant. *)
Lemma wf_heap h h' self :
  wf h self ->
  (forall p, p ∈ connectionsList self -> is_Some (h' !! p) /\ userOf h' p = userOf h p) ->
  wf h' self.
Proof.
  intros [Hnd Ha Hi] Hext. constructor; [done| |].
  - intros p Hp. by apply Hext.
  - intros userId. rewrite Hi. apply filter_userOf_ext. intros p Hp. symmetry. by apply Hext.
Qed.

Lemma wf_add h p self :
  wf h self -> p ∉ connectionsList self -> is_Some (h !! p) ->
  wf h (addConnection h p self).
Proof.
  intros [Hnd Ha Hi] Hp Hs. constructor; simpl.
  - by constructor.
  - intros q [->|Hq]%elem_of_cons; auto.
  - intros userId. unfold addConnection, deleteConnection. rewrite indexed_insert, filter_cons.
    case_decide as Hu; subst; [by rewrite Hi|]. apply Hi.
Qed.

Lemma filter_filter_ne (P : positive -> Prop) `{forall x, Decision (P x)} p (ps : list positive) :
  filter (fun c => c <> p) (filter P ps) = filter P (filter (fun c => c <> p) ps).
Proof.
  rewrite !list_filter_filter. apply list_filter_iff. tauto.
Qed.

Lemma filter_filter_notin (P : positive -> Prop) `{forall x, Decision (P x)} p (ps : list positive) :
  ~ P p -> filter P (filter (fun c => c <> p) ps) = filter P ps.
Proof.
  intros Hp. rewrite list_filter_filter. apply list_filter_iff. intros x. split; [tauto|].
  intros Hx. split; [done|]. intros ->. done.
Qed.

Lemma wf_delete h p self : wf h self -> wf h (deleteConnection h p self).
Proof.
  intros [Hnd Ha Hi]. constructor; simpl.
  - by apply NoDup_filter_ne.
  - intros q [_ Hq]%list_elem_of_filter. auto.
  - intros userId. unfold addConnection, deleteConnection. rewrite indexed_insert. case_decide as Hu.
    + subst. by rewrite Hi, filter_filter_ne.
    + unfold indexed in Hi. rewrite Hi. symmetry. by apply filter_filter_notin.
Qed.

Lemma step_wf (s s' : heap * registry) : wf s.1 s.2 -> step s s' -> wf s'.1 s'.2.
Proof.
  intros Hwf Hstep. destruct Hstep as [h self p c Hp|h self p c c' Hp Hu|h self p Hp]; simpl in *.
  - apply wf_add.
    + eapply wf_heap; [exact Hwf|]. intros q Hq. destruct (wf_alloc _ _ Hwf q Hq) as [c' Hc'].
      assert (p <> q) by congruence. unfold userOf.
      rewrite lookup_insert_ne, lookup_total_insert_ne by done. eauto.
    + intros Hin. destruct (wf_alloc _ _ Hwf p Hin). congruence.
    + rewrite lookup_insert_eq. eauto.
  - eapply wf_heap; [exact Hwf|]. intros q Hq. unfold userOf.
    destruct (decide (p = q)) as [<-|Hne].
    + rewrite lookup_insert_eq, lookup_total_insert_eq. split; [eauto|].
      by rewrite (lookup_total_correct _ _ _ Hp).
    + rewrite lookup_insert_ne, lookup_total_insert_ne by done.
      split; [by apply (wf_alloc _ _ Hwf)|done].
  - by apply wf_delete.
Qed.

(** C16: in every state reached from an empty gateway by adding fresh
    connections, changing connections in place and deleting connections in any
    order, the index and the list agree: the index maps each user to exactly
    that user's listed connections, newest first, and no connection is listed
    twice. *)
Theorem reachable_wf (h : heap) (self : registry) :
  rtc step (∅, emptyRegistry) (h, self) -> wf h self.
Proof.
  apply (rtc_invariant step (fun s => wf s.1 s.2) (∅, emptyRegistry) (h, self));
    [apply wf_empty|apply step_wf].
Qed.

(** ** Resolution of names *)

Lemma firstWithService_filter h host port ps :
  firstWithService h host port ps =
  head (filter (fun p => Conn.lookupService host port (h !!! p) = true) ps).
Proof.
  induction ps as [|p ps IH]; [done|]. simpl. rewrite filter_cons.
  destruct (Conn.lookupService host port (h !!! p)); [by rewrite decide_True|].
  by rewrite decide_False.
Qed.

Lemma lookupCandidates_head h self port splits :
  wf h self ->
  lookupCandidates h self port splits =
  head (split ← splits;
        p ← filter (fun p => userOf h p = split.2 /\
                             Conn.lookupService split.1 port (h !!! p) = true)
                   (connectionsList self);
        [(p, split.1, port)]).
Proof.
  intros Hwf. induction splits as [|[host userId] splits IH]; [done|].
  cbn [lookupCandidates mbind list_bind]. rewrite firstWithService_filter, (wf_index _ _ Hwf).
  rewrite list_filter_filter.
  rewrite (list_filter_iff (fun p => Conn.lookupService host port (h !!! p) = true /\
                                     userOf h p = userId)
    (fun p => userOf h p = (host, userId).2 /\
              Conn.lookupService (host, userId).1 port (h !!! p) = true)) by (simpl; tauto).
  destruct (filter _ (connectionsList self)) as [|p ps]; [by rewrite IH|done].
Qed.

Lemma elem_of_lookup_matches h ps host port p service port' :
  (p, service, port') ∈ lookup_matches h ps host port <->
  port' = port /\ p ∈ ps /\ Conn.lookupService service port (h !!! p) = true /\
  ((service = "" /\ host = userOf h p) \/ host = service +:+ String dot (userOf h p)).
Proof.
  unfold lookup_matches. rewrite list_elem_of_bind. split.
  - intros ([s u] & Hin & Hc). apply elem_of_candidates in Hc.
    apply list_elem_of_bind in Hin as (q & Hq & [[Hu Hs] Hp]%list_elem_of_filter).
    apply list_elem_of_singleton in Hq. simpl in *. simplify_eq. naive_solver.
  - intros (-> & Hp & Hs & Hc). exists (service, userOf h p). split.
    + apply list_elem_of_bind. exists p. split; [set_solver|]. by apply list_elem_of_filter.
    + apply elem_of_candidates. naive_solver.
Qed.

(** What a successful lookup returns. *)
Lemma lookupConnectionService_Some h self host port p service port' :
  wf h self ->
  lookupConnectionService h host port self = Some (p, service, port') ->
  port' = port /\ p ∈ connectionsList self /\
  Conn.lookupService service port (h !!! p) = true /\
  ((service = "" /\ host = userOf h p) \/ host = service +:+ String dot (userOf h p)).
Proof.
  intros Hwf E. unfold lookupConnectionService in E. rewrite lookupCandidates_head in E by done.
  apply elem_of_lookup_matches. unfold lookup_matches.
  destruct (_ ≫= _) as [|m ms]; [done|]. simpl in E. simplify_eq. set_solver.
Qed.

(** A name that is not served is offered by no connection. *)
Lemma lookupConnectionService_None h self host port p service :
  wf h self -> lookupConnectionService h host port self = None ->
  p ∈ connectionsList self ->
  (service = "" /\ host = userOf h p) \/ host = service +:+ String dot (userOf h p) ->
  Conn.lookupService service port (h !!! p) = false.
Proof.
  intros Hwf Hn Hp Hs. unfold lookupConnectionService in Hn.
  rewrite (lookupCandidates_head h self port (candidates host)) in Hn by done.
  apply not_true_iff_false. intros El.
  assert (Hin : (p, service, port) ∈ lookup_matches h (connectionsList self) host port)
    by (by apply elem_of_lookup_matches).
  unfold lookup_matches in Hin.
  destruct (candidates host ≫= _); [by apply elem_of_nil in Hin|done].
Qed.

(** C9: under the invariant, [lookupConnectionService] resolves a host name
    to the first match in specification order, and to nothing exactly when no
    listed connection of any user suffix of the name advertises the rest of
    the name at that port. *)
Theorem lookupConnectionService_spec (h : heap) (self : registry) (host : string) (port : Z) :
  wf h self ->
  lookupConnectionService h host port self =
    head (lookup_matches h (connectionsList self) host port) /\
  (lookupConnectionService h host port self = None <->
   forall p service, p ∈ connectionsList self ->
     (service = "" /\ host = userOf h p) \/ host = service +:+ String dot (userOf h p) ->
     Conn.lookupService service port (h !!! p) = false).
Proof.
  intros Hwf. assert (E : lookupConnectionService h host port self =
    head (lookup_matches h (connectionsList self) host port)) by by apply lookupCandidates_head.
  split; [done|]. rewrite E. split.
  - intros Hn p service. apply lookupConnectionService_None; [done|]. by rewrite E.
  - intros Hall. destruct (lookup_matches h (connectionsList self) host port)
      as [|[[p service] port'] ms] eqn:Em; [done|]. exfalso.
    assert (Hin : (p, service, port') ∈ lookup_matches h (connectionsList self) host port)
      by (rewrite Em; set_solver).
    apply elem_of_lookup_matches in Hin as (-> & Hp & Hs & Hc).
    by rewrite (Hall p service Hp Hc) in Hs.
Qed.

(** ** The connected users *)

Lemma elem_of_connectedUserIds h self userId :
  wf h self ->
  userId ∈ connectedUserIds self <->
  userId <> "" /\ exists p, p ∈ connectionsList self /\ userOf h p = userId.
Proof.
  intros Hwf. unfold connectedUserIds. rewrite list_elem_of_fmap.
  pose proof (wf_index _ _ Hwf userId) as Hi. unfold indexed in Hi. split.
  - intros ([u ps] & -> & [[Hne Hps] Hin]%list_elem_of_filter). simpl in *.
    apply elem_of_map_to_list in Hin. rewrite Hin in Hi. simpl in Hi.
    destruct ps as [|p ps]; [done|]. split; [done|]. exists p.
    assert (Hp : p ∈ p :: ps) by set_solver. rewrite Hi in Hp.
    apply list_elem_of_filter in Hp. tauto.
  - intros (Hne & p & Hp & Hu).
    assert (Hin : p ∈ default [] (connectionsIndex self !! userId))
      by (rewrite Hi; by apply list_elem_of_filter).
    destruct (connectionsIndex self !! userId) as [ps|] eqn:E; simpl in Hin;
      [|by apply elem_of_nil in Hin].
    exists (userId, ps). split; [done|]. apply list_elem_of_filter.
    split; [|by apply elem_of_map_to_list]. split; [done|]. intros ->. by apply elem_of_nil in Hin.
Qed.

Lemma NoDup_connectedUserIds self : NoDup (connectedUserIds self).
Proof.
  unfold connectedUserIds. eapply sublist_NoDup; [apply (NoDup_fst_map_to_list (connectionsIndex self))|].
  apply fmap_sublist, sublist_filter.
Qed.

Lemma remaining_zero h self userId :
  wf h self ->
  remaining userId self = 0 <-> forall p, p ∈ connectionsList self -> userOf h p <> userId.
Proof.
  intros Hwf. unfold remaining. rewrite (wf_index _ _ Hwf). split.
  - intros H0 p Hp Hu.
    assert (Hin : p ∈ filter (fun p => userOf h p = userId) (connectionsList self))
      by (by apply list_elem_of_filter).
    destruct (filter _ _); [by apply elem_of_nil in Hin|done].
  - intros Hall. destruct (filter _ (connectionsList self)) as [|p ps] eqn:E; [done|].
    exfalso. assert (Hin : p ∈ p :: ps) by set_solver. rewrite <- E in Hin.
    apply list_elem_of_filter in Hin as [Hu Hp]. by apply (Hall p).
Qed.

(** ** A small gateway *)

Definition example_connection (u : string) (services : list (string * Z)) : Conn.connection :=
  foldr (fun s c => (Conn.registerService s.1 s.2 c).1)
        (Conn.newConnection "k" u "10.0.0.9:5000" "10.0.0.1:2020" ∅ (Usage.newUsage 0)) services.

Definition example_heap : heap :=
  <[2%positive := example_connection "bob" [("web", 80)]]>
  (<[1%positive := example_connection "alice" [("web", 80); ("ssh", 22)]]> ∅).

Definition example_registry : registry :=
  addConnection example_heap 2%positive
    (addConnection (<[1%positive := example_connection "alice" [("web", 80); ("ssh", 22)]]> ∅)
                   1%positive emptyRegistry).

Lemma example_reachable : rtc step (∅, emptyRegistry) (example_heap, example_registry).
Proof.
  eapply rtc_l; [apply (step_add _ _ 1%positive); reflexivity|].
  eapply rtc_l; [apply (step_add _ _ 2%positive); reflexivity|].
  apply rtc_refl.
Qed.

Lemma reachable_wf_witness :
  wf example_heap example_registry /\ indexed "bob" example_registry = [2%positive].
Proof. split; [apply reachable_wf, example_reachable|vm_compute; reflexivity]. Defined.

Lemma lookupConnectionService_spec_witness :
  lookupConnectionService example_heap "web.bob" 80 example_registry =
    head (lookup_matches example_heap (connectionsList example_registry) "web.bob" 80) /\
  lookupConnectionService example_heap "web.bob" 80 example_registry = Some (2%positive, "web", 80).
Proof.
  split; [|vm_compute; reflexivity].
  apply lookupConnectionService_spec.
  exact (rtc_invariant step (fun s => wf s.1 s.2) (∅, emptyRegistry)
           (example_heap, example_registry) wf_empty step_wf example_reachable).
Defined.

End Registry.
