(* ===== verification/Peers.v ===== *)
(** * Outbound peers, [gateway/peer.go]

    A peer is an ssh client connected to another node.  The gateway keeps at
    most one per node in a map, under a lock of its own; peers are compared by
    identity, so the map holds pointers into a heap.  The second part is the
    life of a peer: the goroutine [connectToPeer], the eviction of peers that
    do not answer a ping, and the shutdown, interleaved in any order. *)

From stdpp Require Import base list strings gmap fin_maps option relations.
From Stdlib Require Import ZArith Lia.
From S2P Require Import Prelude Models.

#[local] Open Scope Z_scope.

Module Peers.

(** ** The map of peers *)

(** [closed] is whether [closeOnce] has run, which closes the client. *)
Record peer := { nodeId : string; closed : bool }.

#[global] Instance peer_inhabited : Inhabited peer :=
  populate {| nodeId := ""; closed := false |}.

Abbreviation heap := (gmap positive peer).
Abbreviation peers := (gmap string positive).

Definition newPeer (node : string) : peer := {| nodeId := node; closed := false |}.

Definition close (p : positive) (h : heap) : heap :=
  alter (fun q => {| nodeId := nodeId q; closed := true |}) p h.

Definition getPeer (node : string) (self : peers) : option positive := self !! node.

Definition listPeers (self : peers) : list positive := map snd (map_to_list self).

Definition addPeer (h : heap) (p : positive) (self : peers) : peers * bool :=
  match self !! nodeId (h !!! p) with
  | Some _ => (self, false)
  | None => (<[nodeId (h !!! p) := p]> self, true)
  end.

Definition removePeer (h : heap) (p : positive) (self : peers) : peers :=
  if decide (self !! nodeId (h !!! p) = Some p) then delete (nodeId (h !!! p)) self else self.

(** ** The life of a peer *)

(** Where the goroutine of a dialled peer is: before [addPeer]; in
    [client.Wait()]; after the deferred [peer.close()] and before the deferred
    [removePeer]; refused by [addPeer] and before [peer.close()]; at its end. *)
Inductive phase := Dialled | Waiting | Leaving | Refused | Finished.

Record state := {
  st_heap : heap;
  st_peers : peers;
  st_phase : gmap positive phase;
  st_evicting : list positive;   (* removed by runPeers, close still to come *)
}.

Definition start : state :=
  {| st_heap := ∅; st_peers := ∅; st_phase := ∅; st_evicting := [] |}.

Inductive step : state -> state -> Prop :=
| step_dial s p node :                          (* client, err := ssh.Dial(...) *)
    st_heap s !! p = None ->
    step s {| st_heap := <[p := newPeer node]> (st_heap s); st_peers := st_peers s;
              st_phase := <[p := Dialled]> (st_phase s); st_evicting := st_evicting s |}
| step_add s p :                                (* self.addPeer(peer) *)
    st_phase s !! p = Some Dialled ->
    step s {| st_heap := st_heap s;
              st_peers := (addPeer (st_heap s) p (st_peers s)).1;
              st_phase := <[p := if (addPeer (st_heap s) p (st_peers s)).2
                                 then Waiting else Refused]> (st_phase s);
              st_evicting := st_evicting s |}
| step_refused s p :                            (* already connected: peer.close() *)
    st_phase s !! p = Some Refused ->
    step s {| st_heap := close p (st_heap s); st_peers := st_peers s;
              st_phase := <[p := Finished]> (st_phase s); st_evicting := st_evicting s |}
| step_shutdown s p :                           (* the watcher, or Close() *)
    is_Some (st_heap s !! p) ->
    step s {| st_heap := close p (st_heap s); st_peers := st_peers s;
              st_phase := st_phase s; st_evicting := st_evicting s |}
| step_wait s p :                               (* client.Wait() returns; peer.close() *)
    st_phase s !! p = Some Waiting ->
    step s {| st_heap := close p (st_heap s); st_peers := st_peers s;
              st_phase := <[p := Leaving]> (st_phase s); st_evicting := st_evicting s |}
| step_leave s p :                              (* deferred self.removePeer(peer) *)
    st_phase s !! p = Some Leaving ->
    step s {| st_heap := st_heap s; st_peers := removePeer (st_heap s) p (st_peers s);
              st_phase := <[p := Finished]> (st_phase s); st_evicting := st_evicting s |}
| step_evict s p :                              (* a failed ping of a peer that was listed *)
    st_phase s !! p ∈ [Some Waiting; Some Leaving; Some Finished] ->
    step s {| st_heap := st_heap s; st_peers := removePeer (st_heap s) p (st_peers s);
              st_phase := st_phase s; st_evicting := p :: st_evicting s |}
| step_evicted s p :                            (* peer.close() after the eviction *)
    p ∈ st_evicting s ->
    step s {| st_heap := close p (st_heap s); st_peers := st_peers s;
              st_phase := st_phase s;
              st_evicting := filter (fun q => q <> p) (st_evicting s) |}.

(** The invariant.  A registered peer is filed under its own node id and its
    goroutine has not ended; a goroutine in [client.Wait()] is that of the
    registered peer of its node unless it is being, or was, evicted or closed;
    a goroutine past its wait has closed its client. *)
Record inv (s : state) : Prop := {
  inv_filed : forall node p, st_peers s !! node = Some p ->
    nodeId (st_heap s !!! p) = node /\
    (st_phase s !! p = Some Waiting \/ st_phase s !! p = Some Leaving);
  inv_waiting : forall p, st_phase s !! p = Some Waiting ->
    st_peers s !! nodeId (st_heap s !!! p) = Some p \/
    p ∈ st_evicting s \/ closed (st_heap s !!! p) = true;
  inv_finished : forall p, st_phase s !! p = Some Leaving \/ st_phase s !! p = Some Finished ->
    closed (st_heap s !!! p) = true;
  inv_phase : forall p, is_Some (st_phase s !! p) <-> is_Some (st_heap s !! p);
  inv_evicting : forall p, p ∈ st_evicting s -> is_Some (st_heap s !! p);
}.

(** ** Lemmas *)

Lemma close_lookup_total p q h :
  is_Some (h !! p) ->
  close p h !!! q = {| nodeId := nodeId (h !!! q);
                       closed := if decide (p = q) then true else closed (h !!! q) |}.
Proof.
  intros [x Hx]. unfold close. rewrite !lookup_total_alt, lookup_alter.
  case_decide; subst; [by rewrite Hx|]. by destruct (h !! q) as [[]|].
Qed.

Lemma close_is_Some p q h : is_Some (close p h !! q) <-> is_Some (h !! q).
Proof. unfold close. rewrite lookup_alter. case_decide; subst; by rewrite ?fmap_is_Some. Qed.

Lemma removePeer_lookup h p self node q :
  removePeer h p self !! node = Some q <->
  self !! node = Some q /\ ~ (q = p /\ nodeId (h !!! p) = node).
Proof.
  unfold removePeer. case_decide as Hd.
  - rewrite lookup_delete. case_decide; naive_solver.
  - naive_solver.
Qed.

Lemma inv_start : inv start.
Proof.
  constructor; simpl; intros *; rewrite ?lookup_empty; try done.
  - by intros [[=]|[=]].
  - by intros ?%elem_of_nil.
Qed.

(** Closing a client preserves the invariant. *)
Lemma inv_close s p evicting :
  inv s -> is_Some (st_heap s !! p) ->
  (forall q, q ∈ evicting -> q ∈ st_evicting s) ->
  (forall q, q ∈ st_evicting s -> q ∈ evicting \/ q = p) ->
  inv {| st_heap := close p (st_heap s); st_peers := st_peers s; st_phase := st_phase s;
         st_evicting := evicting |}.
Proof.
  intros [If Iw Ifin Ip Ie] Hp Hsub Hsup. constructor; simpl.
  - intros node q Hq. rewrite close_lookup_total by done. by apply If.
  - intros q Hq. rewrite close_lookup_total by done. simpl.
    case_decide; [by auto|]. destruct (Iw q Hq) as [?|[He|?]]; auto.
    destruct (Hsup q He); [by auto|congruence].
  - intros q Hq. rewrite close_lookup_total by done. simpl. case_decide; auto.
  - intros q. rewrite close_is_Some. apply Ip.
  - intros q Hq. rewrite close_is_Some. auto.
Qed.

(** Removing a peer from the map preserves it, if the peer is then recorded as
    one that is about to be closed. *)
Lemma inv_remove s p evicting :
  inv s -> is_Some (st_heap s !! p) ->
  (st_phase s !! p = Some Waiting -> p ∈ evicting) ->
  (forall q, q ∈ evicting <-> q ∈ st_evicting s \/ (q = p /\ p ∈ evicting)) ->
  inv {| st_heap := st_heap s; st_peers := removePeer (st_heap s) p (st_peers s);
         st_phase := st_phase s; st_evicting := evicting |}.
Proof.
  intros [If Iw Ifin Ip Ie] Hp Hw Hev. constructor; simpl; try done.
  - intros node q [Hq _]%removePeer_lookup. by apply If.
  - intros q Hq. rewrite removePeer_lookup. destruct (decide (q = p)) as [->|Hne]; [by auto|].
    destruct (Iw q Hq) as [?|[He|?]]; [left; naive_solver|right; left; naive_solver|by auto].
  - intros q [Hq|[-> _]]%Hev; auto.
Qed.

(** Changing the phase of a peer that is not registered, from one that does
    not wait to one that does not wait. *)
Lemma inv_phase_change s p ph :
  inv s -> is_Some (st_phase s !! p) ->
  (forall node, st_peers s !! node = Some p -> ph = Waiting \/ ph = Leaving) ->
  (ph = Waiting -> st_peers s !! nodeId (st_heap s !!! p) = Some p) ->
  (ph = Leaving \/ ph = Finished -> closed (st_heap s !!! p) = true) ->
  inv {| st_heap := st_heap s; st_peers := st_peers s; st_phase := <[p := ph]> (st_phase s);
         st_evicting := st_evicting s |}.
Proof.
  intros [If Iw Ifin Ip Ie] Hp Hr Hw Hfin. constructor; simpl; try done.
  - intros node q Hq. destruct (If node q Hq) as [Hn Hph]. split; [done|].
    rewrite lookup_insert. case_decide; subst; [|done].
    destruct (Hr _ Hq); subst; auto.
  - intros q. rewrite lookup_insert. case_decide; subst; [|apply Iw].
    intros [= ->]. auto.
  - intros q. rewrite lookup_insert. case_decide; subst; [|apply Ifin].
    intros [[= ->]|[= ->]]; auto.
  - intros q. rewrite <- Ip, lookup_insert. case_decide; subst; [|done].
    split; [done|eauto].
Qed.

Lemma inv_dial s p node :
  inv s -> st_heap s !! p = None ->
  inv {| st_heap := <[p := newPeer node]> (st_heap s); st_peers := st_peers s;
         st_phase := <[p := Dialled]> (st_phase s); st_evicting := st_evicting s |}.
Proof.
  intros [If Iw Ifin Ip Ie] Hp.
  assert (Hph : st_phase s !! p = None) by (apply eq_None_not_Some; rewrite Ip, Hp; by intros []).
  constructor; simpl.
  - intros n q Hq. destruct (If n q Hq) as [Hn Hw].
    assert (p <> q) by (intros ->; rewrite Hph in Hw; naive_solver).
    by rewrite lookup_total_insert_ne, lookup_insert_ne.
  - intros q. rewrite lookup_insert. case_decide; [done|].
    rewrite lookup_total_insert_ne by done. apply Iw.
  - intros q. rewrite lookup_insert. case_decide; [by intros [[=]|[=]]|].
    rewrite lookup_total_insert_ne by done. apply Ifin.
  - intros q. rewrite !lookup_insert. case_decide; [|apply Ip]. split; eauto.
  - intros q Hq. rewrite lookup_insert. case_decide; eauto.
Qed.

Lemma inv_add s p :
  inv s -> st_phase s !! p = Some Dialled ->
  inv {| st_heap := st_heap s;
         st_peers := (addPeer (st_heap s) p (st_peers s)).1;
         st_phase := <[p := if (addPeer (st_heap s) p (st_peers s)).2
                            then Waiting else Refused]> (st_phase s);
         st_evicting := st_evicting s |}.
Proof.
  intros I Hp. assert (Hfree : forall n, st_peers s !! n <> Some p).
  { intros n Hn. destruct (inv_filed _ I n p Hn). naive_solver. }
  unfold addPeer. destruct (st_peers s !! nodeId (st_heap s !!! p)) as [q|] eqn:E; simpl.
  - apply inv_phase_change; [done|by rewrite Hp| |done|naive_solver].
    intros n Hn. by destruct (Hfree n).
  - destruct I as [If Iw Ifin Ip Ie]. constructor; simpl; try done.
    + intros n q. rewrite !lookup_insert. case_decide.
      * intros [= <-]. rewrite decide_True by done. auto.
      * intros Hq. rewrite decide_False by (intros ->; by destruct (Hfree n)). by apply If.
    + intros q. rewrite !lookup_insert. case_decide; [subst; by rewrite decide_True; auto|].
      intros Hq. destruct (Iw q Hq) as [Hr|?]; [|by auto].
      rewrite decide_False by congruence. auto.
    + intros q. rewrite lookup_insert. case_decide; [by intros [[=]|[=]]|apply Ifin].
    + intros q. rewrite <- Ip, lookup_insert. case_decide; subst; [|done].
      split; [by rewrite Hp|eauto].
Qed.

Lemma step_inv s s' : inv s -> step s s' -> inv s'.
Proof.
  intros I Hstep. assert (Hh : forall p ph, st_phase s !! p = Some ph -> is_Some (st_heap s !! p))
    by (intros p ph Hp; apply (inv_phase _ I); eauto).
  destruct Hstep as [s p node Hp|s p Hp|s p Hp|s p Hp|s p Hp|s p Hp|s p Hp|s p Hp].
  - by apply inv_dial.
  - by apply inv_add.
  - apply (inv_phase_change {| st_heap := close p (st_heap s) |}); simpl;
      [apply inv_close; eauto|eauto| |done|].
    + intros n Hn. destruct (inv_filed _ I n p Hn). naive_solver.
    + intros _. rewrite close_lookup_total by eauto. simpl. by rewrite decide_True.
  - apply inv_close; eauto.
  - apply (inv_phase_change {| st_heap := close p (st_heap s) |}); simpl;
      [apply inv_close; eauto|eauto|auto|done|].
    intros _. rewrite close_lookup_total by eauto. simpl. by rewrite decide_True.
  - apply (inv_phase_change {| st_peers := removePeer (st_heap s) p (st_peers s) |}); simpl;
      [|eauto| |done|intros _; apply (inv_finished _ I); auto].
    + apply inv_remove; [done|eauto|by rewrite Hp|naive_solver].
    + intros n [Hn Hne]%removePeer_lookup. destruct (inv_filed _ I n p Hn). naive_solver.
  - apply inv_remove; [done| |set_solver|set_solver].
    destruct (st_phase s !! p) eqn:E; [eauto|set_solver].
  - apply inv_close; [done|by apply (inv_evicting _ I)| |].
    + by intros q [_ ?]%list_elem_of_filter.
    + intros q Hq. destruct (decide (q = p)); [by auto|]. left. by apply list_elem_of_filter.
Qed.

(** C15: dialling, registering, losing, evicting and reconnecting peers in any
    interleaving, the map of peers stays right: a peer is filed under its own
    node's id, at most one per node; a goroutine that ends has closed its
    client and its peer is no longer registered, also when a newer peer of the
    same node has taken its place; and a peer whose goroutine still waits is
    registered, unless it was closed or the close after its eviction is due. *)
Theorem peers_reachable (s : state) :
  rtc step start s ->
  (forall node p, getPeer node (st_peers s) = Some p ->
     nodeId (st_heap s !!! p) = node /\ st_phase s !! p <> Some Finished) /\
  (forall p, st_phase s !! p = Some Finished ->
     closed (st_heap s !!! p) = true /\ p ∉ listPeers (st_peers s)) /\
  (forall p, st_phase s !! p = Some Waiting -> closed (st_heap s !!! p) = false ->
     p ∉ st_evicting s -> getPeer (nodeId (st_heap s !!! p)) (st_peers s) = Some p).
Proof.
  intros Hr. pose proof (rtc_invariant step inv start s inv_start step_inv Hr) as I.
  split_and!.
  - intros node p Hp. destruct (inv_filed _ I node p Hp) as [? Hw]. naive_solver.
  - intros p Hp. split; [apply (inv_finished _ I); auto|]. unfold listPeers.
    intros ([n q] & -> & Hq%elem_of_map_to_list)%list_elem_of_fmap.
    destruct (inv_filed _ I n q Hq). naive_solver.
  - intros p Hp Hc He. destruct (inv_waiting _ I p Hp) as [?|[?|?]]; [done..|congruence].
Qed.

(** A peer is dialled twice and the second registration is refused. *)
Definition example_end : state :=
  {| st_heap := close 2%positive (<[2%positive := newPeer "b"]> {[1%positive := newPeer "b"]});
     st_peers := {["b" := 1%positive]};
     st_phase := <[2%positive := Finished]> (<[2%positive := Refused]>
       (<[2%positive := Dialled]> (<[1%positive := Waiting]> {[1%positive := Dialled]})));
     st_evicting := [] |}.

Lemma peers_reachable_witness :
  getPeer "b" (st_peers example_end) = Some 1%positive /\
  (2%positive ∉ listPeers (st_peers example_end)).
Proof.
  assert (Hr : rtc step start example_end).
  { eapply rtc_l; [apply (step_dial _ 1%positive "b"); reflexivity|].
    eapply rtc_l; [apply (step_add _ 1%positive); reflexivity|].
    eapply rtc_l; [apply (step_dial _ 2%positive "b"); reflexivity|].
    eapply rtc_l; [apply (step_add _ 2%positive); reflexivity|].
    eapply rtc_l; [apply (step_refused _ 2%positive); reflexivity|].
    apply rtc_refl. }
  destruct (peers_reachable example_end Hr) as (_ & H2 & H3). split.
  - apply (H3 1%positive); [vm_compute; reflexivity..|]. by intros ?%elem_of_nil.
  - apply H2. vm_compute; reflexivity.
Defined.
End Peers.
