(* ===== verification/Routing.v ===== *)
(** * Routing of tunnels, [gateway/gateway.go] and [gateway/peer.go]

    A service name resolves to a local connection first; otherwise to the
    peer of the node its user is on, found in the route cache or in the
    database.  The gateway's state is what these functions read and write.
    Opening a channel asks the ssh client at the other end; its answer is a
    parameter. *)

From stdpp Require Import base list strings gmap fin_maps option.
From Stdlib Require Import ZArith Lia.
From Stdlib Require Import Strings.Byte.
From S2P Require Import Prelude GoStrings Bytes Wire RouteCache Models Database Connection Registry.
From S2P Require Import Peers.

#[local] Open Scope Z_scope.

Module Routing.

(** [Settings]; the fields that are functions or keys are what the code reads
    of them: the host key in [authorized_keys] form, whether there is a signer,
    and whether there is a [RevokeLoginFlags]. *)
Record Settings := {
  Version : string;
  NodeID : string;
  NodeAddress : string;
  HostPublicKey : option string;
  NodeSigner : bool;
  PostgresAddress : string;
  PeerDiscoveryInterval : duration;
  RevokeLoginFlags : bool;
}.

Record gateway {DB : Type} := {
  database : DB;
  connections : Registry.heap;
  registry : Registry.registry;
  peerHeap : Peers.heap;
  peers : Peers.peers;
  routes : RouteCache.routeCache;
}.
Arguments gateway DB : clear implicits.

Section routing.
Context {DB : Type} `{Executor DB}.

Definition set_routes (r : RouteCache.routeCache) (d : DB) (g : gateway DB) : gateway DB :=
  {| database := d; connections := connections g; registry := registry g;
     peerHeap := peerHeap g; peers := peers g; routes := r |}.

Definition set_connections (h : Registry.heap) (g : gateway DB) : gateway DB :=
  {| database := database g; connections := h; registry := registry g;
     peerHeap := peerHeap g; peers := peers g; routes := routes g |}.

(** ** Finding the peer of a user's node *)

(** The loop of [lookupRemotePeer] over the user names; [clock] gives the
    readings of the two clock calls of each turn. *)
Fixpoint lookupRemoteUsers (self : string) (known : Peers.peers) (clock : nat -> time)
    (userIds : list string) (r : RouteCache.routeCache) (d : DB)
    : RouteCache.routeCache * DB * option positive :=
  match userIds with
  | [] => (r, d, None)
  | user :: rest =>
      let continue := lookupRemoteUsers self known (fun n => clock (S (S n))) rest in
      if decide (user = "") then continue r d
      else
        let (d, answer) :=
          match RouteCache.get (clock 0%nat) user r with
          | Some nodeId => (d, Some (nodeId, true))
          | None =>
              match db_GetUserNodeID user d with
              | (d, Ok nodeId) => (d, Some (nodeId, false))
              | (d, Err _) => (d, None)
              end
          end in
        match answer with
        | None => continue r d
        | Some (nodeId, cached) =>
            if decide (nodeId = "" \/ nodeId = self) then continue r d
            else match Peers.getPeer nodeId known with
                 | Some p =>
                     (if cached then r else RouteCache.put (clock 1%nat) user nodeId r, d, Some p)
                 | None => continue (if cached then RouteCache.invalidate user r else r) d
                 end
        end
  end.

Definition lookupRemotePeer (settings : Settings) (clock : nat -> time) (host : string)
    (g : gateway DB) : gateway DB * option positive :=
  if decide (NodeID settings = "") then (g, None)
  else
    let '(r, d, p) := lookupRemoteUsers (NodeID settings) (peers g) clock
                        (map snd (candidates host)) (routes g) (database g) in
    (set_routes r d g, p).

Definition invalidateRoutes (host : string) (g : gateway DB) : gateway DB :=
  set_routes
    (foldl (fun r user => if decide (user = "") then r else RouteCache.invalidate user r)
           (routes g) (map snd (candidates host)))
    (database g) g.

(** ** Opening tunnels *)

Definition newTunnel (ptr : positive) (connection : option positive) (channelType : string)
    (extraData : list byte) (metadata : json) (h : Registry.heap) : Registry.heap * Conn.tunnel :=
  let self := {| Conn.tunnel_ptr := ptr; Conn.tunnel_connection := connection;
                 Conn.tunnel_channelType := channelType; Conn.tunnel_extraData := extraData;
                 Conn.tunnel_metadata := metadata |} in
  (match connection with
   | Some c => alter (Conn.addTunnel self) c h
   | None => h
   end, self).

(** A [tunnelOpener]. *)
Inductive target : Set :=
| LocalConnection (c : positive)
| RemotePeer (p : positive).

(** [connection.openTunnel]: a tunnel that counts as one of the connection's;
    [answer] is the error of [OpenChannel]. *)
Definition connection_openTunnel (answer : option error) (ptr self : positive)
    (channelType : string) (extraData : list byte) (metadata : json) (g : gateway DB)
    : gateway DB * result Conn.tunnel :=
  match answer with
  | Some err => (g, Err err)
  | None =>
      let (h, t) := newTunnel ptr (Some self) channelType extraData metadata (connections g) in
      (set_connections h g, Ok t)
  end.

(** [peer.openTunnel]: a tunnel without a connection. *)
Definition peer_openTunnel (answer : option error) (ptr : positive)
    (channelType : string) (extraData : list byte) (metadata : json) (g : gateway DB)
    : gateway DB * result Conn.tunnel :=
  match answer with
  | Some err => (g, Err err)
  | None =>
      let (h, t) := newTunnel ptr None channelType extraData metadata (connections g) in
      (set_connections h g, Ok t)
  end.

Definition openTunnel (answer : option error) (ptr : positive) (to : target)
    (channelType : string) (extraData : list byte) (metadata : json) (g : gateway DB)
    : gateway DB * result Conn.tunnel :=
  match to with
  | LocalConnection c => connection_openTunnel answer ptr c channelType extraData metadata g
  | RemotePeer _ => peer_openTunnel answer ptr channelType extraData metadata g
  end.

(** A request to open a channel, as the other end sees it. *)
Record opening := { open_to : target; open_channelType : string; open_data : list byte }.

Definition serviceMetadata (host : string) (port : Z) : json :=
  JObject [("host", JString host); ("port", JNumber port)].

(** [openServiceTunnel]; the last component is the request it made.  [world]
    answers the requests. *)
Definition openServiceTunnel (settings : Settings) (clock : nat -> time)
    (world : opening -> option error) (ptr : positive) (host : string) (port : Z)
    (originAddress : string) (originPort : Z) (g : gateway DB)
    : gateway DB * result Conn.tunnel * option opening :=
  let metadata := JObject [("origin", JString originAddress);
                           ("service", serviceMetadata host port)] in
  match Registry.lookupConnectionService (connections g) host port (registry g) with
  | Some (otherConnection, serviceHost, servicePort) =>
      let data := marshalTunnelData
        {| td_Host := serviceHost; td_Port := uint32 servicePort;
           td_OriginAddress := originAddress; td_OriginPort := originPort |} in
      let o := {| open_to := LocalConnection otherConnection;
                  open_channelType := "forwarded-tcpip"; open_data := data |} in
      let (g, r) := openTunnel (world o) ptr (open_to o) (open_channelType o) data metadata g in
      (g, r, Some o)
  | None =>
      let (g, remotePeer) := lookupRemotePeer settings clock host g in
      match remotePeer with
      | Some p =>
          let data := marshalTunnelData
            {| td_Host := host; td_Port := uint32 port;
               td_OriginAddress := originAddress; td_OriginPort := originPort |} in
          let o := {| open_to := RemotePeer p; open_channelType := "direct-tcpip";
                      open_data := data |} in
          let (g, r) := openTunnel (world o) ptr (open_to o) (open_channelType o) data metadata g in
          (match r with Err _ => invalidateRoutes host g | Ok _ => g end, r, Some o)
      | None => (g, Err Conn.ErrServiceNotFound, None)
      end
  end.

(** ** Specification *)

(** The node a user is taken to be on: what the cache says, or else what the
    database says. *)
Definition nodeOf (r : RouteCache.routeCache) (t : tables) (now : time) (user : string) : string :=
  default (GetUserNodeID user t) (RouteCache.get now user r).

(** The peer a user name leads to, if any. *)
Definition peerOf (self : string) (known : Peers.peers) (r : RouteCache.routeCache) (t : tables)
    (now : time) (user : string) : option positive :=
  if decide (user = "") then None
  else
    let node := nodeOf r t now user in
    if decide (node = "" \/ node = self) then None else Peers.getPeer node known.

(** The first user name that leads to a peer decides. *)
Fixpoint firstPeer (self : string) (known : Peers.peers) (r : RouteCache.routeCache) (t : tables)
    (clock : nat -> time) (userIds : list string) : option positive :=
  match userIds with
  | [] => None
  | user :: rest =>
      match peerOf self known r t (clock 0%nat) user with
      | Some p => Some p
      | None => firstPeer self known r t (fun n => clock (S (S n))) rest
      end
  end.

(** The database answers every query. *)
Definition answering : Prop :=
  forall A (q : tables -> A) (d : DB), (query q d).2 = Ok (q (db_tables d)).

(** ** Lemmas *)

Lemma peerOf_ext self known r r' t now user :
  RouteCache.get now user r' = RouteCache.get now user r ->
  peerOf self known r' t now user = peerOf self known r t now user.
Proof. unfold peerOf, nodeOf. by intros ->. Qed.

Lemma firstPeer_ext self known r r' t clock userIds :
  (forall now user, user ∈ userIds -> RouteCache.get now user r' = RouteCache.get now user r) ->
  firstPeer self known r' t clock userIds = firstPeer self known r t clock userIds.
Proof.
  revert clock. induction userIds as [|user rest IH]; intros clock Hext; [done|]. simpl.
  rewrite (peerOf_ext _ _ r r') by (apply Hext; set_solver).
  destruct (peerOf _ _ _ _ _ _); [done|]. apply IH. intros. apply Hext. set_solver.
Qed.

Lemma get_invalidate_rest now user u r (rest : list string) :
  user ∉ rest -> u ∈ rest ->
  RouteCache.get now u (RouteCache.invalidate user r) = RouteCache.get now u r.
Proof.
  intros Hn Hu. rewrite RouteCache.get_invalidate. rewrite decide_False; [done|].
  by intros ->.
Qed.

(** One turn of the loop: it returns the peer the user name leads to, with the
    route remembered if it came from the database, or goes on with the cache
    unchanged for the other user names. *)
Lemma lookupRemoteUsers_turn self known clock user rest r d :
  exists r1 d1,
    db_tables d1 = db_tables d /\
    ((lookupRemoteUsers self known clock (user :: rest) r d =
        lookupRemoteUsers self known (fun n => clock (S (S n))) rest r1 d1 /\
      (r1 = r \/ r1 = RouteCache.invalidate user r) /\
      (answering -> peerOf self known r (db_tables d) (clock 0%nat) user = None)) \/
     (exists p, lookupRemoteUsers self known clock (user :: rest) r d = (r1, d1, Some p) /\
      peerOf self known r (db_tables d) (clock 0%nat) user = Some p /\
      (r1 = r \/ r1 = RouteCache.put (clock 1%nat) user (GetUserNodeID user (db_tables d)) r))).
Proof.
  cbn [lookupRemoteUsers]. unfold peerOf, nodeOf.
  case_decide as Hu; [by exists r, d; auto 10|].
  destruct (RouteCache.get (clock 0%nat) user r) as [node|]; simpl.
  - case_decide; [by exists r, d; auto 10|].
    destruct (Peers.getPeer node known) as [p|]; [by exists r, d; eauto 10|].
    by exists (RouteCache.invalidate user r), d; auto 10.
  - destruct (db_GetUserNodeID user d) as [d1 answer] eqn:E. unfold db_GetUserNodeID in E.
    pose proof (query_spec _ _ _ _ E) as [Ht [->|[text ->]]].
    + case_decide; [by exists r, d1; auto 10|]. destruct (Peers.getPeer _ known) as [p|];
        [eexists _, d1; split; [done|]; right; eauto|].
      exists r, d1. split; [done|]. left. split_and!; auto.
    + exists r, d1. split; [done|]. left. split; [done|]. split; [by auto|].
      intros Ha. pose proof (Ha _ (GetUserNodeID user) d) as Hq. by rewrite E in Hq.
Qed.

(** A reading of the cache after a lookup is one from before it, or what the
    database says about one of the names. *)
Definition learned (r r' : RouteCache.routeCache) (t : tables) (userIds : list string) : Prop :=
  forall now user node, RouteCache.get now user r' = Some node ->
    RouteCache.get now user r = Some node \/ (user ∈ userIds /\ node = GetUserNodeID user t).

Lemma get_invalidate_Some now user u r node :
  RouteCache.get now u (RouteCache.invalidate user r) = Some node ->
  RouteCache.get now u r = Some node.
Proof. rewrite RouteCache.get_invalidate. by case_decide. Qed.

Lemma learned_put clock user r t rest :
  learned r (RouteCache.put clock user (GetUserNodeID user t) r) t (user :: rest).
Proof.
  intros now u node Hg. destruct (decide (user = u)) as [<-|Hne].
  - rewrite RouteCache.get_put in Hg. destruct (time_after _ _); simplify_eq. right. set_solver.
  - left. by eapply RouteCache.get_put_ne.
Qed.

Lemma lookupRemoteUsers_spec self known clock userIds r d :
  NoDup userIds ->
  let '(r', d', found) := lookupRemoteUsers self known clock userIds r d in
  db_tables d' = db_tables d /\ learned r r' (db_tables d) userIds /\
  (forall p, found = Some p -> exists n user, user ∈ userIds /\
     peerOf self known r (db_tables d) (clock n) user = Some p) /\
  (answering -> found = firstPeer self known r (db_tables d) clock userIds).
Proof.
  revert clock r d. induction userIds as [|user rest IH]; intros clock r d Hnd.
  { simpl. unfold learned. naive_solver. }
  inversion_clear Hnd as [|? ? Hnotin Hnd']. rename Hnd' into Hnd. cbn [firstPeer].
  destruct (lookupRemoteUsers_turn self known clock user rest r d)
    as (r1 & d1 & Ht & [(-> & Hr1 & Hnone)|(p & -> & Hp & Hr1)]).
  - specialize (IH (fun n => clock (S (S n))) r1 d1 Hnd).
    destruct (lookupRemoteUsers _ _ _ rest r1 d1) as [[r' d'] found].
    rewrite Ht in IH. destruct IH as (Ht' & Hl & Hs & Ha).
    assert (Hext : forall now u, u ∈ rest -> RouteCache.get now u r1 = RouteCache.get now u r).
    { intros now u Hu. destruct Hr1 as [->| ->]; [done|]. by eapply get_invalidate_rest. }
    split_and!; [done| | |].
    + intros now u node Hg. destruct (Hl now u node Hg) as [Hg1|[Hu ->]]; [left|set_solver].
      destruct Hr1 as [->| ->]; [done|]. by eapply get_invalidate_Some.
    + intros p Hp. destruct (Hs p Hp) as (n & u & Hu & Hpeer). exists (S (S n)), u.
      split; [set_solver|]. rewrite <- Hpeer. symmetry. apply peerOf_ext. auto.
    + intros A. rewrite (Hnone A). rewrite (Ha A). by apply firstPeer_ext.
  - split_and!; [done| | |].
    + destruct Hr1 as [->| ->]; [unfold learned; auto 10|apply learned_put].
    + intros q [= <-]. exists 0%nat, user. split; [set_solver|done].
    + intros _. by rewrite Hp.
Qed.

Lemma lookupRemotePeer_local settings clock host g :
  NodeID settings = "" -> lookupRemotePeer settings clock host g = (g, None).
Proof. intros E. unfold lookupRemotePeer. by rewrite decide_True. Qed.

(** [lookupRemotePeer] leaves everything but the route cache alone.  The
    peer it returns is that of a node one of the name's user suffixes is on,
    according to an unexpired cache entry or else to the database, and never
    this node; when the database answers, it is the peer of the first such
    suffix, longest first, and there is none only if no suffix leads to a
    peer.  What the cache says afterwards it said before, or the database says
    now. *)
Theorem lookupRemotePeer_spec (settings : Settings) (clock : nat -> time) (host : string)
    (g : gateway DB) :
  NodeID settings <> "" ->
  let (g', found) := lookupRemotePeer settings clock host g in
  let t := db_tables (database g) in
  let users := map snd (candidates host) in
  connections g' = connections g /\ registry g' = registry g /\ peers g' = peers g /\
  db_tables (database g') = t /\ learned (routes g) (routes g') t users /\
  (forall p, found = Some p -> exists n user, user ∈ users /\ user <> "" /\
     nodeOf (routes g) t (clock n) user <> NodeID settings /\
     Peers.getPeer (nodeOf (routes g) t (clock n) user) (peers g) = Some p) /\
  (answering -> found = firstPeer (NodeID settings) (peers g) (routes g) t clock users).
Proof.
  intros Hne. unfold lookupRemotePeer. rewrite decide_False by done.
  pose proof (lookupRemoteUsers_spec (NodeID settings) (peers g) clock (map snd (candidates host))
                (routes g) (database g) (NoDup_candidate_users host)) as S.
  destruct (lookupRemoteUsers _ _ _ _ _ _) as [[r d] found].
  destruct S as (Ht & Hl & Hs & Ha). simpl. split_and!; try done.
  intros p Hp. destruct (Hs p Hp) as (n & user & Hu & Hpeer). exists n, user.
  unfold peerOf in Hpeer. case_decide; [done|]. case_decide as Hd; [done|]. naive_solver.
Qed.

(** ** Invalidation *)

Lemma foldl_invalidate_get now u users r :
  RouteCache.get now u
    (foldl (fun r user => if decide (user = "") then r else RouteCache.invalidate user r) r users) =
  if decide (u ∈ users /\ u <> "") then None else RouteCache.get now u r.
Proof.
  revert r. induction users as [|user users IH]; intros r; cbn [foldl].
  { case_decide as Hd; [by destruct Hd as [?%elem_of_nil _]|done]. }
  rewrite IH. repeat case_decide; try done; rewrite ?RouteCache.get_invalidate;
    try case_decide; try done; set_solver.
Qed.

(** The cached routes of the user names of a host are forgotten, and no
    others. *)
Lemma invalidateRoutes_get now u host g :
  RouteCache.get now u (routes (invalidateRoutes host g)) =
  if decide (u ∈ map snd (candidates host) /\ u <> "") then None
  else RouteCache.get now u (routes g).
Proof. apply foldl_invalidate_get. Qed.

(** ** Opening a tunnel for a proxy client *)

Lemma slen_service (host service u : string) :
  (service = "" /\ host = u) \/ host = service +:+ String dot u -> slen service <= slen host.
Proof.
  intros [[-> ->]| ->]; unfold slen; rewrite ?String_length_app; simpl; lia.
Qed.

(** Opening a tunnel on a connection adds it to the connection's tunnels. *)
Lemma openTunnel_Ok ptr to channelType data metadata g :
  exists t,
    openTunnel None ptr to channelType data metadata g =
      (set_connections (match to with
                        | LocalConnection c => alter (Conn.addTunnel t) c (connections g)
                        | RemotePeer _ => connections g
                        end) g, Ok t) /\
    Conn.tunnel_extraData t = data /\ Conn.tunnel_channelType t = channelType.
Proof. destruct to; simpl; eauto. Qed.

(** The request a proxy client's service name leads to, given what the lookups
    found. *)
Definition service_request (host : string) (port : Z) (originAddress : string) (originPort : Z)
    (local : option (positive * string * Z)) (remote : option positive) : option (target * string * tunnelData) :=
  let to h := {| td_Host := h; td_Port := port; td_OriginAddress := originAddress;
                 td_OriginPort := originPort |} in
  match local, remote with
  | Some (c, service, _), _ => Some (LocalConnection c, "forwarded-tcpip", to service)
  | None, Some p => Some (RemotePeer p, "direct-tcpip", to host)
  | None, None => None
  end.

(** C10: [openServiceTunnel] makes at most one request.  A service advertised
    by a local connection is asked of that connection, under the name the
    connection advertises it by; otherwise the whole name goes to the peer of
    the user's node; otherwise the service is not found.  The request decodes
    at the other end to that name, the port and the client's origin.  Success
    returns a tunnel that carries the request, counted on the local
    connection; a peer's refusal is returned and forgets the cached routes of
    every user suffix of the name. *)
Theorem openServiceTunnel_spec (settings : Settings) (clock : nat -> time)
    (world : opening -> option error) (ptr : positive) (host : string) (port : Z)
    (originAddress : string) (originPort : Z) (g : gateway DB) :
  Registry.wf (connections g) (registry g) ->
  0 <= port <= 65535 -> 0 <= originPort <= 65535 ->
  slen host + slen originAddress < 4294967280 ->
  let local := Registry.lookupConnectionService (connections g) host port (registry g) in
  let remote := (lookupRemotePeer settings clock host g).2 in
  let '(g', r, asked) :=
    openServiceTunnel settings clock world ptr host port originAddress originPort g in
  match asked with
  | None => local = None /\ remote = None /\ r = Err Conn.ErrServiceNotFound
  | Some o =>
      (exists d, service_request host port originAddress originPort local remote =
         Some (open_to o, open_channelType o, d) /\ unmarshalTunnelData (open_data o) = Ok d) /\
      match world o with
      | None => exists t, r = Ok t /\ Conn.tunnel_extraData t = open_data o /\
          connections g' = match open_to o with
                           | LocalConnection c => alter (Conn.addTunnel t) c (connections g)
                           | RemotePeer _ => connections g
                           end
      | Some err => r = Err err /\ connections g' = connections g /\
          (forall p now user, open_to o = RemotePeer p -> user ∈ map snd (candidates host) ->
             user <> "" -> RouteCache.get now user (routes g') = None)
      end
  end.
Proof.
  intros Hwf Hport Horigin Hlen local remote. unfold openServiceTunnel.
  subst local remote. unfold service_request.
  destruct (Registry.lookupConnectionService _ _ _ _) as [[[c service] port']|] eqn:El.
  - destruct (Registry.lookupConnectionService_Some _ _ _ _ _ _ _ Hwf El)
      as (-> & Hc & _ & Hname).
    pose proof (slen_service _ _ _ Hname).
    cbn [open_to openTunnel]. unfold connection_openTunnel, peer_openTunnel.
    destruct (world _) as [err|] eqn:Ew; cbn [newTunnel open_data]; rewrite ?Ew.
    all: (split; [eexists; split; [reflexivity|]; simpl;
           rewrite uint32_small by lia; apply unmarshal_marshalTunnelData;
           [unfold tunnelData_valid|]; simpl; unfold slen in *; lia|]).
    + split_and!; [done..|]. intros. done.
    + eexists. split; [reflexivity|]. done.
  - assert (Hg : connections (lookupRemotePeer settings clock host g).1 = connections g).
    { unfold lookupRemotePeer. case_decide; [done|].
      by destruct (lookupRemoteUsers _ _ _ _ _ _) as [[??]?]. }
    destruct (lookupRemotePeer settings clock host g) as [g1 [p|]]; simpl in Hg |- *; [|done].
    cbn [open_to openTunnel]. unfold connection_openTunnel, peer_openTunnel.
    destruct (world _) as [err|] eqn:Ew; cbn [newTunnel open_data]; rewrite ?Ew.
    all: (split; [eexists; split; [reflexivity|]; simpl;
           rewrite uint32_small by lia; apply unmarshal_marshalTunnelData;
           [unfold tunnelData_valid|]; simpl; unfold slen in *; lia|]).
    + split_and!; [done..|]. intros q now user _ Hu Hne.
      rewrite invalidateRoutes_get. by rewrite decide_True.
    + eexists. split; [reflexivity|]. done.
Qed.

End routing.

(** ** A node of a small mesh *)

Definition example_settings : Settings :=
  {| Version := "1.0"; NodeID := "node-a"; NodeAddress := "10.0.0.1:22"; HostPublicKey := None;
     NodeSigner := true; PostgresAddress := "127.0.0.1:5432"; PeerDiscoveryInterval := 0;
     RevokeLoginFlags := true |}.

(** Alice and bob are connected here; the database says carol is on node-b,
    which is a peer. *)
Definition example_tables : tables :=
  (UpsertUserOnConnect 5 "carol" "10.0.0.8" zeroLocation "node-b" empty_tables).1.

Definition example_gateway : gateway server :=
  {| database := {| srv_tables := example_tables; srv_schedule := [] |};
     connections := Registry.example_heap; registry := Registry.example_registry;
     peerHeap := {[1%positive := Peers.newPeer "node-b"]};
     peers := {["node-b" := 1%positive]};
     routes := RouteCache.newRouteCache |}.

Lemma example_wf : Registry.wf (connections example_gateway) (registry example_gateway).
Proof.
  exact (rtc_invariant Registry.step (fun s => Registry.wf s.1 s.2) (∅, Registry.emptyRegistry)
           (Registry.example_heap, Registry.example_registry) Registry.wf_empty Registry.step_wf
           Registry.example_reachable).
Qed.

Lemma lookupRemotePeer_spec_witness :
  (lookupRemotePeer example_settings (fun _ => 10) "web.carol" example_gateway).2 =
    Some 1%positive /\
  exists (n : nat) user, user ∈ map snd (candidates "web.carol") /\
    nodeOf (routes example_gateway) example_tables 10 user <> "node-a".
Proof.
  split; [vm_compute; reflexivity|].
  assert (Hne : NodeID example_settings <> "") by (intros [=]).
  pose proof (lookupRemotePeer_spec example_settings (fun _ => 10) "web.carol" example_gateway Hne)
    as S.
  destruct (lookupRemotePeer _ _ _ _) as [g' found] eqn:E.
  destruct S as (_ & _ & _ & _ & _ & Hs & _). destruct (Hs 1%positive) as (n & u & Hu & _ & Hn & _).
  - change found with (g', found).2. rewrite <- E. vm_compute; reflexivity.
  - exists n, u. split; [exact Hu|exact Hn].
Defined.

Lemma openServiceTunnel_spec_witness :
  let '(_, r, asked) := openServiceTunnel example_settings (fun _ => 10) (fun _ => None) 7%positive
                          "web.bob" 80 "192.0.2.1" 4000 example_gateway in
  (open_to <$> asked) = Some (LocalConnection 2%positive) /\
  (exists t o, asked = Some o /\ r = Ok t /\ Conn.tunnel_extraData t = open_data o).
Proof.
  assert (H1 : 0 <= 80 <= 65535) by lia.
  assert (H2 : 0 <= 4000 <= 65535) by lia.
  assert (H3 : slen "web.bob" + slen "192.0.2.1" < 4294967280) by (vm_compute; reflexivity).
  pose proof (openServiceTunnel_spec example_settings (fun _ => 10) (fun _ => None) 7%positive
                "web.bob" 80 "192.0.2.1" 4000 example_gateway example_wf H1 H2 H3) as S.
  assert (E : (open_to <$> (openServiceTunnel example_settings (fun _ => 10) (fun _ => None)
            7%positive "web.bob" 80 "192.0.2.1" 4000 example_gateway).2) =
          Some (LocalConnection 2%positive)) by (vm_compute; reflexivity).
  destruct (openServiceTunnel _ _ _ _ _ _ _ _ _) as [[g' r] [o|]]; [|discriminate E].
  split; [exact E|]. destruct S as [_ (t & Hr & Hd & _)]. exists t, o. auto.
Defined.
End Routing.
