(* ===== verification/Gateway.v ===== *)
(** * The gateway: presence, listings, kicks and shutdown, [gateway/gateway.go]

    The operations that keep the database's view of who is online and where,
    and those that read it back.  Closing a connection makes its goroutine
    run the deferred clean-up of [handleConnection] and waits for it; here
    [closeConnection] is that clean-up. *)

From stdpp Require Import base list strings gmap fin_maps option.
From Stdlib Require Import ZArith Lia.
From Stdlib Require Import Strings.Byte.
From S2P Require Import Prelude TtlCache Usage Models Database Auth Connection Registry Peers.
From S2P Require Import Routing.

#[local] Open Scope Z_scope.

Module Gateway.
Import Routing.

Definition onlineHeartbeatInterval : duration := 30 * second.
Definition onlineStaleThreshold : duration := 90 * second.

(** ** Freshness *)

Definition isHeartbeatFresh (now onlineAt : time) : bool :=
  negb (time_isZero onlineAt) && bool_decide (time_sub now onlineAt < onlineStaleThreshold).

Definition isUserOnline (now : time) (user : User) : bool := isHeartbeatFresh now (OnlineAt user).

Definition isNodeOnline (now : time) (node : Node) : bool :=
  Node_Online node && isHeartbeatFresh now (Node_OnlineAt node).

(** ** Responses *)

(** [user.Status = status; user.Online = online]. *)
Definition show (newStatus : string) (online : bool) (u : User) : User :=
  {| ID := ID u; CreatedAt := CreatedAt u; ModifiedAt := ModifiedAt u; Comment := Comment u;
     IP := IP u; UserLocation := UserLocation u; Status := newStatus;
     Administrator := Administrator u; Screenshot := Screenshot u; Disabled := Disabled u;
     Models.NodeID := Models.NodeID u; OnlineAt := OnlineAt u; Online := online |}.

Record userList := { list_users : list User; list_totalCount : Z }.

Definition userListResponse (us : list User) : userList :=
  {| list_users := us; list_totalCount := Z.of_nat (length us) |}.

Definition onlineUserListResponse (us : list User) : userList :=
  userListResponse (map (show "" true) us).

(** [{"user": user}], with the live connections blended in. *)
Record userResponse := { resp_user : User; resp_connections : list Conn.connectionStatus }.

Section gateway.
Context {DB : Type} `{Executor DB}.

Definition set_database (d : DB) (g : gateway DB) : gateway DB :=
  set_routes (routes g) d g.

Definition set_registry (r : Registry.registry) (g : gateway DB) : gateway DB :=
  {| database := database g; connections := connections g; registry := r;
     peerHeap := peerHeap g; peers := peers g; routes := routes g |}.

(** ** Leaving *)

Definition releaseUserNode (settings : Settings) (now : time) (userId : string) (g : gateway DB)
    : gateway DB :=
  if decide (NodeID settings = "" \/ userId = "") then g
  else if decide (Registry.remaining userId (registry g) > 0) then g
  else set_database (db_ClearUserNodeID now userId (NodeID settings) (database g)).1 g.

(** The deferred clean-up of a connection's goroutine. *)
Definition closeConnection (settings : Settings) (now : time) (p : positive) (g : gateway DB)
    : gateway DB :=
  releaseUserNode settings now (Registry.userOf (connections g) p)
    (set_registry (Registry.deleteConnection (connections g) p (registry g)) g).

Definition closeAll (settings : Settings) (now : time) (ps : list positive) (g : gateway DB)
    : gateway DB :=
  foldl (fun g p => closeConnection settings now p g) g ps.

Definition ScavengeConnections (settings : Settings) (now : time) (timeout : duration)
    (g : gateway DB) : gateway DB :=
  closeAll settings now
    (filter (fun p => time_sub now (Conn.getUsedAt (connections g !!! p)) > timeout)
            (Registry.listConnections (registry g))) g.

Definition kickUser (settings : Settings) (now : time) (user : string)
    (flags : Auth.flagsCache) (g : gateway DB) : Auth.flagsCache * gateway DB :=
  (if RevokeLoginFlags settings then Auth.revokeUserFlags user flags else flags,
   closeAll settings now
     (filter (fun p => Registry.userOf (connections g) p = user)
             (Registry.listConnections (registry g))) g).

(** ** Heartbeats *)

(** One turn of [runOnlineHeartbeat]; [meanwhile] is what the other goroutines
    do to the gateway while the update is in flight, [later] the clock after
    it. *)
Definition heartbeat (settings : Settings) (now later : time)
    (meanwhile : gateway DB -> gateway DB) (g : gateway DB) : gateway DB :=
  let userIds := Registry.connectedUserIds (registry g) in
  if decide (userIds = []) then g
  else
    match db_MarkUsersOnline now userIds (NodeID settings) onlineStaleThreshold (database g)
    with
    | (d, Err _) => meanwhile (set_database d g)
    | (d, Ok _) =>
        let g := meanwhile (set_database d g) in
        let stillConnected := Registry.connectedUserIds (registry g) in
        foldl (fun g userId => releaseUserNode settings later userId g) g
              (filter (fun userId => userId ∉ stillConnected) userIds)
    end.

Definition registerNode (settings : Settings) (now : time) (online : bool) (g : gateway DB)
    : gateway DB * option error :=
  if decide (NodeID settings = "") then (g, None)
  else
    let hostPublicKey := default "" (HostPublicKey settings) in
    let modifier (node : Node) : result Node :=
      Ok {| Node_ID := Node_ID node; Node_CreatedAt := Node_CreatedAt node;
            Node_ModifiedAt := Node_ModifiedAt node;
            Node_Address := NodeAddress settings; Node_HostPublicKey := hostPublicKey;
            Node_Online := online; Node_OnlineAt := now |} in
    match db_PutNode now (NodeID settings) modifier (database g) with
    | (d, Ok _) => (set_database d g, None)
    | (d, Err err) => (set_database d g, Some err)
    end.

(** [discoverPeers]: the nodes it dials. *)
Definition discoverPeers (settings : Settings) (now : time) (g : gateway DB)
    : gateway DB * result (list Node) :=
  if NodeSigner settings then
    match db_ListNodes (database g) with
    | (d, Err err) => (set_database d g, Err err)
    | (d, Ok ns) =>
        (set_database d g,
         Ok (filter (fun node =>
               ~ (isNodeOnline now node = false \/ Node_Address node = "" \/
                  Node_ID node = NodeID settings) /\
               Peers.getPeer (Node_ID node) (peers g) = None) ns))
    end
  else (g, Ok []).

(** ** Listings *)

Definition ListUsers (now : time) (g : gateway DB) : gateway DB * result userList :=
  match db_ListUsers (database g) with
  | (d, Err err) => (set_database d g, Err err)
  | (d, Ok us) =>
      let connected := Registry.connectedUserIds (registry g) in
      (set_database d g,
       Ok (userListResponse
             (map (fun user => show "" (bool_decide (ID user ∈ connected) || isUserOnline now user)
                                    user) us)))
  end.

Definition ListOnlineUsers (now : time) (g : gateway DB) : gateway DB * result userList :=
  match db_ListOnlineUsers (time_add now (- onlineStaleThreshold)) (database g) with
  | (d, Err err) => (set_database d g, Err err)
  | (d, Ok us) => (set_database d g, Ok (onlineUserListResponse us))
  end.

Definition ListLocalOnlineUsers (g : gateway DB) : gateway DB * result userList :=
  match db_GetUsers (Registry.connectedUserIds (registry g)) (database g) with
  | (d, Err err) => (set_database d g, Err err)
  | (d, Ok us) => (set_database d g, Ok (onlineUserListResponse us))
  end.

Definition GetUser (now : time) (userId : string) (g : gateway DB)
    : gateway DB * result (option userResponse) :=
  match db_GetUser userId (database g) with
  | (d, Err err) => (set_database d g, Err err)
  | (d, Ok None) => (set_database d g, Ok None)
  | (d, Ok (Some user)) =>
      let status :=
        map (fun p => Conn.gatherStatus now (connections g !!! p))
            (filter (fun p => Registry.userOf (connections g) p = ID user)
                    (Registry.connectionsList (registry g))) in
      (set_database d g,
       Ok (Some {| resp_user := show (Status user)
                     (bool_decide (Z.of_nat (length status) > 0) || isUserOnline now user) user;
                   resp_connections := status |}))
  end.

Definition GetUserScreenshot (userId : string) (g : gateway DB)
    : gateway DB * result (option (list byte)) :=
  let (d, r) := db_GetUserScreenshot userId (database g) in (set_database d g, r).

(** [gatherStatus] of a user, or of everyone for the empty name. *)
Definition gatherStatus (now : time) (user : string) (g : gateway DB)
    : list Conn.connectionStatus :=
  map (fun p => Conn.gatherStatus now (connections g !!! p))
      (filter (fun p => user = "" \/ Registry.userOf (connections g) p = user)
              (Registry.connectionsList (registry g))).

(** ** Closing connections *)

Lemma releaseUserNode_registry settings now u g :
  registry (releaseUserNode settings now u g) = registry g /\
  connections (releaseUserNode settings now u g) = connections g /\
  routes (releaseUserNode settings now u g) = routes g.
Proof. unfold releaseUserNode. by repeat case_decide. Qed.

Lemma closeConnection_registry settings now p g :
  registry (closeConnection settings now p g) =
    Registry.deleteConnection (connections g) p (registry g) /\
  connections (closeConnection settings now p g) = connections g.
Proof.
  unfold closeConnection.
  match goal with |- context [releaseUserNode ?s ?n ?u ?g'] =>
    destruct (releaseUserNode_registry s n u g') as (-> & -> & _) end.
  done.
Qed.

Lemma closeAll_snoc settings now ps p g :
  closeAll settings now (ps ++ [p]) g = closeConnection settings now p (closeAll settings now ps g).
Proof. unfold closeAll. by rewrite foldl_app. Qed.

(** Closing a list of connections removes exactly these, and keeps the
    registry's invariant. *)
Lemma closeAll_registry settings now ps g :
  Registry.wf (connections g) (registry g) ->
  Registry.wf (connections g) (registry (closeAll settings now ps g)) /\
  connections (closeAll settings now ps g) = connections g /\
  Registry.connectionsList (registry (closeAll settings now ps g)) =
    filter (fun p => p ∉ ps) (Registry.connectionsList (registry g)).
Proof.
  intros Hwf. induction ps as [|p ps (IHw & IHc & IHl)] using rev_ind.
  - split_and!; [done..|]. simpl. symmetry. apply list_filter_all. intros. apply not_elem_of_nil.
  - rewrite closeAll_snoc. destruct (closeConnection_registry settings now p
      (closeAll settings now ps g)) as [-> ->]. rewrite IHc. split_and!; [|done|].
    + by apply Registry.wf_delete.
    + simpl. rewrite IHl, list_filter_filter. apply list_filter_iff. set_solver.
Qed.

Lemma closeAll_filter settings now (P : positive -> Prop) `{forall p, Decision (P p)} g :
  Registry.wf (connections g) (registry g) ->
  Registry.connectionsList (registry (closeAll settings now
    (filter P (Registry.listConnections (registry g))) g)) =
  filter (fun p => ~ P p) (Registry.connectionsList (registry g)).
Proof.
  intros Hwf. destruct (closeAll_registry settings now
    (filter P (Registry.listConnections (registry g))) g Hwf) as (_ & _ & ->).
  apply list_filter_ext_in. intros p Hp. rewrite list_elem_of_filter.
  unfold Registry.listConnections. tauto.
Qed.

(** A user is not placed on a node by the database. *)
Definition released (node u : string) (g : gateway DB) : Prop :=
  forall row, users (db_tables (database g)) !! u = Some row -> off_node node row.

Lemma releaseUserNode_released settings now u g :
  reliable DB -> NodeID settings <> "" -> u <> "" -> Registry.remaining u (registry g) = 0 ->
  released (NodeID settings) u (releaseUserNode settings now u g).
Proof.
  intros R Hn Hu H0. unfold released, releaseUserNode.
  rewrite decide_False by naive_solver. rewrite decide_False by lia. simpl.
  destruct (execute_reliable (ClearUserNodeID now u (NodeID settings)) (database g) R) as [_ E].
  unfold db_ClearUserNodeID. rewrite E. intros row. by apply ClearUserNodeID_off.
Qed.

Lemma releaseUserNode_keeps settings now u u' g :
  NodeID settings <> "" -> released (NodeID settings) u g ->
  released (NodeID settings) u (releaseUserNode settings now u' g).
Proof.
  intros Hn Hr. unfold releaseUserNode. case_decide; [done|]. case_decide; [done|].
  unfold released, db_ClearUserNodeID. simpl.
  destruct (execute _ _) as [d r] eqn:E. simpl.
  destruct (execute_spec _ _ _ _ E) as [[_ ->]|(text & _ & [->| ->])]; try done;
    intros row; by apply ClearUserNodeID_keeps_off.
Qed.

(** The connections of a user. *)
Definition connectionsOf (user : string) (g : gateway DB) : list positive :=
  filter (fun p => Registry.userOf (connections g) p = user)
         (Registry.listConnections (registry g)).

(** Closing all connections of a user releases the user: the last one to go
    finds none left. *)
Lemma closeAll_released settings now user g :
  Registry.wf (connections g) (registry g) -> reliable DB -> NodeID settings <> "" ->
  user <> "" -> connectionsOf user g <> [] ->
  released (NodeID settings) user (closeAll settings now (connectionsOf user g) g).
Proof.
  intros Hwf R Hn Hu Hne.
  pose proof (closeAll_filter settings now
    (fun p => Registry.userOf (connections g) p = user) g Hwf) as Hl.
  fold (connectionsOf user g) in Hl.
  destruct (connectionsOf user g) as [|q ps _] eqn:Eps using rev_ind; [done|].
  destruct (closeAll_registry settings now ps g Hwf) as (Hw & Hc & _).
  rewrite closeAll_snoc in Hl |- *.
  destruct (closeConnection_registry settings now q (closeAll settings now ps g)) as [Hr _].
  rewrite Hr, Hc in Hl. unfold closeConnection. rewrite Hc.
  assert (Registry.userOf (connections g) q = user) as ->.
  { assert (q ∈ ps ++ [q]) as Hq by set_solver. rewrite <- Eps in Hq.
    by apply list_elem_of_filter in Hq as [? _]. }
  apply releaseUserNode_released; [done..|]. simpl.
  apply (Registry.remaining_zero (connections g)); [by apply Registry.wf_delete|].
  rewrite Hl. by intros p [? _]%list_elem_of_filter.
Qed.


(** The scavenger closes exactly the connections that have moved no data
    for longer than the timeout. *)
Theorem ScavengeConnections_spec (settings : Settings) (now : time) (timeout : duration)
    (g : gateway DB) :
  Registry.wf (connections g) (registry g) -> 0 <= timeout < maxInt64 ->
  let g' := ScavengeConnections settings now timeout g in
  Registry.wf (connections g') (registry g') /\
  forall p, p ∈ Registry.connectionsList (registry g') <->
    p ∈ Registry.connectionsList (registry g) /\
    now - Conn.getUsedAt (connections g !!! p) <= timeout.
Proof.
  intros Hwf Ht. unfold ScavengeConnections.
  match goal with |- context [closeAll settings now ?l g] =>
    destruct (closeAll_registry settings now l g Hwf) as (Hw & Hc & _) end.
  split; [by rewrite Hc|]. intros p. rewrite closeAll_filter by done.
  rewrite list_elem_of_filter.
  pose proof (time_sub_gt now (Conn.getUsedAt (connections g !!! p)) timeout Ht).
  intuition lia.
Qed.

(** ** Heartbeats *)

Lemma releaseAll_registry settings later us g :
  registry (foldl (fun g u => releaseUserNode settings later u g) g us) = registry g.
Proof.
  revert g. induction us as [|u us IH]; intros g; [done|]. simpl. rewrite IH.
  apply releaseUserNode_registry.
Qed.

Lemma releaseAll_keeps settings later us u g :
  NodeID settings <> "" -> released (NodeID settings) u g ->
  released (NodeID settings) u (foldl (fun g u => releaseUserNode settings later u g) g us).
Proof.
  intros Hn. revert g. induction us as [|u' us IH]; intros g Hr; [done|]. simpl.
  apply IH. by apply releaseUserNode_keeps.
Qed.

Lemma releaseAll_released settings later us u g :
  reliable DB -> NodeID settings <> "" -> u <> "" -> u ∈ us ->
  Registry.remaining u (registry g) = 0 ->
  released (NodeID settings) u (foldl (fun g u => releaseUserNode settings later u g) g us).
Proof.
  intros R Hn Hu. revert g. induction us as [|u' us IH]; intros g Hin H0;
    [by apply elem_of_nil in Hin|]. simpl.
  apply elem_of_cons in Hin as [<-|Hin].
  - apply releaseAll_keeps; [done|]. by apply releaseUserNode_released.
  - apply IH; [done|]. by destruct (releaseUserNode_registry settings later u' g) as (-> & _).
Qed.


(** ** Freshness in Go and in SQL *)

Lemma isHeartbeatFresh_spec now x :
  zeroTime + onlineStaleThreshold <= now ->
  isHeartbeatFresh now x = true <-> x > time_add now (- onlineStaleThreshold).
Proof.
  intros Hnow. unfold isHeartbeatFresh, time_isZero, time_add.
  rewrite andb_true_iff, negb_true_iff, bool_decide_eq_false, bool_decide_eq_true.
  rewrite time_sub_lt by (vm_compute; split; [done|intros [=]]).
  split; [lia|]. intros Hx. split; [|lia]. intros ->. lia.
Qed.

Lemma sql_gt_fresh now x :
  zeroTime + onlineStaleThreshold <= now ->
  sql_gt x (time_add now (- onlineStaleThreshold)) = isHeartbeatFresh now (default zeroTime x).
Proof.
  intros Hnow. apply eq_true_iff_eq. rewrite isHeartbeatFresh_spec by done.
  destruct x as [x|]; simpl; [apply bool_decide_eq_true|].
  unfold time_add. split; [done|lia].
Qed.

(** C38: the freshness rule of the Go code and the SQL conditions agree: the
    users the online query selects are those [isUserOnline] accepts, and the
    nodes the heartbeat statement takes to be live are those [isNodeOnline]
    accepts. *)
Theorem online_agreement (now : time) (t : tables) :
  zeroTime + onlineStaleThreshold <= now ->
  let since := time_add now (- onlineStaleThreshold) in
  (forall user, user ∈ Models.ListOnlineUsers since t <->
     user ∈ Models.ListUsers t /\ isUserOnline now user = true) /\
  (forall id, liveNode since t id = true <->
     exists node, node ∈ ListNodes t /\ Node_ID node = id /\ isNodeOnline now node = true).
Proof.
  intros Hnow since. split.
  - intros user. unfold Models.ListOnlineUsers, Models.ListUsers. rewrite !elem_of_listUsers.
    unfold since, isUserOnline. setoid_rewrite sql_gt_fresh; [|done]. split.
    + intros (row & Hrow & Hf & Hu). split; [by eauto|]. rewrite Hu. exact Hf.
    + intros [(row & Hrow & _ & Hu) Hf]. exists row. split_and!; try done.
      rewrite Hu in Hf. exact Hf.
  - intros id. unfold liveNode, isNodeOnline. setoid_rewrite elem_of_ListNodes. split.
    + destruct (nodes t !! id) as [row|] eqn:E; [|done]. unfold since. rewrite sql_gt_fresh by done.
      intros Hl. exists (scanNode id row). split; [by eauto|]. done.
    + intros (node & (row & Hrow & Hn) & <- & Hl). rewrite Hrow. unfold since.
      rewrite sql_gt_fresh by done. rewrite Hn in Hl. exact Hl.
Qed.

(** ** Listings *)

Lemma map_ID_show f l : map ID (map (fun user => show "" (f user) user) l) = map ID l.
Proof. rewrite map_map. by apply map_ext. Qed.

Lemma online_connections (h : Registry.heap) r now u :
  Registry.wf h r -> u <> "" ->
  bool_decide (Z.of_nat (length (map (fun p => Conn.gatherStatus now (h !!! p))
    (filter (fun p => Registry.userOf h p = u) (Registry.connectionsList r)))) > 0) =
  bool_decide (u ∈ Registry.connectedUserIds r).
Proof.
  intros Hwf Hu. apply bool_decide_ext. rewrite length_map.
  rewrite (Registry.elem_of_connectedUserIds h) by done.
  rewrite <- (Registry.wf_index _ _ Hwf). fold (Registry.remaining u r).
  pose proof (Registry.remaining_zero h r u Hwf) as Hz.
  assert (0 <= Registry.remaining u r) by (unfold Registry.remaining; lia). split.
  - intros Hpos. split; [done|]. unfold Registry.remaining in Hpos.
    rewrite (Registry.wf_index _ _ Hwf) in Hpos.
    destruct (filter _ (Registry.connectionsList r)) as [|p ps] eqn:E; [done|].
    exists p. assert (Hp : p ∈ p :: ps) by set_solver. rewrite <- E in Hp.
    apply list_elem_of_filter in Hp. tauto.
  - intros (_ & p & Hp & Hpu). destruct (decide (Registry.remaining u r = 0)) as [Hr0|]; [|lia].
    by destruct (proj1 Hz Hr0 p).
Qed.

(** the user listing has every account once, without its status, and
    marks as online exactly those with a connection to this node or a fresh
    heartbeat; asking for one user gives the same answer, with the user's live
    connections. *)
Theorem listings_agree (now : time) (g : gateway DB) :
  Registry.wf (connections g) (registry g) -> reliable DB ->
  let t := db_tables (database g) in
  exists l, (ListUsers now g).2 = Ok l /\
    list_totalCount l = Z.of_nat (length (list_users l)) /\ NoDup (map ID (list_users l)) /\
    (forall id, id ∈ map ID (list_users l) <-> is_Some (users t !! id)) /\
    (forall user, user ∈ list_users l -> ID user <> "" ->
       Status user = "" /\
       (Online user = true <->
          (exists p, p ∈ Registry.connectionsList (registry g) /\
                     Registry.userOf (connections g) p = ID user) \/
          isUserOnline now user = true) /\
       exists resp, (GetUser now (ID user) g).2 = Ok (Some resp) /\
         Online (resp_user resp) = Online user /\
         length (resp_connections resp) =
           length (filter (fun p => Registry.userOf (connections g) p = ID user)
                          (Registry.connectionsList (registry g)))).
Proof.
  intros Hwf R t. unfold ListUsers.
  destruct (query_reliable Models.ListUsers (database g) R) as [E _].
  unfold db_ListUsers. destruct (query Models.ListUsers _) as [d r]. simpl in E. subst r.
  eexists. split; [reflexivity|]. simpl. rewrite map_ID_show. split_and!.
  - done.
  - apply NoDup_listUsers.
  - intros id. unfold Models.ListUsers. rewrite map_ID_listUsers, list_elem_of_fmap. split.
    + intros ([i row] & -> & [_ Hin%elem_of_map_to_list]%list_elem_of_filter). eauto.
    + intros [row Hrow]. exists (id, row). split; [done|]. apply list_elem_of_filter.
      split; [done|]. by apply elem_of_map_to_list.
  - intros user (u & -> & Hin)%list_elem_of_fmap Hne. simpl in *.
    apply elem_of_listUsers in Hin as (row & Hrow & _ & Hu). split; [done|]. split.
    + pose proof (Registry.elem_of_connectedUserIds _ _ (ID u) Hwf) as Hc.
      unfold isUserOnline. simpl.
      destruct (bool_decide (ID u ∈ Registry.connectedUserIds (registry g))) eqn:Eb; simpl;
        [apply bool_decide_eq_true in Eb|apply bool_decide_eq_false in Eb]; naive_solver.
    + unfold GetUser, db_GetUser.
      destruct (query_reliable (Models.GetUser (ID u)) (database g) R) as [E _].
      destruct (query (Models.GetUser (ID u)) _) as [d' r']. simpl in E. subst r'.
      unfold Models.GetUser. rewrite Hrow. simpl. eexists. split; [reflexivity|]. simpl.
      rewrite online_connections by done. split; [|by rewrite length_map].
      unfold isUserOnline. simpl. by rewrite Hu.
Qed.

(** ** Discovery *)

Lemma discoverPeers_registered (settingsA settingsB : Settings) (now registered_at : time)
    (online : bool) (gA gB : gateway DB) :
  reliable DB -> NodeID settingsB <> "" -> NodeSigner settingsA = true ->
  db_tables (database gA) =
    db_tables (database (registerNode settingsB registered_at online gB).1) ->
  exists ns, (discoverPeers settingsA now gA).2 = Ok ns /\
    (forall node, node ∈ ns -> Node_ID node = NodeID settingsB ->
       Node_Address node = NodeAddress settingsB /\
       Node_HostPublicKey node = default "" (HostPublicKey settingsB)) /\
    ((exists node, node ∈ ns /\ Node_ID node = NodeID settingsB) <->
     online = true /\ isHeartbeatFresh now registered_at = true /\ NodeAddress settingsB <> "" /\
     NodeID settingsB <> NodeID settingsA /\
     Peers.getPeer (NodeID settingsB) (peers gA) = None).
Proof.
  intros R HB HA Et. unfold discoverPeers, db_ListNodes. rewrite HA.
  destruct (query_reliable ListNodes (database gA) R) as [E _].
  destruct (query ListNodes _) as [d r]. simpl in E. subst r.
  eexists. split; [reflexivity|]. rewrite Et. clear Et.
  unfold registerNode. rewrite decide_False by done. unfold db_PutNode.
  match goal with |- context [db_exec ?op ?d] => destruct (R _ op d) as [E1 E2];
    destruct (db_exec op d) as [d' r'] end.
  simpl in E1, E2. subst r'. simpl. rewrite E2. clear E2.
  split; [|split].
  - intros node [_ (row & Hrow & Hn)%elem_of_ListNodes]%list_elem_of_filter Hid.
    rewrite Hid in Hrow, Hn. simpl in Hrow. rewrite lookup_insert_eq in Hrow. by simplify_eq.
  - intros (node & [[Hg Hp] (row & Hrow & Hn)%elem_of_ListNodes]%list_elem_of_filter & Hid).
    rewrite Hid in *. simpl in Hrow. rewrite lookup_insert_eq in Hrow. simplify_eq.
    apply Decidable.not_or in Hg as [Hg1 Hg2]. apply Decidable.not_or in Hg2 as [Hg2 Hg3].
    apply not_false_iff_true, andb_true_iff in Hg1. simpl in Hg1, Hg2. naive_solver.
  - intros (-> & Hf & Ha & Hne & Hp).
    eexists (scanNode (NodeID settingsB) _). split; [|done].
    apply list_elem_of_filter. split; [|apply elem_of_ListNodes; simpl; eexists;
      split; [by rewrite lookup_insert_eq|done]].
    simpl. split; [|done]. unfold isNodeOnline. simpl. rewrite Hf. naive_solver.
Qed.

(** nodes find each other through the database.  After a node has
    registered, another node with a signer dials it exactly when the
    registration says online and is fresh, it has an address, it is another
    node, and no peer connection to it exists; and the address and host key
    dialled are the registered ones. *)
Theorem registered_node_discovered (settingsA settingsB : Settings) (now registered_at : time)
    (online : bool) (gA gB : gateway DB) :
  reliable DB -> NodeID settingsB <> "" -> NodeSigner settingsA = true ->
  db_tables (database gA) =
    db_tables (database (registerNode settingsB registered_at online gB).1) ->
  exists ns, (discoverPeers settingsA now gA).2 = Ok ns /\
    (forall node, node ∈ ns -> Node_ID node = NodeID settingsB ->
       Node_Address node = NodeAddress settingsB /\
       Node_HostPublicKey node = default "" (HostPublicKey settingsB)) /\
    ((exists node, node ∈ ns /\ Node_ID node = NodeID settingsB) <->
     online = true /\ isHeartbeatFresh now registered_at = true /\ NodeAddress settingsB <> "" /\
     NodeID settingsB <> NodeID settingsA /\
     Peers.getPeer (NodeID settingsB) (peers gA) = None).
Proof. exact (discoverPeers_registered settingsA settingsB now registered_at online gA gB). Qed.
End gateway.

(** ** A node with two users connected *)

Definition example_row (u : string) (t : tables) : tables :=
  (UpsertUserOnConnect 5 u "10.0.0.8" zeroLocation "node-a" t).1.

Definition example_node : gateway tables :=
  {| database := example_row "bob" (example_row "alice" empty_tables);
     connections := Registry.example_heap; registry := Registry.example_registry;
     peerHeap := ∅; peers := ∅; routes := ∅ |}.

Lemma example_node_wf : Registry.wf (connections example_node) (registry example_node).
Proof. exact example_wf. Qed.


Lemma ScavengeConnections_spec_witness :
  Registry.connectionsList (registry (ScavengeConnections example_settings (3 * second) second
    example_node)) = [] /\
  (1%positive ∉ Registry.connectionsList (registry (ScavengeConnections example_settings
     (3 * second) second example_node))).
Proof.
  split; [vm_compute; reflexivity|].
  assert (Ht : 0 <= second < maxInt64) by (vm_compute; split; [intros [=]|reflexivity]).
  destruct (ScavengeConnections_spec example_settings (3 * second) second example_node
              example_node_wf Ht) as [_ S].
  intros Hin. apply S in Hin as [_ Hidle]. revert Hidle. vm_compute. intros Hidle. by apply Hidle.
Defined.

(** Bob disconnects while the heartbeat's update is in flight. *)
Definition example_disconnect (g : gateway tables) : gateway tables :=
  set_registry (Registry.deleteConnection (connections g) 2%positive (registry g)) g.


Lemma online_agreement_witness :
  let since := time_add (10 * second) (- onlineStaleThreshold) in
  map ID (Models.ListOnlineUsers since (database example_node)) = ["alice"; "bob"] /\
  (liveNode since (database example_node) "node-a" = true <->
     exists node, node ∈ ListNodes (database example_node) /\ Node_ID node = "node-a" /\
                  isNodeOnline (10 * second) node = true).
Proof.
  split; [vm_compute; reflexivity|].
  apply (online_agreement (10 * second) (database example_node)). vm_compute. intros [=].
Defined.

Lemma listings_agree_witness :
  exists l, (ListUsers 20 example_node).2 = Ok l /\ list_totalCount l = 2 /\
            NoDup (map ID (list_users l)).
Proof.
  destruct (listings_agree 20 example_node example_node_wf tables_reliable)
    as (l & Hl & _ & Hnd & _).
  exists l. split; [exact Hl|]. split; [|exact Hnd].
  assert (E : (ListUsers 20 example_node).2 = Ok (default (userListResponse [])
    (result_to_option (ListUsers 20 example_node).2))) by (vm_compute; reflexivity).
  rewrite E in Hl. injection Hl as <-. vm_compute. reflexivity.
Defined.

Definition example_settings_b : Settings :=
  {| Version := "1.0"; NodeID := "node-b"; NodeAddress := "10.0.0.2:22";
     HostPublicKey := Some "ssh-ed25519 AAAA"; NodeSigner := true; PostgresAddress := "";
     PeerDiscoveryInterval := 0; RevokeLoginFlags := true |}.

Lemma registered_node_discovered_witness :
  exists ns node, (discoverPeers example_settings (20 * second)
      (registerNode example_settings_b (10 * second) true example_node).1).2 = Ok ns /\
    node ∈ ns /\ Node_ID node = "node-b".
Proof.
  destruct (registered_node_discovered example_settings example_settings_b (20 * second)
    (10 * second) true (registerNode example_settings_b (10 * second) true example_node).1
    example_node tables_reliable ltac:(intros [=]) eq_refl eq_refl) as (ns & Hns & _ & Hd).
  destruct (proj2 Hd) as (node & Hin & Hid).
  { vm_compute. repeat split; intros [=]. }
  exists ns, node. auto.
Defined.
End Gateway.
