(* ===== verification/Render.v ===== *)
(** * The JSON of the program's values

    The values that the program answers with, as [encoding/json] sees them: the
    fields of the structs of [db/models.go], [gateway/connection.go] and
    [gateway/tunnel.go] under the names and options of their tags, and the maps
    of [gateway/gateway.go] and [gateway/service.go].  The offset of the
    location of a time, and [strconv]'s decimal text of a [float64], are
    parameters. *)

From stdpp Require Import base list strings gmap fin_maps option.
From Stdlib Require Import ZArith Lia.
From S2P Require Import Prelude GoStrings Json JsonText Times Models Connection Gateway.

#[local] Open Scope Z_scope.

Module Render.
Import Json JsonText.

(** ** Fields with [omitempty] *)

Definition omitString (k s : string) : list (string * json) :=
  if decide (s = "") then [] else [(k, JString s)].
Definition omitBool (k : string) (b : bool) : list (string * json) :=
  if b then [(k, JBool true)] else [].
Definition omitNumber (k : string) (n : Z) : list (string * json) :=
  if decide (n = 0) then [] else [(k, JNumber n)].
Definition omitArray (k : string) (vs : list json) : list (string * json) :=
  match vs with [] => [] | _ => [(k, JArray vs)] end.
Definition omitMap (k : string) (v : json) : list (string * json) :=
  match v with JNull | JObject [] => [] | _ => [(k, v)] end.
(** A [Status] writes its own text. *)
Definition omitRaw (k text : string) : list (string * json) :=
  if decide (text = "") then [] else [(k, JRaw text)].

(** [Status.Scan] of a column; [None] is NULL. *)
Definition statusScan (value : option string) : result string :=
  match value with Some raw => UnmarshalRaw raw | None => Ok "" end.

Fixpoint each {A B} (f : A -> result B) (xs : list A) : result (list B) :=
  match xs with
  | [] => Ok []
  | x :: rest => let! y := f x in let! ys := each f rest in Ok (y :: ys)
  end.

Section render.
Context (zone : time -> Z) (formatFloat : Z -> result string).

(** [omitempty] leaves out no struct, and so no [time.Time]. *)
Definition timeField (k : string) (t : time) : result (list (string * json)) :=
  let! text := Times.MarshalJSON (zone t) t in Ok [(k, JRaw text)].

Definition omitFloat (k : string) (bits : Z) : result (list (string * json)) :=
  if decide (bits = 0) then Ok []
  else let! text := formatFloat bits in Ok [(k, JRaw text)].

(** ** [db/models.go] *)

Definition locationJson (l : Location) : result json :=
  let! latitude := omitFloat "latitude" (Latitude l) in
  let! longitude := omitFloat "longitude" (Longitude l) in
  Ok (JStruct (latitude ++ longitude ++ omitString "timezone" (TimeZone l) ++
               omitString "country" (Country l) ++ omitString "city" (City l))).

(** [connections] is the last field, which is left out where the interface is
    nil. *)
Definition userJson (connections : list (string * json)) (u : User) : result json :=
  let! createdAt := timeField "createdAt" (CreatedAt u) in
  let! modifiedAt := timeField "modifiedAt" (ModifiedAt u) in
  let! location := locationJson (UserLocation u) in
  let! onlineAt := timeField "onlineAt" (OnlineAt u) in
  Ok (JStruct (omitString "id" (ID u) ++ createdAt ++ modifiedAt ++
               omitString "comment" (Comment u) ++ omitString "ip" (IP u) ++
               [("location", location)] ++ omitRaw "status" (Status u) ++
               omitBool "administrator" (Administrator u) ++ omitBool "disabled" (Disabled u) ++
               omitString "nodeId" (NodeID u) ++ onlineAt ++ omitBool "online" (Online u) ++
               connections)).

(** What is stored in the [jsonb] column of a location. *)
Definition locationValue (l : Location) : result string :=
  let! v := locationJson l in Json.Marshal v.

(** ** [gateway/tunnel.go] and [gateway/connection.go] *)

Definition tunnelJson (s : Conn.tunnelStatus) : json :=
  JStruct (omitString "type" (Conn.ts_Type s) ++ omitMap "metadata" (Conn.ts_Metadata s)).

Definition connectionJson (s : Conn.connectionStatus) : result json :=
  let! createdAt := timeField "createdAt" (Conn.cs_CreatedAt s) in
  let! usedAt := timeField "usedAt" (Conn.cs_UsedAt s) in
  Ok (JStruct (omitString "id" (Conn.cs_ID s) ++ createdAt ++ usedAt ++
               omitString "user" (Conn.cs_User s) ++
               omitBool "administrator" (Conn.cs_Administrator s) ++
               omitBool "permitPortForwarding" (Conn.cs_PermitPortForwarding s) ++
               omitString "address" (Conn.cs_Address s) ++
               omitArray "tunnels" (map tunnelJson (Conn.cs_Tunnels s)) ++
               omitNumber "tunnelsActive" (Conn.cs_TunnelsActive s) ++
               omitNumber "tunnelsOpened" (Conn.cs_TunnelsOpened s) ++
               omitNumber "tunnelsClosed" (Conn.cs_TunnelsClosed s) ++
               [("upTime", JNumber (Conn.cs_UpTime s)); ("idleTime", JNumber (Conn.cs_IdleTime s));
                ("bytesRead", JNumber (Conn.cs_BytesRead s));
                ("bytesWritten", JNumber (Conn.cs_BytesWritten s))] ++
               omitMap "services"
                 (JObject (map (fun '(host, ports) => (host, JArray (map JNumber ports)))
                               (map_to_list (Conn.cs_Services s)))))).

(** ** [gateway/gateway.go] *)

Definition userListJson (l : Gateway.userList) : result json :=
  let! users := each (userJson []) (Gateway.list_users l) in
  Ok (JObject [("users", JArray users);
               ("meta", JObject [("totalCount", JNumber (Gateway.list_totalCount l))])]).

(** A nil slice in the interface is not left out: it is [null]. *)
Definition userResponseJson (r : Gateway.userResponse) : result json :=
  let! connections := each connectionJson (Gateway.resp_connections r) in
  let! user := userJson [("connections", match connections with [] => JNull | _ => JArray connections end)]
                 (Gateway.resp_user r) in
  Ok (JObject [("user", user)]).

Definition statusJson (connections : list Conn.connectionStatus) : result json :=
  let! connections := each connectionJson connections in
  Ok (JObject [("connections", JArray connections)]).

(** ** [gateway/service.go] *)

Definition pongJson (version : string) (services : list string) (now : time) : result json :=
  let! now := Times.MarshalJSON (zone now) now in
  Ok (JObject [("version", JString version); ("services", JArray (map JString services));
               ("now", JRaw now)]).

(** ** What is stored is read back *)

(** A column that keeps the text of a reported status gives it back. *)
Lemma status_roundtrip text raw :
  UnmarshalRaw text = Ok raw -> statusScan (statusValue raw) = Ok raw.
Proof.
  intros E. unfold statusValue. rewrite decide_False by (by eapply UnmarshalRaw_nonempty).
  by eapply UnmarshalRaw_idem.
Qed.

(** ** What is rendered is sound, and not deep *)

(** A value that can be marshalled [n] levels deep. *)
Definition fine (n : nat) (v : json) : Prop := sound v = true /\ (depth v <= n)%nat.
Definition fineFields (n : nat) (fs : list (string * json)) : Prop :=
  Forall (fun f => fine n f.2) fs.

Lemma fine_mono n m v : fine n v -> (n <= m)%nat -> fine m v.
Proof. intros [Hs Hd] Hm. split; [done|lia]. Qed.

Lemma fineFields_mono n m fs : fineFields n fs -> (n <= m)%nat -> fineFields m fs.
Proof. intros Hf Hm. eapply Forall_impl; [|exact Hf]. intros f Hv. by apply (fine_mono n). Qed.

Lemma fineFields_app n fs gs : fineFields n fs -> fineFields n gs -> fineFields n (fs ++ gs).
Proof. intros Hf Hg. by apply Forall_app. Qed.

Lemma fineFields_one n k v : fine n v -> fineFields n [(k, v)].
Proof. intros Hv. constructor; [exact Hv|constructor]. Qed.

Lemma fine_members n fs :
  fineFields n fs ->
  forallb (fun '(_, v) => sound v) fs = true /\
  (foldr (fun '(_, v) m => Nat.max (depth v) m) 0 fs <= n)%nat.
Proof.
  induction 1 as [|[k v] fs [Hs Hd] _ [IHs IHd]]; [cbn; split; [done|lia]|].
  cbn [snd forallb foldr] in *. rewrite Hs, IHs. split; [done|lia].
Qed.

Lemma fine_struct n fs : fineFields n fs -> fine (S n) (JStruct fs).
Proof. intros Hf. destruct (fine_members n fs Hf). split; [done|cbn; lia]. Qed.
Lemma fine_object n fs : fineFields n fs -> fine (S n) (JObject fs).
Proof. intros Hf. destruct (fine_members n fs Hf). split; [done|cbn; lia]. Qed.

Lemma fine_array n vs : Forall (fine n) vs -> fine (S n) (JArray vs).
Proof.
  intros Hf. enough (forallb sound vs = true /\ (foldr (fun v m => Nat.max (depth v) m) 0 vs <= n)%nat)
    as [H1 H2] by (split; [done|cbn; lia]).
  induction Hf as [|v vs [Hs Hd] _ [IHs IHd]]; [cbn; split; [done|lia]|].
  cbn [forallb foldr]. rewrite Hs, IHs. split; [done|lia].
Qed.

Lemma fine_string n s : fine n (JString s).
Proof. split; [done|cbn; lia]. Qed.
Lemma fine_number n k : fine n (JNumber k).
Proof. split; [done|cbn; lia]. Qed.

Lemma omitString_fine n k s : fineFields n (omitString k s).
Proof. unfold omitString. case_decide; [constructor|]. apply fineFields_one, fine_string. Qed.
Lemma omitBool_fine n k b : fineFields n (omitBool k b).
Proof. destruct b; [|constructor]. apply fineFields_one. split; [done|cbn; lia]. Qed.
Lemma omitNumber_fine n k x : fineFields n (omitNumber k x).
Proof. unfold omitNumber. case_decide; [constructor|]. apply fineFields_one, fine_number. Qed.
Lemma omitMap_fine n k v : fine n v -> fineFields n (omitMap k v).
Proof.
  intros Hv. destruct v as [ | | | | |[|]| |]; try constructor; try done; constructor.
Qed.
Lemma omitArray_fine n k vs : Forall (fine n) vs -> fineFields (S n) (omitArray k vs).
Proof.
  intros Hv. destruct vs as [|v vs]; [constructor|]. by apply fineFields_one, fine_array.
Qed.
Lemma omitRaw_fine n k text :
  (text <> "" -> fine n (JRaw text)) -> fineFields n (omitRaw k text).
Proof. intros Hv. unfold omitRaw. case_decide; [constructor|]. apply fineFields_one. auto. Qed.

Lemma each_Forall {A B} (f : A -> result B) (P : B -> Prop) xs ys :
  each f xs = Ok ys -> Forall (fun x => forall y, f x = Ok y -> P y) xs -> Forall P ys.
Proof.
  revert ys. induction xs as [|x xs IH]; intros ys E Hf; [by injection E as <-|].
  cbn [each] in E. apply result_bind_Ok in E as (y & Hy & E).
  apply result_bind_Ok in E as (zs & Hzs & [= <-]). inversion_clear Hf. constructor; auto.
Qed.

Lemma fine_time n t text : Times.MarshalJSON (zone t) t = Ok text -> fine n (JRaw text).
Proof.
  intros E. destruct (Times.MarshalJSON_text _ _ _ E) as (d & _ & [Hv _] & Hn).
  split; [done|]. cbn [depth]. lia.
Qed.

Lemma timeField_fine n k t fs : timeField k t = Ok fs -> fineFields n fs.
Proof.
  intros E. apply result_bind_Ok in E as (text & Ht & [= <-]).
  by apply fineFields_one, (fine_time n t).
Qed.

(** Fields that are fine whatever they hold. *)
Create HintDb render.
#[local] Hint Resolve omitString_fine omitBool_fine omitNumber_fine omitMap_fine omitArray_fine
  omitRaw_fine timeField_fine fineFields_app fineFields_one fine_string fine_number : render.

(** A user that reported a status shows it. *)
Lemma userResponse_status r v :
  userResponseJson r = Ok v -> Status (Gateway.resp_user r) <> "" ->
  exists before after, content v =
    before ++ memberSymbols ("status", symbols (Status (Gateway.resp_user r))) ++ after.
Proof.
  intros E Hs. apply result_bind_Ok in E as (cs & _ & E). apply result_bind_Ok in E as (u & Hu & E).
  apply (inj Ok) in E as <-. unfold userJson in Hu. invert_binds Hu. apply (inj Ok) in Hu as <-.
  match goal with |- context [JStruct ?fs] =>
    destruct (content_field fs "status" (JRaw (Status (Gateway.resp_user r)))) as (b1 & a1 & Hc);
    [|destruct (content_only "user" (JStruct fs)) as (b2 & a2 & ->)] end.
  { unfold omitRaw. rewrite decide_False by done. set_solver. }
  rewrite Hc. exists (b2 ++ b1), (a1 ++ a2). by rewrite <- !app_assoc.
Qed.

(** [strconv.AppendFloat] writes a JSON number. *)
Hypothesis formatFloat_number : forall bits text,
  formatFloat bits = Ok text -> checkValid text = true /\ nesting text newScanner = 0%nat.

Lemma omitFloat_fine n k bits fs : omitFloat k bits = Ok fs -> fineFields n fs.
Proof.
  unfold omitFloat. case_decide; [intros [= <-]; constructor|]. intros E.
  apply result_bind_Ok in E as (text & Ht & [= <-]). apply fineFields_one.
  destruct (formatFloat_number _ _ Ht) as [Hv Hn]. split; [done|]. cbn [depth]. lia.
Qed.
#[local] Hint Resolve omitFloat_fine : render.

Lemma locationJson_fine l v : locationJson l = Ok v -> fine 1 v.
Proof.
  intros E. apply result_bind_Ok in E as (la & Hla & E).
  apply result_bind_Ok in E as (lo & Hlo & E). apply (inj Ok) in E as <-.
  apply fine_struct. eauto 10 with render.
Qed.

(** A user, whose status is valid and at most [n] levels deep. *)
Lemma userJson_fine n connections u v :
  userJson connections u = Ok v -> (1 <= n)%nat -> fineFields n connections ->
  (Status u <> "" -> fine n (JRaw (Status u))) -> fine (S n) v.
Proof.
  intros E Hn Hc Hs. apply result_bind_Ok in E as (f1 & H1 & E).
  apply result_bind_Ok in E as (f2 & H2 & E). apply result_bind_Ok in E as (l & Hl & E).
  apply result_bind_Ok in E as (f3 & H3 & E). apply (inj Ok) in E as <-.
  pose proof (fine_mono 1 n l (locationJson_fine _ _ Hl) Hn) as Hl'.
  apply fine_struct. repeat (apply fineFields_app); eauto 3 with render.
Qed.

(** A connection, the metadata of whose tunnels are at most [n] levels deep. *)
Definition fineStatus (n : nat) (s : Conn.connectionStatus) : Prop :=
  Forall (fun t => fine n (Conn.ts_Metadata t)) (Conn.cs_Tunnels s).

Lemma connectionJson_fine n s v :
  connectionJson s = Ok v -> (1 <= n)%nat -> fineStatus n s -> fine (S (S (S n))) v.
Proof.
  intros E Hn Hs. apply result_bind_Ok in E as (f1 & H1 & E).
  apply result_bind_Ok in E as (f2 & H2 & E). apply (inj Ok) in E as <-.
  apply fine_struct. repeat (apply fineFields_app); eauto 3 with render.
  - apply omitArray_fine, Forall_map. eapply Forall_impl; [|exact Hs]. intros t Ht.
    apply fine_struct, fineFields_app; [apply omitString_fine|by apply omitMap_fine].
  - repeat (constructor; [apply fine_number|]). constructor.
  - apply omitMap_fine. apply (fine_mono 2); [|lia]. apply fine_object, Forall_map, Forall_true.
    intros [host ports]. cbn. apply fine_array, Forall_map, Forall_true. intros p. apply fine_number.
Qed.

(** Listings, which show no status. *)
Lemma userListJson_fine l v :
  userListJson l = Ok v -> Forall (fun u => Status u = "") (Gateway.list_users l) -> fine 4 v.
Proof.
  intros E Hl. apply result_bind_Ok in E as (us & Hus & [= <-]). apply fine_object.
  constructor; [|constructor; [|constructor]]; cbn [snd].
  - apply fine_array. eapply (each_Forall _ (fine 2)); [exact Hus|].
    eapply Forall_impl; [|exact Hl]. intros u Hu w Hw.
    apply (userJson_fine 1 [] u w Hw); [done|constructor|done].
  - apply (fine_mono 1); [|lia]. by apply fine_object, fineFields_one, fine_number.
Qed.

Lemma connections_fine n css vs :
  each connectionJson css = Ok vs -> (1 <= n)%nat -> Forall (fineStatus n) css ->
  Forall (fine (n + 3)) vs.
Proof.
  intros E Hn Hs. eapply each_Forall; [exact E|]. eapply Forall_impl; [|exact Hs].
  intros s Hs' v Hv. replace (n + 3)%nat with (S (S (S n))) by lia. by apply (connectionJson_fine n s).
Qed.

Lemma statusJson_fine n css v :
  statusJson css = Ok v -> (1 <= n)%nat -> Forall (fineStatus n) css -> fine (n + 5) v.
Proof.
  intros E Hn Hs. apply result_bind_Ok in E as (vs & Hvs & [= <-]).
  replace (n + 5)%nat with (S (S (n + 3))) by lia.
  by apply fine_object, fineFields_one, fine_array, (connections_fine n css).
Qed.

(** A user with the connections and the status, which is [m] levels deep. *)
Lemma userResponseJson_fine n m r v :
  userResponseJson r = Ok v -> (1 <= n)%nat -> (n + 4 <= m)%nat ->
  Forall (fineStatus n) (Gateway.resp_connections r) ->
  (Status (Gateway.resp_user r) <> "" -> fine m (JRaw (Status (Gateway.resp_user r)))) ->
  fine (S (S m)) v.
Proof.
  intros E Hn Hm Hc Hs. apply result_bind_Ok in E as (vs & Hvs & E).
  apply result_bind_Ok in E as (u & Hu & [= <-]). apply fine_object, fineFields_one.
  apply (userJson_fine m _ _ _ Hu); [lia| |done]. apply fineFields_one.
  pose proof (connections_fine n _ vs Hvs Hn Hc) as Hf. destruct vs as [|w vs]; [split; [done|cbn; lia]|].
  apply (fine_mono (S (n + 3))); [by apply fine_array|lia].
Qed.

Lemma pongJson_fine version services now v : pongJson version services now = Ok v -> fine 2 v.
Proof.
  intros E. apply result_bind_Ok in E as (text & Ht & [= <-]). apply fine_object.
  constructor; [apply fine_string|]. constructor; [|constructor; [by apply (fine_time 1 now)|constructor]].
  apply fine_array, Forall_map, Forall_true. intros s. apply fine_string.
Qed.
End render.

(** ** Fine values are marshalled *)

(** A report that fits into the answer about a user. *)
Definition shown (text : string) : Prop :=
  checkValid text = true /\ Z.of_nat (nesting text newScanner) + 2 <= maxNestingDepth.

Lemma shown_fine text :
  (text <> "" -> shown text) ->
  exists m, (6 <= m)%nat /\ Z.of_nat (S (S m)) <= maxNestingDepth /\ (text <> "" -> fine m (JRaw text)).
Proof.
  intros Ht. destruct (decide (text = "")) as [->|Hne]; [by exists 6%nat|].
  destruct (Ht Hne) as [Hv Hn]. exists (Nat.max 6 (nesting text newScanner)).
  unfold maxNestingDepth in *. split_and!; [lia|lia|]. intros _. split; [done|]. cbn [depth]. lia.
Qed.

Lemma fine_Marshal n v :
  fine n v -> Z.of_nat n <= maxNestingDepth -> exists t, Marshal v = Ok t /\ renders t v.
Proof. intros [Hs Hd] Hn. apply Marshal_renders; [done|lia]. Qed.

Lemma fine_MarshalIndent n v :
  fine n v -> Z.of_nat n <= maxNestingDepth -> exists t, MarshalIndent v = Ok t /\ renders t v.
Proof. intros [Hs Hd] Hn. apply MarshalIndent_renders; [done|lia]. Qed.
End Render.
