(* ===== verification/Nodes.v ===== *)
(** * The life of a node, [Open], [runPeers] and [Close]

    [gateway/gateway.go] and [gateway/peer.go]: what a gateway is when it
    starts, one turn of the loop that keeps its registration fresh and its
    peers alive, and what [Close] leaves behind.  [Close] waits for the
    goroutines of the connections and peers it closes; here their deferred
    clean-up runs in its place ([Lifecycle] has the waiting). *)

From stdpp Require Import base list strings gmap fin_maps option sets.
From Stdlib Require Import ZArith Lia.
From S2P Require Import Prelude TtlCache RouteCache Usage Models Database Auth Connection.
From S2P Require Import Registry Peers Routing Gateway.

#[local] Open Scope Z_scope.

Module Nodes.
Import Routing Gateway.

Section nodes.
Context {DB : Type} `{Executor DB}.

(** ** Open *)

(** The goroutines [Open] starts. *)
Inductive task := RunPeers | RunOnlineHeartbeat.

Definition newGateway (d : DB) : gateway DB :=
  {| database := d; connections := ∅; registry := Registry.emptyRegistry; peerHeap := ∅;
     peers := ∅; routes := RouteCache.newRouteCache |}.

Definition Open (settings : Settings) (now : time) (d : DB)
    : DB * result (gateway DB * list task) :=
  let self := newGateway d in
  if decide (NodeID settings <> "") then
    match registerNode settings now true self with
    | (self, Some err) => (database self, Err err)
    | (self, None) => (database self, Ok (self, [RunPeers; RunOnlineHeartbeat]))
    end
  else (database self, Ok (self, [RunOnlineHeartbeat])).

(** ** runPeers *)

Definition discoveryInterval (settings : Settings) : duration :=
  if decide (PeerDiscoveryInterval settings <= 0) then 15 * second
  else PeerDiscoveryInterval settings.

Definition set_peers (h : Peers.heap) (ps : Peers.peers) (g : gateway DB) : gateway DB :=
  {| database := database g; connections := connections g; registry := registry g;
     peerHeap := h; peers := ps; routes := routes g |}.

(** [self.removePeer(peer)] and [peer.close()]. *)
Definition dropPeer (p : positive) (g : gateway DB) : gateway DB :=
  set_peers (Peers.close p (peerHeap g)) (Peers.removePeer (peerHeap g) p (peers g)) g.

(** The peers whose [ping] fails are evicted. *)
Definition evictPeers (ping : positive -> option error) (ps : list positive) (g : gateway DB)
    : gateway DB :=
  foldl (fun g p => match ping p with None => g | Some _ => dropPeer p g end) g ps.

(** [ping], given the reply to its request: [None] as long as there is none,
    and else the error.  Whether the peer accepted the request does not
    matter. *)
Definition ping (reply : option (result bool)) : option (option error) :=
  match reply with
  | None => None
  | Some (Ok _) => Some None
  | Some (Err err) => Some (Some err)
  end.

(** The loop over the peers, and whether it got through: a [ping] without a
    reply waits for it. *)
Fixpoint pingPeers (reply : positive -> option (result bool)) (ps : list positive) (g : gateway DB)
    : gateway DB * bool :=
  match ps with
  | [] => (g, true)
  | p :: rest =>
      match ping (reply p) with
      | None => (g, false)
      | Some None => pingPeers reply rest g
      | Some (Some _) => pingPeers reply rest (dropPeer p g)
      end
  end.

(** A turn of the loop: the gateway, the nodes that are dialled, and whether
    the turn ends; the errors of [registerNode] and [discoverPeers] are only
    logged.  The clock is read by both. *)
Definition runPeersTurn (settings : Settings) (now later : time)
    (reply : positive -> option (result bool)) (g : gateway DB) : gateway DB * list Node * bool :=
  let (g, _) := registerNode settings now true g in
  let (g, dialled) := discoverPeers settings later g in
  let (g, returned) := pingPeers reply (Peers.listPeers (peers g)) g in
  (g, default [] (result_to_option dialled), returned).

(** What happens at a tick: what others did to the gateway since the last turn,
    the readings of the clock, and the replies of the peers. *)
Record tick := {
  tick_others : gateway DB -> gateway DB;
  tick_now : time;
  tick_later : time;
  tick_reply : positive -> option (result bool);
}.

Fixpoint runTicks (settings : Settings) (ticks : list tick) (g : gateway DB) : gateway DB :=
  match ticks with
  | [] => g
  | t :: rest =>
      match runPeersTurn settings (tick_now t) (tick_later t) (tick_reply t) (tick_others t g) with
      | (g, _, true) => runTicks settings rest g
      | (g, _, false) => g
      end
  end.

(** [runPeers], for the ticks until it stops. *)
Definition runPeers (settings : Settings) (start : time) (ticks : list tick) (g : gateway DB)
    : gateway DB := runTicks settings ticks (discoverPeers settings start g).1.

(** ** Close *)

Definition Close (settings : Settings) (now : time) (g : gateway DB) : gateway DB :=
  let g := closeAll settings now (Registry.listConnections (registry g)) g in
  let g := foldl (fun g p => dropPeer p g) g (Peers.listPeers (peers g)) in
  (registerNode settings now false g).1.

(** ** Dropping peers *)

(** Every registered peer is filed under the id of its node ([inv_filed] of
    [Peers.inv]). *)
Definition filed (g : gateway DB) : Prop :=
  forall node p, peers g !! node = Some p ->
    is_Some (peerHeap g !! p) /\ Peers.nodeId (peerHeap g !!! p) = node.

Lemma dropPeer_spec p g :
  filed g -> is_Some (peerHeap g !! p) ->
  filed (dropPeer p g)
  /\ (forall node q, peers (dropPeer p g) !! node = Some q <-> peers g !! node = Some q /\ q <> p)
  /\ (forall q, Peers.closed (peerHeap (dropPeer p g) !!! q) = true <->
        Peers.closed (peerHeap g !!! q) = true \/ q = p)
  /\ (forall q, is_Some (peerHeap (dropPeer p g) !! q) <-> is_Some (peerHeap g !! q)).
Proof.
  intros Hf Hp. unfold dropPeer. simpl.
  assert (Hpeers : forall node q, Peers.removePeer (peerHeap g) p (peers g) !! node = Some q <->
    peers g !! node = Some q /\ q <> p).
  { intros node q. rewrite Peers.removePeer_lookup. split; intros [Hq Hn]; (split; [done|]).
    - intros ->. apply Hn. split; [done|]. by apply Hf.
    - by intros [-> _]. }
  split_and!; [|done| |].
  - intros node q [Hq _]%Hpeers. simpl. rewrite Peers.close_is_Some, Peers.close_lookup_total by done.
    by apply Hf.
  - intros q. rewrite Peers.close_lookup_total by done. simpl. case_decide; naive_solver.
  - intros q. apply Peers.close_is_Some.
Qed.

Definition evicted (ping : positive -> option error) (ps : list positive) (q : positive) : Prop :=
  q ∈ ps /\ is_Some (ping q).

(** What is kept of the rest of the gateway. *)
Definition same_rest (g g' : gateway DB) : Prop :=
  database g' = database g /\ connections g' = connections g /\ registry g' = registry g.

Lemma evictPeers_spec ping ps g :
  filed g -> (forall p, p ∈ ps -> is_Some (peerHeap g !! p)) ->
  filed (evictPeers ping ps g)
  /\ (forall node q, peers (evictPeers ping ps g) !! node = Some q <->
        peers g !! node = Some q /\ ~ evicted ping ps q)
  /\ (forall q, Peers.closed (peerHeap (evictPeers ping ps g) !!! q) = true <->
        Peers.closed (peerHeap g !!! q) = true \/ evicted ping ps q)
  /\ same_rest g (evictPeers ping ps g).
Proof.
  unfold evicted. revert g. induction ps as [|p ps IH]; intros g Hf Hps; simpl.
  { assert (Hnil : forall q, ~ (q ∈ [] /\ is_Some (ping q))) by (intros q [?%elem_of_nil _]; done).
    split_and!; [done|intros node q|intros q|done]; split.
    - intros Hq. split; [done|apply Hnil].
    - by intros [? _].
    - by left.
    - intros [?|[]%Hnil]. done. }
  assert (Hp : is_Some (peerHeap g !! p)) by (apply Hps; set_solver).
  destruct (ping p) as [e|] eqn:Ep.
  - destruct (dropPeer_spec p g Hf Hp) as (Hf1 & Hp1 & Hc1 & Hh1).
    destruct (IH (dropPeer p g) Hf1) as (Hf2 & Hp2 & Hc2 & Hr2).
    { intros q Hq. apply Hh1, Hps. set_solver. }
    split_and!; [done|..].
    + intros node q. rewrite Hp2, Hp1, elem_of_cons. split; [|naive_solver].
      intros [[Hq Hne] Hn]. naive_solver.
    + intros q. rewrite Hc2, Hc1, elem_of_cons. split; [|naive_solver].
      intros [[Hq| ->]|[Hq Hs]]; [by left|right; split; [by left|by rewrite Ep]|naive_solver].
    + done.
  - destruct (IH g Hf) as (Hf2 & Hp2 & Hc2 & Hr2); [intros q Hq; apply Hps; set_solver|].
    assert (Hn : forall q, q ∈ p :: ps /\ is_Some (ping q) <-> q ∈ ps /\ is_Some (ping q)).
    { intros q. rewrite elem_of_cons. split; [|naive_solver].
      intros [[-> |Hq] Hs]; [rewrite Ep in Hs; by destruct Hs|done]. }
    split_and!; [done|..|done].
    + intros node q. by rewrite Hp2, Hn.
    + intros q. by rewrite Hc2, Hn.
Qed.

Lemma elem_of_listPeers p ps : p ∈ Peers.listPeers ps <-> exists node, ps !! node = Some p.
Proof.
  unfold Peers.listPeers. rewrite list_elem_of_fmap. split.
  - intros ([node q] & -> & Hin%elem_of_map_to_list). eauto.
  - intros [node Hin]. exists (node, p). split; [done|]. by apply elem_of_map_to_list.
Qed.

Lemma listPeers_heap g p : filed g -> p ∈ Peers.listPeers (peers g) -> is_Some (peerHeap g !! p).
Proof. intros Hf [node Hn]%elem_of_listPeers. by apply Hf in Hn as [? _]. Qed.

(** ** Registration *)

Lemma registerNode_rest settings now online g :
  connections (registerNode settings now online g).1 = connections g
  /\ registry (registerNode settings now online g).1 = registry g
  /\ peers (registerNode settings now online g).1 = peers g
  /\ peerHeap (registerNode settings now online g).1 = peerHeap g.
Proof. unfold registerNode. case_decide; [done|]. by destruct (db_PutNode _ _ _ _) as [d []]. Qed.

(** The row of this node after a registration. *)
Lemma registerNode_row settings now online g :
  reliable DB -> NodeID settings <> "" ->
  let t := db_tables (database (registerNode settings now online g).1) in
  users t = users (db_tables (database g))
  /\ exists row, nodes t !! NodeID settings = Some row
     /\ Node_Online (scanNode (NodeID settings) row) = online
     /\ Node_OnlineAt (scanNode (NodeID settings) row) = now
     /\ Node_Address (scanNode (NodeID settings) row) = NodeAddress settings.
Proof.
  intros R Hn. unfold registerNode. rewrite decide_False by done. unfold db_PutNode.
  match goal with |- context [db_exec ?op ?d] => destruct (R _ op d) as [E1 E2];
    destruct (db_exec op d) as [d' r'] end.
  simpl in E1, E2. subst r'. simpl. rewrite E2. simpl. split; [done|].
  eexists. rewrite lookup_insert_eq. split; [reflexivity|]. done.
Qed.

(** ** Everyone is released *)

Lemma closeAll_releases settings now u ps g :
  Registry.wf (connections g) (registry g) -> reliable DB -> NodeID settings <> "" -> u <> "" ->
  u ∈ Registry.connectedUserIds (registry g) ->
  (forall p, p ∈ Registry.connectionsList (registry g) ->
     Registry.userOf (connections g) p = u -> p ∈ ps) ->
  released (NodeID settings) u (closeAll settings now ps g).
Proof.
  intros Hwf R Hn Hu Hc. apply (Registry.elem_of_connectedUserIds _ _ _ Hwf) in Hc as (_ & p0 & Hp0 & Hu0).
  induction ps as [|q ps IH] using rev_ind; intros Hall.
  { by specialize (Hall p0 Hp0 Hu0) as ?%elem_of_nil. }
  rewrite closeAll_snoc. destruct (closeAll_registry settings now ps g Hwf) as (Hw & Hcn & Hl).
  set (g1 := closeAll settings now ps g) in *. unfold closeConnection.
  pose proof (Registry.remaining_zero (connections g) (registry g1) u Hw) as Hz.
  destruct (decide (Registry.remaining u (registry g1) = 0)) as [H0|H0].
  - apply releaseUserNode_keeps; [done|]. apply IH. intros p Hp Hpu.
    destruct (decide (p ∈ ps)) as [|Hps]; [done|]. exfalso. apply (proj1 Hz H0 p); [|done].
    rewrite Hl. by apply list_elem_of_filter.
  - assert (Hq : forall p, p ∈ Registry.connectionsList (registry g1) ->
      Registry.userOf (connections g) p = u -> p = q).
    { intros p Hp Hpu. rewrite Hl in Hp. apply list_elem_of_filter in Hp as [Hps Hp].
      specialize (Hall p Hp Hpu). apply elem_of_app in Hall as [?|?%list_elem_of_singleton]; done. }
    assert (Hqu : Registry.userOf (connections g) q = u).
    { destruct (decide (Registry.userOf (connections g) q = u)) as [|Hne]; [done|]. exfalso.
      apply H0, Hz. intros p Hp Hpu. apply Hne. by rewrite <- (Hq p Hp Hpu). }
    rewrite Hcn, Hqu. apply releaseUserNode_released; [done..|]. simpl.
    apply (Registry.remaining_zero (connections g)); [by apply Registry.wf_delete|].
    simpl. intros p [Hne Hp]%list_elem_of_filter Hpu. by apply Hne, Hq.
Qed.

Lemma closeAll_peers settings now ps g :
  peers (closeAll settings now ps g) = peers g
  /\ peerHeap (closeAll settings now ps g) = peerHeap g.
Proof.
  induction ps as [|p ps [IH1 IH2]] using rev_ind; [done|]. rewrite closeAll_snoc.
  unfold closeConnection, releaseUserNode. by repeat case_decide.
Qed.


(** ** Theorems about the loop *)

Lemma discoverPeers_peers settings now g :
  peers (discoverPeers settings now g).1 = peers g
  /\ peerHeap (discoverPeers settings now g).1 = peerHeap g.
Proof.
  unfold discoverPeers. destruct (NodeSigner settings); [|done].
  by destruct (db_ListNodes (database g)) as [d []].
Qed.

(** The error of a ping that returned. *)
Definition pingError (reply : positive -> option (result bool)) (p : positive) : option error :=
  default None (ping (reply p)).

Lemma pingPeers_answered reply ps g :
  (forall p, p ∈ ps -> is_Some (reply p)) ->
  pingPeers reply ps g = (evictPeers (pingError reply) ps g, true).
Proof.
  revert g. induction ps as [|p ps IH]; intros g Ha; [done|]. unfold pingError. simpl.
  destruct (Ha p) as [[b|e] E]; [set_solver| |]; rewrite E; simpl; apply IH; set_solver.
Qed.

Lemma pingPeers_silent reply p ps g : p ∈ ps -> reply p = None -> (pingPeers reply ps g).2 = false.
Proof.
  intros Hp E. revert g. induction ps as [|q ps IH]; intros g; [by apply elem_of_nil in Hp|].
  apply elem_of_cons in Hp as [<-|Hp]; simpl; [by rewrite E|].
  destruct (ping (reply q)) as [[]|]; [by apply IH..|done].
Qed.

Lemma pingPeers_database reply ps g : database (pingPeers reply ps g).1 = database g.
Proof.
  revert g. induction ps as [|q ps IH]; intros g; [done|]. simpl.
  destruct (ping (reply q)) as [[]|]; [by rewrite IH..|done].
Qed.

Lemma discoverPeers_tables settings now g : reliable DB ->
  db_tables (database (discoverPeers settings now g).1) = db_tables (database g).
Proof.
  intros R. unfold discoverPeers. destruct (NodeSigner settings); [|done]. unfold db_ListNodes.
  destruct (query_reliable ListNodes (database g) R) as [_ E].
  by destruct (query ListNodes (database g)) as [d []].
Qed.

(** The tables after a turn, also one that does not end. *)
Lemma runPeersTurn_tables settings now later reply g :
  reliable DB ->
  db_tables (database (runPeersTurn settings now later reply g).1.1) =
  db_tables (database (registerNode settings now true g).1).
Proof.
  intros R. unfold runPeersTurn. destruct (registerNode settings now true g) as [g1 e]. simpl.
  rewrite <- (discoverPeers_tables settings later g1 R).
  destruct (discoverPeers settings later g1) as [g2 r]. simpl.
  rewrite <- (pingPeers_database reply (Peers.listPeers (peers g2)) g2).
  by destruct (pingPeers _ _ _).
Qed.

(** The peers after a turn whose pings are answered. *)
Lemma runPeersTurn_state settings now later reply g (ping := pingError reply) :
  filed g -> (forall node p, peers g !! node = Some p -> is_Some (reply p)) ->
  (runPeersTurn settings now later reply g).2 = true
  /\ let g' := (runPeersTurn settings now later reply g).1.1 in
  (forall node p, peers g' !! node = Some p <-> peers g !! node = Some p /\ ping p = None)
  /\ (forall node p, peers g !! node = Some p -> is_Some (ping p) ->
        Peers.closed (peerHeap g' !!! p) = true).
Proof.
  intros Hf Ha. unfold runPeersTurn.
  destruct (registerNode_rest settings now true g) as (_ & _ & Hp & Hh).
  destruct (registerNode settings now true g) as [g1 e]. simpl in Hp, Hh |- *.
  destruct (discoverPeers_peers settings later g1) as [Hp1 Hh1].
  destruct (discoverPeers settings later g1) as [g2 r]. simpl in *.
  assert (Hf2 : filed g2) by (unfold filed; by rewrite Hp1, Hh1, Hp, Hh).
  rewrite pingPeers_answered
    by (intros p [node Hn]%elem_of_listPeers; rewrite Hp1, Hp in Hn; by eapply Ha).
  destruct (evictPeers_spec ping (Peers.listPeers (peers g2)) g2 Hf2)
    as (_ & Hpeers & Hclosed & _); [intros p; by apply listPeers_heap|].
  split; [done|]. simpl. subst ping. rewrite Hp1, Hp in Hpeers, Hclosed |- *.
  assert (Hl : forall node p, peers g !! node = Some p -> p ∈ Peers.listPeers (peers g))
    by (intros node p Hnp; apply elem_of_listPeers; eauto).
  unfold evicted in *. split.
  - intros node p. rewrite Hpeers. split.
    + intros [Hnp Hn]. split; [done|]. apply eq_None_not_Some. intros Hs. apply Hn. eauto.
    + intros [Hnp E]. split; [done|]. rewrite E. by intros [_ []].
  - intros node p Hnp Hs. apply Hclosed. right. split; [by eapply Hl|done].
Qed.

(** A turn with a peer that does not answer. *)
Lemma runPeersTurn_silent settings now later reply g node p :
  peers g !! node = Some p -> reply p = None ->
  (runPeersTurn settings now later reply g).2 = false.
Proof.
  intros Hnp Hs. unfold runPeersTurn.
  destruct (registerNode_rest settings now true g) as (_ & _ & Hp & _).
  destruct (registerNode settings now true g) as [g1 e]. simpl in Hp |- *.
  destruct (discoverPeers_peers settings later g1) as [Hp1 _].
  destruct (discoverPeers settings later g1) as [g2 r]. simpl in *.
  pose proof (pingPeers_silent reply p (Peers.listPeers (peers g2)) g2) as H2.
  destruct (pingPeers _ _ _) as [g3 b]. apply H2; [|done].
  apply elem_of_listPeers. exists node. by rewrite Hp1, Hp.
Qed.

(** Ticks whose pings are answered are all served. *)
Lemma runTicks_app settings before after g :
  Forall (fun t => forall p, is_Some (tick_reply t p)) before ->
  runTicks settings (before ++ after) g = runTicks settings after (runTicks settings before g).
Proof.
  intros Hb. revert g. induction Hb as [|t before Ht Hb IH]; intros g; [done|]. simpl.
  unfold runPeersTurn. destruct (registerNode _ _ _ _) as [g1 e].
  destruct (discoverPeers _ _ g1) as [g2 r]. rewrite pingPeers_answered by auto. apply IH.
Qed.

(** Only nodes that are online are dialled. *)
Lemma discoverPeers_online settings now g dialled id row :
  reliable DB -> (discoverPeers settings now g).2 = Ok dialled ->
  nodes (db_tables (database g)) !! id = Some row ->
  isNodeOnline now (scanNode id row) = false -> id ∉ map Node_ID dialled.
Proof.
  intros R. unfold discoverPeers. destruct (NodeSigner settings).
  - unfold db_ListNodes. destruct (query_reliable ListNodes (database g) R) as [E _].
    destruct (query ListNodes (database g)) as [d r]. simpl in E |- *. subst r.
    intros [= <-] Hrow Hoff Hin. apply list_elem_of_fmap in Hin as (x & -> & Hx).
    apply list_elem_of_filter in Hx as [Hx Hl]. apply elem_of_ListNodes in Hl as (row' & Hr' & Ex).
    rewrite Hr' in Hrow. injection Hrow as ->. rewrite <- Ex in Hoff. tauto.
  - intros [= <-] _ _ []%elem_of_nil.
Qed.

(** The heartbeat that a turn writes. *)
Lemma runPeersTurn_heartbeat settings now later reply g :
  reliable DB -> NodeID settings <> "" ->
  exists row,
    nodes (db_tables (database (runPeersTurn settings now later reply g).1.1)) !! NodeID settings =
      Some row
    /\ forall t, now <> zeroTime ->
         isNodeOnline t (scanNode (NodeID settings) row) =
         bool_decide (time_sub t now < onlineStaleThreshold).
Proof.
  intros R Hn. rewrite runPeersTurn_tables by done.
  destruct (registerNode_row settings now true g R Hn) as (_ & row & Hrow & Hon & Hat & _).
  exists row. split; [done|]. intros t Hz. unfold isNodeOnline, isHeartbeatFresh.
  rewrite Hon, Hat. unfold time_isZero. by rewrite bool_decide_false.
Qed.

(** C21: The loop of [runPeers] keeps a node in the mesh.  If every peer
    answers its ping, or the connection to it fails, a turn ends; after it the
    node counts as online for everyone until the heartbeat is stale; the peers
    that answered are kept, the others are closed and forgotten; and a node
    whose peer was evicted is dialled again at the next discovery, if it is
    still registered, online and reachable. *)
Theorem runPeersTurn_spec (settings : Settings) (now later : time)
    (reply : positive -> option (result bool)) (g : gateway DB) :
  filed g -> reliable DB -> NodeID settings <> "" ->
  (forall node p, peers g !! node = Some p -> is_Some (reply p)) ->
  let ping := pingError reply in
  let g' := (runPeersTurn settings now later reply g).1.1 in
  (runPeersTurn settings now later reply g).2 = true
  /\ (exists row, nodes (db_tables (database g')) !! NodeID settings = Some row
     /\ forall t, now <> zeroTime -> t - now < onlineStaleThreshold ->
          isNodeOnline t (scanNode (NodeID settings) row) = true)
  /\ (forall node p, peers g' !! node = Some p <-> peers g !! node = Some p /\ ping p = None)
  /\ (forall node p row g2 t, peers g !! node = Some p -> is_Some (ping p) ->
       NodeSigner settings = true -> node <> NodeID settings ->
       peers g2 = peers g' -> db_tables (database g2) = db_tables (database g') ->
       nodes (db_tables (database g')) !! node = Some row ->
       isNodeOnline t (scanNode node row) = true -> Node_Address (scanNode node row) <> "" ->
       Peers.closed (peerHeap g' !!! p) = true
       /\ exists dialled, (discoverPeers settings t g2).2 = Ok dialled
          /\ scanNode node row ∈ dialled).
Proof.
  intros Hf R Hn Hre ping g'.
  destruct (runPeersTurn_state settings now later reply g Hf Hre) as (Hr & Hp & Hc).
  fold g' ping in Hp, Hc. split_and!; [done| |done|].
  - destruct (runPeersTurn_heartbeat settings now later reply g R Hn) as (row & Hrow & Hon).
    exists row. split; [done|]. intros t Hz Hlt. rewrite Hon by done.
    apply bool_decide_eq_true, time_sub_lt; [|done]. by vm_compute.
  - intros node p row g2 t Hnp Hs Hsg Hne Hp2 Ht2 Hrow Hon Ha. split; [by eapply Hc|].
    unfold discoverPeers. rewrite Hsg. unfold db_ListNodes.
    destruct (query_reliable ListNodes (database g2) R) as [E _].
    destruct (query ListNodes (database g2)) as [d r]. simpl in E. subst r.
    eexists. split; [reflexivity|]. apply list_elem_of_filter. split.
    + split; [rewrite Hon; naive_solver|]. unfold Peers.getPeer. rewrite Hp2.
      apply eq_None_not_Some. intros [q Hq]. simpl in Hq. apply Hp in Hq as [Hq Hpq].
      rewrite Hnp in Hq. injection Hq as <-. rewrite Hpq in Hs. by destruct Hs.
    + apply elem_of_ListNodes. exists row. by rewrite Ht2.
Qed.

(** C22: a peer that stays silent takes the node out of the mesh.  [ping] waits
    for its reply without a deadline.  If a peer never answers and its
    connection does not fail, the turn of [runPeers] does not end and the peer
    is not evicted; no later tick is served, so the heartbeat of the node is
    never written again, and once it is stale no node takes this one to be
    online or dials it, although it serves its clients. *)
Theorem silent_peer_stops_heartbeat (settings : Settings) (start : time) (before after : list tick)
    (t : tick) (g : gateway DB) (node : string) (p : positive) :
  reliable DB -> NodeID settings <> "" -> tick_now t <> zeroTime ->
  Forall (fun t => forall p, is_Some (tick_reply t p)) before ->
  peers (tick_others t (runPeers settings start before g)) !! node = Some p ->
  tick_reply t p = None ->
  let g' := runPeers settings start (before ++ t :: after) g in
  g' = runPeers settings start (before ++ [t]) g
  /\ exists row, nodes (db_tables (database g')) !! NodeID settings = Some row
     /\ forall later, onlineStaleThreshold <= time_sub later (tick_now t) ->
          isNodeOnline later (scanNode (NodeID settings) row) = false
          /\ forall settings' g2 dialled,
               db_tables (database g2) = db_tables (database g') ->
               (discoverPeers settings' later g2).2 = Ok dialled ->
               NodeID settings ∉ map Node_ID dialled.
Proof.
  intros R Hn Hz Hb Hp Hs. unfold runPeers in *.
  assert (Hrun : forall rest, runTicks settings (before ++ t :: rest) (discoverPeers settings start g).1 =
    (runPeersTurn settings (tick_now t) (tick_later t) (tick_reply t)
      (tick_others t (runTicks settings before (discoverPeers settings start g).1))).1.1).
  { intros rest. rewrite runTicks_app by done. simpl.
    rewrite (surjective_pairing (runPeersTurn _ _ _ _ _)).
    rewrite (surjective_pairing (runPeersTurn _ _ _ _ _).1).
    by rewrite (runPeersTurn_silent _ _ _ _ _ node p). }
  rewrite !Hrun. split; [done|].
  set (g1 := tick_others t _) in *.
  destruct (runPeersTurn_heartbeat settings (tick_now t) (tick_later t) (tick_reply t) g1 R Hn)
    as (row & Hrow & Hon).
  exists row. split; [done|]. intros later Hl.
  assert (Hoff : isNodeOnline later (scanNode (NodeID settings) row) = false)
    by (rewrite Hon by done; apply bool_decide_eq_false; lia).
  split; [done|]. intros settings' g2 dialled Ht E Hin.
  revert Hin. rewrite <- Ht in Hrow. by apply (discoverPeers_online settings' later g2 dialled _ row).
Qed.

End nodes.

(** ** A node with two users and a peer *)

Definition example_mesh : gateway tables :=
  set_peers {[1%positive := Peers.newPeer "node-b"]} {["node-b" := 1%positive]}
    (registerNode example_settings_b (10 * second) true example_node).1.

Lemma example_mesh_filed : filed example_mesh.
Proof.
  intros node p. simpl. rewrite lookup_singleton_Some. intros [<- <-]. by split.
Qed.


(** The peer does not answer and is dialled again. *)
Definition example_turn : gateway tables :=
  (runPeersTurn example_settings (20 * second) (21 * second) (fun _ => Some (Err (Foreign "EOF")))
     example_mesh).1.1.

Definition example_row_b : node_row :=
  default (nodeRow zeroNode) (nodes (database example_turn) !! "node-b").

Lemma runPeersTurn_spec_witness :
  peers example_turn !! "node-b" = None
  /\ exists dialled, (discoverPeers example_settings (35 * second) example_turn).2 = Ok dialled
     /\ "node-b" ∈ map Node_ID dialled.
Proof.
  destruct (runPeersTurn_spec example_settings (20 * second) (21 * second)
    (fun _ => Some (Err (Foreign "EOF"))) example_mesh example_mesh_filed tables_reliable ltac:(intros [=])
    ltac:(intros; by eexists)) as (_ & _ & Hp & Hd).
  fold example_turn in Hp, Hd. split.
  - apply eq_None_not_Some. intros [q Hq]. by apply Hp in Hq as [_ ?].
  - assert (Hrow : nodes (db_tables (database example_turn)) !! "node-b" = Some example_row_b)
      by (vm_compute; reflexivity).
    assert (Hon : isNodeOnline (35 * second) (scanNode "node-b" example_row_b) = true)
      by (vm_compute; reflexivity).
    assert (Ha : Node_Address (scanNode "node-b" example_row_b) <> "") by (vm_compute; intros [=]).
    assert (Hnp : peers example_mesh !! "node-b" = Some 1%positive) by (vm_compute; reflexivity).
    destruct (Hd "node-b" 1%positive example_row_b example_turn (35 * second) Hnp
      (mk_is_Some _ _ eq_refl) eq_refl ltac:(intros [=]) eq_refl eq_refl Hrow Hon Ha)
      as (_ & dialled & Hok & Hin).
    exists dialled. split; [exact Hok|]. apply list_elem_of_fmap.
    exists (scanNode "node-b" example_row_b). split; [reflexivity|exact Hin].
Defined.

(** The peer answers the first tick, and is silent from the second on. *)
Definition example_tick (now : time) (reply : option (result bool)) : tick (DB := tables) :=
  {| tick_others := fun g => g; tick_now := now; tick_later := now; tick_reply := fun _ => reply |}.

Lemma silent_peer_stops_heartbeat_witness :
  let g' := runPeers example_settings (10 * second)
    [example_tick (25 * second) (Some (Ok false)); example_tick (40 * second) None;
     example_tick (200 * second) (Some (Ok false))] example_mesh in
  exists row, nodes (database g') !! "node-a" = Some row /\
    isNodeOnline (201 * second) (scanNode "node-a" row) = false.
Proof.
  destruct (silent_peer_stops_heartbeat example_settings (10 * second)
    [example_tick (25 * second) (Some (Ok false))] [example_tick (200 * second) (Some (Ok false))]
    (example_tick (40 * second) None) example_mesh "node-b" 1%positive)
    as (_ & row & Hrow & Hoff).
  - exact tables_reliable.
  - intros [=].
  - by vm_compute.
  - repeat constructor. eexists. reflexivity.
  - vm_compute. reflexivity.
  - reflexivity.
  - exists row. split; [exact Hrow|]. apply Hoff. by vm_compute.
Defined.

End Nodes.
