(* ===== verification/Http.v ===== *)
(** * The HTTP interface, [cli/http.go]

    The three handlers and the wrapper that turns what they return into a
    response.  The handler that the router chose is an argument; the
    choice is modelled in [Router]. *)

From stdpp Require Import base list strings gmap fin_maps option.
From Stdlib Require Import ZArith Lia.
From Stdlib Require Import Strings.Byte.
From S2P Require Import Prelude GoStrings Bytes Json JsonText Models Database Connection Registry.
From S2P Require Import Routing Gateway Render.

#[local] Open Scope Z_scope.

Module Http.
Import Routing.

Definition ErrNotFound : error := Sentinel "cli: 404 not found".

Definition StatusOK : Z := 200.
Definition StatusNotFound : Z := 404.
Definition StatusInternalServerError : Z := 500.

Record response := { status : Z; contentType : string; body : string }.

Definition plainText : string := "text/plain; charset=utf-8".

(** [http.Error] and [http.NotFound] *)
Definition httpError (text : string) (code : Z) : response :=
  {| status := code; contentType := plainText; body := text +:+ String newline "" |}.
Definition notFound : response := httpError "404 page not found" StatusNotFound.
Definition internalError : response :=
  httpError "500 internal server error" StatusInternalServerError.

(** What a handler returns: a value, as the tree that [encoding/json] sees or
    the error of one of its [json.Marshaler]s, or a handler, with what it
    responds. *)
Inductive value : Type :=
| Value (v : result json)
| HandlerFunc (r : response).

Definition wrapHttpHandler (r : result value) : response :=
  match r with
  | Err err => if decide (err = ErrNotFound) then notFound else internalError
  | Ok (HandlerFunc r) => r
  | Ok (Value v) =>
      match (let! v := v in Json.Marshal v) with
      | Err _ => internalError
      | Ok raw =>
          {| status := StatusOK; contentType := "application/json; charset=utf-8"; body := raw |}
      end
  end.

Lemma wrapHttpHandler_Value v :
  (exists raw, (let! v := v in Json.Marshal v) = Ok raw /\
     wrapHttpHandler (Ok (Value v)) =
       {| status := StatusOK; contentType := "application/json; charset=utf-8"; body := raw |})
  \/ wrapHttpHandler (Ok (Value v)) = internalError.
Proof. cbn. destruct (let! v := v in Json.Marshal v) as [raw|]; [left; by exists raw|by right]. Qed.

(** The routes, with the variable [userId]. *)
Inductive route : Type :=
| Users                                   (* /api/user *)
| OneUser (userId : string)               (* /api/user/{userId} *)
| UserScreenshot (userId : string).       (* /api/user/{userId}/screenshot *)

Section http.
Context {DB : Type} `{Executor DB}.
Context (zone : time -> Z) (formatFloat : Z -> result string).

Definition newHttpHandler (r : route) (now : time) (g : gateway DB) : gateway DB * response :=
  match r with
  | Users =>
      let (g, r) := Gateway.ListUsers now g in
      (g, wrapHttpHandler (let! users := r in Ok (Value (Render.userListJson zone formatFloat users))))
  | OneUser userId =>
      let (g, r) := Gateway.GetUser now userId g in
      (g, wrapHttpHandler
            (let! user := r in
             match user with
             | None => Err ErrNotFound
             | Some user => Ok (Value (Render.userResponseJson zone formatFloat user))
             end))
  | UserScreenshot userId =>
      let (g, r) := Gateway.GetUserScreenshot userId g in
      (g, wrapHttpHandler
            (let! screenshot := r in
             let screenshot := default [] screenshot in
             if decide (len screenshot = 0) then Err ErrNotFound
             else Ok (HandlerFunc {| status := StatusOK; contentType := "image/png";
                                     body := string_of_bytes screenshot |})))
  end.

(** ** Theorems *)

(** A request reads the database only. *)
Lemma newHttpHandler_tables r now g :
  db_tables (database (newHttpHandler r now g).1) = db_tables (database g).
Proof.
  destruct r as [|userId|userId]; simpl.
  - unfold Gateway.ListUsers, db_ListUsers. destruct (query _ _) as [d [us|e]] eqn:E; simpl;
      by destruct (query_spec _ _ _ _ E) as [-> _].
  - unfold Gateway.GetUser, db_GetUser. destruct (query _ _) as [d [[u|]|e]] eqn:E; simpl;
      by destruct (query_spec _ _ _ _ E) as [-> _].
  - unfold Gateway.GetUserScreenshot, db_GetUserScreenshot. destruct (query _ _) as [d r] eqn:E; simpl;
      by destruct (query_spec _ _ _ _ E) as [-> _].
Qed.

(** The HTTP interface only reads, and its status tells the truth.  A user
    is reported missing exactly when the database answered that there is no
    such account, a screenshot exactly when none is stored; a stored
    screenshot is returned byte for byte; a database that fails gives the
    status 500 and never a wrong answer. *)
Theorem http_api_spec (now : time) (userId : string) (g : gateway DB) :
  let t := db_tables (database g) in
  (forall r, db_tables (database (newHttpHandler r now g).1) = t)
  /\ match status (newHttpHandler (OneUser userId) now g).2 with
     | 404 => users t !! userId = None
     | 200 => exists row user, users t !! userId = Some row
         /\ ID (Gateway.resp_user user) = userId
         /\ (let! v := Render.userResponseJson zone formatFloat user in Json.Marshal v) =
              Ok (body (newHttpHandler (OneUser userId) now g).2)
     | s => s = 500
     end
  /\ match status (newHttpHandler (UserScreenshot userId) now g).2 with
     | 404 => default [] (users t !! userId ≫= screenshot) = []
     | 200 => users t !! userId ≫= screenshot =
                Some (bytes_of_string (body (newHttpHandler (UserScreenshot userId) now g).2))
     | s => s = 500
     end
  /\ (reliable DB ->
      (users t !! userId = None -> status (newHttpHandler (OneUser userId) now g).2 = 404)
      /\ status (newHttpHandler (UserScreenshot userId) now g).2 <> 500).
Proof.
  intros t. split_and!.
  - intros r. apply newHttpHandler_tables.
  - simpl. unfold Gateway.GetUser, db_GetUser. destruct (query _ _) as [d r] eqn:E.
    destruct (query_spec _ _ _ _ E) as [_ [->|[text ->]]]; [|done].
    unfold Models.GetUser. fold t. destruct (users t !! userId) as [row|] eqn:Hrow; [|done].
    cbn -[wrapHttpHandler Render.userResponseJson].
    match goal with |- context [wrapHttpHandler (Ok (Value ?v))] =>
      destruct (wrapHttpHandler_Value v) as [(raw & Hm & ->)| ->] end; [|done].
    exists row. eexists. split; [done|]. split; [|exact Hm]. done.
  - simpl. unfold Gateway.GetUserScreenshot, db_GetUserScreenshot.
    destruct (query _ _) as [d r] eqn:E.
    destruct (query_spec _ _ _ _ E) as [_ [->|[text ->]]]; [|done]. simpl.
    unfold Models.GetUserScreenshot. fold t.
    destruct (users t !! userId ≫= screenshot) as [[|b bs]|]; simpl; [done| |done].
    by rewrite bytes_of_string_of_bytes.
  - intros R. split.
    + intros Hn. simpl. unfold Gateway.GetUser, db_GetUser.
      destruct (query_reliable (Models.GetUser userId) (database g) R) as [E _].
      destruct (query _ _) as [d r]. simpl in E. subst r. unfold Models.GetUser. fold t. by rewrite Hn.
    + simpl. unfold Gateway.GetUserScreenshot, db_GetUserScreenshot.
      destruct (query_reliable (Models.GetUserScreenshot userId) (database g) R) as [E _].
      destruct (query _ _) as [d r]. simpl in E. subst r. simpl. by case_decide.
Qed.

(** ** The pages *)

(** The metadata of all tunnels is at most two levels deep. *)
Definition shallow (g : gateway DB) : Prop :=
  map_Forall (fun _ c => Forall (fun t => Render.fine 2 (Conn.tunnel_metadata t)) (Conn.tunnels c))
    (connections g).

Lemma gatherStatus_fine now p g : shallow g -> Render.fineStatus 2 (Conn.gatherStatus now (connections g !!! p)).
Proof.
  intros Hg. unfold Render.fineStatus, Conn.gatherStatus. cbn [Conn.cs_Tunnels].
  apply Forall_map. rewrite lookup_total_alt. destruct (connections g !! p) as [c|] eqn:E; [|constructor].
  exact (Hg p c E).
Qed.

(** A page shows a value: it is the JSON of the value, or an error where the
    value has none. *)
Definition page {A} (render : A -> result json) (a : A) (r : response) : Prop :=
  match render a with
  | Ok v => status r = 200 /\ JsonText.renders (body r) v
  | Err _ => r = internalError
  end.

Lemma page_fine {A} (render : A -> result json) (a : A) n :
  (forall v, render a = Ok v -> Render.fine n v) -> Z.of_nat n <= Json.maxNestingDepth ->
  page render a (wrapHttpHandler (Ok (Value (render a)))).
Proof.
  intros Hf Hn. unfold page. cbn. destruct (render a) as [v|e]; [|done]. cbn.
  destruct (Render.fine_Marshal n v (Hf v eq_refl) Hn) as (t & -> & Hr). done.
Qed.

Lemma ListUsers_no_status now g l :
  (Gateway.ListUsers now g).2 = Ok l -> Forall (fun u => Models.Status u = "") (Gateway.list_users l).
Proof.
  unfold Gateway.ListUsers. destruct (db_ListUsers _) as [d [us|e]]; [|done]. intros [= <-].
  apply Forall_map, list.Forall_forall. done.
Qed.

Lemma GetUser_fine now userId g r :
  (Gateway.GetUser now userId g).2 = Ok (Some r) -> shallow g ->
  Forall (Render.fineStatus 2) (Gateway.resp_connections r) /\
  exists row, users (db_tables (database g)) !! userId = Some row /\
    Models.Status (Gateway.resp_user r) = default "" (Models.status row).
Proof.
  unfold Gateway.GetUser, db_GetUser. destruct (query _ _) as [d q] eqn:E.
  destruct (query_spec _ _ _ _ E) as [_ [->|[text ->]]]; [|done]. unfold Models.GetUser.
  destruct (users (db_tables (database g)) !! userId) as [row|] eqn:Hrow; [|done]. cbn.
  intros [= <-] Hg. cbn. split; [|by exists row].
  apply Forall_map, list.Forall_forall. intros p _. by apply gatherStatus_fine.
Qed.

(** [strconv.AppendFloat] writes a JSON number. *)
Hypothesis formatFloat_number : forall bits text,
  formatFloat bits = Ok text -> Json.checkValid text = true /\ JsonText.nesting text Json.newScanner = 0%nat.

(** C24: the pages are JSON, whatever users chose as their names and comments and
    whatever they reported.  The list of users, and the page of a user whose
    stored report is valid JSON, are each one JSON text that says exactly the
    value: no text of a user can end a string or add a member.  The only other
    answer to a request that the database answered is the status 500, given
    where a time or a coordinate has no JSON. *)
Theorem http_pages_render (now : time) (userId : string) (g : gateway DB) :
  shallow g ->
  (forall text, users (db_tables (database g)) !! userId ≫= Models.status = Some text ->
     text = "" \/ Render.shown text) ->
  (forall l, (Gateway.ListUsers now g).2 = Ok l ->
     page (Render.userListJson zone formatFloat) l (newHttpHandler Users now g).2)
  /\ (forall r, (Gateway.GetUser now userId g).2 = Ok (Some r) ->
     page (Render.userResponseJson zone formatFloat) r (newHttpHandler (OneUser userId) now g).2).
Proof.
  intros Hg Hs. split.
  - intros l Hl. pose proof (ListUsers_no_status now g l Hl) as Hno. cbn [newHttpHandler].
    destruct (Gateway.ListUsers now g) as [g' q]. cbn [snd] in Hl. subst q.
    apply (page_fine _ l 4); [|done]. intros v Hv.
    by apply (Render.userListJson_fine zone formatFloat formatFloat_number l).
  - intros r Hr. destruct (GetUser_fine now userId g r Hr Hg) as (Hc & row & Hrow & Hst).
    cbn [newHttpHandler]. destruct (Gateway.GetUser now userId g) as [g' q]. cbn [snd] in Hr. subst q.
    set (text := Models.Status (Gateway.resp_user r)) in *.
    assert (Ht : text <> "" -> Render.shown text).
    { rewrite Hrow in Hs. cbn in Hs. rewrite Hst. destruct (Models.status row) as [t|]; [|done].
      by destruct (Hs t eq_refl). }
    destruct (Render.shown_fine text Ht) as (m & Hm6 & Hm & Hf).
    apply (page_fine _ r (S (S m))); [|lia]. intros v Hv.
    by apply (Render.userResponseJson_fine zone formatFloat formatFloat_number 2 m r v Hv); [lia|lia|..].
Qed.

End http.

(** ** A node whose user reported a status *)

Definition example_page_node : gateway tables :=
  {| database := (UpdateUserStatus 6 "alice" ("{" +:+ JsonText.quoted "</b>" +:+ ": [1]}")
                    (database Gateway.example_node)).1;
     connections := connections Gateway.example_node; registry := registry Gateway.example_node;
     peerHeap := ∅; peers := ∅; routes := ∅ |}.

Lemma http_pages_render_witness :
  match (Gateway.GetUser 20 "alice" example_page_node).2 with
  | Ok (Some r) =>
      page (Render.userResponseJson (fun _ => 3600) (fun _ => Ok "1.5")) r
        (newHttpHandler (fun _ => 3600) (fun _ => Ok "1.5") (OneUser "alice") 20 example_page_node).2
  | _ => False
  end.
Proof.
  destruct (http_pages_render (DB := tables) (fun _ => 3600) (fun _ => Ok "1.5")) with (now := 20)
    (userId := "alice") (g := example_page_node) as [_ S].
  - intros bits text H. injection H as <-. split; vm_compute; reflexivity.
  - unfold shallow. change (connections example_page_node) with Registry.example_heap.
    apply map_Forall_insert_2; [constructor|]. apply map_Forall_insert_2; [constructor|].
    apply map_Forall_empty.
  - intros text H. right. vm_compute in H. injection H as <-. split; [vm_compute; reflexivity|].
    vm_compute. intros [=].
  - destruct (Gateway.GetUser 20 "alice" example_page_node) as [g' [[r|]|e]] eqn:E.
    + apply S. reflexivity.
    + vm_compute in E. discriminate E.
    + vm_compute in E. discriminate E.
Defined.
End Http.
