(* ===== verification/Urls.v ===== *)
(** * Paths and URLs of requests

    What the router of the status pages uses of the packages [path] and
    [net/url]: the canonical form of a rooted path, percent encoding, and the
    request target of the form that starts with a slash. *)

From stdpp Require Import base list strings option.
From Stdlib Require Import ZArith Lia Ascii.
From S2P Require Import Prelude GoStrings.

#[local] Open Scope Z_scope.

Module Urls.

Definition slash : ascii := "/"%char.
Definition percent : ascii := "%"%char.
Definition question : ascii := "?"%char.
Definition hash : ascii := "#"%char.

Definition code (c : ascii) : Z := Z.of_nat (nat_of_ascii c).

(** ** [path.Clean] *)

(** The elements of a rooted path: empty ones and [.] are dropped, [..] takes
    the one before it away. *)
Definition cleanPart (out : list string) (part : string) : list string :=
  if decide (part = "" \/ part = ".") then out
  else if decide (part = "..") then removelast out
  else out ++ [part].

Definition cleanParts (parts : list string) : list string := foldl cleanPart [] parts.

(** [path.Clean] of a slash and the rest of a path. *)
Definition CleanRooted (rest : string) : string :=
  String slash (Join slash (cleanParts (Split slash rest))).

Fixpoint lastByte (s : string) : option ascii :=
  match s with
  | EmptyString => None
  | String c EmptyString => Some c
  | String _ s' => lastByte s'
  end.

(** [strings.HasSuffix(s, "/")] *)
Definition endsInSlash (s : string) : bool := bool_decide (lastByte s = Some slash).

(** ** Percent encoding *)

Inductive encoding := encodePath | encodeFragment.

Definition alphanumeric (c : ascii) : bool :=
  bool_decide (97 <= code c <= 122 \/ 65 <= code c <= 90 \/ 48 <= code c <= 57).

Definition shouldEscape (c : ascii) (mode : encoding) : bool :=
  if alphanumeric c then false
  else if decide (c ∈ ["-"; "_"; "."; "~"]%char) then false
  else if decide (c ∈ ["$"; "&"; "+"; ","; "/"; ":"; ";"; "="; "?"; "@"]%char) then
    match mode with encodePath => bool_decide (c = question) | encodeFragment => false end
  else
    match mode with
    | encodePath => true
    | encodeFragment => negb (bool_decide (c ∈ ["!"; "("; ")"; "*"]%char))
    end.

Definition upperhex (n : Z) : ascii :=
  ascii_of_nat (Z.to_nat (if decide (n < 10) then 48 + n else 55 + n)).

Fixpoint escape (mode : encoding) (s : string) : string :=
  match s with
  | EmptyString => ""
  | String c s' =>
      if shouldEscape c mode then
        String percent (String (upperhex (code c / 16)) (String (upperhex (code c mod 16))
          (escape mode s')))
      else String c (escape mode s')
  end.

Definition unhex (c : ascii) : option Z :=
  let n := code c in
  if decide (48 <= n <= 57) then Some (n - 48)
  else if decide (97 <= n <= 102) then Some (n - 97 + 10)
  else if decide (65 <= n <= 70) then Some (n - 65 + 10)
  else None.

(** [unescape] in the modes for paths and fragments, which leave [+] alone. *)
Fixpoint unescape (s : string) : option string :=
  match s with
  | EmptyString => Some ""
  | String c s' =>
      if decide (c = percent) then
        match s' with
        | String h (String l s'') =>
            match unhex h, unhex l with
            | Some h, Some l =>
                String (ascii_of_nat (Z.to_nat (h * 16 + l))) <$> unescape s''
            | _, _ => None
            end
        | _ => None
        end
      else String c <$> unescape s'
  end.

(** Whether a text is an encoding that a client may have chosen. *)
Definition validEncoded (s : string) (mode : encoding) : bool :=
  all_bytes (fun c =>
    bool_decide (c ∈ ["!"; "$"; "&"; "'"; "("; ")"; "*"; "+"; ","; ";"; "="; ":"; "@"; "["; "]"; "%"]%char)
    || negb (shouldEscape c mode)) s.

(** ** Requests *)

(** A URL without a scheme and a host. *)
Record URL := {
  Path : string; RawPath : string; ForceQuery : bool; RawQuery : string;
  Fragment : string; RawFragment : string;
}.

Definition isControl (c : ascii) : bool := bool_decide (code c < 32 \/ code c = 127).

(** [setPath] *)
Definition setPath (p : string) : option (string * string) :=
  (fun path => (path, if decide (p = escape encodePath path) then "" else p)) <$> unescape p.

(** The part before the query, with [ForceQuery] and [RawQuery]. *)
Definition splitQuery (target : string) : string * bool * string :=
  match cut question target with
  | None => (target, false, "")
  | Some (rest, query) => (rest, bool_decide (query = ""), query)
  end.

(** [url.ParseRequestURI] of a target that starts with a slash. *)
Definition ParseRequestURI (target : string) : option URL :=
  if negb (all_bytes (fun c => negb (isControl c)) target) then None
  else
    let '(rest, force, query) := splitQuery target in
    (fun '(path, raw) => {| Path := path; RawPath := raw; ForceQuery := force; RawQuery := query;
                            Fragment := ""; RawFragment := "" |}) <$> setPath rest.

(** [url.Parse] of a text that starts with a slash, but not with two. *)
Definition Parse (text : string) : option URL :=
  let (text, frag) := match cut hash text with Some p => p | None => (text, "") end in
  match ParseRequestURI text with
  | None => None
  | Some u =>
      match unescape frag with
      | None => None
      | Some fragment =>
          Some {| Path := Path u; RawPath := RawPath u; ForceQuery := ForceQuery u;
                  RawQuery := RawQuery u; Fragment := fragment;
                  RawFragment := if decide (frag = escape encodeFragment fragment) then "" else frag |}
      end
  end.

Definition EscapedPath (u : URL) : string :=
  if decide (RawPath u <> "" /\ validEncoded (RawPath u) encodePath = true
             /\ unescape (RawPath u) = Some (Path u))
  then RawPath u
  else if decide (Path u = "*") then "*"
  else escape encodePath (Path u).

Definition EscapedFragment (u : URL) : string :=
  if decide (RawFragment u <> "" /\ validEncoded (RawFragment u) encodeFragment = true
             /\ unescape (RawFragment u) = Some (Fragment u))
  then RawFragment u
  else escape encodeFragment (Fragment u).

(** [URL.String] where the path starts with a slash. *)
Definition URLString (u : URL) : string :=
  EscapedPath u
  +:+ (if ForceQuery u || bool_decide (RawQuery u <> "") then String question (RawQuery u) else "")
  +:+ (if decide (Fragment u <> "") then String hash (EscapedFragment u) else "").

Definition withPath (path : string) (u : URL) : URL :=
  {| Path := path; RawPath := RawPath u; ForceQuery := ForceQuery u; RawQuery := RawQuery u;
     Fragment := Fragment u; RawFragment := RawFragment u |}.

(** ** Lemmas *)

Lemma unhex_upperhex n : 0 <= n < 16 -> unhex (upperhex n) = Some n.
Proof.
  intros Hn. assert (H : Forall (fun k => unhex (upperhex (Z.of_nat k)) = Some (Z.of_nat k)) (seq 0 16)).
  { repeat constructor. }
  rewrite list.Forall_forall in H. specialize (H (Z.to_nat n)).
  rewrite Z2Nat.id in H by lia. apply H. apply elem_of_seq. lia.
Qed.

Lemma byte_code_bound c : 0 <= code c < 256.
Proof. unfold code. pose proof (nat_ascii_bounded c). lia. Qed.

(** Decoding is the inverse of encoding, in either mode. *)
Lemma unescape_escape mode s : unescape (escape mode s) = Some s.
Proof.
  induction s as [|c s IH]; [done|]. cbn [escape]. destruct (shouldEscape c mode) eqn:E.
  - cbn [unescape]. pose proof (byte_code_bound c). rewrite decide_True by done.
    rewrite !unhex_upperhex.
    2: { split; [apply Z.mod_pos_bound; lia|apply Z.mod_pos_bound; lia]. }
    2: { split; [apply Z.div_pos; lia|apply Z.div_lt_upper_bound; lia]. }
    rewrite IH. cbn [fmap option_fmap option_map]. do 2 f_equal.
    rewrite Z.mul_comm, <- Z.div_mod by lia. unfold code. rewrite Nat2Z.id. apply ascii_nat_embedding.
  - cbn [unescape]. rewrite decide_False; [by rewrite IH|]. intros ->. destruct mode; discriminate E.
Qed.

Lemma escape_app mode a b : escape mode (a +:+ b) = escape mode a +:+ escape mode b.
Proof.
  induction a as [|c a IH]; [done|]. rewrite append_cons. cbn [escape].
  destruct (shouldEscape c mode); by rewrite IH.
Qed.

(** *** Canonical paths *)

(** An element of a canonical path. *)
Definition element (part : string) : Prop :=
  part <> "" /\ part <> "." /\ part <> ".." /\ contains_byte slash part = false.

#[export] Instance element_dec part : Decision (element part) := _.

Lemma Forall_removelast {A} (P : A -> Prop) l : Forall P l -> Forall P (removelast l).
Proof. induction 1 as [|x l Hx Hl IH]; [constructor|]. destruct l; [constructor|]. by constructor. Qed.

Lemma cleanPart_elements out part :
  Forall element out -> contains_byte slash part = false -> Forall element (cleanPart out part).
Proof.
  intros Ho Hp. unfold cleanPart. repeat case_decide; [done|by apply Forall_removelast|].
  apply Forall_app. split; [done|]. constructor; [|constructor]. unfold element. naive_solver.
Qed.

Lemma Split_parts sep s : Forall (fun part => contains_byte sep part = false) (Split sep s).
Proof.
  induction s as [|c s IH]; cbn [Split]; [by repeat constructor|]. case_decide as Hc; [by constructor|].
  destruct (Split_cons sep s) as (part & parts & E). rewrite E in IH |- *.
  apply list.Forall_cons in IH as [Hp IH]. constructor; [|done]. cbn [contains_byte].
  by rewrite bool_decide_false.
Qed.

Lemma cleanParts_elements parts :
  Forall (fun part => contains_byte slash part = false) parts -> Forall element (cleanParts parts).
Proof.
  unfold cleanParts. cut (forall out, Forall element out ->
    Forall (fun part => contains_byte slash part = false) parts ->
    Forall element (foldl cleanPart out parts)); [by intros H Hp; apply H|].
  induction parts as [|part parts IH]; intros out Ho Hp; [done|].
  apply list.Forall_cons in Hp as [H1 H2]. cbn [foldl]. apply IH; [|done]. by apply cleanPart_elements.
Qed.

Lemma cleanParts_id parts out : Forall element parts -> foldl cleanPart out parts = out ++ parts.
Proof.
  revert out. induction parts as [|part parts IH]; intros out Hp; [by rewrite app_nil_r|].
  apply list.Forall_cons in Hp as [(H1 & H2 & H3 & _) Hp]. cbn [foldl]. rewrite IH by done.
  unfold cleanPart. rewrite !decide_False by naive_solver. by rewrite <- app_assoc.
Qed.

Lemma element_slash_free parts :
  Forall element parts -> Forall (fun part => contains_byte slash part = false) parts.
Proof. apply Forall_impl. by intros part (_ & _ & _ & ?). Qed.

(** The text of a canonical path, with a slash at the end or not. *)
Definition rooted (parts : list string) (dir : bool) : string :=
  String slash (Join slash parts +:+ (if dir then "/" else "")).

Lemma CleanRooted_elements parts (dir : bool) :
  parts <> [] -> Forall element parts ->
  CleanRooted (Join slash parts +:+ (if dir then "/" else "")) = String slash (Join slash parts).
Proof.
  intros Hne Hp. unfold CleanRooted, cleanParts. do 2 f_equal.
  destruct dir.
  - change "/" with (String slash ""). rewrite Split_app_any, Split_Join by (done || by apply element_slash_free).
    rewrite foldl_app, (cleanParts_id parts) by done. cbn [Split foldl app]. unfold cleanPart.
    by rewrite decide_True by (by left).
  - rewrite append_nil, Split_Join by (done || by apply element_slash_free). by rewrite cleanParts_id.
Qed.

Lemma lastByte_app a b : b <> "" -> lastByte (a +:+ b) = lastByte b.
Proof.
  intros Hb. induction a as [|c a IH]; [done|]. rewrite append_cons. cbn [lastByte].
  destruct (a +:+ b) eqn:E; [|by rewrite <- E in IH |- *]. by destruct a, b.
Qed.

Lemma lastByte_contains s c : lastByte s = Some c -> contains_byte c s = true.
Proof.
  induction s as [|x s IH]; [done|]. cbn [lastByte contains_byte]. destruct s as [|y s].
  - intros [= ->]. by rewrite bool_decide_true.
  - intros E. rewrite (IH E). apply orb_true_r.
Qed.

Lemma lastByte_Join parts :
  parts <> [] -> Forall element parts ->
  Join slash parts <> "" /\ exists part, part ∈ parts /\ lastByte (Join slash parts) = lastByte part.
Proof.
  induction parts as [|part parts IH]; [done|]. intros _ Hp.
  apply list.Forall_cons in Hp as [He Hp]. destruct parts as [|part' parts].
  - split; [apply He|]. exists part. split; [left|done].
  - destruct IH as [Hne (q & Hq & Hl)]; [done..|]. rewrite Join_cons by done. split; [by destruct part|].
    exists q. split; [by right|]. rewrite lastByte_app by done. rewrite <- Hl.
    by destruct (Join slash (part' :: parts)).
Qed.

Lemma endsInSlash_rooted parts dir :
  parts <> [] -> Forall element parts -> endsInSlash (rooted parts dir) = dir.
Proof.
  intros Hne Hp. unfold endsInSlash, rooted.
  destruct (lastByte_Join parts Hne Hp) as [Hj (part & Hin & Hl)]. destruct dir.
  - rewrite <- append_cons, lastByte_app by done. done.
  - rewrite append_nil. apply bool_decide_eq_false. intros E.
    assert (El : lastByte (Join slash parts) = Some slash) by (by destruct (Join slash parts)).
    rewrite list.Forall_forall in Hp. destruct (Hp part Hin) as (_ & _ & _ & Hs).
    rewrite Hl in El. apply lastByte_contains in El. congruence.
Qed.

(** *** Encoded paths *)

(** The bytes of an encoding: no [?], no [#], no control byte, and none that is
    not ASCII; a slash only where the text has one. *)
Definition plainByte (c : ascii) : bool :=
  negb (bool_decide (c = question)) && negb (bool_decide (c = hash)) && negb (isControl c)
  && bool_decide (code c < 128).

Lemma upperhex_plain n : 0 <= n < 16 -> plainByte (upperhex n) = true /\ upperhex n <> slash.
Proof.
  intros Hn. assert (H : Forall (fun k => plainByte (upperhex (Z.of_nat k)) = true
    /\ upperhex (Z.of_nat k) <> slash) (seq 0 16)) by (repeat (constructor; [split; [reflexivity|done]|]); constructor).
  rewrite list.Forall_forall in H. specialize (H (Z.to_nat n)). rewrite Z2Nat.id in H by lia.
  apply H, elem_of_seq. lia.
Qed.

Lemma unescaped_plain c : shouldEscape c encodePath = false -> plainByte c = true.
Proof.
  unfold shouldEscape. destruct (alphanumeric c) eqn:Ea.
  - intros _. unfold alphanumeric in Ea. apply bool_decide_eq_true in Ea. unfold plainByte, isControl.
    rewrite (bool_decide_false (c = question)) by (intros ->; vm_compute in Ea; intuition congruence).
    rewrite (bool_decide_false (c = hash)) by (intros ->; vm_compute in Ea; intuition congruence).
    rewrite bool_decide_false by lia. by rewrite bool_decide_true by lia.
  - case_decide as H1; [intros _|case_decide as H2; [|done]].
    + repeat (apply elem_of_cons in H1 as [->|H1]; [reflexivity|]). by apply elem_of_nil in H1.
    + intros Hq%bool_decide_eq_false.
      repeat (apply elem_of_cons in H2 as [->|H2]; [try reflexivity; done|]). by apply elem_of_nil in H2.
Qed.

Lemma hex_halves c : 0 <= code c / 16 < 16 /\ 0 <= code c mod 16 < 16.
Proof.
  pose proof (byte_code_bound c). split; [|apply Z.mod_pos_bound; lia].
  split; [apply Z.div_pos; lia|apply Z.div_lt_upper_bound; lia].
Qed.

Lemma escape_plain s : all_bytes plainByte (escape encodePath s) = true.
Proof.
  induction s as [|c s IH]; [done|]. cbn [escape]. destruct (shouldEscape c encodePath) eqn:E.
  - destruct (hex_halves c) as [H1 H2]. cbn [all_bytes].
    rewrite (proj1 (upperhex_plain _ H1)), (proj1 (upperhex_plain _ H2)), IH. reflexivity.
  - cbn [all_bytes]. by rewrite unescaped_plain, IH.
Qed.

Lemma escape_slash s : contains_byte slash s = false -> contains_byte slash (escape encodePath s) = false.
Proof.
  induction s as [|c s IH]; [done|]. cbn [contains_byte escape].
  intros [Hc%bool_decide_eq_false H]%orb_false_iff. destruct (shouldEscape c encodePath).
  - destruct (hex_halves c) as [H1 H2]. cbn [contains_byte].
    rewrite (bool_decide_false _ (proj2 (upperhex_plain _ H1))),
      (bool_decide_false _ (proj2 (upperhex_plain _ H2))), IH by done. reflexivity.
  - cbn [contains_byte]. by rewrite bool_decide_false, IH.
Qed.

Lemma escape_inj a b : escape encodePath a = escape encodePath b -> a = b.
Proof. intros E. apply (f_equal unescape) in E. rewrite !unescape_escape in E. by injection E. Qed.

Lemma escape_element part : element part -> element (escape encodePath part).
Proof.
  intros (H1 & H2 & H3 & H4). split_and!; [| | |by apply escape_slash].
  - by destruct part as [|c part]; [|cbn [escape]; destruct (shouldEscape c encodePath)].
  - by intros E; apply (escape_inj part ".") in E.
  - by intros E; apply (escape_inj part "..") in E.
Qed.

Lemma escape_Join parts :
  escape encodePath (Join slash parts) = Join slash (map (escape encodePath) parts).
Proof.
  induction parts as [|part parts IH]; [done|]. destruct parts as [|part' parts]; [done|].
  rewrite Join_cons by done. cbn [map] in *. rewrite (Join_cons slash (escape encodePath part)) by done.
  rewrite escape_app.
  by rewrite <- IH.
Qed.

Lemma escape_rooted parts dir :
  escape encodePath (rooted parts dir) = rooted (map (escape encodePath) parts) dir.
Proof.
  unfold rooted. change (String slash ?t) with ("/" +:+ t). rewrite !escape_app, escape_Join.
  by destruct dir.
Qed.

(** A text that starts with a query or is empty. *)
Definition query_text (tail : string) : Prop :=
  tail = "" \/ exists q, tail = String question q.

Definition control_free (s : string) : bool := all_bytes (fun c => negb (isControl c)) s.

Lemma plain_facts s :
  all_bytes plainByte s = true ->
  contains_byte question s = false /\ contains_byte hash s = false /\ control_free s = true.
Proof.
  unfold control_free. induction s as [|c s IH]; [done|]. cbn [all_bytes contains_byte].
  intros [[[[H1 H2]%andb_true_iff H3]%andb_true_iff _]%andb_true_iff H]%andb_true_iff.
  destruct (IH H) as (-> & -> & ->). rewrite H3. apply negb_true_iff in H1, H2. by rewrite H1, H2.
Qed.

(** *** Changing the path of a URL *)

Lemma cut_skip c p s :
  contains_byte c p = false ->
  cut c (p +:+ s) = match cut c s with Some (a, b) => Some (p +:+ a, b) | None => None end.
Proof.
  induction p as [|x p IH]; intros Hp.
  - change ("" +:+ s) with s. by destruct (cut c s) as [[a b]|].
  - cbn [contains_byte] in Hp. apply orb_false_iff in Hp as [Hx%bool_decide_eq_false Hp].
    rewrite append_cons. cbn [cut]. rewrite decide_False, IH by done. by destruct (cut c s) as [[a b]|].
Qed.

Lemma control_free_app a b : control_free (a +:+ b) = control_free a && control_free b.
Proof. apply all_bytes_app. Qed.

Lemma valid_plain s :
  validEncoded s encodePath = true ->
  contains_byte question s = false /\ contains_byte hash s = false /\ control_free s = true.
Proof.
  intros Hv. apply plain_facts. revert Hv. unfold validEncoded.
  induction s as [|c s IH]; [done|]. cbn [all_bytes]. intros [Hc Hs]%andb_true_iff. rewrite (IH Hs), andb_true_r.
  apply orb_true_iff in Hc as [Hc%bool_decide_eq_true|Hc%negb_true_iff]; [|by apply unescaped_plain].
  repeat (apply elem_of_cons in Hc as [->|Hc]; [reflexivity|]). by apply elem_of_nil in Hc.
Qed.

(** What a URL that was parsed is known to say. *)
Definition path_sound (u : URL) : Prop := RawPath u = "" \/ unescape (RawPath u) = Some (Path u).

Lemma EscapedPath_facts u :
  contains_byte question (EscapedPath u) = false /\ contains_byte hash (EscapedPath u) = false
  /\ control_free (EscapedPath u) = true /\ unescape (EscapedPath u) = Some (Path u).
Proof.
  unfold EscapedPath. destruct (decide (RawPath u <> "" /\ _)) as [(_ & Hv & Hu)|_].
  - destruct (valid_plain _ Hv) as (? & ? & ?). done.
  - destruct (decide (Path u = "*")) as [->|_]; [done|].
    destruct (plain_facts _ (escape_plain (Path u))) as (? & ? & ?). by rewrite unescape_escape.
Qed.

Lemma EscapedPath_changed q u :
  path_sound u -> q <> Path u -> q <> "*" -> EscapedPath (withPath q u) = escape encodePath q.
Proof.
  intros Hs Hq Hstar. unfold EscapedPath. cbn [withPath RawPath Path]. rewrite decide_False.
  - by rewrite decide_False.
  - intros (Hr & _ & Hu). destruct Hs as [|Hs]; [done|]. rewrite Hs in Hu. injection Hu as E. congruence.
Qed.

Definition queryPart (u : URL) : string :=
  if ForceQuery u || bool_decide (RawQuery u <> "") then String question (RawQuery u) else "".
Definition fragmentPart (u : URL) : string :=
  if decide (Fragment u <> "") then String hash (EscapedFragment u) else "".

Lemma URLString_parts u : URLString u = EscapedPath u +:+ (queryPart u +:+ fragmentPart u).
Proof. done. Qed.

Lemma setPath_sound p path raw : setPath p = Some (path, raw) -> unescape p = Some path /\ (raw = "" \/ raw = p).
Proof.
  unfold setPath. destruct (unescape p) as [x|]; [|done]. cbn. case_decide; intros [= <- <-]; auto.
Qed.

Lemma ParseRequestURI_inv target u :
  ParseRequestURI target = Some u ->
  path_sound u /\ control_free (RawQuery u) = true /\ Fragment u = "" /\ RawFragment u = "".
Proof.
  unfold ParseRequestURI. destruct (all_bytes _ target) eqn:Hc; [|done]. cbn [negb].
  unfold splitQuery. destruct (cut question target) as [[rest query]|] eqn:E.
  - apply cut_Some in E as [-> _]. fold (control_free (rest +:+ String question query)) in Hc.
    rewrite control_free_app in Hc. apply andb_true_iff in Hc as [_ Hc].
    destruct (setPath rest) as [[path raw]|] eqn:Es; [|done]. intros [= <-].
    apply setPath_sound in Es as [Hu Hr]. unfold path_sound. cbn.
    split_and!; try done. destruct Hr as [->| ->]; auto.
  - destruct (setPath target) as [[path raw]|] eqn:Es; [|done]. intros [= <-].
    apply setPath_sound in Es as [Hu Hr]. unfold path_sound. cbn.
    split_and!; try done. destruct Hr as [->| ->]; auto.
Qed.

Lemma unescaped_control c mode : shouldEscape c mode = false -> isControl c = false.
Proof.
  assert (Hl : forall l, Forall (fun x => isControl x = false) l -> c ∈ l -> isControl c = false).
  { intros l Hl Hin. rewrite list.Forall_forall in Hl. by apply Hl. }
  unfold shouldEscape. destruct (alphanumeric c) eqn:Ea.
  - intros _. unfold alphanumeric in Ea. apply bool_decide_eq_true in Ea. unfold isControl.
    apply bool_decide_eq_false. lia.
  - case_decide as H1; [intros _; refine (Hl _ _ H1); repeat constructor|].
    case_decide as H2; [intros _; refine (Hl _ _ H2); repeat constructor|].
    destruct mode; [done|]. intros H3%negb_false_iff%bool_decide_eq_true.
    refine (Hl _ _ H3); repeat constructor.
Qed.

Lemma escape_control mode s : control_free (escape mode s) = true.
Proof.
  unfold control_free. induction s as [|c s IH]; [done|]. cbn [escape].
  destruct (shouldEscape c mode) eqn:E; cbn [all_bytes]; [|by rewrite (unescaped_control c mode E), IH].
  destruct (hex_halves c) as [H1 H2].
  assert (Hx : forall n, 0 <= n < 16 -> isControl (upperhex n) = false).
  { intros n Hn. destruct (upperhex_plain n Hn) as [Hp _]. unfold plainByte in Hp.
    apply andb_true_iff in Hp as [[_ Hp]%andb_true_iff _]. by apply negb_true_iff. }
  by rewrite (Hx _ H1), (Hx _ H2), IH.
Qed.

Lemma EscapedFragment_control u : control_free (RawFragment u) = true -> control_free (EscapedFragment u) = true.
Proof. intros Hr. unfold EscapedFragment. case_decide; [done|apply escape_control]. Qed.

(** Parsing a path in some encoding and a query. *)
Lemma ParseRequestURI_path p path tail :
  unescape p = Some path -> contains_byte question p = false -> control_free p = true ->
  query_text tail -> control_free tail = true ->
  exists u, ParseRequestURI (p +:+ tail) = Some u /\ Path u = path /\ path_sound u /\ queryPart u = tail.
Proof.
  intros Hu Hq Hp Ht Hc. unfold ParseRequestURI. fold (control_free (p +:+ tail)).
  rewrite control_free_app, Hp, Hc. cbn [negb andb]. unfold splitQuery, setPath.
  destruct Ht as [->|[q ->]].
  - rewrite append_nil, cut_None, Hu by done. eexists. split; [reflexivity|].
    unfold path_sound. cbn. case_decide; auto.
  - rewrite cut_app, Hu by done. eexists. split; [reflexivity|]. unfold path_sound, queryPart. cbn.
    split; [done|]. split; [case_decide; auto|].
    destruct (decide (q = "")) as [->|Hne]; [done|]. by rewrite (bool_decide_true (q <> "")), orb_true_r.
Qed.

(** A printed URL is its path, a query up to the first [#], and the rest. *)
Lemma cut_URLString u :
  control_free (RawQuery u) = true -> Fragment u = "" ->
  exists t frag, match cut hash (URLString u) with Some p => p | None => (URLString u, "") end =
      (EscapedPath u +:+ t, frag)
    /\ query_text t /\ control_free t = true /\ control_free frag = true /\ (frag <> "" -> t <> "").
Proof.
  intros Hc Hf. rewrite URLString_parts. unfold fragmentPart. rewrite decide_False by auto.
  rewrite append_nil, cut_skip by apply EscapedPath_facts. unfold queryPart.
  destruct (ForceQuery u || _).
  - cbn [cut]. rewrite decide_False by done. destruct (cut hash (RawQuery u)) as [[a b]|] eqn:E.
    + apply cut_Some in E as [Eq _]. rewrite Eq, control_free_app in Hc.
      apply andb_true_iff in Hc as [Ha Hb]. exists (String question a), b.
      split_and!; [done|right; by eexists|exact Ha|exact Hb|done].
    + exists (String question (RawQuery u)), "". split_and!; [done|right; by eexists|exact Hc|done|done].
  - exists "", "". rewrite append_nil. split_and!; try done. by left.
Qed.

(** A URL that is printed and parsed again keeps its path. *)
Lemma Parse_URLString u v :
  control_free (RawQuery u) = true -> Fragment u = "" -> Parse (URLString u) = Some v ->
  Path v = Path u /\ path_sound v /\ control_free (queryPart v +:+ fragmentPart v) = true
  /\ query_text (queryPart v +:+ fragmentPart v).
Proof.
  intros Hc Hf. destruct (cut_URLString u Hc Hf) as (t & frag & E & Ht & Htc & Hfc & Hne).
  unfold Parse. rewrite E. destruct (EscapedPath_facts u) as (Hq & _ & Hp & Hu).
  destruct (ParseRequestURI_path _ _ t Hu Hq Hp Ht Htc) as (w & -> & Hw & Hws & Hwq).
  destruct (unescape frag) as [fragment|] eqn:Efrag; [|done]. intros [= <-].
  set (v := Build_URL _ _ _ _ _ _).
  assert (Hqv : queryPart v = t) by exact Hwq. rewrite Hqv.
  assert (Hfv : control_free (fragmentPart v) = true /\ (Fragment v <> "" -> t <> "")).
  { split.
    - unfold fragmentPart. case_decide; [|done]. change (control_free (EscapedFragment v) = true).
      apply EscapedFragment_control. cbn. by case_decide.
    - intros Hn. apply Hne. intros ->. by injection Efrag as <-. }
  destruct Hfv as [Hf1 Hf2]. split_and!; [done|done| |].
  - by rewrite control_free_app, Htc, Hf1.
  - unfold fragmentPart. destruct (decide (Fragment v <> "")) as [Hn|_]; [|by rewrite append_nil].
    destruct Ht as [->|[q ->]]; [by destruct (Hf2 Hn)|]. right. rewrite append_cons. by eexists.
Qed.

(** The location with a changed path. *)
Lemma URLString_changed q u :
  path_sound u -> q <> Path u -> q <> "*" ->
  URLString (withPath q u) = escape encodePath q +:+ (queryPart u +:+ fragmentPart u).
Proof. intros Hs Hq Hstar. by rewrite URLString_parts, EscapedPath_changed. Qed.
End Urls.
