(* ===== verification/Router.v ===== *)
(** * The router of the status pages

    The vendored gorilla/mux as [newHttpHandler] of [cli/http.go] uses it: a
    router with strict slashes and three path templates.  A template becomes an
    anchored pattern of literals and of variables that match anything but a
    slash; a request is redirected to the canonical form of its path, then to
    the form without a slash at its end, or dispatched to a handler, or not
    found. *)

From stdpp Require Import base list strings gmap option.
From Stdlib Require Import ZArith Lia Ascii.
From S2P Require Import Prelude GoStrings Models Database Registry Routing Gateway Http Urls.

#[local] Open Scope Z_scope.

Module Router.
Import Urls.

(** ** Patterns *)

Inductive piece := Lit (text : string) | Var (name : string).

Record routeRegexp := { template : string; strictSlash : bool; pattern : list piece }.

(** The pieces of a template.  A variable is the text between braces of the
    first level; variables with a pattern of their own, after a colon, are not
    used by the program. *)
Fixpoint parsePieces (level : nat) (raw var : string) (tpl : string) : option (list piece) :=
  match tpl with
  | EmptyString => if decide (level = 0)%nat then Some [Lit raw] else None
  | String c tpl =>
      if decide (c = "{"%char) then
        parsePieces (S level) raw (match level with O => "" | _ => var +:+ String c "" end) tpl
      else if decide (c = "}"%char) then
        match level with
        | O => None
        | S O =>
            if bool_decide (var = "") || contains_byte ":"%char var then None
            else (fun pieces => Lit raw :: Var var :: pieces) <$> parsePieces 0 "" "" tpl
        | S level => parsePieces level raw (var +:+ String c "") tpl
        end
      else match level with
           | O => parsePieces 0 (raw +:+ String c "") "" tpl
           | _ => parsePieces level raw (var +:+ String c "") tpl
           end
  end.

Fixpoint dropLast (s : string) : string :=
  match s with
  | EmptyString => ""
  | String _ EmptyString => ""
  | String c s' => String c (dropLast s')
  end.

Definition newRouteRegexp (tpl : string) (strict : bool) : option routeRegexp :=
  let body := if strict && endsInSlash tpl then dropLast tpl else tpl in
  (fun pieces => {| template := tpl; strictSlash := strict; pattern := pieces |})
    <$> parsePieces 0 "" "" body.

Abbreviation vars := (list (string * string)).

Fixpoint stripPrefix (prefix s : string) : option string :=
  match prefix, s with
  | EmptyString, _ => Some s
  | String a prefix, String b s => if decide (a = b) then stripPrefix prefix s else None
  | String _ _, EmptyString => None
  end.

(** [[^/]+], as many bytes as possible first: [pre] has been taken, [k] matches
    the rest of the pattern. *)
Fixpoint matchVar (k : string -> option vars) (name pre s : string) : option vars :=
  let stop := if decide (pre = "") then None else (cons (name, pre)) <$> k s in
  match s with
  | EmptyString => stop
  | String c s' =>
      if decide (c = slash) then stop
      else match matchVar k name (pre +:+ String c "") s' with
           | Some vs => Some vs
           | None => stop
           end
  end.

(** The anchored match, with the values of the variables; the end of the pattern
    is [[/]?$] if slashes are strict, and [$] otherwise. *)
Fixpoint matchPattern (strict : bool) (ps : list piece) (s : string) : option vars :=
  match ps with
  | [] => if decide (s = "" \/ (strict = true /\ s = "/")) then Some [] else None
  | Lit text :: ps =>
      match stripPrefix text s with
      | Some s => matchPattern strict ps s
      | None => None
      end
  | Var name :: ps => matchVar (matchPattern strict ps) name "" s
  end.

Definition matchRegexp (r : routeRegexp) (path : string) : option vars :=
  matchPattern (strictSlash r) (pattern r) path.

(** ** Routes *)

(** [mux.Vars(request)[name]] *)
Fixpoint getVar (vs : vars) (name : string) : string :=
  match vs with
  | [] => ""
  | (n, v) :: vs => if decide (n = name) then v else getVar vs name
  end.

Record Route := { regexp : routeRegexp; handler : vars -> Http.route }.

(** The routes of [newHttpHandler], in the order they are registered; a template
    that is not well-formed gives a route that never matches. *)
Definition routes : list Route :=
  omap (fun '(tpl, h) => (fun r => {| regexp := r; handler := h |}) <$> newRouteRegexp tpl true)
    [("/api/user", fun _ => Http.Users);
     ("/api/user/{userId}", fun vs => Http.OneUser (getVar vs "userId"));
     ("/api/user/{userId}/screenshot", fun vs => Http.UserScreenshot (getVar vs "userId"))].

Inductive reply :=
| BadRequest                       (* net/http does not accept the target *)
| Moved (location : string)        (* 301 *)
| Panicked                         (* recovered by net/http, which drops the connection *)
| Dispatched (r : Http.route)
| NotFound.

(** [http.hexEscapeNonASCII] *)
Fixpoint hexEscapeNonASCII (s : string) : string :=
  match s with
  | EmptyString => ""
  | String c s' =>
      if decide (128 <= code c) then
        String percent (digits 2 16 (code c) +:+ hexEscapeNonASCII s')
      else String c (hexEscapeNonASCII s')
  end.

(** [http.Redirect] to a location that starts with a slash. *)
Definition Redirect (url : string) : reply :=
  let url :=
    match Parse url with
    | None => url
    | Some _ =>
        let (url, query) :=
          match cut question url with
          | Some (url, query) => (url, String question query)
          | None => (url, "")
          end in
        let cleaned := match url with String _ rest => CleanRooted rest | EmptyString => "." end in
        (if endsInSlash url && negb (endsInSlash cleaned) then cleaned +:+ "/" else cleaned) +:+ query
    end in
  Moved (hexEscapeNonASCII url).

(** [setMatch]: the redirection that strict slashes ask for. *)
Definition strictRedirect (r : routeRegexp) (u : URL) : option reply :=
  let p1 := endsInSlash (Path u) in
  let p2 := endsInSlash (template r) in
  if negb (strictSlash r) || bool_decide (p1 = p2) then None
  else
    match Parse (URLString u) with
    | None => Some Panicked
    | Some v =>
        Some (Redirect (URLString (withPath (if p1 then dropLast (Path v) else Path v +:+ "/") v)))
    end.

Definition matchRoute (route : Route) (u : URL) : option reply :=
  match matchRegexp (regexp route) (Path u) with
  | None => None
  | Some vs =>
      match strictRedirect (regexp route) u with
      | Some r => Some r
      | None => Some (Dispatched (handler route vs))
      end
  end.

Fixpoint matchRoutes (rs : list Route) (u : URL) : reply :=
  match rs with
  | [] => NotFound
  | route :: rs => match matchRoute route u with Some r => r | None => matchRoutes rs u end
  end.

Definition cleanPath (p : string) : string :=
  match p with
  | EmptyString => "/"
  | String c rest =>
      let np := CleanRooted (if decide (c = slash) then rest else p) in
      if endsInSlash p && negb (bool_decide (np = "/")) then np +:+ "/" else np
  end.

(** [Router.ServeHTTP] *)
Definition serveURL (u : URL) : reply :=
  let p := cleanPath (Path u) in
  if decide (p <> Path u) then Moved (URLString (withPath p u))
  else matchRoutes routes u.

(** A request with a target that starts with a slash. *)
Definition serve (target : string) : reply :=
  match ParseRequestURI target with
  | None => BadRequest
  | Some u => serveURL u
  end.

(** ** Requests to a node *)

Section handler.
Context {DB : Type} `{Executor DB}.
Context (zone : time -> Z) (formatFloat : Z -> result string).

(** What a request is answered with, where it is answered with a page. *)
Definition serveHTTP (target : string) (now : time) (g : Routing.gateway DB)
    : Routing.gateway DB * (reply + Http.response) :=
  match serve target with
  | Dispatched r =>
      let (g, response) := Http.newHttpHandler zone formatFloat r now g in (g, inr response)
  | NotFound => (g, inr Http.notFound)
  | r => (g, inl r)
  end.
End handler.

(** ** Lemmas: patterns *)

Lemma stripPrefix_spec prefix s rest : stripPrefix prefix s = Some rest <-> s = prefix +:+ rest.
Proof.
  revert s. induction prefix as [|a prefix IH]; intros s.
  - split; [by intros [= <-]|by intros ->].
  - rewrite append_cons. destruct s as [|b s]; cbn [stripPrefix]; [split; intros [=]|].
    destruct (decide (a = b)) as [->|Hab].
    + rewrite IH. split; [by intros ->|by intros [= ->]].
    + split; [done|]. by intros [= ->].
Qed.

(** The first segment of a text and the rest, which starts with a slash. *)
Fixpoint span (s : string) : string * string :=
  match s with
  | EmptyString => ("", "")
  | String c s' => if decide (c = slash) then ("", s)
                   else let (segment, rest) := span s' in (String c segment, rest)
  end.

Lemma span_spec s :
  s = (span s).1 +:+ (span s).2 /\ contains_byte slash (span s).1 = false.
Proof.
  induction s as [|c s [IH1 IH2]]; [done|]. cbn [span]. destruct (decide (c = slash)) as [|Hc]; [done|].
  destruct (span s) as [segment rest]. cbn [fst snd] in *. rewrite append_cons, <- IH1.
  split; [done|]. cbn [contains_byte]. by rewrite bool_decide_false.
Qed.

Lemma span_app a b :
  contains_byte slash a = false -> b = "" \/ (exists t, b = String slash t) -> span (a +:+ b) = (a, b).
Proof.
  induction a as [|c a IH]; intros Ha Hb.
  - change ("" +:+ b) with b. destruct Hb as [->|[t ->]]; [done|]. cbn [span]. by rewrite decide_True.
  - cbn [contains_byte] in Ha. apply orb_false_iff in Ha as [Hc%bool_decide_eq_false Ha].
    rewrite append_cons. cbn [span]. by rewrite decide_False, IH.
Qed.

(** If the rest of the pattern starts with a slash or ends, a variable takes the
    whole segment. *)
Lemma matchVar_segment k name :
  (forall c s, c <> slash -> k (String c s) = None) ->
  forall s pre, matchVar k name pre s =
    if decide (pre +:+ (span s).1 = "") then None
    else (cons (name, pre +:+ (span s).1)) <$> k (span s).2.
Proof.
  intros Hk. induction s as [|c s IH]; intros pre.
  - cbn [matchVar span fst snd]. by rewrite append_nil.
  - cbn [matchVar span]. destruct (decide (c = slash)) as [Hc|Hc].
    { cbn [fst snd]. by rewrite append_nil. }
    rewrite IH. destruct (span s) as [segment rest]. cbn [fst snd].
    rewrite append_assoc. change (String c "" +:+ segment) with (String c segment).
    rewrite decide_False by (by destruct pre). destruct (k rest) as [vs|]; [done|].
    cbn [fmap option_fmap option_map]. rewrite (Hk c s Hc). by case_decide.
Qed.

Definition pattern2 : list piece := [Lit "/api/user/"; Var "userId"; Lit ""].
Definition pattern3 : list piece := [Lit "/api/user/"; Var "userId"; Lit "/screenshot"].

Definition route1 : Route :=
  {| regexp := {| template := "/api/user"; strictSlash := true; pattern := [Lit "/api/user"] |};
     handler := fun _ => Http.Users |}.
Definition route2 : Route :=
  {| regexp := {| template := "/api/user/{userId}"; strictSlash := true; pattern := pattern2 |};
     handler := fun vs => Http.OneUser (getVar vs "userId") |}.
Definition route3 : Route :=
  {| regexp := {| template := "/api/user/{userId}/screenshot"; strictSlash := true; pattern := pattern3 |};
     handler := fun vs => Http.UserScreenshot (getVar vs "userId") |}.

Lemma routes_spec : routes = [route1; route2; route3].
Proof. reflexivity. Qed.

Definition ending (e : string) : Prop := e = "" \/ e = "/".

Lemma match1 s : matchPattern true [Lit "/api/user"] s =
  if decide (s = "/api/user" \/ s = "/api/user/") then Some [] else None.
Proof.
  cbn [matchPattern]. destruct (stripPrefix "/api/user" s) as [rest|] eqn:E.
  - apply stripPrefix_spec in E as ->. destruct (decide (rest = "" \/ _)) as [[->|[_ ->]]|Hn].
    + by rewrite decide_True by (by left).
    + by rewrite decide_True by (by right).
    + rewrite decide_False; [done|]. intros [E|E]; apply Hn; destruct rest as [|c [|c' rest]]; try discriminate E;
        [by left|right]. split; [done|]. by injection E as ->.
  - rewrite decide_False; [done|]. intros [->| ->]; discriminate E.
Qed.

Lemma match_back back t :
  match matchPattern true [Lit back] t with
  | Some vs => vs = [] /\ exists e, ending e /\ t = back +:+ e
  | None => forall e, ending e -> t <> back +:+ e
  end.
Proof.
  cbn [matchPattern]. destruct (stripPrefix back t) as [r|] eqn:E.
  - apply stripPrefix_spec in E as ->. destruct (decide (r = "" \/ _)) as [Hr|Hr].
    + split; [done|]. exists r. split; [|done]. unfold ending. naive_solver.
    + intros e He E. apply (proj2 (stripPrefix_spec back _ _)) in E.
      rewrite (proj2 (stripPrefix_spec back _ r) eq_refl) in E. injection E as ->.
      unfold ending in He. naive_solver.
  - intros e He ->. rewrite (proj2 (stripPrefix_spec back _ e) eq_refl) in E. discriminate E.
Qed.

(** A variable followed by a literal: the text is the literal of the front, a
    segment, the literal of the back, and a slash or nothing. *)
Lemma match_var back s :
  (back = "" \/ exists t, back = String slash t) ->
  match matchPattern true [Lit "/api/user/"; Var "userId"; Lit back] s with
  | Some vs => exists x e, vs = [("userId", x)] /\ x <> "" /\ contains_byte slash x = false /\ ending e
      /\ s = "/api/user/" +:+ (x +:+ (back +:+ e))
  | None => forall x e, x <> "" -> contains_byte slash x = false -> ending e ->
      s <> "/api/user/" +:+ (x +:+ (back +:+ e))
  end.
Proof.
  intros Hb. set (k := matchPattern true [Lit back]).
  assert (Hk : forall c t, c <> slash -> k (String c t) = None).
  { intros c t Hc. unfold k. cbn [matchPattern]. destruct Hb as [->|[b ->]]; cbn [stripPrefix].
    - rewrite decide_False; [done|]. intros [E|[_ E]]; [done|]. injection E as E _. done.
    - by rewrite decide_False. }
  assert (Hkeep := match_back back : forall t, match k t with Some _ => _ | None => _ end).
  change (matchPattern true [Lit "/api/user/"; Var "userId"; Lit back] s) with
    (match stripPrefix "/api/user/" s with Some s => matchVar k "userId" "" s | None => None end).
  destruct (stripPrefix "/api/user/" s) as [t|] eqn:E.
  2: { intros x e _ _ _ ->. rewrite (proj2 (stripPrefix_spec _ _ _) eq_refl) in E. discriminate E. }
  apply stripPrefix_spec in E as ->. rewrite (matchVar_segment k "userId" Hk).
  destruct (span_spec t) as [Ht Hs]. change ("" +:+ (span t).1) with ((span t).1).
  assert (Hspan : forall x e, contains_byte slash x = false -> ending e ->
    "/api/user/" +:+ t = "/api/user/" +:+ (x +:+ (back +:+ e)) -> span t = (x, back +:+ e)).
  { intros x e Hx He E. apply (proj2 (stripPrefix_spec "/api/user/" _ _)) in E.
    rewrite (proj2 (stripPrefix_spec "/api/user/" _ t) eq_refl) in E. injection E as ->.
    apply span_app; [done|]. destruct Hb as [->|[b ->]]; [|right; by eexists].
    destruct He as [->| ->]; [by left|right; by eexists]. }
  specialize (Hkeep (span t).2). destruct (decide ((span t).1 = "")) as [Hne|Hne].
  { intros x e Hx Hxs He E. apply Hspan in E as E'; [|done..]. rewrite E' in Hne. done. }
  destruct (k (span t).2) as [vs|]; cbn [fmap option_fmap option_map].
  - destruct Hkeep as (-> & e & He & Hr). exists (span t).1, e. split_and!; try done.
    by rewrite <- Hr, <- Ht.
  - intros x e Hx Hxs He E. apply Hspan in E as E'; [|done..]. rewrite E' in Hkeep. by apply (Hkeep e).
Qed.

(** ** Lemmas: canonical paths *)

Lemma cleanPath_rooted parts dir :
  parts <> [] -> Forall element parts -> cleanPath (rooted parts dir) = rooted parts dir.
Proof.
  intros Hne Hp. pose proof (endsInSlash_rooted parts dir Hne Hp) as Hs. unfold cleanPath.
  unfold rooted in *. rewrite decide_True by done. rewrite Hs, (CleanRooted_elements parts dir Hne Hp).
  rewrite bool_decide_false.
  - destruct dir; [by rewrite append_cons|by rewrite append_nil].
  - intros [= E]. by destruct (lastByte_Join parts Hne Hp).
Qed.

(** The canonical form of a path is canonical. *)
Lemma cleanPath_canonical p :
  cleanPath p = "/" \/
  exists parts dir, parts <> [] /\ Forall element parts /\ cleanPath p = rooted parts dir.
Proof.
  destruct p as [|c rest]; [by left|]. unfold cleanPath.
  set (body := if decide (c = slash) then rest else String c rest). unfold CleanRooted.
  pose proof (cleanParts_elements _ (Split_parts slash body)) as He.
  destruct (cleanParts (Split slash body)) as [|part parts] eqn:E.
  { left. rewrite bool_decide_true by done. by rewrite andb_false_r. }
  right. exists (part :: parts). destruct (lastByte_Join (part :: parts) ltac:(done) He) as [Hj _].
  rewrite bool_decide_false by (intros [= Ej]; done). cbn [negb]. rewrite andb_true_r.
  destruct (endsInSlash (String c rest)).
  - exists true. split_and!; [done|done|]. unfold rooted. by rewrite append_cons.
  - exists false. split_and!; [done|done|]. unfold rooted. by rewrite append_nil.
Qed.

Lemma cleanPath_idemp p : cleanPath (cleanPath p) = cleanPath p.
Proof.
  destruct (cleanPath_canonical p) as [->|(parts & dir & Hne & Hp & ->)]; [done|].
  by apply cleanPath_rooted.
Qed.

(** The path of a page. *)
Definition pathOf (r : Http.route) : string :=
  match r with
  | Http.Users => "/api/user"
  | Http.OneUser userId => "/api/user/" +:+ userId
  | Http.UserScreenshot userId => "/api/user/" +:+ (userId +:+ "/screenshot")
  end.

(** The pages that have a path: the name of a user is an element of a path. *)
Definition addressable (r : Http.route) : Prop :=
  match r with
  | Http.Users => True
  | Http.OneUser userId | Http.UserScreenshot userId => element userId
  end.

Definition partsOf (r : Http.route) : list string :=
  match r with
  | Http.Users => ["api"; "user"]
  | Http.OneUser userId => ["api"; "user"; userId]
  | Http.UserScreenshot userId => ["api"; "user"; userId; "screenshot"]
  end.

Lemma pathOf_rooted r :
  pathOf r = rooted (partsOf r) false /\ pathOf r +:+ "/" = rooted (partsOf r) true.
Proof.
  destruct r as [|x|x]; [done| |]; unfold rooted; cbn [pathOf partsOf Join]; rewrite ?append_nil.
  - done.
  - by rewrite append_assoc.
Qed.

Lemma partsOf_elements r : addressable r -> partsOf r <> [] /\ Forall element (partsOf r).
Proof.
  assert (Hl : element "api" /\ element "user" /\ element "screenshot") by done.
  destruct Hl as (H1 & H2 & H3). destruct r; intros Hr; (split; [done|]); repeat constructor; done || apply Hr.
Qed.

(** ** Lemmas: dispatch *)

Definition segment (r : Http.route) : Prop :=
  match r with
  | Http.Users => True
  | Http.OneUser x | Http.UserScreenshot x => x <> "" /\ contains_byte slash x = false
  end.

Lemma addressable_segment r : addressable r -> segment r.
Proof. destruct r; [done|..]; intros (? & _ & _ & ?); done. Qed.

Lemma endsInSlash_app a b : b <> "" -> endsInSlash (a +:+ b) = endsInSlash b.
Proof. intros Hb. unfold endsInSlash. by rewrite lastByte_app. Qed.

Lemma endsInSlash_pathOf r e : segment r -> ending e -> endsInSlash (pathOf r +:+ e) = bool_decide (e = "/").
Proof.
  intros Hr [->| ->]; [|by rewrite endsInSlash_app]. rewrite append_nil. destruct r as [|x|x]; [done| |].
  - destruct Hr as [Hx Hs]. cbn [pathOf]. rewrite endsInSlash_app by done. apply bool_decide_eq_false.
    intros E%lastByte_contains. congruence.
  - cbn [pathOf]. rewrite <- append_assoc, endsInSlash_app by done. done.
Qed.

(** What strict slashes answer to a path with a slash too many. *)
Definition slashRedirect (u : URL) : reply :=
  match Parse (URLString u) with
  | None => Panicked
  | Some v => Redirect (URLString (withPath (dropLast (Path v)) v))
  end.

(** The answer of a route whose template does not end in a slash, to a path
    that is that of a page with an ending. *)
Lemma matchRoute_Some route u r e vs :
  strictSlash (regexp route) = true -> endsInSlash (template (regexp route)) = false ->
  matchRegexp (regexp route) (Path u) = Some vs -> handler route vs = r ->
  segment r -> ending e -> Path u = pathOf r +:+ e ->
  matchRoute route u = Some (if decide (e = "/") then slashRedirect u else Dispatched r).
Proof.
  intros Hs Ht Hm <- Hr He Hp. unfold matchRoute, strictRedirect, slashRedirect. rewrite Hm, Hs, Ht.
  rewrite Hp, endsInSlash_pathOf by done. destruct (decide (e = "/")) as [->|Hn].
  - rewrite (bool_decide_true ("/" = "/")) by done. cbn. by destruct (Parse _).
  - by rewrite (bool_decide_false (e = "/")) by done.
Qed.

Lemma matchRoute_None route u : matchRegexp (regexp route) (Path u) = None -> matchRoute route u = None.
Proof. intros E. unfold matchRoute. by rewrite E. Qed.

(** What the routes answer: the page whose path it is, a redirection from the
    path with a slash after it, or nothing. *)
Lemma matchRoutes_spec u :
  (exists r e, segment r /\ ending e /\ Path u = pathOf r +:+ e /\
     matchRoutes routes u = if decide (e = "/") then slashRedirect u else Dispatched r)
  \/ (matchRoutes routes u = NotFound /\
      forall r e, segment r -> ending e -> Path u <> pathOf r +:+ e).
Proof.
  rewrite routes_spec. cbn [matchRoutes].
  pose proof (match1 (Path u)) as H1.
  pose proof (match_var "" (Path u) ltac:(by left)) as H2. fold pattern2 in H2.
  pose proof (match_var "/screenshot" (Path u) ltac:(right; by eexists)) as H3. fold pattern3 in H3.
  destruct (matchPattern true [Lit "/api/user"] (Path u)) as [vs|] eqn:E1.
  { left. exists Http.Users. destruct (decide (Path u = "/api/user" \/ _)) as [Hp|]; [|done].
    assert (He : exists e, ending e /\ Path u = pathOf Http.Users +:+ e).
    { destruct Hp as [->| ->]; [exists ""; split; [by left|done]|exists "/"; split; [by right|done]]. }
    destruct He as (e & He & Hpe). exists e. split_and!; [done..|].
    by rewrite (matchRoute_Some route1 u Http.Users e vs). }
  rewrite (matchRoute_None route1 u E1).
  destruct (matchPattern true pattern2 (Path u)) as [vs|] eqn:E2.
  { left. destruct H2 as (x & e & -> & Hx & Hs & He & Hp). assert (Hp' : Path u = pathOf (Http.OneUser x) +:+ e).
    { rewrite Hp. cbn [pathOf]. by rewrite append_assoc. }
    exists (Http.OneUser x), e. split_and!; [done..|].
    by rewrite (matchRoute_Some route2 u (Http.OneUser x) e [("userId", x)]). }
  rewrite (matchRoute_None route2 u E2).
  destruct (matchPattern true pattern3 (Path u)) as [vs|] eqn:E3.
  { left. destruct H3 as (x & e & -> & Hx & Hs & He & Hp).
    assert (Hp' : Path u = pathOf (Http.UserScreenshot x) +:+ e).
    { rewrite Hp. cbn [pathOf]. by rewrite !append_assoc. }
    exists (Http.UserScreenshot x), e. split_and!; [done..|].
    by rewrite (matchRoute_Some route3 u (Http.UserScreenshot x) e [("userId", x)]). }
  rewrite (matchRoute_None route3 u E3).
  right. split; [done|]. intros [|x|x] e Hr He E; rewrite E in H1, H2, H3.
  - rewrite decide_True in H1; [discriminate H1|]. destruct He as [->| ->]; [by left|by right].
  - destruct Hr. apply (H2 x e); [done..|]. cbn [pathOf]. by rewrite append_assoc.
  - destruct Hr. apply (H3 x e); [done..|]. cbn [pathOf]. by rewrite !append_assoc.
Qed.

Lemma partsOf_slash_free r : segment r -> Forall (fun part => contains_byte slash part = false) (partsOf r).
Proof. destruct r; intros Hr; repeat constructor; apply Hr. Qed.

(** Different pages have different paths. *)
Lemma pathOf_inj r r' : segment r -> segment r' -> pathOf r = pathOf r' -> r = r'.
Proof.
  intros Hr Hr' E. assert (Hs : forall r, segment r -> Split slash (pathOf r) = "" :: partsOf r).
  { intros q Hq. rewrite (proj1 (pathOf_rooted q)). unfold rooted. rewrite append_nil.
    change (String slash (Join slash (partsOf q))) with ("" +:+ String slash (Join slash (partsOf q))).
    rewrite Split_app by done. rewrite Split_Join; [done|by destruct q|by apply partsOf_slash_free]. }
  apply (f_equal (Split slash)) in E. rewrite !Hs in E by done.
  destruct r, r'; cbn [partsOf] in E; congruence.
Qed.

Lemma slashRedirect_not_dispatched u r : slashRedirect u <> Dispatched r.
Proof. unfold slashRedirect. by destruct (Parse _). Qed.

Lemma cleanPath_addressable r : segment r -> cleanPath (pathOf r) = pathOf r -> addressable r.
Proof.
  destruct r as [|x|x]; [done|..]; intros [Hx Hs] E; (split_and!; [done| |..|done]);
    intros ->; vm_compute in E; discriminate E.
Qed.

(** Which requests are dispatched, and to what. *)
Lemma serveURL_dispatched u r : serveURL u = Dispatched r <-> Path u = pathOf r /\ addressable r.
Proof.
  unfold serveURL. destruct (matchRoutes_spec u) as [(r' & e & Hr & He & Hp & Hm)|[Hm Hno]].
  - rewrite Hm. split.
    + destruct (decide (_ <> _)) as [|Hc%dec_stable]; [done|].
      destruct (decide (e = "/")) as [|Hne]; [by intros ?%slashRedirect_not_dispatched|].
      intros [= <-]. destruct He as [->|]; [|done]. rewrite append_nil in Hp. split; [done|].
      apply cleanPath_addressable; [done|]. by rewrite <- Hp.
    + intros [Hu Ha]. destruct (partsOf_elements r Ha) as [Hne Hel].
      rewrite decide_False.
      2: { intros Hc. apply Hc. rewrite Hu, (proj1 (pathOf_rooted r)). by apply cleanPath_rooted. }
      pose proof (addressable_segment r Ha) as Hsr. assert (He' : e = "").
      { destruct He as [| ->]; [done|]. pose proof (endsInSlash_pathOf r "" Hsr ltac:(by left)) as E1.
        pose proof (endsInSlash_pathOf r' "/" Hr ltac:(by right)) as E2.
        rewrite append_nil in E1. rewrite <- Hp, Hu, E1 in E2. discriminate E2. }
      subst e. rewrite append_nil in Hp. rewrite decide_False by done. f_equal.
      apply pathOf_inj; [done..|]. congruence.
  - rewrite Hm. split; [by case_decide|]. intros [Hu Ha]. exfalso.
    apply (Hno r ""); [by apply addressable_segment|by left|]. by rewrite append_nil.
Qed.

(** ** Lemmas: redirections *)

Lemma dropLast_app s c : dropLast (s +:+ String c "") = s.
Proof.
  induction s as [|x s IH]; [done|]. rewrite append_cons. cbn [dropLast]. rewrite IH.
  by destruct s.
Qed.

Lemma hexEscape_plain a b :
  all_bytes plainByte a = true -> hexEscapeNonASCII (a +:+ b) = a +:+ hexEscapeNonASCII b.
Proof.
  induction a as [|c a IH]; [done|]. cbn [all_bytes]. intros [Hc Ha]%andb_true_iff.
  rewrite !append_cons. cbn [hexEscapeNonASCII]. unfold plainByte in Hc.
  apply andb_true_iff in Hc as [_ Hc%bool_decide_eq_true]. rewrite decide_False by lia. by rewrite IH.
Qed.

Lemma hexEscape_query t : query_text t -> query_text (hexEscapeNonASCII t).
Proof. intros [->|[q ->]]; [by left|]. right. cbn [hexEscapeNonASCII]. rewrite decide_False by (vm_compute; congruence). by eexists. Qed.

Lemma digits_control n : 128 <= n < 256 -> control_free (digits 2 16 n) = true.
Proof.
  intros Hn. assert (H : forallb (fun k => control_free (digits 2 16 (Z.of_nat k))) (seq 128 128) = true)
    by (vm_compute; reflexivity).
  rewrite forallb_forall in H. specialize (H (Z.to_nat n)). rewrite Z2Nat.id in H by lia.
  apply H, in_seq. lia.
Qed.

Lemma hexEscape_control t : control_free t = true -> control_free (hexEscapeNonASCII t) = true.
Proof.
  induction t as [|c t IH]; [done|]. unfold control_free at 1. cbn [all_bytes].
  intros [Hc Ht]%andb_true_iff. specialize (IH Ht). cbn [hexEscapeNonASCII]. case_decide.
  - rewrite <- append_cons, control_free_app, IH, andb_true_r.
    change (control_free (digits 2 16 (code c)) = true). apply digits_control. pose proof (byte_code_bound c). lia.
  - unfold control_free. cbn [all_bytes]. rewrite Hc. exact IH.
Qed.

(** A redirection to a canonical path is to that path. *)
Lemma Redirect_location parts tail :
  parts <> [] -> Forall element parts -> query_text tail ->
  Redirect (escape encodePath (rooted parts false) +:+ tail) =
    Moved (escape encodePath (rooted parts false) +:+ hexEscapeNonASCII tail).
Proof.
  intros Hne Hp Ht. pose proof (escape_plain (rooted parts false)) as Hpl.
  set (text := escape encodePath (rooted parts false)) in *.
  assert (Hel : Forall element (map (escape encodePath) parts)).
  { apply Forall_map. revert Hp. apply Forall_impl. apply escape_element. }
  assert (Hclean : text = rooted (map (escape encodePath) parts) false) by apply escape_rooted.
  assert (Hnil : map (escape encodePath) parts <> []) by (by destruct parts).
  unfold Redirect. rewrite <- hexEscape_plain by done. f_equal. f_equal.
  destruct (Parse _); [|done].
  replace (match cut question (text +:+ tail) with Some _ => _ | None => _ end) with (text, tail).
  2: { destruct (plain_facts _ Hpl) as (Hq & _). destruct Ht as [->|[q ->]];
       [by rewrite append_nil, cut_None|by rewrite cut_app]. }
  rewrite Hclean, (endsInSlash_rooted _ false Hnil Hel). cbn [andb]. f_equal.
  unfold rooted at 1. rewrite (CleanRooted_elements _ false Hnil Hel). unfold rooted. by rewrite append_nil.
Qed.

Lemma cleanPath_slash r :
  segment r -> cleanPath (pathOf r +:+ "/") = pathOf r +:+ "/" -> addressable r.
Proof.
  destruct r as [|x|x]; [done|..]; intros [Hx Hs] E; (split_and!; [done| |..|done]);
    intros ->; vm_compute in E; discriminate E.
Qed.

Lemma cleanPath_start p : exists rest, cleanPath p = String slash rest.
Proof.
  destruct (cleanPath_canonical p) as [->|(parts & dir & _ & _ & ->)]; by eexists.
Qed.

(** Where a redirection leads. *)
Lemma serveURL_moved target u loc :
  ParseRequestURI target = Some u -> serveURL u = Moved loc ->
  exists v, ParseRequestURI loc = Some v /\
    ((cleanPath (Path u) <> Path u /\ Path v = cleanPath (Path u))
     \/ exists r, addressable r /\ Path u = pathOf r +:+ "/" /\ Path v = pathOf r).
Proof.
  intros Hu. destruct (ParseRequestURI_inv target u Hu) as (Hs & Hc & Hf & Hr). unfold serveURL.
  destruct (decide (_ <> _)) as [Hne|Hclean%dec_stable].
  - intros [= <-]. destruct (cleanPath_start (Path u)) as [rest Erest].
    rewrite URLString_changed; [|done|done|by rewrite Erest].
    assert (Hfp : fragmentPart u = "") by (unfold fragmentPart; by rewrite decide_False by auto).
    rewrite Hfp, append_nil. destruct (plain_facts _ (escape_plain (cleanPath (Path u)))) as (Hq & _ & Hcf).
    destruct (ParseRequestURI_path _ _ (queryPart u) (unescape_escape encodePath (cleanPath (Path u))) Hq Hcf)
      as (v & Hv & Hp & _).
    + unfold queryPart. destruct (_ || _); [right; by eexists|by left].
    + unfold queryPart. by destruct (_ || _).
    + exists v. auto.
  - destruct (matchRoutes_spec u) as [(r & e & Hsr & He & Hp & ->)|[-> _]]; [|done].
    destruct (decide (e = "/")) as [->|]; [|done]. unfold slashRedirect.
    destruct (Parse (URLString u)) as [v|] eqn:Ev; [|done].
    destruct (Parse_URLString u v Hc Hf Ev) as (Hpath & Hps & Hct & Hqt).
    assert (Ha : addressable r) by (apply cleanPath_slash; [done|]; by rewrite <- Hp).
    destruct (partsOf_elements r Ha) as [Hne Hel]. destruct (pathOf_rooted r) as [Hroot _].
    rewrite Hpath, Hp. change "/" with (String slash "") at 1. rewrite dropLast_app.
    rewrite URLString_changed; [|done| |by destruct r].
    2: { rewrite Hpath, Hp. intros E. apply (f_equal String.length) in E. rewrite String_length_app in E.
         simpl in E. lia. }
    rewrite Hroot, Redirect_location by done. intros [= <-].
    destruct (plain_facts _ (escape_plain (rooted (partsOf r) false))) as (Hq & _ & Hcf).
    destruct (ParseRequestURI_path _ _ (hexEscapeNonASCII (queryPart v +:+ fragmentPart v))
      (unescape_escape encodePath (rooted (partsOf r) false)) Hq Hcf (hexEscape_query _ Hqt)
      (hexEscape_control _ Hct)) as (w & Hw & Hwp & _).
    exists w. split; [done|]. right. exists r. by rewrite Hwp, Hroot.
Qed.

(** ** Theorems *)

Lemma serve_path target r u :
  ParseRequestURI target = Some u -> Path u = pathOf r -> addressable r -> serve target = Dispatched r.
Proof. intros Hu Hp Ha. unfold serve. rewrite Hu. by apply serveURL_dispatched. Qed.

Lemma serve_pathOf r : addressable r -> serve (escape encodePath (pathOf r)) = Dispatched r.
Proof.
  intros Ha. destruct (plain_facts _ (escape_plain (pathOf r))) as (Hq & _ & Hc).
  destruct (ParseRequestURI_path _ _ "" (unescape_escape encodePath (pathOf r)) Hq Hc) as (u & Hu & Hp & _);
    [by left|done|]. rewrite append_nil in Hu. by apply (serve_path _ r u).
Qed.

(** C25: A request reaches exactly the page whose path it says.  A target is
    dispatched to a page if and only if its path decodes to that of the page,
    and the page is that of the list or of a user whose name is an element of a
    path: not empty, not [.] or [..], without a slash.  Each of these pages is
    reached by its encoded path, whatever bytes the name has; for other names
    there is no request.  Redirections end: the first is to an accepted target,
    and a second one is to a page. *)
Theorem router_spec (target : string) (r : Http.route) :
  (serve target = Dispatched r <->
     addressable r /\ exists u, ParseRequestURI target = Some u /\ Path u = pathOf r)
  /\ (addressable r -> serve (escape encodePath (pathOf r)) = Dispatched r)
  /\ (forall location, serve target = Moved location ->
        match serve location with
        | BadRequest => False
        | Moved location' => exists r', serve location' = Dispatched r'
        | _ => True
        end).
Proof.
  split; [|split; [apply serve_pathOf|]].
  - unfold serve. destruct (ParseRequestURI target) as [u|].
    + rewrite serveURL_dispatched. naive_solver.
    + naive_solver.
  - intros location. unfold serve at 1. destruct (ParseRequestURI target) as [u|] eqn:Hu; [|done].
    intros Hm. destruct (serveURL_moved target u location Hu Hm) as (v & Hv & Hcase).
    unfold serve at 1. rewrite Hv. destruct (serveURL v) as [|location'| | |] eqn:Em; try done.
    + unfold serveURL in Em. case_decide; [done|]. destruct (matchRoutes_spec v) as [(q & e & _ & _ & _ & E)|[E _]];
        rewrite E in Em; [|done]. case_decide; [|done]. unfold slashRedirect in Em. by destruct (Parse _).
    + destruct (serveURL_moved location v location' Hv Em) as (w & Hw & [[Hne _]|(r' & Ha & _ & Hp)]).
      * destruct Hcase as [[_ Hp]|(r' & Ha & _ & Hp)]; exfalso; apply Hne; rewrite Hp.
        -- apply cleanPath_idemp.
        -- destruct (partsOf_elements r' Ha). rewrite (proj1 (pathOf_rooted r')). by apply cleanPath_rooted.
      * exists r'. by apply (serve_path _ r' w).
Qed.

(** The handler gives up on a request whose query has a malformed fragment,
    where the path has a slash too many: the URL is printed, parsed again, and
    used without a look at the error. *)
Theorem malformed_fragment_panics (r : Http.route) (query fragment : string) :
  addressable r -> control_free query = true -> control_free fragment = true ->
  contains_byte hash query = false -> unescape fragment = None ->
  serve (escape encodePath (pathOf r +:+ "/") +:+ String question (query +:+ String hash fragment)) = Panicked.
Proof.
  intros Ha Hq Hf Hh Hu. destruct (plain_facts _ (escape_plain (pathOf r +:+ "/"))) as (Hqp & _ & Hcp).
  destruct (ParseRequestURI_path _ _ (String question (query +:+ String hash fragment))
    (unescape_escape encodePath (pathOf r +:+ "/")) Hqp Hcp) as (u & Hpu & Hp & _ & Hqu).
  { right. by eexists. }
  { change (String question ?t) with ("?" +:+ t). change (String hash fragment) with ("#" +:+ fragment).
    by rewrite !control_free_app, Hq, Hf. }
  unfold serve. rewrite Hpu. unfold serveURL. destruct (partsOf_elements r Ha) as [Hne Hel].
  rewrite decide_False.
  2: { rewrite Hp, (proj2 (pathOf_rooted r)). intros E. by apply E, cleanPath_rooted. }
  destruct (matchRoutes_spec u) as [(r' & e & Hr' & He & Hp' & ->)|[_ Hno]].
  - rewrite Hp in Hp'. pose proof (endsInSlash_pathOf r "/" (addressable_segment r Ha) ltac:(by right)) as E1.
    pose proof (endsInSlash_pathOf r' e Hr' He) as E2. rewrite <- Hp', E1 in E2.
    rewrite decide_True by (by apply (bool_decide_eq_true (e = "/"))).
    destruct (ParseRequestURI_inv _ u Hpu) as (Hs & Hc & Hfr & _).
    unfold slashRedirect, Parse. rewrite URLString_parts. unfold fragmentPart. rewrite decide_False by auto.
    rewrite append_nil, Hqu, cut_skip by apply EscapedPath_facts. cbn [cut]. rewrite decide_False by done.
    rewrite cut_app by done. rewrite Hu.
    by destruct (ParseRequestURI (EscapedPath u +:+ String question query)).
  - exfalso. apply (Hno r "/"); [by apply addressable_segment|by right|done].
Qed.
End Router.
