(* ===== verification/Channels.v ===== *)
(** * Channels of a connection, [gateway/connection.go]

    [handleChannel] and what it dispatches to: sessions, tunnels and the
    postgres bridge for peer nodes.  What a handler does to the outside is a
    list of effects: the channel it accepts or closes and the goroutines it
    starts.  The goroutine of a tunnel is a value ([tunnelJob], what its
    closure captures) that runs later, on the gateway as it is then. *)

From stdpp Require Import base list strings gmap fin_maps option.
From Stdlib Require Import ZArith Lia.
From Stdlib Require Import Strings.Byte.
From S2P Require Import Prelude GoStrings Bytes Wire RouteCache Usage Models Database Connection.
From S2P Require Import Registry Peers Routing.

#[local] Open Scope Z_scope.

Module Channels.
Import Routing.

Definition Prohibited : Z := 1.
Definition ConnectionFailed : Z := 2.
Definition UnknownChannelType : Z := 3.

Record newChannel := { ChannelType : string; ExtraData : list byte }.

(** What the goroutine of [handleTunnelChannel] captures. *)
Record tunnelJob := {
  job_channel : newChannel;
  job_data : tunnelData;
  job_local : option (positive * string * Z);   (* otherConnection, host, port *)
  job_remote : option positive;                 (* remotePeer *)
}.

Inductive effect : Type :=
| Accepted                        (* newChannel.Accept() *)
| StartSession                    (* go handleSession(...) *)
| StartTunnel (job : tunnelJob)   (* the goroutine of handleTunnelChannel *)
| StartPostgres (address : string) (* the goroutines of handlePostgresChannel *)
| StartDiscard                    (* go ssh.DiscardRequests(requests) *)
| ClosedChannel.                  (* channel.Close() *)

(** The [(ok, rejection, message, err)] the three handlers return. *)
Record verdict := { ok : bool; rejection : Z; message : string; err : option error }.

Definition handled (e : option error) : verdict :=
  {| ok := true; rejection := 0; message := ""; err := e |}.
Definition rejected (reason : Z) (text : string) (e : option error) : verdict :=
  {| ok := false; rejection := reason; message := text; err := e |}.

(** [accept] is the error of [newChannel.Accept()]. *)
Definition handleSessionChannel (accept : option error) (channel : newChannel)
    : list effect * verdict :=
  if decide (len (ExtraData channel) > 0) then
    ([], rejected Prohibited "extra data not allowed" (Some Conn.ErrExtraDataNotAllowed))
  else match accept with
       | Some e => ([Accepted], handled (Some e))
       | None => ([Accepted; StartSession], handled None)
       end.

Definition handlePostgresChannel (settings : Settings) (accept : option error)
    (self : Conn.connection) : list effect * verdict :=
  if decide (Conn.nodeId self = "") then
    ([], rejected Prohibited "permission denied" (Some Conn.ErrPermissionDenied))
  else if decide (PostgresAddress settings = "") then
    ([], rejected Prohibited "permission denied" (Some Conn.ErrPermissionDenied))
  else match accept with
       | Some e => ([Accepted], handled (Some e))
       | None => ([Accepted; StartDiscard; StartPostgres (PostgresAddress settings)], handled None)
       end.

Section channels.
Context {DB : Type} `{Executor DB}.

Definition handleTunnelChannel (settings : Settings) (clock : nat -> time)
    (accept : option error) (channel : newChannel) (self : Conn.connection) (g : gateway DB)
    : gateway DB * list effect * verdict :=
  match unmarshalTunnelData (ExtraData channel) with
  | Err e => (g, [], rejected UnknownChannelType "failed to decode extra data" (Some e))
  | Ok data =>
      if decide (Conn.nodeId self <> "" /\ td_Host data = "postgres" /\ td_Port data = 5432) then
        let (effects, v) := handlePostgresChannel settings accept self in (g, effects, v)
      else if decide (Conn.permitPortForwarding self = false /\ Conn.nodeId self = "") then
        (g, [], rejected Prohibited "permission denied" (Some Conn.ErrPermissionDenied))
      else if decide (td_Port data > 65535) then
        (g, [], rejected ConnectionFailed
                   ("port " +:+ formatUint32 (td_Port data) +:+ " is out of range (max 65535)")
                   None)
      else
        let portU16 := uint16 (td_Port data) in
        let other := Registry.lookupConnectionService (connections g) (td_Host data) portU16
                                                      (registry g) in
        let (g, remotePeer) :=
          if decide (other = None /\ Conn.nodeId self = "")
          then lookupRemotePeer settings clock (td_Host data) g else (g, None) in
        if decide (other = None /\ remotePeer = None) then
          (g, [], rejected ConnectionFailed "service not found or not online" None)
        else match accept with
             | Some e => (g, [Accepted], handled (Some e))
             | None =>
                 (g, [Accepted; StartTunnel {| job_channel := channel; job_data := data;
                                               job_local := other; job_remote := remotePeer |}],
                  handled None)
             end
  end.

(** [handleChannel]; [closeErr] is the error of [channel.Close()]. *)
Definition handleChannel (settings : Settings) (clock : nat -> time)
    (accept closeErr : option error) (channel : newChannel) (self : Conn.connection)
    (g : gateway DB) : gateway DB * list effect * option error :=
  let '(g, effects, v) :=
    if decide (ChannelType channel = "session") then
      if decide (Conn.nodeId self <> "") then
        (g, [], rejected Prohibited "sessions not allowed on peer connections" None)
      else let (effects, v) := handleSessionChannel accept channel in (g, effects, v)
    else if decide (ChannelType channel = "direct-tcpip") then
      handleTunnelChannel settings clock accept channel self g
    else (g, [], rejected UnknownChannelType "unknown channel type"
                   (Some Conn.ErrUnknownChannelType)) in
  match err v with
  | Some e => (g, effects, Some e)
  | None =>
      if ok v then (g, effects, None)
      else match accept with
           | Some e => (g, effects ++ [Accepted], Some e)
           | None => (g, effects ++ [Accepted; StartDiscard; ClosedChannel], closeErr)
           end
  end.

(** ** The goroutine of a tunnel *)

Definition jobTarget (job : tunnelJob) : option (target * string * tunnelData) :=
  match job_remote job, job_local job with
  | Some p, _ => Some (RemotePeer p, "direct-tcpip", job_data job)
  | None, Some (c, host, port) =>
      Some (LocalConnection c, "forwarded-tcpip",
            {| td_Host := host; td_Port := uint32 port;
               td_OriginAddress := td_OriginAddress (job_data job);
               td_OriginPort := td_OriginPort (job_data job) |})
  | None, None => None
  end.

Definition toMetadata (to : target) (g : gateway DB) : json :=
  match to with
  | RemotePeer p => JObject [("nodeId", JString (Peers.nodeId (peerHeap g !!! p)))]
  | LocalConnection c =>
      JObject [("user", JString (Conn.user (connections g !!! c)));
               ("address", JString (Conn.remoteAddress (connections g !!! c)))]
  end.

(** The body of the goroutine up to the copying: the tunnel of the client's
    channel ([self]'s, at [ptr1]), then that of the channel to the target (at
    [ptr2]).  The result is the request made to the target and the tunnels,
    the second only if the target accepted. *)
Definition runTunnel (world : opening -> option error) (ptr1 ptr2 : positive) (self : positive)
    (job : tunnelJob) (g : gateway DB)
    : option (gateway DB * opening * Conn.tunnel * option Conn.tunnel) :=
  match jobTarget job with
  | None => None
  | Some (to, targetChannelType, d) =>
      let data := job_data job in
      let targetData := marshalTunnelData d in
      let service := ("service", serviceMetadata (td_Host data) (td_Port data)) in
      let (h, thisTunnel) :=
        newTunnel ptr1 (Some self) (ChannelType (job_channel job)) (ExtraData (job_channel job))
          (JObject [("origin", JString (td_OriginAddress data)); ("to", toMetadata to g); service])
          (connections g) in
      let g := set_connections h g in
      let o := {| open_to := to; open_channelType := targetChannelType; open_data := targetData |} in
      let from := JObject [("address", JString (Conn.remoteAddress (connections g !!! self)));
                           ("user", JString (Conn.user (connections g !!! self)))] in
      match openTunnel (world o) ptr2 to targetChannelType targetData
              (JObject [("origin", JString (td_OriginAddress data)); ("from", from); service]) g with
      | (g, Err _) =>
          (match to with
           | RemotePeer _ => Some (invalidateRoutes (td_Host data) g, o, thisTunnel, None)
           | LocalConnection _ => Some (g, o, thisTunnel, None)
           end)
      | (g, Ok otherTunnel) => Some (g, o, thisTunnel, Some otherTunnel)
      end
  end.

(** The end of a tunnel's request loop, after [tunnel.close()]. *)
Definition endTunnel (t : Conn.tunnel) (g : gateway DB) : gateway DB :=
  match Conn.tunnel_connection t with
  | Some c => set_connections (alter (Conn.deleteTunnel (Conn.tunnel_ptr t)) c (connections g)) g
  | None => g
  end.

(** ** Authorization *)

(** What a request for a channel on the connection [self] may start. *)
Definition may_start (settings : Settings) (channel : newChannel) (self : Conn.connection)
    (g : gateway DB) (x : effect) : Prop :=
  match x with
  | StartSession =>
      ChannelType channel = "session" /\ ExtraData channel = [] /\ Conn.nodeId self = ""
  | StartPostgres address =>
      ChannelType channel = "direct-tcpip" /\ Conn.nodeId self <> "" /\
      address = PostgresAddress settings /\ address <> ""
  | StartTunnel job =>
      ChannelType channel = "direct-tcpip" /\ job_channel job = channel /\
      (Conn.permitPortForwarding self = true \/ Conn.nodeId self <> "") /\
      unmarshalTunnelData (ExtraData channel) = Ok (job_data job) /\
      job_local job = Registry.lookupConnectionService (connections g) (td_Host (job_data job))
                        (uint16 (td_Port (job_data job))) (registry g) /\
      (job_local job = None <-> job_remote job <> None) /\
      (Conn.nodeId self <> "" -> job_remote job = None)
  | Accepted | StartDiscard | ClosedChannel => True
  end.

Lemma lookupRemotePeer_gateway settings clock host (g : gateway DB) :
  connections (lookupRemotePeer settings clock host g).1 = connections g /\
  registry (lookupRemotePeer settings clock host g).1 = registry g.
Proof.
  unfold lookupRemotePeer. case_decide; [done|].
  by destruct (lookupRemoteUsers _ _ _ _ _ _) as [[??]?].
Qed.

(** The lookups of a tunnel request: only a user's request that no local
    connection serves asks for a peer. *)
Lemma remote_lookup settings clock host (local : option (positive * string * Z)) self
    (g g' : gateway DB) remote :
  (if decide (local = None /\ Conn.nodeId self = "")
   then lookupRemotePeer settings clock host g else (g, None)) = (g', remote) ->
  connections g' = connections g /\ registry g' = registry g /\
  (remote = None \/ (local = None /\ Conn.nodeId self = "")).
Proof.
  case_decide; intros E; [|simplify_eq; auto].
  pose proof (lookupRemotePeer_gateway settings clock host g) as Hg. rewrite E in Hg.
  simpl in Hg. tauto.
Qed.

Lemma handleTunnelChannel_effects settings clock accept channel self g g' effects v :
  ChannelType channel = "direct-tcpip" ->
  handleTunnelChannel settings clock accept channel self g = (g', effects, v) ->
  connections g' = connections g /\ registry g' = registry g /\
  Forall (may_start settings channel self g) effects.
Proof.
  intros Ht. unfold handleTunnelChannel. destruct (unmarshalTunnelData _) as [data|e] eqn:Ed;
    [|by intros; simplify_eq; auto].
  case_decide as Hpg.
  { unfold handlePostgresChannel. rewrite decide_False by naive_solver.
    case_decide; [|destruct accept]; intros; simplify_eq; repeat constructor; naive_solver. }
  case_decide as Hperm; [by intros; simplify_eq; auto|].
  case_decide; [by intros; simplify_eq; auto|].
  set (other := Registry.lookupConnectionService _ _ _ _).
  destruct (if decide (other = None /\ Conn.nodeId self = "") then _ else _)
    as [g1 remotePeer] eqn:E. apply remote_lookup in E as (Hc & Hr & Hone).
  case_decide as Hnone; [by intros; simplify_eq; auto|].
  destruct accept; intros; simplify_eq; (split; [done|]); (split; [done|]).
  { by repeat constructor. }
  constructor; [done|]. constructor; [|constructor]. simpl.
  split; [done|]. split; [done|]. split; [|split; [done|]; split; [done|]; split].
  - destruct (Conn.permitPortForwarding self); [by left|right; naive_solver].
  - destruct remotePeer, other; naive_solver.
  - destruct remotePeer; naive_solver.
Qed.

Lemma handleChannel_effects (settings : Settings) (clock : nat -> time)
    (accept closeErr : option error) (channel : newChannel) (self : Conn.connection)
    (g : gateway DB) :
  let '(g', effects, e) := handleChannel settings clock accept closeErr channel self g in
  connections g' = connections g /\ registry g' = registry g /\
  Forall (may_start settings channel self g) effects.
Proof.
  unfold handleChannel.
  destruct (if decide (ChannelType channel = "session") then _ else _) as [[g1 effects] v] eqn:E.
  assert (Hmid : connections g1 = connections g /\ registry g1 = registry g /\
                 Forall (may_start settings channel self g) effects).
  { case_decide as Hs; [case_decide as Hn; [by simplify_eq; auto|]|].
    - unfold handleSessionChannel in E. case_decide as Hx; [by simplify_eq; auto|].
      assert (ExtraData channel = []) by (destruct (ExtraData channel); [done|];
        unfold len in Hx; simpl in Hx; lia).
      assert (Conn.nodeId self = "") by (destruct (decide (Conn.nodeId self = "")); naive_solver).
      destruct accept; simplify_eq/=; split_and!; try done; repeat constructor; done.
    - case_decide as Ht; [by eapply handleTunnelChannel_effects|by simplify_eq; auto]. }
  destruct Hmid as (Hc & Hr & Hf).
  destruct (err v); [done|]. destruct (ok v); [done|].
  destruct accept; (split_and!; [done..|]); apply Forall_app; split; by repeat constructor.
Qed.

(** C2: what a channel request may start.  A session only starts on a user's
    connection, on a channel without extra data; the bridge to the database
    only for a peer node, where an address is configured; a tunnel only for a
    user allowed to forward ports or for a peer node, towards the service a
    local connection advertises or else, for a user, towards a peer: a tunnel
    a peer asked for never goes to another peer. *)
Theorem handleChannel_authorized (settings : Settings) (clock : nat -> time)
    (accept closeErr : option error) (channel : newChannel) (self : Conn.connection)
    (g : gateway DB) :
  let '(g', effects, e) := handleChannel settings clock accept closeErr channel self g in
  connections g' = connections g /\ registry g' = registry g /\
  Forall (may_start settings channel self g) effects.
Proof. apply handleChannel_effects. Qed.

(** ** One hop through the mesh *)

(** The request the goroutine of a job makes. *)
Definition jobOpening (job : tunnelJob) : option opening :=
  (fun '(to, channelType, d) =>
     {| open_to := to; open_channelType := channelType; open_data := marshalTunnelData d |})
  <$> jobTarget job.

Lemma runTunnel_opening world ptr1 ptr2 self job g :
  (fun r => r.1.1.2) <$> runTunnel world ptr1 ptr2 self job g = jobOpening job.
Proof.
  unfold runTunnel, jobOpening. destruct (jobTarget job) as [[[to channelType] d]|]; [|done].
  simpl. destruct (world _); [by destruct to|]. by destruct to.
Qed.

Lemma uint16_port data payload :
  len payload < 4294967296 -> unmarshalTunnelData payload = Ok data ->
  uint16 (td_Port data) = td_Port data /\ ~ td_Port data > 65535.
Proof.
  intros Hlen Hd. apply unmarshalTunnelData_iff in Hd as [_ (_ & Hp & _)]; [|done].
  split; [apply uint16_small|]; lia.
Qed.

(** A permitted tunnel request whose channel is accepted. *)
Lemma handleChannel_tunnel settings clock closeErr channel self (g : gateway DB) data :
  ChannelType channel = "direct-tcpip" -> len (ExtraData channel) < 4294967296 ->
  unmarshalTunnelData (ExtraData channel) = Ok data ->
  ~ (Conn.nodeId self <> "" /\ td_Host data = "postgres" /\ td_Port data = 5432) ->
  ~ (Conn.permitPortForwarding self = false /\ Conn.nodeId self = "") ->
  handleChannel settings clock None closeErr channel self g =
  let other := Registry.lookupConnectionService (connections g) (td_Host data) (td_Port data)
                                                (registry g) in
  let (g', remote) :=
    if decide (other = None /\ Conn.nodeId self = "")
    then lookupRemotePeer settings clock (td_Host data) g else (g, None) in
  if decide (other = None /\ remote = None)
  then (g', [Accepted; StartDiscard; ClosedChannel], closeErr)
  else (g', [Accepted; StartTunnel {| job_channel := channel; job_data := data;
                                      job_local := other; job_remote := remote |}], None).
Proof.
  intros Ht Hlen Hd Hpg Hperm. destruct (uint16_port _ _ Hlen Hd) as [Hport Hrange].
  unfold handleChannel, handleTunnelChannel. rewrite Ht, Hd, Hport.
  rewrite decide_False by done. rewrite decide_True by done.
  rewrite decide_False by done. rewrite decide_False by done. rewrite decide_False by done.
  cbv zeta. destruct (if decide (_ = None /\ Conn.nodeId self = "") then _ else _) as [g' remote].
  by case_decide.
Qed.

(** The request leaves the first node as it came. *)
Lemma hop_out settings clock closeErr channel self (g : gateway DB) data p :
  ChannelType channel = "direct-tcpip" -> len (ExtraData channel) < 4294967296 ->
  unmarshalTunnelData (ExtraData channel) = Ok data ->
  Conn.nodeId self = "" -> Conn.permitPortForwarding self = true ->
  Registry.lookupConnectionService (connections g) (td_Host data) (td_Port data) (registry g)
    = None ->
  (lookupRemotePeer settings clock (td_Host data) g).2 = Some p ->
  exists job,
    handleChannel settings clock None closeErr channel self g =
      ((lookupRemotePeer settings clock (td_Host data) g).1, [Accepted; StartTunnel job], None) /\
    jobOpening job = Some {| open_to := RemotePeer p; open_channelType := ChannelType channel;
                             open_data := ExtraData channel |}.
Proof.
  intros Ht Hlen Hd Hn Hperm Hlocal Hremote.
  rewrite (handleChannel_tunnel _ _ _ _ _ _ data) by (done || intuition congruence). cbv zeta.
  rewrite Hlocal, decide_True by done.
  destruct (lookupRemotePeer _ _ _ _) as [g1 remote]. simpl in Hremote |- *. subst remote.
  rewrite decide_False by (intuition congruence). eexists. split; [reflexivity|].
  apply unmarshalTunnelData_iff in Hd as [Hd _]; [|done].
  unfold jobOpening. simpl. by rewrite Ht, Hd.
Qed.

(** The second node serves it from a local connection, or not at all. *)
Lemma hop_in settings clock closeErr channel peer (g : gateway DB) data :
  ChannelType channel = "direct-tcpip" -> len (ExtraData channel) < 4294967296 ->
  unmarshalTunnelData (ExtraData channel) = Ok data ->
  Conn.nodeId peer <> "" -> ~ (td_Host data = "postgres" /\ td_Port data = 5432) ->
  match Registry.lookupConnectionService (connections g) (td_Host data) (td_Port data)
                                         (registry g) with
  | Some (c, service, port) => exists job,
      handleChannel settings clock None closeErr channel peer g =
        (g, [Accepted; StartTunnel job], None) /\
      jobOpening job =
        Some {| open_to := LocalConnection c; open_channelType := "forwarded-tcpip";
                open_data := marshalTunnelData
                  {| td_Host := service; td_Port := uint32 port;
                     td_OriginAddress := td_OriginAddress data;
                     td_OriginPort := td_OriginPort data |} |}
  | None => handleChannel settings clock None closeErr channel peer g =
              (g, [Accepted; StartDiscard; ClosedChannel], closeErr)
  end.
Proof.
  intros Ht Hlen Hd Hpeer Hpg.
  rewrite (handleChannel_tunnel _ _ _ _ _ _ data) by (done || intuition congruence). cbv zeta.
  destruct (Registry.lookupConnectionService _ _ _ _) as [[[c service] port]|].
  - rewrite !decide_False by (intuition congruence). eexists. split; [reflexivity|done].
  - rewrite decide_False by (intuition congruence). by rewrite decide_True.
Qed.


(** ** The life of a tunnel *)

(** No tunnel of the connection has the address. *)
Definition fresh_ptr (ptr : positive) (h : Registry.heap) : Prop :=
  forall p c, h !! p = Some c -> Forall (fun t => Conn.tunnel_ptr t <> ptr) (Conn.tunnels c).

(** Equal but for the two counters, which have advanced together. *)
Definition settled (c c' : Conn.connection) : Prop :=
  exists n, c' = Conn.set_tunnels (Conn.tunnels c) (uint64 (Conn.tunnelsOpened c + n))
                                  (uint64 (Conn.tunnelsClosed c + n)) c.

Lemma filter_fresh ptr (ts : list Conn.tunnel) :
  Forall (fun t => Conn.tunnel_ptr t <> ptr) ts ->
  filter (fun t => Conn.tunnel_ptr t <> ptr) ts = ts.
Proof. induction 1; [done|]. rewrite filter_cons_True by done. by f_equal. Qed.

(** A tunnel on its owner's list, if it has an owner. *)
Definition onOwner (f : Conn.connection -> Conn.connection) (t : Conn.tunnel) (h : Registry.heap)
    : Registry.heap :=
  match Conn.tunnel_connection t with Some c => alter f c h | None => h end.

Lemma runTunnel_spec world ptr1 ptr2 self job (g g' : gateway DB) o this other :
  runTunnel world ptr1 ptr2 self job g = Some (g', o, this, other) ->
  Conn.tunnel_ptr this = ptr1 /\ Conn.tunnel_connection this = Some self /\
  (forall t, other = Some t -> Conn.tunnel_ptr t = ptr2) /\
  connections g' = from_option (fun t => onOwner (Conn.addTunnel t) t) (fun h => h) other
                     (alter (Conn.addTunnel this) self (connections g)).
Proof.
  unfold runTunnel. destruct (jobTarget job) as [[[to channelType] d]|]; [|done].
  cbn. destruct (world _) as [e|], to; intros [= <- <- <- <-];
    split_and!; try done; intros t [=]; by subst.
Qed.

Lemma settled_one c t :
  Forall (fun x => Conn.tunnel_ptr x <> Conn.tunnel_ptr t) (Conn.tunnels c) ->
  settled c (Conn.deleteTunnel (Conn.tunnel_ptr t) (Conn.addTunnel t c)).
Proof.
  intros Hf. exists 1. unfold Conn.deleteTunnel, Conn.addTunnel, Conn.set_tunnels. simpl.
  rewrite filter_cons_False by auto. by rewrite filter_fresh.
Qed.

Lemma settled_two c t1 t2 :
  Conn.tunnel_ptr t1 <> Conn.tunnel_ptr t2 ->
  Forall (fun x => Conn.tunnel_ptr x <> Conn.tunnel_ptr t1) (Conn.tunnels c) ->
  Forall (fun x => Conn.tunnel_ptr x <> Conn.tunnel_ptr t2) (Conn.tunnels c) ->
  settled c (Conn.deleteTunnel (Conn.tunnel_ptr t2) (Conn.deleteTunnel (Conn.tunnel_ptr t1)
               (Conn.addTunnel t2 (Conn.addTunnel t1 c)))).
Proof.
  intros Hne H1 H2. exists 2. unfold Conn.deleteTunnel, Conn.addTunnel, Conn.set_tunnels. simpl.
  rewrite filter_cons_True, !filter_cons_False by auto.
  rewrite (filter_fresh (Conn.tunnel_ptr t1)), (filter_fresh (Conn.tunnel_ptr t2)) by done.
  unfold uint64. by rewrite !Zplus_mod_idemp_l, <- !Z.add_assoc.
Qed.

(** a tunnel leaves nothing behind.  Once the goroutine of a tunnel job
    has run and the request loops of the tunnels it made have ended, every
    connection, the client's and the target's (which may be the same), has the
    tunnels it had before and is otherwise unchanged, but for its counts of
    opened and closed tunnels, which went up by the same amount. *)
Theorem tunnel_job_settles (world : opening -> option error) (ptr1 ptr2 self : positive)
    (job : tunnelJob) (g g' : gateway DB) (o : opening) (this : Conn.tunnel)
    (other : option Conn.tunnel) :
  ptr1 <> ptr2 -> fresh_ptr ptr1 (connections g) -> fresh_ptr ptr2 (connections g) ->
  (forall p c, connections g !! p = Some c -> 0 <= Conn.tunnelsOpened c < 2 ^ 64 /\
                                              0 <= Conn.tunnelsClosed c < 2 ^ 64) ->
  runTunnel world ptr1 ptr2 self job g = Some (g', o, this, other) ->
  let g'' := default (fun g => g) (endTunnel <$> other) (endTunnel this g') in
  forall p, match connections g !! p, connections g'' !! p with
            | Some c, Some c' => settled c c'
            | None, None => True
            | _, _ => False
            end.
Proof.
  intros Hne F1 F2 Hc Hrun g'' p. subst g''.
  destruct (runTunnel_spec _ _ _ _ _ _ _ _ _ _ Hrun) as (<- & Hself & Hptr & Hg').
  specialize (F1 p). specialize (F2 p). specialize (Hc p).
  unfold endTunnel. rewrite Hself.
  destruct (connections g !! p) as [c|] eqn:Ep.
  - specialize (F1 c eq_refl). specialize (F2 c eq_refl).
    assert (Hsame : settled c c).
    { exists 0. destruct (Hc c eq_refl). rewrite !Z.add_0_r, !uint64_small by done. by destruct c. }
    destruct other as [t|]; simpl in *; [rewrite <- (Hptr t eq_refl) in *|].
    + unfold onOwner in Hg'. destruct (Conn.tunnel_connection t) as [q|]; simpl;
        rewrite Hg', !lookup_alter; repeat case_decide; subst; rewrite Ep; simpl; try done;
        first [by apply settled_two|by apply settled_one].
    + rewrite Hg', !lookup_alter. repeat case_decide; subst; rewrite Ep; simpl; try done.
      by apply settled_one.
  - destruct other as [t|]; simpl in *.
    + unfold onOwner in Hg'. destruct (Conn.tunnel_connection t) as [q|]; simpl;
        rewrite Hg', !lookup_alter; repeat case_decide; subst; by rewrite Ep.
    + rewrite Hg', !lookup_alter. repeat case_decide; subst; by rewrite Ep.
Qed.
(** Every connection is as it was, but for its counters. *)
Definition all_settled (g g' : gateway DB) : Prop :=
  forall p, match connections g !! p, connections g' !! p with
            | Some c, Some c' => settled c c'
            | None, None => True
            | _, _ => False
            end.

(** Counters are machine integers. *)
Definition counters_fit (g : gateway DB) : Prop :=
  forall p c, connections g !! p = Some c ->
    0 <= Conn.tunnelsOpened c < 2 ^ 64 /\ 0 <= Conn.tunnelsClosed c < 2 ^ 64.

Lemma all_settled_same g g' : counters_fit g -> connections g' = connections g -> all_settled g g'.
Proof.
  intros Hc E p. rewrite E. destruct (connections g !! p) as [c|] eqn:Ep; [|done]. exists 0.
  destruct (Hc p c Ep). rewrite !Z.add_0_r, !uint64_small by done. by destruct c.
Qed.

(** What [openServiceTunnel] did to the connections. *)
Lemma openServiceTunnel_tunnel settings clock world ptr host port oa op (g g' : gateway DB) r o :
  openServiceTunnel settings clock world ptr host port oa op g = (g', r, o) ->
  match r with
  | Ok t => Conn.tunnel_ptr t = ptr /\ connections g' = onOwner (Conn.addTunnel t) t (connections g)
  | Err _ => connections g' = connections g
  end.
Proof.
  unfold openServiceTunnel, openTunnel, newTunnel.
  destruct (Registry.lookupConnectionService _ _ _ _) as [[[c service] port']|].
  - destruct (world _); by intros [= <- <- <-].
  - assert (Hg : connections (lookupRemotePeer settings clock host g).1 = connections g).
    { unfold lookupRemotePeer. case_decide; [done|].
      by destruct (lookupRemoteUsers _ _ _ _ _ _) as [[??]?]. }
    destruct (lookupRemotePeer settings clock host g) as [g1 [p|]]; simpl in Hg;
      [|by intros [= <- <- <-]].
    destruct (world _); intros [= <- <- <-]; by rewrite <- Hg.
Qed.

(** A tunnel opened for a proxy leaves nothing behind once it is closed. *)
Lemma service_tunnel_settles settings clock world ptr host port oa op (g g' : gateway DB) t o :
  fresh_ptr ptr (connections g) -> counters_fit g ->
  openServiceTunnel settings clock world ptr host port oa op g = (g', Ok t, o) ->
  all_settled g (endTunnel t g').
Proof.
  intros Hf Hc (<- & Eg)%openServiceTunnel_tunnel. unfold endTunnel, onOwner in *.
  destruct (Conn.tunnel_connection t) as [q|]; [|by apply all_settled_same].
  intros p. pose proof (all_settled_same g g Hc eq_refl p) as Hp. simpl. rewrite Eg, !lookup_alter.
  specialize (Hf p). destruct (connections g !! p) as [c|] eqn:Ep; repeat case_decide; subst;
    rewrite ?Ep; simpl; try done.
  by apply settled_one, Hf.
Qed.
End channels.

(** ** Examples *)

Definition example_data : tunnelData :=
  {| td_Host := "web.carol"; td_Port := 80; td_OriginAddress := "192.0.2.1";
     td_OriginPort := 4000 |}.

Definition example_channel : newChannel :=
  {| ChannelType := "direct-tcpip"; ExtraData := marshalTunnelData example_data |}.

Definition example_user : Conn.connection :=
  Conn.newConnection "k" "alice" "10.0.0.9:5000" "10.0.0.1:2020"
    {["permit-port-forwarding" := ""]} (Usage.newUsage 0).

Definition example_peer : Conn.connection :=
  Conn.newConnection "k" "peer" "10.0.0.1:5001" "10.0.0.2:2020"
    (<["peer" := ""]> {["identity" := "node-a"]}) (Usage.newUsage 0).


Definition example_job : tunnelJob :=
  {| job_channel := example_channel; job_data := example_data;
     job_local := Some (1%positive, "web", 80); job_remote := None |}.

Lemma tunnel_job_settles_witness :
  exists g' o this other,
    runTunnel (fun _ => None) 7%positive 8%positive 1%positive example_job example_gateway =
      Some (g', o, this, Some other) /\
    match connections example_gateway !! 1%positive,
          connections (endTunnel other (endTunnel this g')) !! 1%positive with
    | Some c, Some c' => settled c c'
    | _, _ => False
    end.
Proof.
  destruct (runTunnel (fun _ => None) 7%positive 8%positive 1%positive example_job example_gateway)
    as [[[[g' o] this] [other|]]|] eqn:E; [|discriminate E..].
  exists g', o, this, other. split; [reflexivity|].
  assert (Hall : forall p c, connections example_gateway !! p = Some c ->
    Conn.tunnels c = [] /\ Conn.tunnelsOpened c = 0 /\ Conn.tunnelsClosed c = 0).
  { intros p c Hc. apply (map_Forall_lookup_1 (fun _ c => Conn.tunnels c = [] /\
      Conn.tunnelsOpened c = 0 /\ Conn.tunnelsClosed c = 0) (connections example_gateway) p c);
      [|exact Hc].
    repeat (apply map_Forall_insert_2; [vm_compute; auto|]). apply map_Forall_empty. }
  pose proof (tunnel_job_settles (fun _ => None) 7%positive 8%positive 1%positive example_job
    example_gateway g' o this (Some other) ltac:(discriminate)) as S.
  assert (F : forall ptr, fresh_ptr ptr (connections example_gateway)).
  { intros ptr p c Hc. destruct (Hall p c Hc) as [-> _]. constructor. }
  specialize (S (F _) (F _)).
  assert (C : forall p c, connections example_gateway !! p = Some c ->
    0 <= Conn.tunnelsOpened c < 2 ^ 64 /\ 0 <= Conn.tunnelsClosed c < 2 ^ 64).
  { intros p c Hc. destruct (Hall p c Hc) as (_ & -> & ->). lia. }
  specialize (S C E 1%positive). revert S. simpl.
  destruct (connections example_gateway !! 1%positive) eqn:E1; [|discriminate E1].
  destruct (connections _ !! _); auto.
Defined.
End Channels.
