(* ===== verification/Serve.v ===== *)
(** * The life of a connection, [gateway/connection.go] and [gateway/gateway.go]

    [handleConnection]: after the handshake the connection is published, its
    requests and channels are served one at a time until an event ends it, and
    the deferred clean-up withdraws it.  The events are what the [select] of
    the serving goroutine receives, in the order it receives them.
    [HandleConnection] puts the ssh handshake in front of it. *)

From stdpp Require Import base list strings gmap fin_maps option.
From Stdlib Require Import ZArith Lia.
From Stdlib Require Import Strings.Byte.
From S2P Require Import Prelude GoStrings Bytes Wire Usage Models Database Certs Auth Handshake.
From S2P Require Import Connection Registry Peers Routing Gateway Channels.

#[local] Open Scope Z_scope.

Module Serve.
Import Routing Channels.

Inductive event : Type :=
| Done                                                    (* <-self.done *)
| RequestsClosed
| ChannelsClosed
| GotRequest (req : Conn.request) (replyErr : option error)
| GotChannel (channel : newChannel) (clock : nat -> time) (accept closeErr : option error).

Section serve.
Context {DB : Type} `{Executor DB}.

(** The loop; the result says what it started and whether it has ended. *)
Fixpoint serve (settings : Settings) (self : positive) (events : list event) (g : gateway DB)
    : gateway DB * list effect * bool :=
  match events with
  | [] => (g, [], false)
  | Done :: _ | RequestsClosed :: _ | ChannelsClosed :: _ => (g, [], true)
  | GotRequest req replyErr :: rest =>
      let '(c, _, e) := Conn.handleRequest replyErr req (connections g !!! self) in
      let g := set_connections (<[self := c]> (connections g)) g in
      match e with
      | Some _ => (g, [], true)
      | None => serve settings self rest g
      end
  | GotChannel channel clock accept closeErr :: rest =>
      let '(g, effects, e) :=
        handleChannel settings clock accept closeErr channel (connections g !!! self) g in
      match e with
      | Some _ => (g, effects, true)
      | None => let '(g, more, ended) := serve settings self rest g in (g, effects ++ more, ended)
      end
  end.

(** The handshake gave the user name and the extensions; [self] is the new
    connection's address, [now] the clock at the clean-up. *)
Definition handleConnection (settings : Settings) (now : time) (self : positive)
    (ksuid connUser remote local : string) (extensions : gmap string string)
    (stats : Usage.usageStats) (events : list event) (g : gateway DB)
    : gateway DB * list effect * bool :=
  let c := Conn.newConnection ksuid connUser remote local extensions stats in
  let h := <[self := c]> (connections g) in
  let g := Gateway.set_registry (Registry.addConnection h self (registry g)) (set_connections h g) in
  let '(g, effects, ended) := serve settings self events g in
  (if ended then Gateway.closeConnection settings now self g else g, effects, ended).

(** ** What does not change while a connection is served *)

(** The fields set at the handshake. *)
Definition identity (c : Conn.connection) : string * string * bool * bool :=
  (Conn.user c, Conn.nodeId c, Conn.permitPortForwarding c, Conn.administrator c).

(** What the connection may have started, by its fields alone. *)
Definition entitled (settings : Settings) (c : Conn.connection) (x : effect) : Prop :=
  match x with
  | StartSession => Conn.nodeId c = ""
  | StartPostgres address =>
      Conn.nodeId c <> "" /\ address = PostgresAddress settings /\ address <> ""
  | StartTunnel job =>
      (Conn.permitPortForwarding c = true \/ Conn.nodeId c <> "") /\
      (Conn.nodeId c <> "" -> job_remote job = None)
  | Accepted | StartDiscard | ClosedChannel => True
  end.

Lemma may_start_entitled settings channel c (g : gateway DB) x :
  may_start settings channel c g x -> entitled settings c x.
Proof. destruct x; simpl; tauto. Qed.

Lemma entitled_identity settings c c' x :
  identity c = identity c' -> entitled settings c x -> entitled settings c' x.
Proof. unfold identity. intros [= Hu Hn Hp Ha]. destruct x; simpl; rewrite ?Hn, ?Hp; tauto. Qed.

Lemma handleRequest_identity replyErr req c :
  identity (Conn.handleRequest replyErr req c).1.1 = identity c.
Proof.
  unfold Conn.handleRequest, Conn.registerService, Conn.deregisterService, identity.
  by crush_matches.
Qed.

Lemma lookup_total_Some (h : Registry.heap) p : is_Some (h !! p) -> h !! p = Some (h !!! p).
Proof. intros [c Hc]. by rewrite (lookup_total_correct _ _ _ Hc). Qed.

Lemma unchanged settings self (g g' : gateway DB) effects :
  is_Some (connections g !! self) -> connections g' = connections g -> registry g' = registry g ->
  Forall (entitled settings (connections g !!! self)) effects ->
  registry g' = registry g /\
  (forall p, p <> self -> connections g' !! p = connections g !! p) /\
  (exists c, connections g' !! self = Some c /\ identity c = identity (connections g !!! self)) /\
  Forall (entitled settings (connections g !!! self)) effects.
Proof.
  intros Hs -> -> Hf. split_and!; try done. exists (connections g !!! self).
  by split; [apply lookup_total_Some|].
Qed.

(** Serving changes only the connection itself, and not its identity; what it
    starts, the connection is entitled to. *)
Lemma serve_spec settings self events (g : gateway DB) :
  is_Some (connections g !! self) ->
  let '(g', effects, _) := serve settings self events g in
  registry g' = registry g /\
  (forall p, p <> self -> connections g' !! p = connections g !! p) /\
  (exists c, connections g' !! self = Some c /\ identity c = identity (connections g !!! self)) /\
  Forall (entitled settings (connections g !!! self)) effects.
Proof.
  revert g. induction events as [|ev rest IH]; intros g Hself; simpl.
  { by eauto using unchanged, Forall_nil_2. }
  destruct ev as [| | |req replyErr|channel clock accept closeErr];
    [by eauto using unchanged, Forall_nil_2..| |].
  - pose proof (handleRequest_identity replyErr req (connections g !!! self)) as Hid.
    destruct (Conn.handleRequest _ _ _) as [[c replies] e]. simpl in Hid.
    set (g1 := set_connections (<[self := c]> (connections g)) g).
    assert (Hs1 : connections g1 !! self = Some c) by apply lookup_insert_eq.
    assert (Ho1 : forall p, p <> self -> connections g1 !! p = connections g !! p)
      by (intros p Hp; by apply lookup_insert_ne).
    destruct e; [split_and!; [done..|by eauto|constructor]|].
    specialize (IH g1 ltac:(eauto)). destruct (serve settings self rest g1) as [[g' effects] ended].
    rewrite (lookup_total_correct _ _ _ Hs1) in IH.
    destruct IH as (Hr & Ho & (c' & Hc' & Hid') & Hf). split_and!; [done| | |].
    + intros p Hp. by rewrite Ho, Ho1.
    + exists c'. split; [done|congruence].
    + eapply Forall_impl; [|exact Hf]. intros x. by apply entitled_identity.
  - pose proof (handleChannel_effects settings clock accept closeErr channel
                  (connections g !!! self) g) as Hch.
    destruct (handleChannel _ _ _ _ _ _ _) as [[g1 effects] e]. destruct Hch as (Hc1 & Hr1 & Hf1).
    assert (Hent : Forall (entitled settings (connections g !!! self)) effects).
    { eapply Forall_impl; [|exact Hf1]. intros x. apply may_start_entitled. }
    destruct e; [by apply unchanged|].
    specialize (IH g1 ltac:(by rewrite Hc1)). rewrite Hc1, Hr1 in IH.
    destruct (serve settings self rest g1) as [[g' more] ended].
    destruct IH as (Hr & Ho & Hc & Hf). split_and!; [done..|]. by apply Forall_app.
Qed.

Lemma wf_identity h h' r self c c' :
  Registry.wf h r -> h !! self = Some c -> h' !! self = Some c' -> identity c' = identity c ->
  (forall p, p <> self -> h' !! p = h !! p) -> Registry.wf h' r.
Proof.
  intros Hwf Hc Hc' Hid Ho. eapply Registry.wf_heap; [exact Hwf|]. intros p Hp.
  unfold Registry.userOf. destruct (decide (p = self)) as [->|Hne].
  - rewrite (lookup_total_correct _ _ _ Hc), (lookup_total_correct _ _ _ Hc').
    split; [eauto|]. by injection Hid.
  - rewrite !lookup_total_alt, (Ho p Hne). split; [|done]. by apply (Registry.wf_alloc _ _ Hwf).
Qed.

(** Without the two extensions no tunnel can be started. *)
Lemma no_tunnels settings ksuid connUser remote local extensions stats effects :
  Forall (entitled settings (Conn.newConnection ksuid connUser remote local extensions stats))
         effects ->
  extensions !! "permit-port-forwarding" = None -> extensions !! "peer" = None ->
  Forall (fun x => forall job address, x <> StartTunnel job /\ x <> StartPostgres address) effects.
Proof.
  intros Hf Hpf Hpeer. eapply Forall_impl; [|exact Hf]. unfold Conn.newConnection.
  intros x Hx job address. rewrite Hpf, Hpeer in Hx. split; intros ->; simpl in Hx; naive_solver.
Qed.

Lemma handleConnection_spec (settings : Settings) (now : time) (self : positive)
    (ksuid connUser remote local : string) (extensions : gmap string string)
    (stats : Usage.usageStats) (events : list event) (g : gateway DB) :
  Registry.wf (connections g) (registry g) -> connections g !! self = None ->
  let c := Conn.newConnection ksuid connUser remote local extensions stats in
  let '(g', effects, ended) :=
    handleConnection settings now self ksuid connUser remote local extensions stats events g in
  Registry.wf (connections g') (registry g') /\
  (forall p, p <> self -> connections g' !! p = connections g !! p) /\
  Registry.connectionsList (registry g') =
    (if ended then [] else [self]) ++ Registry.connectionsList (registry g) /\
  Forall (entitled settings c) effects /\
  (extensions !! "permit-port-forwarding" = None -> extensions !! "peer" = None ->
   Forall (fun x => forall job address, x <> StartTunnel job /\ x <> StartPostgres address)
          effects).
Proof.
  intros Hwf Hfresh c. unfold handleConnection. fold c.
  set (g1 := Gateway.set_registry _ _).
  assert (Hs1 : connections g1 !! self = Some c) by apply lookup_insert_eq.
  assert (Hw1 : Registry.wf (connections g1) (registry g1)).
  { apply (Registry.step_wf (connections g, registry g) (connections g1, registry g1) Hwf).
    by constructor. }
  pose proof (serve_spec settings self events g1 ltac:(eauto)) as S.
  rewrite (lookup_total_correct _ _ _ Hs1) in S.
  destruct (serve settings self events g1) as [[g2 effects] ended].
  destruct S as (Hr & Ho & (c2 & Hc2 & Hid) & Hf).
  assert (Hw2 : Registry.wf (connections g2) (registry g2))
    by (rewrite Hr; eapply wf_identity; eauto).
  assert (Hother : forall p, p <> self -> connections g2 !! p = connections g !! p).
  { intros p Hp. rewrite (Ho p Hp). by apply lookup_insert_ne. }
  assert (Hnot : self ∉ Registry.connectionsList (registry g)).
  { intros Hin. destruct (Registry.wf_alloc _ _ Hwf self Hin). congruence. }
  destruct ended.
  - destruct (Gateway.closeConnection_registry settings now self g2) as [-> ->].
    split_and!; [by apply Registry.wf_delete|done| |done|by eapply no_tunnels].
    simpl. rewrite Hr. simpl. rewrite filter_cons_False by auto. by apply filter_id_notin.
  - split_and!; [done..|by rewrite Hr|done|by eapply no_tunnels].
Qed.

(** C11: a connection, from the handshake to its end, whatever requests and
    channels it sends and whatever fails: it is published once and withdrawn
    when its service ends, leaving the other connections and their order as
    they were; and everything started on its behalf is covered by what the
    handshake established.  Without port forwarding and peer extensions it
    never gets a tunnel; only a peer reaches the database, and never a session
    or another peer. *)
Theorem connection_lifetime (settings : Settings) (now : time) (self : positive)
    (ksuid connUser remote local : string) (extensions : gmap string string)
    (stats : Usage.usageStats) (events : list event) (g : gateway DB) :
  Registry.wf (connections g) (registry g) -> connections g !! self = None ->
  let c := Conn.newConnection ksuid connUser remote local extensions stats in
  let '(g', effects, ended) :=
    handleConnection settings now self ksuid connUser remote local extensions stats events g in
  Registry.wf (connections g') (registry g') /\
  (forall p, p <> self -> connections g' !! p = connections g !! p) /\
  Registry.connectionsList (registry g') =
    (if ended then [] else [self]) ++ Registry.connectionsList (registry g) /\
  Forall (entitled settings c) effects /\
  (extensions !! "permit-port-forwarding" = None -> extensions !! "peer" = None ->
   Forall (fun x => forall job address, x <> StartTunnel job /\ x <> StartPostgres address)
          effects).
Proof. apply handleConnection_spec. Qed.
End serve.

(** ** From the socket *)

Section accept.
Context {DB : Type} `{Executor DB}.
Context (verify : Certificate -> bool).
Context (geoip_opened : bool) (geoip_city : string -> option Auth.cityRecord).
Context (ParsePublicKey : list byte -> result PublicKey).
Context (Type_ : PublicKey -> string).
Context (Verify : bool -> PublicKey -> list byte -> Handshake.Signature -> option error).
Context (checkSourceAddress : string -> option error).
Context (sessionID : list byte) (ip : string) (disconnectErr : option error).

(** [HandleConnection]: the handshake on the socket, with the packets and the
    interference of [auth], then the service of the connection with [events].
    [accepted] is the clock at the start.  The result has the shared state of
    the authenticator, the answers of the handshake, what the connection
    started and whether the socket is closed. *)
Definition HandleConnection (authSettings : Auth.Settings) (settings : Settings)
    (accepted now : time) (self : positive) (ksuid remote local : string)
    (auth : list (Handshake.event (S := Handshake.shared (DB := DB)))) (events : list event)
    (flags : Auth.flagsCache) (g : gateway DB)
    : gateway DB * Handshake.shared (DB := DB) * list Handshake.reply * list effect * bool :=
  let usage := Usage.newUsage accepted in
  let '(s, replies, o) :=
    Handshake.authenticateConn verify geoip_opened geoip_city ParsePublicKey Type_ Verify
      checkSourceAddress sessionID ip disconnectErr authSettings auth
      {| Handshake.flags := flags; Handshake.database := database g;
         Handshake.background := [] |} in
  let g := Gateway.set_database (Handshake.database s) g in
  match o with
  | Handshake.Authenticated user perms =>
      let '(g, effects, ended) :=
        handleConnection settings now self ksuid user remote local
          (default ∅ (Extensions <$> perms)) usage events g in
      (g, s, replies, effects, ended)
  | Handshake.Failed _ => (g, s, replies, [], true)
  | Handshake.Waiting => (g, s, replies, [], false)
  end.

(** What a certificate entitles its holder to. *)
Definition covered (settings : Settings) (user : string) (cert : Certificate) (x : effect)
    : Prop :=
  match x with
  | StartSession => user <> Auth.PeerUser
  | StartPostgres address => user = Auth.PeerUser /\ address = PostgresAddress settings
  | StartTunnel job =>
      (user = Auth.PeerUser /\ job_remote job = None) \/
      (user <> Auth.PeerUser /\
       is_Some (Extensions (cert_Permissions cert) !! "permit-port-forwarding"))
  | Accepted | StartDiscard | ClosedChannel => True
  end.

Abbreviation certified := (Handshake.certified (DB := DB) verify ParsePublicKey Verify
  checkSourceAddress sessionID).

Lemma entitled_covered authSettings settings auth user cert p ksuid remote local stats x :
  certified authSettings auth user cert p ->
  entitled settings (Conn.newConnection ksuid user remote local (Extensions p) stats) x ->
  covered settings user cert x.
Proof.
  intros [_ Hpeer Huser] Hx. destruct (decide (user = Auth.PeerUser)) as [Hu|Hu].
  - destruct (Hpeer Hu) as (_ & Hid & ->). unfold Conn.newConnection in Hx.
    destruct x; simpl in *; try done; tauto.
  - destruct (Huser Hu) as (_ & Hp & Hi & Hf & _). unfold Conn.newConnection in Hx.
    rewrite Hp, Hf in Hx. destruct x; simpl in *; try done; rewrite ?bool_decide_eq_true in Hx; tauto.
Qed.

(** C1: nothing happens on a node without a certificate.  Whatever a client
    sends over its socket, a failed handshake leaves the connections as they
    were and starts nothing.  Otherwise the client has proved possession of
    the key of a certificate valid for the user, and everything the connection
    starts is covered by it: sessions only for users, the database only for
    peers, tunnels for peers, to services on this node, and for users whose
    certificate permits port forwarding. *)
Theorem HandleConnection_authorized (authSettings : Auth.Settings) (settings : Settings)
    (accepted now : time) (self : positive) (ksuid remote local : string)
    (auth : list (Handshake.event (S := Handshake.shared (DB := DB)))) (events : list event)
    (flags : Auth.flagsCache) (g : gateway DB) :
  Registry.wf (connections g) (registry g) -> connections g !! self = None ->
  let '(g', s', replies, effects, ended) :=
    HandleConnection authSettings settings accepted now self ksuid remote local auth events flags g in
  Registry.wf (connections g') (registry g') /\
  (forall p, p <> self -> connections g' !! p = connections g !! p) /\
  ((effects = [] /\ connections g' = connections g /\ registry g' = registry g) \/
   (exists user cert p,
      certified authSettings auth user cert p /\ Forall (covered settings user cert) effects /\
      Registry.connectionsList (registry g') =
        (if ended then [] else [self]) ++ Registry.connectionsList (registry g))).
Proof.
  intros Hwf Hfresh. unfold HandleConnection.
  destruct (Handshake.authenticateConn _ _ _ _ _ _ _ _ _ _ _ _ _) as [[s' replies] o] eqn:E.
  destruct o as [|f|user perms]; [split_and!; try done; by left..|].
  apply Handshake.authenticateConn_certified in E as (cert & p & -> & Hc). simpl.
  pose proof (handleConnection_spec settings now self ksuid user remote local (Extensions p)
    (Usage.newUsage accepted) events (Gateway.set_database (Handshake.database s') g) Hwf Hfresh) as S.
  destruct (handleConnection _ _ _ _ _ _ _ _ _ _ _) as [[g' effects] ended].
  destruct S as (Hw & Ho & Hl & Hf & _). split_and!; [done..|].
  right. exists user, cert, p. split_and!; [done| |done].
  eapply Forall_impl; [|exact Hf]. intros x Hx. by eapply entitled_covered.
Qed.
End accept.

(** Alice asks for a forwarding and then for a tunnel, which ends the
    connection. *)
Definition example_events : list event :=
  [GotRequest {| Conn.req_Type := "tcpip-forward"; Conn.req_WantReply := true;
                 Conn.req_Payload := Marshal {| fwd_Host := "web"; fwd_Port := 80 |} |} None;
   GotChannel example_channel (fun _ => 10) None None].

Lemma connection_lifetime_witness :
  let '(g, effects, ended) :=
    handleConnection example_settings 20 5%positive "k" "alice" "10.0.0.9:5000" "10.0.0.1:22" ∅
      (Usage.newUsage 0) example_events example_gateway in
  ended = true /\ Registry.connectionsList (registry g) =
                   Registry.connectionsList (registry example_gateway).
Proof.
  pose proof (connection_lifetime example_settings 20 5%positive "k" "alice" "10.0.0.9:5000"
    "10.0.0.1:22" ∅ (Usage.newUsage 0) example_events example_gateway example_wf eq_refl) as S.
  assert (E : (handleConnection example_settings 20 5%positive "k" "alice" "10.0.0.9:5000"
    "10.0.0.1:22" ∅ (Usage.newUsage 0) example_events example_gateway).2 = true)
    by (vm_compute; reflexivity).
  destruct (handleConnection _ _ _ _ _ _ _ _ _ _ _) as [[g effects] ended]. simpl in E. subst ended.
  split; [reflexivity|]. apply S.
Defined.

(** Alice logs in with her certificate and stays connected. *)
Definition example_login : list (Handshake.event (S := Handshake.shared (DB := server))) :=
  [Handshake.Packet (fun s => s) (100 * second) (100 * second)
     (Handshake.keyRequest "alice" Handshake.CertAlgoED25519v01 (bytes_of_string "key")
        (Some Handshake.example_signature)) None].

Definition example_accept
    : gateway server * Handshake.shared (DB := server) * list Handshake.reply * list effect * bool :=
  HandleConnection (fun _ => true) false (fun _ => None)
    (fun _ => Ok (CertificateKey (Auth.Examples.certificate "user-ca" "alice" [])))
    (fun _ => Handshake.CertAlgoED25519v01) (fun _ _ _ _ => None) (fun _ => None)
    (bytes_of_string "session") "10.0.0.9" None Auth.Examples.settings example_settings
    (90 * second) (120 * second) 5%positive "k" "10.0.0.9:5000" "10.0.0.1:22" example_login
    [] ∅ example_gateway.

Lemma HandleConnection_authorized_witness :
  let '(g, _, _, effects, ended) := example_accept in
  Registry.connectionsList (registry g) =
    5%positive :: Registry.connectionsList (registry example_gateway) /\
  exists user cert, Forall (covered example_settings user cert) effects.
Proof.
  pose proof (HandleConnection_authorized (fun _ => true) false (fun _ => None)
    (fun _ => Ok (CertificateKey (Auth.Examples.certificate "user-ca" "alice" [])))
    (fun _ => Handshake.CertAlgoED25519v01) (fun _ _ _ _ => None) (fun _ => None)
    (bytes_of_string "session") "10.0.0.9" None Auth.Examples.settings example_settings
    (90 * second) (120 * second) 5%positive "k" "10.0.0.9:5000" "10.0.0.1:22" example_login
    [] ∅ example_gateway example_wf eq_refl) as S.
  change (HandleConnection _ _ _ _ _ _ _ _ _ _ _ _ _ _ _ _ _ _ _ _ _ _) with example_accept in S.
  assert (E : (match example_accept with (g, _, _, _, ended) =>
                 (Registry.connectionsList (registry g), ended) end) =
              (5%positive :: Registry.connectionsList (registry example_gateway), false))
    by (vm_compute; reflexivity).
  destruct example_accept as [[[[g s] replies] effects] ended]. injection E as E _.
  split; [exact E|]. destruct S as (_ & _ & [(_ & _ & Hr)|(user & cert & p & _ & Hf & _)]).
  - rewrite Hr in E. vm_compute in E. discriminate E.
  - exists user, cert. exact Hf.
Defined.
End Serve.
