(* ===== verification/Lifecycle.v ===== *)
(** * Goroutines and shutdown, [gateway/connection.go] and [gateway/gateway.go]

    Every goroutine that works for a connection holds a token of the
    connection's wait group, and [connection.close] waits until all tokens are
    back.  [gateway.Close], [kickUser] and [ScavengeConnections] call it for
    one connection after the other.  The state machine has the goroutines, what
    each of them is blocked on, and the callers of [close]; what a goroutine
    does besides is in the files of the components.  A step is either taken by
    the program alone ([internal]) or needs a client ([external]). *)

From stdpp Require Import base list strings gmap fin_maps fin_sets sets option relations numbers.
From Stdlib Require Import ZArith Lia.
From S2P Require Import Prelude.

Module Lifecycle.

(** ** Goroutines *)

(** Where a tunnel leads to: a connection of this gateway or a peer. *)
Inductive target : Type :=
| ToConnection (p : positive)
| ToPeer (p : positive).

#[export] Instance target_eq_dec : EqDecision target.
Proof. solve_decision. Defined.

(** The goroutines that hold a token, by where they block; tunnels are
    numbered. *)
Inductive goroutine : Type :=
| Serving                                  (* the loop of [handleConnection] *)
| Session                                  (* [handleSession] *)
| Kicking (caller : nat)                   (* a session in the command [kickUser] *)
| Discarding                               (* [ssh.DiscardRequests] *)
| Dialing                                  (* [net.DialTimeout] to postgres *)
| Bridging                                 (* copying to postgres *)
| Opening (t : positive) (to : target)     (* [target.openTunnel] *)
| Copying (t : positive) (to : target) (t' : positive)  (* [handleTunnel] *)
| Requests (t : positive).                 (* [tunnel.handleRequests] *)

#[export] Instance goroutine_eq_dec : EqDecision goroutine.
Proof. solve_decision. Defined.

(** [conns] are the connections ever made, [done] those whose [done] channel is
    closed, [up] those whose ssh transport is; [go] has the goroutines of each
    connection, [tunnels] and [closedTunnels] the tunnels made and those whose
    [done] channel is closed.  [callers] are the calls of [close] still to make, for each
    goroutine that makes them one after the other. *)
Record world := {
  conns : gset positive;
  done : gset positive;
  up : gset positive;
  peersUp : gset positive;
  tunnels : gset positive;
  closedTunnels : gset positive;
  go : gmap (positive * positive) goroutine;
  callers : list (list positive);
}.

Definition initial : world :=
  {| conns := ∅; done := ∅; up := ∅; peersUp := ∅; tunnels := ∅; closedTunnels := ∅; go := ∅; callers := [] |}.

(** The goroutine started by [handleConnection] is the first. *)
Definition main : positive := 1%positive.

Definition targetUp (w : world) (to : target) : bool :=
  match to with
  | ToConnection p => bool_decide (p ∈ up w)
  | ToPeer p => bool_decide (p ∈ peersUp w)
  end.

Definition callDone (w : world) (caller : nat) : bool :=
  match callers w !! caller with
  | Some (_ :: _) => false
  | _ => true
  end.

(** Whether a goroutine of [p] can return without a client doing anything: the
    [done] channel, the end of a transport, of a tunnel or of a call, and time
    are enough. *)
Definition mayLeave (w : world) (p : positive) (k : goroutine) : bool :=
  let down := bool_decide (p ∉ up w) in
  match k with
  | Serving => bool_decide (p ∈ done w) || down
  | Session | Discarding | Bridging => down
  | Kicking _ => false
  | Dialing => true
  | Opening _ to => negb (targetUp w to)
  | Copying _ to _ => down || negb (targetUp w to)
  | Requests t => bool_decide (t ∈ closedTunnels w) || down
  end.

Definition set_done (f : gset positive -> gset positive) (w : world) : world :=
  {| conns := conns w; done := f (done w); up := up w; peersUp := peersUp w;
     tunnels := tunnels w; closedTunnels := closedTunnels w; go := go w; callers := callers w |}.
Definition set_up (f : gset positive -> gset positive) (w : world) : world :=
  {| conns := conns w; done := done w; up := f (up w); peersUp := peersUp w;
     tunnels := tunnels w; closedTunnels := closedTunnels w; go := go w; callers := callers w |}.
Definition set_peersUp (f : gset positive -> gset positive) (w : world) : world :=
  {| conns := conns w; done := done w; up := up w; peersUp := f (peersUp w);
     tunnels := tunnels w; closedTunnels := closedTunnels w; go := go w; callers := callers w |}.
Definition set_go (f : gmap (positive * positive) goroutine -> gmap (positive * positive) goroutine)
    (w : world) : world :=
  {| conns := conns w; done := done w; up := up w; peersUp := peersUp w;
     tunnels := tunnels w; closedTunnels := closedTunnels w; go := f (go w); callers := callers w |}.
Definition set_callers (f : list (list positive) -> list (list positive)) (w : world) : world :=
  {| conns := conns w; done := done w; up := up w; peersUp := peersUp w;
     tunnels := tunnels w; closedTunnels := closedTunnels w; go := go w; callers := f (callers w) |}.
Definition closeTunnels (ts : gset positive) (w : world) : world :=
  {| conns := conns w; done := done w; up := up w; peersUp := peersUp w;
     tunnels := tunnels w; closedTunnels := ts ∪ closedTunnels w; go := go w; callers := callers w |}.

(** [newTunnel] *)
Definition newTunnel (t : positive) (w : world) : world :=
  {| conns := conns w; done := done w; up := up w; peersUp := peersUp w;
     tunnels := {[t]} ∪ tunnels w; closedTunnels := closedTunnels w; go := go w;
     callers := callers w |}.

(** The deferred calls of a goroutine that returns, and its token. *)
Definition leave (p g : positive) (k : goroutine) (w : world) : world :=
  set_go (delete (p, g))
    match k with
    | Serving => set_up (fun s => s ∖ {[p]}) w            (* conn.Close() *)
    | Opening t _ => closeTunnels {[t]} w                  (* thisTunnel.close() *)
    | Copying t _ t' => closeTunnels {[t; t']} w           (* both tunnels' close() *)
    | _ => w
    end.

(** All tokens of [p] are back. *)
Definition idle (w : world) (p : positive) : Prop := forall g, go w !! (p, g) = None.

(** ** Steps *)

(** [connection.close]: [closeOnce] closes [done], then [waitGroup.Wait]. *)
Inductive internal : world -> world -> Prop :=
| i_leave w p g k :
    go w !! (p, g) = Some k -> mayLeave w p k = true -> internal w (leave p g k w)
| i_close w i p rest :
    callers w !! i = Some (p :: rest) -> p ∈ conns w -> p ∉ done w ->
    internal w (set_done (union {[p]}) w)
| i_kicked w p g caller :
    go w !! (p, g) = Some (Kicking caller) -> callDone w caller = true ->
    internal w (set_go (<[(p, g) := Session]>) w)
| i_return w i p rest :
    callers w !! i = Some (p :: rest) -> p ∈ done w -> idle w p ->
    internal w (set_callers (<[i := rest]>) w).

(** What the client of [a] can cause: a connection, its end, goroutines
    started by requests on it, and answers to requests made to it. *)
Inductive external (a : positive) : world -> world -> Prop :=
| e_connect w :
    a ∉ conns w ->
    external a w {| conns := {[a]} ∪ conns w; done := done w; up := {[a]} ∪ up w;
                    peersUp := peersUp w; tunnels := tunnels w; closedTunnels := closedTunnels w;
                    go := <[(a, main) := Serving]> (go w); callers := callers w |}
| e_disconnect w :
    external a w (set_up (fun s => s ∖ {[a]}) w)
| e_start w g k :
    a ∈ up w -> go w !! (a, main) = Some Serving -> go w !! (a, g) = None ->
    k ∈ [Session; Discarding; Dialing] ->
    external a w (set_go (<[(a, g) := k]>) w)
| e_tunnel w g g' t to :
    a ∈ up w -> go w !! (a, main) = Some Serving ->
    go w !! (a, g) = None -> go w !! (a, g') = None -> g <> g' -> t ∉ tunnels w ->
    external a w (newTunnel t
      (set_go (fun m => <[(a, g) := Opening t to]> (<[(a, g') := Requests t]> m)) w))
| e_accept w p g t g' t' :
    go w !! (p, g) = Some (Opening t (ToConnection a)) -> a ∈ up w ->
    go w !! (a, g') = None -> t' ∉ tunnels w ->
    external a w (newTunnel t'
      (set_go (fun m => <[(p, g) := Copying t (ToConnection a) t']>
                          (<[(a, g') := Requests t']> m)) w))
| e_refuse w p g t :
    go w !! (p, g) = Some (Opening t (ToConnection a)) -> a ∈ up w ->
    external a w (leave p g (Opening t (ToConnection a)) w)
| e_end w g k :
    go w !! (a, g) = Some k ->
    match k with
    | Session | Discarding | Bridging | Copying _ _ _ | Requests _ => True
    | _ => False
    end ->
    external a w (leave a g k w)
| e_remote_end w p g t t' :
    go w !! (p, g) = Some (Copying t (ToConnection a) t') ->
    external a w (leave p g (Copying t (ToConnection a) t') w)
| e_kick w g users :
    go w !! (a, g) = Some Session -> Forall (fun p => p ∈ conns w) users ->
    external a w (set_callers (fun l => l ++ [users])
                    (set_go (<[(a, g) := Kicking (length (callers w))]>) w)).

(** What peers and the postgres server can cause. *)
Inductive remote : world -> world -> Prop :=
| r_peer_up w p : remote w (set_peersUp (union {[p]}) w)
| r_peer_down w p : remote w (set_peersUp (fun s => s ∖ {[p]}) w)
| r_accept w p g t peer t' :
    go w !! (p, g) = Some (Opening t (ToPeer peer)) -> peer ∈ peersUp w -> t' ∉ tunnels w ->
    remote w (newTunnel t' (set_go (<[(p, g) := Copying t (ToPeer peer) t']>) w))
| r_refuse w p g t peer :
    go w !! (p, g) = Some (Opening t (ToPeer peer)) ->
    remote w (leave p g (Opening t (ToPeer peer)) w)
| r_end w p g t peer t' :
    go w !! (p, g) = Some (Copying t (ToPeer peer) t') ->
    remote w (leave p g (Copying t (ToPeer peer) t') w)
| r_dialled w p g :
    go w !! (p, g) = Some Dialing -> remote w (set_go (<[(p, g) := Bridging]>) w)
| r_postgres_end w p g :
    go w !! (p, g) = Some Bridging -> remote w (leave p g Bridging w).

(** [gateway.Close], [ScavengeConnections]: a call of [close] for each of a list
    of connections. *)
Inductive call : world -> world -> Prop :=
| c_call w list :
    Forall (fun p => p ∈ conns w) list -> call w (set_callers (fun l => l ++ [list]) w).

Definition step (w w' : world) : Prop :=
  internal w w' \/ (exists a, external a w w') \/ remote w w' \/ call w w'.

(** Goroutines that wait for someone else: an answer to [OpenChannel], or the
    end of the calls of [close] made by the session. *)
Definition pending (w : world) (k : goroutine) : bool :=
  match k with
  | Opening _ to => targetUp w to
  | Kicking caller => negb (callDone w caller)
  | _ => false
  end.

Definition waits (k : goroutine) : bool :=
  match k with Opening _ _ | Kicking _ => true | _ => false end.

(** Everything but the client of [q], and no further call to close [q]. *)
Definition others (q : positive) (w w' : world) : Prop :=
  (internal w w' \/ remote w w' \/ call w w' \/ exists a, a <> q /\ external a w w')
  /\ Forall (fun l => q ∉ l) (drop (length (callers w)) (callers w')).

(** ** The invariant *)

(** A transport is up only while its connection is being served, and only
    connections that were made are closed. *)
Record inv (w : world) : Prop := {
  inv_serving : forall p, p ∈ up w -> go w !! (p, main) = Some Serving;
  inv_main : forall p k, go w !! (p, main) = Some k -> k = Serving;
  inv_conns : forall i l, callers w !! i = Some l -> Forall (fun p => p ∈ conns w) l;
}.

Lemma inv_initial : inv initial.
Proof. split; intros; done. Qed.

(** Changes of the goroutines that keep the serving ones in their place. *)
Definition keeps_main (m m' : gmap (positive * positive) goroutine) : Prop :=
  forall p, m' !! (p, main) = m !! (p, main).

Lemma keeps_main_insert m p g k k' :
  m !! (p, g) = Some k -> k <> Serving ->
  (forall q k0, m !! (q, main) = Some k0 -> k0 = Serving) -> keeps_main m (<[(p, g) := k']> m).
Proof.
  intros Hk Hne Hm q. apply lookup_insert_ne. intros [= -> ->]. apply Hm in Hk. done.
Qed.

Lemma keeps_main_new m p g k' :
  m !! (p, g) = None -> is_Some (m !! (p, main)) -> keeps_main m (<[(p, g) := k']> m).
Proof.
  intros Hk [? Hm] q. apply lookup_insert_ne. intros [= -> ->]. congruence.
Qed.

Lemma keeps_main_delete m p g k :
  m !! (p, g) = Some k -> k <> Serving ->
  (forall q k0, m !! (q, main) = Some k0 -> k0 = Serving) -> keeps_main m (delete (p, g) m).
Proof.
  intros Hk Hne Hm q. apply lookup_delete_ne. intros [= -> ->]. apply Hm in Hk. done.
Qed.

(** A step that takes no transport up, keeps the serving goroutines and the
    calls keeps the invariant. *)
Lemma inv_keeps w w' :
  inv w -> keeps_main (go w) (go w') -> up w' ⊆ up w -> conns w' = conns w ->
  (forall i l, callers w' !! i = Some l -> Forall (fun p => p ∈ conns w) l) -> inv w'.
Proof.
  intros [Hs Hm Hc] Hk Hu Hcn Hcl. split.
  - intros p Hp. rewrite Hk. apply Hs. set_solver.
  - intros p k. rewrite Hk. apply Hm.
  - rewrite Hcn. exact Hcl.
Qed.

Lemma leave_conns p g k w : conns (leave p g k w) = conns w.
Proof. by destruct k. Qed.
Lemma leave_callers p g k w : callers (leave p g k w) = callers w.
Proof. by destruct k. Qed.
Lemma leave_done p g k w : done (leave p g k w) = done w.
Proof. by destruct k. Qed.
Lemma leave_go p g k w : go (leave p g k w) = delete (p, g) (go w).
Proof. by destruct k. Qed.
Lemma leave_up p g k w : up (leave p g k w) = match k with Serving => up w ∖ {[p]} | _ => up w end.
Proof. by destruct k. Qed.

Lemma inv_leave p g k w : inv w -> go w !! (p, g) = Some k -> inv (leave p g k w).
Proof.
  intros Hi Hk. destruct (decide (k = Serving)) as [->|Hne].
  - destruct Hi as [Hs Hm Hc]. split.
    + intros q. rewrite leave_up, leave_go. intros Hq. rewrite lookup_delete_ne; [set_solver|].
      intros [= -> ->]. set_solver.
    + intros q k0. rewrite leave_go, lookup_delete_Some. intros [_ Hq]. by eapply Hm.
    + rewrite leave_conns, leave_callers. exact Hc.
  - destruct Hi as [Hs Hm Hc]. eapply (inv_keeps w); [by split| | | |].
    + rewrite leave_go. by eapply keeps_main_delete.
    + rewrite leave_up. destruct k; set_solver.
    + apply leave_conns.
    + rewrite leave_callers. exact Hc.
Qed.

Lemma callers_app w l i l' :
  inv w -> Forall (fun p => p ∈ conns w) l ->
  (callers w ++ [l]) !! i = Some l' -> Forall (fun p => p ∈ conns w) l'.
Proof.
  intros [_ _ Hc] Hl Hi. apply lookup_app_Some in Hi as [Hi|[_ Hi]]; [by eapply Hc|].
  apply list_lookup_singleton_Some in Hi as [_ <-]. done.
Qed.

Lemma internal_inv w w' : inv w -> internal w w' -> inv w'.
Proof.
  intros Hi Hst. revert Hi. destruct Hst; intros Hi; [by apply inv_leave| | |].
  - by apply (inv_keeps w); try done; destruct Hi.
  - apply (inv_keeps w); try done; [|by destruct Hi].
    destruct Hi. by eapply keeps_main_insert.
  - apply (inv_keeps w); try done. intros j l. destruct Hi as [_ _ Hc]. simpl.
    destruct (decide (i = j)) as [->|]; [|rewrite list_lookup_insert_ne by done; apply Hc].
    rewrite list_lookup_insert_eq by (by eapply lookup_lt_Some). intros [= <-].
    apply Hc in H. by inversion_clear H.
Qed.

Lemma external_inv a w w' : inv w -> external a w w' -> inv w'.
Proof.
  intros Hi He. revert Hi. destruct He; intros Hi; pose proof Hi as [Hs Hm Hc].
  - split; simpl.
    + intros p Hp. destruct (decide (p = a)) as [->|]; [by rewrite lookup_insert_eq|].
      rewrite lookup_insert_ne by congruence. set_solver.
    + intros p k. rewrite lookup_insert_Some. naive_solver.
    + intros i l Hl. apply Hc in Hl. eapply list.Forall_impl; [exact Hl|]. set_solver.
  - apply (inv_keeps w); try done. simpl. set_solver.
  - apply (inv_keeps w); try done. apply keeps_main_new; eauto.
  - apply (inv_keeps w); try done. simpl. intros p.
    rewrite keeps_main_new, keeps_main_new; eauto; rewrite lookup_insert_ne by congruence; eauto.
  - apply (inv_keeps w); try done. simpl. intros q.
    assert (Hne : (p, g) <> (a, g')) by congruence.
    rewrite insert_insert_ne by done. rewrite keeps_main_new; [by eapply keeps_main_insert| |].
    + by rewrite lookup_insert_ne.
    + rewrite (keeps_main_insert (go w) p g _ _ H); eauto.
  - by apply inv_leave.
  - by apply inv_leave.
  - by apply inv_leave.
  - apply (inv_keeps w); try done; [by eapply keeps_main_insert|].
    intros j l. exact (callers_app w users j l Hi H0).
Qed.

Lemma remote_inv w w' : inv w -> remote w w' -> inv w'.
Proof.
  intros Hi Hr. revert Hi. destruct Hr; intros Hi; pose proof Hi as [Hs Hm Hc].
  - by apply (inv_keeps w).
  - by apply (inv_keeps w).
  - apply (inv_keeps w); try done. by eapply keeps_main_insert.
  - by apply inv_leave.
  - by apply inv_leave.
  - apply (inv_keeps w); try done. by eapply keeps_main_insert.
  - by apply inv_leave.
Qed.

Lemma lifecycle_step_inv w w' : inv w -> step w w' -> inv w'.
Proof.
  intros Hi [H|[[a H]|[H|H]]];
    [by eapply internal_inv|by eapply external_inv|by eapply remote_inv|].
  destruct H. apply (inv_keeps w); try done; [by destruct Hi..|]. intros i l. by apply callers_app.
Qed.

(** ** Termination *)

Definition is_kicking (kv : (positive * positive) * goroutine) : Prop :=
  match kv.2 with Kicking _ => True | _ => False end.

#[export] Instance is_kicking_dec kv : Decision (is_kicking kv).
Proof. unfold is_kicking. destruct (kv.2); apply _. Defined.

(** A [done] channel closed, a token given back, a session out of the command
    or a call returned. *)
Definition measure (w : world) : nat :=
  size (conns w ∖ done w) + size (go w) + size (filter is_kicking (go w))
  + sum_list_with length (callers w).

Lemma sum_list_with_insert {A} (f : A -> nat) l i x y :
  l !! i = Some x -> sum_list_with f (<[i := y]> l) + f x = sum_list_with f l + f y.
Proof.
  revert i. induction l as [|z l IH]; intros [|i] Hi; simpl in *; [done..| |].
  - injection Hi as ->. lia.
  - specialize (IH i Hi). lia.
Qed.

Lemma internal_measure w w' : internal w w' -> measure w' < measure w.
Proof.
  intros Hst. destruct Hst; unfold measure.
  - rewrite leave_conns, leave_done, leave_callers, leave_go.
    rewrite map_filter_delete, !map_size_delete, H.
    assert (size (go w) <> 0) by (rewrite map_size_ne_0_lookup; eauto).
    unfold id. destruct (filter is_kicking (go w) !! (p, g)); lia.
  - simpl. enough (size (conns w ∖ ({[p]} ∪ done w)) < size (conns w ∖ done w)) by lia.
    apply subset_size. set_solver.
  - assert (Hk : filter is_kicking (go w) !! (p, g) = Some (Kicking caller))
      by by apply map_lookup_filter_Some.
    simpl. rewrite map_filter_insert_False, map_filter_delete by (intros []).
    rewrite map_size_insert, map_size_delete, H, Hk.
    assert (size (filter is_kicking (go w)) <> 0) by (rewrite map_size_ne_0_lookup; eauto).
    unfold id. lia.
  - simpl. pose proof (sum_list_with_insert length _ _ _ rest H). simpl in *. lia.
Qed.

Lemma internal_terminates w : sn internal w.
Proof.
  remember (measure w) as n eqn:Hn. revert w Hn.
  induction n as [n IH] using lt_wf_ind. intros w ->. constructor. intros w' Hst.
  apply (IH (measure w')); [by apply internal_measure|done].
Qed.

Lemma lifecycle_reachable_inv w : rtc step initial w -> inv w.
Proof.
  apply (rtc_ind_r inv); [exact inv_initial|]. intros w1 w2 _ Hst Hi. by eapply lifecycle_step_inv.
Qed.

Lemma internal_rtc_inv w w' : inv w -> rtc internal w w' -> inv w'.
Proof. intros Hi H. induction H; eauto using internal_inv. Qed.

(** ** A call of [close] returns *)

(** Where the program can do nothing more, a call of [close] still waits for
    goroutines of its connection that all wait for someone else. *)
Lemma nf_blocked w i p rest :
  inv w -> nf internal w -> callers w !! i = Some (p :: rest) ->
  p ∈ done w /\ (p ∉ up w)
  /\ (exists g k, go w !! (p, g) = Some k)
  /\ (forall g k, go w !! (p, g) = Some k -> pending w k = true).
Proof.
  intros [Hs Hm Hc] Hnf Hi.
  assert (Hstuck : forall g k, go w !! (p, g) = Some k -> mayLeave w p k = false).
  { intros g k Hk. apply not_true_is_false. intros Hl. apply Hnf. eexists. by apply (i_leave w p g k). }
  assert (Hd : p ∈ done w).
  { destruct (decide (p ∈ done w)) as [|Hn]; [done|]. destruct Hnf. eexists.
    apply (i_close w i p rest); [done| |done]. apply Hc in Hi. by inversion Hi. }
  assert (Hu : p ∉ up w).
  { intros Hu. specialize (Hstuck main Serving (Hs _ Hu)). simpl in Hstuck.
    by rewrite bool_decide_true in Hstuck. }
  split_and!; [done..| |].
  - destruct (decide (Exists (fun kv => kv.1.1 = p) (map_to_list (go w)))) as [He|Hn].
    + apply list.Exists_exists in He as ([[p' g] k] & Hin & <-). exists g, k.
      by apply elem_of_map_to_list.
    + destruct Hnf. eexists. apply (i_return w i p rest); [done..|]. intros g.
      destruct (go w !! (p, g)) as [k|] eqn:Hk; [|done]. destruct Hn. apply list.Exists_exists.
      exists ((p, g), k). split; [by apply elem_of_map_to_list|done].
  - intros g k Hk. pose proof (Hstuck g k Hk) as Hl.
    destruct k as [| |c| | | |t to|t to t'|t]; simpl in *;
      rewrite ?(bool_decide_true (p ∉ up w)), ?orb_true_r in Hl by done; try done.
    + apply eq_true_not_negb. intros Hcd. apply Hnf. eexists. by apply (i_kicked w p g c).
    + by apply negb_false_iff.
Qed.

(** The program alone starts nothing that waits for someone else. *)
Lemma internal_waits w w' :
  rtc internal w w' ->
  (forall key k, go w !! key = Some k -> waits k = false) ->
  forall key k, go w' !! key = Some k -> waits k = false.
Proof.
  intros Hr Hw. induction Hr as [|w1 w2 w3 Hst _ IH]; [done|]. apply IH. intros key k.
  destruct Hst; [rewrite leave_go, lookup_delete_Some|simpl..]; [naive_solver|apply Hw| |apply Hw].
  rewrite lookup_insert_Some. naive_solver.
Qed.

Lemma waits_pending w k : pending w k = true -> waits k = true.
Proof. by destruct k. Qed.


(** Two clients that are connected, the first with what [a] started, and
    [gateway.Close] called for both. *)
Definition clients : world :=
  {| conns := {[2]} ∪ ({[1]} ∪ ∅); done := ∅; up := {[2]} ∪ ({[1]} ∪ ∅); peersUp := ∅;
     tunnels := ∅; closedTunnels := ∅;
     go := <[(2, main) := Serving]> (<[(1, main) := Serving]> ∅); callers := [] |}%positive.

Lemma clients_reachable : rtc step initial clients.
Proof.
  eapply (rtc_l step); [right; left; exists 1%positive; by apply e_connect|].
  eapply (rtc_l step); [right; left; exists 2%positive; by apply e_connect|].
  apply rtc_refl.
Qed.

Definition with_session : world := set_go (<[(1, 2) := Session]>)%positive clients.
Definition with_tunnel : world :=
  newTunnel 1 (set_go (fun m => <[(1, 2) := Opening 1 (ToConnection 2)]>
                                  (<[(1, 3) := Requests 1]> m)) clients)%positive.
Definition closing (w : world) : world := set_callers (fun l => l ++ [[1; 2]%positive]) w.

Lemma closing_reachable w :
  rtc step initial w -> conns w = conns clients -> rtc step initial (closing w).
Proof.
  intros Hr Hc. eapply rtc_r; [exact Hr|]. right; right; right. apply c_call.
  rewrite Hc. repeat constructor; vm_compute; done.
Qed.

Lemma with_session_reachable : rtc step initial with_session.
Proof.
  eapply rtc_r; [exact clients_reachable|]. right; left. exists 1%positive.
  by apply e_start; try done; left.
Qed.

Lemma with_tunnel_reachable : rtc step initial with_tunnel.
Proof.
  eapply rtc_r; [exact clients_reachable|]. right; left. exists 1%positive. by apply e_tunnel.
Qed.


(** ** A call of [close] that does not return *)

(** The state in which [close] waits for a tunnel to [q] that is being opened. *)
Record held (q : positive) (i : nat) (p : positive) (rest : list positive) (g t : positive)
    (w : world) : Prop := {
  held_inv : inv w;
  held_call : callers w !! i = Some (p :: rest);
  held_open : go w !! (p, g) = Some (Opening t (ToConnection q));
  held_up : q ∈ up w;
  held_done : q ∉ done w;
  held_calls : forall j l, j <> i -> callers w !! j = Some l -> q ∉ l;
}.

Lemma held_leave q i p rest g t w p' g' k :
  held q i p rest g t w -> go w !! (p', g') = Some k -> (p', g') <> (p, g) ->
  (k = Serving -> p' <> q) -> held q i p rest g t (leave p' g' k w).
Proof.
  intros [] Hk Hne Hs. split; rewrite ?leave_callers, ?leave_done; try done.
  - by apply inv_leave.
  - rewrite leave_go. by rewrite lookup_delete_ne by congruence.
  - rewrite leave_up. destruct k; try done. specialize (Hs eq_refl). set_solver.
Qed.

Lemma held_go q i p rest g t w w' :
  held q i p rest g t w -> inv w' -> callers w' = callers w -> q ∈ up w' -> done w' = done w ->
  go w' !! (p, g) = go w !! (p, g) -> held q i p rest g t w'.
Proof. intros [] Hi Hc Hu Hd Hg. split; rewrite ?Hc, ?Hd, ?Hg; done. Qed.

Lemma held_internal q i p rest g t w w' :
  p <> q -> held q i p rest g t w -> internal w w' -> held q i p rest g t w'.
Proof.
  intros Hpq Hh Hst. pose proof (internal_inv _ _ (held_inv _ _ _ _ _ _ _ Hh) Hst) as Hi'.
  destruct Hst as [w p' g' k Hk Hl|w j p' r Hc _ _|w p' g' c Hk _|w j p' r Hc _ Hid];
    destruct Hh as [Hi Hcall Ho Hu Hd Hcs].
  - apply held_leave; [done..| |].
    + intros [= -> ->]. rewrite Ho in Hk. injection Hk as <-. simpl in Hl.
      by rewrite bool_decide_true in Hl.
    + intros -> ->. simpl in Hl. rewrite !bool_decide_false in Hl by set_solver. done.
  - split; try done. simpl. apply not_elem_of_union. split; [|done].
    apply not_elem_of_singleton. destruct (decide (j = i)) as [->|Hne]; [congruence|].
    pose proof (Hcs j _ Hne Hc). set_solver.
  - split; try done. simpl. rewrite lookup_insert_ne; [done|]. intros [= -> ->]. congruence.
  - assert (Hne : j <> i) by (intros ->; specialize (Hid g); congruence).
    split; try done; simpl; [by rewrite list_lookup_insert_ne|].
    intros j' l Hj'.
    destruct (decide (j = j')) as [<-|]; [|rewrite list_lookup_insert_ne by done; by apply Hcs].
    rewrite list_lookup_insert_eq by (by eapply lookup_lt_Some). intros [= <-].
    pose proof (Hcs j _ Hne Hc). set_solver.
Qed.

(** Goroutines other than the one that opens the tunnel. *)
Lemma held_ne q i p rest g t w key :
  held q i p rest g t w -> go w !! key <> Some (Opening t (ToConnection q)) -> key <> (p, g).
Proof. intros [] Hk ->. done. Qed.

Lemma held_callers q i p rest g t w l :
  held q i p rest g t w -> q ∉ l ->
  (callers w ++ [l]) !! i = Some (p :: rest)
  /\ forall j l', j <> i -> (callers w ++ [l]) !! j = Some l' -> q ∉ l'.
Proof.
  intros [Hi Hc _ _ _ Hcs] Hq. split.
  - by apply lookup_app_l_Some.
  - intros j l' Hj [Hl|[_ Hl]]%lookup_app_Some; [by eapply Hcs|].
    apply list_lookup_singleton_Some in Hl as [_ <-]. done.
Qed.

Lemma held_external q i p rest g t w w' a :
  a <> q -> Forall (fun l => q ∉ l) (drop (length (callers w)) (callers w')) ->
  held q i p rest g t w -> external a w w' -> held q i p rest g t w'.
Proof.
  intros Haq Hsp Hh Hst. pose proof (external_inv _ _ _ (held_inv _ _ _ _ _ _ _ Hh) Hst) as Hi'.
  pose proof (fun key => held_ne _ _ _ _ _ _ _ key Hh) as Hne.
  pose proof (held_up _ _ _ _ _ _ _ Hh) as Hu.
  destruct Hst; try (apply held_leave; [done|done|apply Hne; congruence|congruence]).
  - apply (held_go q i p rest g t w); simpl; try done; [set_solver|].
    apply lookup_insert_ne, Hne. intros Hk. apply (inv_main _ (held_inv _ _ _ _ _ _ _ Hh)) in Hk. done.
  - apply (held_go q i p rest g t w); simpl; try done. set_solver.
  - apply (held_go q i p rest g t w); simpl; try done. apply lookup_insert_ne, Hne. congruence.
  - apply (held_go q i p rest g t w); simpl; try done.
    rewrite !lookup_insert_ne; [done|apply Hne; congruence..].
  - apply (held_go q i p rest g t w); simpl; try done.
    rewrite !lookup_insert_ne; [done|apply Hne; congruence..].
  - apply held_leave; [done|done|apply Hne|intros ->; done]. rewrite H. intros [= ->]. done.
  - simpl in Hsp. rewrite drop_app_length in Hsp. rewrite Forall_singleton in Hsp.
    destruct (held_callers _ _ _ _ _ _ _ _ Hh Hsp) as [Hc Hcs]. destruct Hh.
    split; try done. simpl. rewrite lookup_insert_ne; [done|]. apply Hne. congruence.
Qed.

Lemma held_remote q i p rest g t w w' :
  held q i p rest g t w -> remote w w' -> held q i p rest g t w'.
Proof.
  intros Hh Hst. pose proof (remote_inv _ _ (held_inv _ _ _ _ _ _ _ Hh) Hst) as Hi'.
  pose proof (fun key => held_ne _ _ _ _ _ _ _ key Hh) as Hne.
  pose proof (held_up _ _ _ _ _ _ _ Hh) as Hu.
  destruct Hst; try (apply held_leave; [done|done|apply Hne; congruence|congruence]);
    apply (held_go q i p rest g t w); simpl; try done; apply lookup_insert_ne, Hne; congruence.
Qed.

Lemma held_others q i p rest g t w w' :
  p <> q -> held q i p rest g t w -> others q w w' -> held q i p rest g t w'.
Proof.
  intros Hpq Hh [[Hst|[Hst|[Hst|(a & Ha & Hst)]]] Hsp];
    [by eapply held_internal|by eapply held_remote| |by eapply held_external].
  destruct Hst as [w list Hl]. simpl in Hsp. rewrite drop_app_length in Hsp.
  rewrite Forall_singleton in Hsp. destruct (held_callers _ _ _ _ _ _ _ _ Hh Hsp) as [Hc Hcs].
  pose proof (lifecycle_step_inv w (set_callers (fun l => l ++ [list]) w) (held_inv _ _ _ _ _ _ _ Hh)) as Hi'.
  destruct Hh. split; try done. apply Hi'. right; right; right. by apply c_call.
Qed.

(** C39: A call of [close] waits for as long as a tunnel of the connection is
    being opened to another client that is connected and does not answer: no
    step of the program, of peers or of other clients lets it return, and the
    calls behind it in [gateway.Close], [kickUser] or [ScavengeConnections] are
    not made, even when the silent client is next in the same list. *)
Theorem pending_open_blocks_close (q p : positive) (i : nat) (rest : list positive)
    (g t : positive) (w w' : world) :
  rtc step initial w ->
  callers w !! i = Some (p :: rest) ->
  go w !! (p, g) = Some (Opening t (ToConnection q)) ->
  p <> q -> q ∈ up w -> q ∉ done w ->
  (forall j l, j <> i -> callers w !! j = Some l -> q ∉ l) ->
  rtc (others q) w w' ->
  callers w' !! i = Some (p :: rest) /\ q ∈ up w' /\ q ∉ done w'.
Proof.
  intros Hr Hc Ho Hpq Hu Hd Hcs Hst. apply lifecycle_reachable_inv in Hr.
  assert (Hh : held q i p rest g t w) by by split.
  enough (held q i p rest g t w') as [] by done.
  clear -Hh Hst Hpq. induction Hst; eauto using held_others.
Qed.

(** The caller has closed the [done] channel of the first connection and waits. *)
Lemma pending_open_blocks_close_witness :
  others 2%positive (closing with_tunnel) (set_done (union {[1%positive]}) (closing with_tunnel))
  /\ callers (set_done (union {[1%positive]}) (closing with_tunnel)) !! 0 = Some [1; 2]%positive.
Proof.
  assert (Hst : others 2%positive (closing with_tunnel)
                  (set_done (union {[1%positive]}) (closing with_tunnel))).
  { split; [left; by apply (i_close _ 0 1%positive [2%positive]); vm_compute|].
    by apply Forall_nil_2. }
  split; [exact Hst|].
  apply (pending_open_blocks_close 2 1 0 [2] 2 1 (closing with_tunnel)
           (set_done (union {[1]}) (closing with_tunnel)))%positive; try done.
  - by apply closing_reachable; [apply with_tunnel_reachable|].
  - intros [|j] l Hj Hl; [done|]. by destruct j.
  - by apply rtc_once.
Defined.

End Lifecycle.
