(* ===== verification/Relay.v ===== *)
(** * Copying bytes through a tunnel

    [bridge] in [gateway/socks.go], [handleTunnel] in [gateway/tunnel.go] and
    the copying of [handlePostgresChannel] in [gateway/connection.go] have the
    same shape: one goroutine for each direction runs [io.Copy], and the first
    to end ends the whole.  A direction is modelled with the bytes the sender
    has sent, those not yet read, those in the copying goroutine's buffer and
    those written to the receiver. *)

From stdpp Require Import base list option relations.
From Stdlib Require Import Lia.
From S2P Require Import Prelude.

Module Relay.

Section relay.
Context {byte : Type}.

(** How an [io.Copy] ended: at the end of the stream, or with an error. *)
Inductive ending := AtEOF | WithError.

Record direction := {
  sent : list byte;
  unread : list byte;
  eof : bool;
  buffer : list byte;
  delivered : list byte;
  ended : option ending;
}.

Definition idle : direction :=
  {| sent := []; unread := []; eof := false; buffer := []; delivered := []; ended := None |}.

(** The size of the buffer of [io.Copy]. *)
Definition bufferSize : nat := 32 * 1024.

(** ** One direction *)

Inductive copy : direction -> direction -> Prop :=
| c_send d bs :                            (* the sender *)
    eof d = false ->
    copy d {| sent := sent d ++ bs; unread := unread d ++ bs; eof := false; buffer := buffer d;
              delivered := delivered d; ended := ended d |}
| c_eof d :
    copy d {| sent := sent d; unread := unread d; eof := true; buffer := buffer d;
              delivered := delivered d; ended := ended d |}
| c_read d n :                             (* src.Read(buf) *)
    ended d = None -> buffer d = [] -> 0 < n <= bufferSize -> n <= length (unread d) ->
    copy d {| sent := sent d; unread := drop n (unread d); eof := eof d;
              buffer := take n (unread d); delivered := delivered d; ended := None |}
| c_write d :                              (* dst.Write(buf[0:nr]) *)
    ended d = None -> buffer d <> [] ->
    copy d {| sent := sent d; unread := unread d; eof := eof d; buffer := [];
              delivered := delivered d ++ buffer d; ended := None |}
| c_write_fails d n :
    ended d = None -> buffer d <> [] -> n <= length (buffer d) ->
    copy d {| sent := sent d; unread := unread d; eof := eof d; buffer := drop n (buffer d);
              delivered := delivered d ++ take n (buffer d); ended := Some WithError |}
| c_read_eof d :                           (* io.EOF *)
    ended d = None -> buffer d = [] -> unread d = [] -> eof d = true ->
    copy d {| sent := sent d; unread := []; eof := true; buffer := []; delivered := delivered d;
              ended := Some AtEOF |}
| c_read_fails d :
    ended d = None -> buffer d = [] ->
    copy d {| sent := sent d; unread := unread d; eof := eof d; buffer := [];
              delivered := delivered d; ended := Some WithError |}.

(** ** Both directions *)

Record bridge := {
  leftToRight : direction;
  rightToLeft : direction;
  returned : bool;
}.

Definition open : bridge := {| leftToRight := idle; rightToLeft := idle; returned := false |}.

(** The [select] on the two [done] channels returns when one is closed. *)
Inductive step : bridge -> bridge -> Prop :=
| b_right b d : copy (leftToRight b) d ->
    step b {| leftToRight := d; rightToLeft := rightToLeft b; returned := returned b |}
| b_left b d : copy (rightToLeft b) d ->
    step b {| leftToRight := leftToRight b; rightToLeft := d; returned := returned b |}
| b_return b :
    is_Some (ended (leftToRight b)) \/ is_Some (ended (rightToLeft b)) ->
    step b {| leftToRight := leftToRight b; rightToLeft := rightToLeft b; returned := true |}.

(** ** The invariant *)

Record inv (d : direction) : Prop := {
  inv_order : delivered d ++ buffer d ++ unread d = sent d;
  inv_buffer : length (buffer d) <= bufferSize;
  inv_eof : ended d = Some AtEOF -> eof d = true /\ buffer d = [] /\ unread d = [];
}.

Lemma inv_idle : inv idle.
Proof. split; [done| |done]. simpl. lia. Qed.

Lemma copy_inv d d' : inv d -> copy d d' -> inv d'.
Proof.
  intros Hi Hst. revert Hi. destruct Hst; intros [Ho Hb He]; split; simpl; try done; try lia.
  - rewrite <- Ho. by rewrite !app_assoc.
  - intros E. by destruct (He E) as (? & _ & _); congruence.
  - intros E. by destruct (He E) as (_ & ? & ?).
  - rewrite take_drop, <- Ho. by replace (buffer d) with (@nil byte).
  - rewrite length_take. lia.
  - rewrite <- Ho. by rewrite app_assoc.
  - rewrite <- Ho, <- app_assoc, (app_assoc (take n _)). by rewrite take_drop.
  - rewrite length_drop. lia.
  - rewrite <- Ho. by replace (buffer d) with (@nil byte); replace (unread d) with (@nil byte).
  - rewrite <- Ho. by replace (buffer d) with (@nil byte).
Qed.

Definition binv (b : bridge) : Prop :=
  inv (leftToRight b) /\ inv (rightToLeft b)
  /\ (returned b = true -> is_Some (ended (leftToRight b)) \/ is_Some (ended (rightToLeft b))).

Lemma copy_ended d d' : copy d d' -> is_Some (ended d) -> is_Some (ended d').
Proof. intros [] Hs; simpl; try done; rewrite H in Hs; by destruct Hs. Qed.

Lemma step_binv b b' : binv b -> step b b' -> binv b'.
Proof.
  intros (Hl & Hr & He) Hst. revert Hl Hr He.
  destruct Hst as [b d Hc|b d Hc|b He']; intros Hl Hr He; split_and!; simpl; try done.
  - exact (copy_inv _ _ Hl Hc).
  - intros E. destruct (He E); [left; by eapply copy_ended|by right].
  - exact (copy_inv _ _ Hr Hc).
  - intros E. destruct (He E); [by left|right; by eapply copy_ended].
Qed.


End relay.

(** ** A stream that is closed in one direction *)

Arguments idle byte : clear implicits.
Arguments open byte : clear implicits.

(** The left side sends a request and ends its stream; the bridge returns
    although the answer of the right side is not delivered. *)
Definition half_closed : bridge (byte := nat) :=
  {| leftToRight := {| sent := [1; 2]; unread := []; eof := true; buffer := [];
                       delivered := [1; 2]; ended := Some AtEOF |};
     rightToLeft := {| sent := [3]; unread := [3]; eof := false; buffer := []; delivered := [];
                       ended := None |};
     returned := true |}.

Lemma half_closed_reachable : rtc step (open nat) half_closed.
Proof.
  eapply rtc_l; [apply b_right, (c_send _ [1; 2]); done|].
  eapply rtc_l; [apply b_right, c_eof|].
  eapply rtc_l; [apply b_right, (c_read _ 2); simpl; unfold bufferSize; try done; lia|].
  eapply rtc_l; [apply b_right, c_write; done|].
  eapply rtc_l; [apply b_left, (c_send _ [3]); done|].
  eapply rtc_l; [apply b_right, c_read_eof; done|].
  eapply rtc_l; [apply b_return; left; by eexists|]. apply rtc_refl.
Qed.


End Relay.
