(* ===== verification/SplitCommand.v ===== *)
(** * Splitting a command line, [splitCommand] in [gateway/utils.go]

    The command is read as one record of [encoding/csv] with a space for the
    separator.  The model follows [Reader.readRecord] with the options the
    source leaves at their defaults (no comments, no lazy quotes, no trimming
    of spaces): lines are read one at a time, a quoted field may span lines,
    and the loop that scans the record works on what is left of the current
    line.  Separator, quote and line ends are single bytes, so the bytes of a
    multi-byte character are never mistaken for them. *)

From stdpp Require Import base list strings.
From Stdlib Require Import ZArith Lia Ascii.
From S2P Require Import Prelude GoStrings.

Module SplitCommand.

(** A carriage return at the end of a string dropped. *)
Fixpoint drop_return (s : string) : string :=
  match s with
  | EmptyString => ""
  | String a s' => if decide (a = return_ /\ s' = "") then "" else String a (drop_return s')
  end.

(** [readLine]: the text of the next line, whether it ends in a newline, and
    the rest of the input; [None] at the end of the input.  A carriage return
    before the newline or before the end of the input is dropped. *)
Definition readLine (input : string) : option (string * bool * string) :=
  if decide (input = "") then None
  else match cut newline input with
       | Some (line, rest) => Some (drop_return line, true, rest)
       | None => Some (drop_return input, false, "")
       end.

(** [readRecord] after the first line was read.  [quoted] is the text of the
    quoted field being read, if any; [line], [nl] and [rest] are what is left
    of the line, whether it ends in a newline, and the input after it;
    [fields] are the fields so far.  The outer [None] stands for fuel that ran
    out, the inner one for a parse error. *)
Fixpoint parse (fuel : nat) (quoted : option string) (line : string) (nl : bool) (rest : string)
    (fields : list string) : option (option (list string)) :=
  match fuel with
  | O => None
  | S fuel =>
      match quoted with
      | None =>
          match line with
          | String a line' =>
              if decide (a = quote) then parse fuel (Some "") line' nl rest fields
              else match cut space line with
                   | Some (field, after) =>
                       if contains_byte quote field then Some None
                       else parse fuel None after nl rest (fields ++ [field])
                   | None =>
                       if contains_byte quote line then Some None
                       else Some (Some (fields ++ [line]))
                   end
          | EmptyString => Some (Some (fields ++ [""]))
          end
      | Some buffer =>
          match cut quote line with
          | Some (before, after) =>
              let buffer := buffer +:+ before in
              match after with
              | EmptyString => Some (Some (fields ++ [buffer]))
              | String a after' =>
                  if decide (a = quote)
                  then parse fuel (Some (buffer +:+ String quote "")) after' nl rest fields
                  else if decide (a = space)
                  then parse fuel None after' nl rest (fields ++ [buffer])
                  else Some None
              end
          | None =>
              if decide (line = "" /\ nl = false) then Some None
              else
                let buffer := buffer +:+ line +:+ (if nl then String newline "" else "") in
                match readLine rest with
                | Some (line, nl, rest) => parse fuel (Some buffer) line nl rest fields
                | None => parse fuel (Some buffer) "" false "" fields
                end
          end
      end
  end.

(** The loop that skips empty lines; [None] at the end of the input. *)
Fixpoint firstLine (fuel : nat) (input : string) : option (string * bool * string) :=
  match fuel with
  | O => None
  | S fuel =>
      match readLine input with
      | None => None
      | Some (line, nl, rest) =>
          if decide (line = "") then firstLine fuel rest else Some (line, nl, rest)
      end
  end.

(** [reader.Read()]; each turn of the loops consumes a byte or is the last
    but one, so the length of the input bounds them. *)
Definition readRecord (input : string) : option (option (list string)) :=
  match firstLine (S (String.length input)) input with
  | None => Some None
  | Some (line, nl, rest) => parse (S (S (S (String.length input)))) None line nl rest []
  end.

(** [splitCommand]: nil on any error. *)
Definition splitCommand (command : string) : list string :=
  match readRecord command with
  | Some (Some fields) => fields
  | _ => []
  end.

(** ** Specification: spelling a command *)

(** Quotes doubled. *)
Fixpoint doubled (s : string) : string :=
  match s with
  | EmptyString => ""
  | String a s' =>
      if decide (a = quote) then String quote (String quote (doubled s')) else String a (doubled s')
  end.

(** A field written with quotes around it, or plainly. *)
Definition spell (f : bool * string) : string :=
  if f.1 then String quote (doubled f.2 +:+ String quote "") else f.2.

(** A field on one line; a plain one has no space and no quote. *)
Definition spellable (f : bool * string) : Prop :=
  contains_byte newline f.2 = false /\ contains_byte return_ f.2 = false /\
  (f.1 = false -> contains_byte space f.2 = false /\ contains_byte quote f.2 = false).

(** ** Lemmas *)

Lemma drop_return_length s : (String.length (drop_return s) <= String.length s)%nat.
Proof. induction s as [|a s IH]; simpl; [lia|]. case_decide; simpl; lia. Qed.

Lemma drop_return_id s : contains_byte return_ s = false -> drop_return s = s.
Proof.
  induction s as [|a s IH]; simpl; [done|].
  intros [Ha%bool_decide_eq_false Hb]%orb_false_iff. rewrite decide_False by naive_solver.
  by rewrite IH.
Qed.

(** Reading a line consumes a byte of the input. *)
Lemma readLine_length input line nl rest :
  readLine input = Some (line, nl, rest) ->
  (String.length line + String.length rest + (if nl then 1 else 0) <= String.length input)%nat /\
  (String.length rest < String.length input)%nat.
Proof.
  unfold readLine. case_decide as Hne; [done|].
  destruct (cut newline input) as [[l r]|] eqn:E; intros; simplify_eq.
  - apply cut_Some in E as [-> _]. rewrite String_length_app. simpl.
    pose proof (drop_return_length l). lia.
  - pose proof (drop_return_length input). simpl. destruct input; [done|]. simpl in *. lia.
Qed.

(** ** Termination *)

(** What is left to scan. *)
Definition left_over (line : string) (nl : bool) (rest : string) : nat :=
  String.length line + (if nl then 1 else 0) + String.length rest.

Lemma parse_total fuel quoted line nl rest fields :
  (left_over line nl rest + 1 < fuel)%nat -> parse fuel quoted line nl rest fields <> None.
Proof.
  revert quoted line nl rest fields. unfold left_over.
  induction fuel as [|fuel IH]; intros quoted line nl rest fields Hf; [lia|]. cbn [parse].
  destruct quoted as [buffer|].
  - destruct (cut quote line) as [[before after]|] eqn:E.
    + apply cut_Some in E as [-> _]. rewrite String_length_app in Hf. simpl in Hf.
      destruct after as [|a after']; [done|]. simpl in Hf.
      repeat case_decide; [apply IH; lia..|done].
    + case_decide as Hend; [done|]. destruct (readLine rest) as [[[l n] r]|] eqn:El.
      * apply readLine_length in El as [? ?]. apply IH.
        destruct line; simpl in *; [destruct nl; [lia|naive_solver]|lia].
      * apply IH. destruct line; simpl in *; [destruct nl; [lia|naive_solver]|lia].
  - destruct line as [|a line']; [done|]. case_decide; [apply IH; simpl in Hf; lia|].
    destruct (cut space (String a line')) as [[field after]|] eqn:E;
      [|by destruct (contains_byte _ _)].
    destruct (contains_byte quote field); [done|]. apply IH.
    apply cut_Some in E as [E _]. rewrite E, String_length_app in Hf. simpl in Hf. lia.
Qed.

Lemma firstLine_enough fuel input :
  (String.length input < fuel)%nat -> firstLine (S fuel) input = firstLine fuel input.
Proof.
  revert input. induction fuel as [|fuel IH]; intros input Hf; [lia|].
  cbn [firstLine]. destruct (readLine input) as [[[line nl] rest]|] eqn:E; [|done].
  case_decide; [|done]. apply readLine_length in E as [_ ?]. apply IH. lia.
Qed.

Lemma firstLine_length fuel input line nl rest :
  firstLine fuel input = Some (line, nl, rest) ->
  (left_over line nl rest <= String.length input)%nat.
Proof.
  revert input. induction fuel as [|fuel IH]; intros input E; [done|]. cbn [firstLine] in E.
  destruct (readLine input) as [[[l n] r]|] eqn:El; [|done].
  apply readLine_length in El as [? ?]. case_decide.
  - apply IH in E. lia.
  - simplify_eq. unfold left_over. lia.
Qed.

(** The fuel is enough: the reader always reaches a verdict. *)
Lemma readRecord_total input : readRecord input <> None.
Proof.
  unfold readRecord. destruct (firstLine _ _) as [[[line nl] rest]|] eqn:E; [|done].
  apply firstLine_length in E. apply parse_total. lia.
Qed.

Lemma parse_mono fuel fuel' quoted line nl rest fields r :
  (fuel <= fuel')%nat -> parse fuel quoted line nl rest fields = Some r ->
  parse fuel' quoted line nl rest fields = Some r.
Proof.
  revert fuel' quoted line nl rest fields. induction fuel as [|fuel IH];
    intros fuel' quoted line nl rest fields Hle E; [done|].
  destruct fuel' as [|fuel']; [lia|]. assert (fuel <= fuel')%nat by lia.
  cbn [parse] in E |- *.
  destruct quoted; repeat (case_match || case_decide); eauto.
Qed.

(** ** Evaluation without fuel *)

Definition evaluates quoted line nl rest fields r : Prop :=
  exists fuel, parse fuel quoted line nl rest fields = Some r.

Lemma evaluates_parse fuel quoted line nl rest fields r :
  evaluates quoted line nl rest fields r -> (left_over line nl rest + 1 < fuel)%nat ->
  parse fuel quoted line nl rest fields = Some r.
Proof.
  intros [n En] Hf. pose proof (parse_total fuel quoted line nl rest fields Hf) as Ht.
  destruct (parse fuel quoted line nl rest fields) as [r'|] eqn:E; [|done].
  apply (parse_mono _ (max n fuel)) in E; [|lia]. apply (parse_mono _ (max n fuel)) in En; [|lia].
  congruence.
Qed.

(** What follows a field decides how the record goes on. *)
Definition continues (after : string) nl rest fields r : Prop :=
  (after = "" /\ r = Some fields) \/
  (exists after', after = String space after' /\ evaluates None after' nl rest fields r).

Lemma parse_shift fuel buffer c before after nl rest fields :
  c <> quote -> contains_byte quote before = false ->
  parse fuel (Some buffer) (String c (before +:+ String quote after)) nl rest fields =
  parse fuel (Some (buffer +:+ String c "")) (before +:+ String quote after) nl rest fields.
Proof.
  intros Hc Hb. destruct fuel as [|fuel]; [done|]. cbn [parse].
  rewrite (cut_app quote before after Hb).
  change (String c (before +:+ String quote after))
    with (String c before +:+ String quote after).
  rewrite (cut_app quote (String c before)) by (simpl; by rewrite bool_decide_false).
  by replace (buffer +:+ String c before) with ((buffer +:+ String c "") +:+ before)
    by (by rewrite append_assoc).
Qed.

(** The text of a quoted field always contains a next quote. *)
Lemma doubled_next f after :
  exists before after', doubled f +:+ String quote after = before +:+ String quote after' /\
    contains_byte quote before = false.
Proof.
  induction f as [|c f (before & after' & E & Hb)]; simpl; [by exists "", after|].
  case_decide as Hc; [by eexists "", _|]. exists (String c before), after'.
  rewrite !append_cons, E. simpl. by rewrite bool_decide_false.
Qed.

Lemma parse_at_quote fuel buffer after nl rest fields :
  parse (S fuel) (Some buffer) (String quote after) nl rest fields =
  match after with
  | EmptyString => Some (Some (fields ++ [buffer]))
  | String a after' =>
      if decide (a = quote)
      then parse fuel (Some (buffer +:+ String quote "")) after' nl rest fields
      else if decide (a = space) then parse fuel None after' nl rest (fields ++ [buffer])
      else Some None
  end.
Proof.
  cbn [parse]. change (cut quote (String quote after)) with (Some ("", after)). cbn.
  by rewrite append_nil.
Qed.

Lemma evaluates_quoted f buffer after nl rest fields r :
  continues after nl rest (fields ++ [buffer +:+ f]) r ->
  evaluates (Some buffer) (doubled f +:+ String quote after) nl rest fields r.
Proof.
  revert buffer. induction f as [|c f IH]; intros buffer Hc.
  - rewrite append_nil in Hc. change (doubled "" +:+ String quote after) with (String quote after).
    destruct Hc as [[-> ->]|(after' & -> & fuel & E)].
    + exists 1%nat. by rewrite parse_at_quote.
    + exists (S fuel). by rewrite parse_at_quote.
  - assert (Hc' : continues after nl rest (fields ++ [(buffer +:+ String c "") +:+ f]) r)
      by (by rewrite append_assoc).
    destruct (IH _ Hc') as [fuel E]. cbn [doubled]. case_decide as Hq.
    + subst c. exists (S fuel). rewrite !append_cons, parse_at_quote. by rewrite decide_True.
    + exists fuel. destruct (doubled_next f after) as (b & a & Eb & Hb).
      rewrite append_cons, Eb in *. by rewrite parse_shift.
Qed.

Lemma plain_first c f :
  contains_byte quote (String c f) = false -> c <> quote.
Proof. cbn [contains_byte]. by intros [Hq%bool_decide_eq_false _]%orb_false_iff. Qed.

(** A plain field before a separator, and at the end of the line. *)
Lemma parse_plain fuel f after nl rest fields :
  contains_byte space f = false -> contains_byte quote f = false ->
  parse (S fuel) None (f +:+ String space after) nl rest fields =
  parse fuel None after nl rest (fields ++ [f]).
Proof.
  intros Hs Hq. pose proof (cut_app space f after Hs) as Hcut. destruct f as [|c f].
  - change ("" +:+ String space after) with (String space after) in *. cbn [parse].
    rewrite decide_False by done. by rewrite Hcut.
  - rewrite append_cons in *. cbn [parse]. rewrite decide_False by (by eapply plain_first).
    by rewrite Hcut, Hq.
Qed.

Lemma parse_last fuel f nl rest fields :
  contains_byte space f = false -> contains_byte quote f = false ->
  parse (S fuel) None f nl rest fields = Some (Some (fields ++ [f])).
Proof.
  intros Hs Hq. cbn [parse]. rewrite (cut_None space), Hq by done.
  destruct f as [|c f]; [done|]. by rewrite decide_False by (by eapply plain_first).
Qed.

Lemma evaluates_field f after nl rest fields r :
  spellable f -> continues after nl rest (fields ++ [f.2]) r ->
  evaluates None (spell f +:+ after) nl rest fields r.
Proof.
  destruct f as [[] f]; intros (_ & _ & Hp) Hc; unfold spell; cbn [fst snd] in *.
  - destruct (evaluates_quoted f "" after nl rest fields r Hc) as [fuel E].
    exists (S fuel). rewrite append_cons, append_assoc. cbn [parse]. by rewrite decide_True.
  - destruct (Hp eq_refl) as [Hs Hq]. clear Hp. destruct Hc as [[-> ->]|(after' & -> & fuel & E)].
    + exists 1%nat. rewrite append_nil. by apply parse_last.
    + exists (S fuel). by rewrite parse_plain.
Qed.

Lemma evaluates_fields fs nl rest fields :
  fs <> [] -> Forall spellable fs ->
  evaluates None (Join space (map spell fs)) nl rest fields (Some (fields ++ map snd fs)).
Proof.
  revert fields. induction fs as [|f fs IH]; intros fields Hne Hall; [done|].
  inversion_clear Hall as [|? ? Hf Hfs]. destruct fs as [|f' fs].
  - cbn [map Join]. rewrite <- (append_nil (spell f)). apply evaluates_field; [done|]. by left.
  - cbn [map]. rewrite Join_cons by done. apply evaluates_field; [done|]. right.
    eexists. split; [reflexivity|].
    change (spell f' :: map spell fs) with (map spell (f' :: fs)).
    assert (E : fields ++ f.2 :: f'.2 :: map snd fs = (fields ++ [f.2]) ++ map snd (f' :: fs))
      by (by rewrite <- app_assoc).
    rewrite E. by apply IH.
Qed.

(** ** The whole command *)

Lemma contains_byte_doubled c f :
  c <> quote -> contains_byte c (doubled f) = contains_byte c f.
Proof.
  intros Hc. induction f as [|x f IH]; [done|]. cbn [doubled]. case_decide; subst; cbn [contains_byte];
    by rewrite ?IH, ?bool_decide_false by done.
Qed.

Lemma contains_byte_spell c f :
  c <> quote -> contains_byte c f.2 = false -> contains_byte c (spell f) = false.
Proof.
  intros Hc Hf. unfold spell. destruct f.1; [|done]. cbn [contains_byte].
  rewrite contains_byte_app, contains_byte_doubled, Hf by done. cbn [contains_byte].
  by rewrite bool_decide_false.
Qed.

Lemma contains_byte_Join c fs :
  c <> quote -> c <> space -> Forall (fun f => contains_byte c f.2 = false) fs ->
  contains_byte c (Join space (map spell fs)) = false.
Proof.
  intros Hq Hs. induction 1 as [|f fs Hf Hfs IH]; [done|]. destruct fs as [|f' fs].
  - by apply contains_byte_spell.
  - cbn [map] in *. rewrite Join_cons by done. rewrite contains_byte_app. cbn [contains_byte].
    rewrite contains_byte_spell, bool_decide_false by done. exact IH.
Qed.

Lemma firstLine_one_line fuel s :
  s <> "" -> contains_byte newline s = false -> contains_byte return_ s = false ->
  firstLine (S fuel) s = Some (s, false, "").
Proof.
  intros Hne Hn Hr. cbn [firstLine]. unfold readLine. rewrite decide_False by done.
  rewrite (cut_None newline), drop_return_id by done. by rewrite decide_False.
Qed.

(** C30: [splitCommand] always reaches a verdict, and reads back a command
    written field by field: each field plainly, if it has no space and no
    quote, or between quotes with its quotes doubled. *)
Theorem splitCommand_spell (fs : list (bool * string)) :
  Forall spellable fs -> Join space (map spell fs) <> "" ->
  (forall command, readRecord command <> None) /\
  splitCommand (Join space (map spell fs)) = map snd fs.
Proof.
  intros Hall Hne. split; [exact readRecord_total|].
  assert (Hfs : fs <> []) by (by intros ->).
  unfold splitCommand, readRecord. rewrite firstLine_one_line; [|done|..].
  - erewrite evaluates_parse; [|by apply evaluates_fields|unfold left_over; simpl; lia]. done.
  - apply contains_byte_Join; [done..|]. eapply Forall_impl; [exact Hall|]. by intros f (? & _).
  - apply contains_byte_Join; [done..|]. eapply Forall_impl; [exact Hall|]. by intros f (_ & ? & _).
Qed.

Lemma splitCommand_spell_witness :
  splitCommand (Join space (map spell [(false, "kickUser"); (true, "alice bob")])) =
  ["kickUser"; "alice bob"].
Proof.
  apply (splitCommand_spell [(false, "kickUser"); (true, "alice bob")]).
  - apply Forall_cons_2; [split_and!; done|]. apply Forall_cons_2; [|apply Forall_nil_2].
    split_and!; done.
  - intros [=].
Defined.
End SplitCommand.
