(* ===== verification/Service.v ===== *)
(** * Sessions and commands, [gateway/session.go] and [gateway/service.go]

    A session channel's requests, the commands they run and the exit status
    they report.  What the program reads from and writes to the channel goes
    through an environment: its answers are parameters.  An output holds the
    value; what is written is its JSON text. *)

From stdpp Require Import base list strings gmap fin_maps option relations.
From Stdlib Require Import ZArith Lia.
From Stdlib Require Import Strings.Byte.
From S2P Require Import Prelude GoStrings Bytes Json JsonText Wire Usage Models Database Auth.
From S2P Require Import Connection Registry Peers Routing Gateway Render SplitCommand.

#[local] Open Scope Z_scope.

Module Service.
Import Routing.

Definition ErrInvalidCommand : error := Sentinel "gateway: invalid command".
Definition errShellOnly : error := Errorf "gateway: this command cannot be run in shell".

(** What is written to the client. *)
Inductive output : Type :=
| Text (text : string)
| Pong (version : string) (services : list string) (now : time)
| StatusOf (connections : list Conn.connectionStatus)
| OwnStatus (connection : Conn.connectionStatus)
| Users (list : Gateway.userList)
| UserDetail (user : option Gateway.userResponse).

(** The outside of a session: the outcome of each write; the rest of the
    channel's data, and the same decompressed; the text that a [jsonb] column
    of the database holds for a text, or its error; the clock, the offset of
    the location of a time, and [strconv]'s text of a [float64]. *)
Record environment := {
  env_write : string -> option error;
  env_body : result (list byte);
  env_gunzip : result (list byte);
  env_jsonb : string -> result string;
  env_now : time;
  env_zone : time -> Z;
  env_float : Z -> result string;
}.

(** How an operation ends: it returns, with an error or without, or its
    goroutine waits forever. *)
Inductive ending : Type :=
| Returned (err : option error)
| Blocked.

Section service.
Context {DB : Type} `{Executor DB}.

(** The state a command works on: the node's login flags and the gateway. *)
Abbreviation state := (Auth.flagsCache * gateway DB)%type.

(** The new state, what was written, and how it ended. *)
Abbreviation outcome := (state * list output * ending)%type.

Context (settings : Settings) (env : environment) (self : positive).

Definition connectionOf (s : state) : Conn.connection := connections s.2 !!! self.

Definition fail (e : error) (s : state) : outcome := (s, [], Returned (Some e)).

(** The value of an output, as [encoding/json] sees it. *)
Definition valueOf (o : output) : option (result json) :=
  let zone := env_zone env in
  let float := env_float env in
  match o with
  | Text _ => None
  | Pong version services now => Some (Render.pongJson zone version services now)
  | StatusOf connections => Some (Render.statusJson zone connections)
  | OwnStatus connection => Some (Render.connectionJson zone connection)
  | Users list => Some (Render.userListJson zone float list)
  | UserDetail None => Some (Ok JNull)
  | UserDetail (Some user) => Some (Render.userResponseJson zone float user)
  end.

(** [marshal], but for [ping], whose answer is on one line. *)
Definition render (o : output) : result string :=
  match o, valueOf o with
  | Text text, _ => Ok text
  | Pong _ _ _, Some v => let! v := v in Json.Marshal v
  | _, Some v => let! v := v in let! text := Json.MarshalIndent v in Ok (text +:+ String newline "")
  | _, None => Ok ""
  end.

Definition write (o : output) (s : state) : outcome :=
  match render o with
  | Err e => fail e s
  | Ok text => (s, [o], Returned (env_write env text))
  end.

(** [reportStatus] and [reportScreenshot] of the connection. *)
Definition saveStatus (status : string) (s : state) : outcome :=
  match env_jsonb env status with
  | Err e => fail e s
  | Ok stored =>
      match db_UpdateUserStatus (env_now env) (Conn.user (connectionOf s)) stored (database s.2) with
      | (d, Ok _) => ((s.1, Gateway.set_database d s.2), [], Returned None)
      | (d, Err e) => fail e (s.1, Gateway.set_database d s.2)
      end
  end.

Definition saveScreenshot (screenshot : list byte) (s : state) : outcome :=
  match db_UpdateUserScreenshot (env_now env) (Conn.user (connectionOf s)) (Some screenshot)
          (database s.2) with
  | (d, Ok _) => ((s.1, Gateway.set_database d s.2), [], Returned None)
  | (d, Err e) => fail e (s.1, Gateway.set_database d s.2)
  end.

Definition helpText (permitPortForwarding administrator : bool) : string :=
  Join newline
    (["Available commands:"; ""] ++
     (if permitPortForwarding then
        ["    status [username] - show gateway status, optionally filter by username";
         "    listUsers - list all users in database";
         "    listOnlineUsers - list users that are currently online";
         "    listLocalOnlineUsers - list users that are connected to this node";
         "    getUser <username> - get details about a user from database"; ""]
      else []) ++
     (if administrator then ["    kickUser <username> - close connections from a user"; ""]
      else []) ++
     ["    exit - exit shell"; "    quit - same as exit"; "    help - display this help message";
      "    version - show server version"; "    ping - ping server"; ""; ""]).

Definition help (s : state) : outcome :=
  write (Text (helpText (Conn.permitPortForwarding (connectionOf s))
                        (Conn.administrator (connectionOf s)))) s.

Definition ping (s : state) : outcome :=
  match write (Pong (Version settings) ["ping"; "reportStatus"; "reportScreenshot"] (env_now env)) s
  with
  | (s, out, Returned None) =>
      let '(s, out', e) := write (Text (String newline "")) s in (s, out ++ out', e)
  | failed => failed
  end.

Definition version (s : state) : outcome :=
  write (Text (Version settings +:+ String newline "")) s.

Definition reportStatus (terminal : bool) (s : state) : outcome :=
  if terminal then fail errShellOnly s
  else match env_gunzip env with
       | Err e => fail e s
       | Ok raw =>
           match Json.UnmarshalRaw (string_of_bytes raw) with
           | Err e => fail e s
           | Ok status => saveStatus status s
           end
       end.

Definition reportScreenshot (terminal : bool) (s : state) : outcome :=
  if terminal then fail errShellOnly s
  else match env_body env with
       | Err e => fail e s
       | Ok screenshot => saveScreenshot screenshot s
       end.

Definition status (user : string) (s : state) : outcome :=
  if Conn.permitPortForwarding (connectionOf s)
  then write (StatusOf (Gateway.gatherStatus (env_now env) user s.2)) s
  else write (OwnStatus (Conn.gatherStatus (env_now env) (connectionOf s))) s.

(** A query of the gateway and the marshalling of its answer. *)
Definition answer {A} (query : gateway DB -> gateway DB * result A) (present : A -> output)
    (s : state) : outcome :=
  match query s.2 with
  | (g, Err e) => fail e (s.1, g)
  | (g, Ok a) => write (present a) (s.1, g)
  end.

Definition listUsers : state -> outcome := answer (Gateway.ListUsers (env_now env)) Users.
Definition listOnlineUsers : state -> outcome :=
  answer (Gateway.ListOnlineUsers (env_now env)) Users.
Definition listLocalOnlineUsers : state -> outcome := answer Gateway.ListLocalOnlineUsers Users.
Definition getUser (userId : string) : state -> outcome :=
  answer (Gateway.GetUser (env_now env) userId) UserDetail.

(** The connections up to and including the command's own. *)
Fixpoint upToSelf (ps : list positive) : list positive :=
  match ps with
  | [] => []
  | p :: rest => p :: (if decide (p = self) then [] else upToSelf rest)
  end.

(** [close] of a connection waits for the goroutines of its sessions, one of
    which runs this command: closing the connection the command came through
    never returns, and the connections after it in the list stay. *)
Definition kickUser (userId : string) (s : state) : outcome :=
  let ps := Gateway.connectionsOf userId s.2 in
  if decide (self ∈ ps) then
    ((if RevokeLoginFlags settings then Auth.revokeUserFlags userId s.1 else s.1,
      Gateway.closeAll settings (env_now env) (upToSelf ps) s.2), [], Blocked)
  else (Gateway.kickUser settings (env_now env) userId s.1 s.2, [], Returned None).

Definition handleCommand (terminal : bool) (command : list string) (s : state) : outcome :=
  if decide (command = ["help"]) then help s
  else if decide (command = ["ping"]) then ping s
  else if decide (command = ["version"]) then version s
  else if decide (command = ["reportStatus"]) then reportStatus terminal s
  else if decide (command = ["reportScreenshot"]) then reportScreenshot terminal s
  else if Conn.permitPortForwarding (connectionOf s) then
    match command with
    | [c] =>
        if decide (c = "status") then status "" s
        else if decide (c = "listUsers") then listUsers s
        else if decide (c = "listOnlineUsers") then listOnlineUsers s
        else if decide (c = "listLocalOnlineUsers") then listLocalOnlineUsers s
        else fail ErrInvalidCommand s
    | [c; arg] =>
        if decide (c = "status") then status arg s
        else if decide (c = "getUser") then getUser arg s
        else if Conn.administrator (connectionOf s) then
          if decide (c = "kickUser") then kickUser arg s else fail ErrInvalidCommand s
        else fail ErrInvalidCommand s
    | _ => fail ErrInvalidCommand s
    end
  else fail ErrInvalidCommand s.

(** ** The shell *)

(** What [terminal.ReadLine] returns. *)
Inductive lineRead := Line (text : string) | EndOfFile | ReadError (e : error).

Definition errorText (e : error) : string :=
  match e with Sentinel t => t | Errorf t => t | Foreign t => t end.

(** The loop of [handleShell]. *)
Fixpoint shellLoop (lines : list lineRead) (s : state) : outcome :=
  match lines with
  | [] | EndOfFile :: _ => (s, [], Returned None)
  | ReadError e :: _ => fail e s
  | Line text :: rest =>
      let line := TrimSpace text in
      if decide (line = "") then shellLoop rest s
      else if decide (line = "exit" \/ line = "quit") then (s, [], Returned None)
      else
        match handleCommand true (SplitCommand.splitCommand line) s with
        | (s, out, Returned None) =>
            let '(s, more, e) := shellLoop rest s in (s, out ++ more, e)
        | (s, out, Returned (Some err)) =>
            let message := "ERROR: " +:+ errorText err +:+ String newline "" in
            match env_write env message with
            | Some e => (s, out ++ [Text message], Returned (Some e))
            | None => let '(s, more, e) := shellLoop rest s in (s, out ++ Text message :: more, e)
            end
        | (s, out, Blocked) => (s, out, Blocked)
        end
  end.

Definition handleShell (lines : list lineRead) (s : state) : outcome :=
  let welcome := Text ("Welcome to gatewaysshd version " +:+ Version settings +:+
                       "! Type " +:+ String quote "help" +:+
                       String quote " to get a list of available commands." +:+
                       String newline "") in
  match write welcome s with
  | (s, out, Returned None) => let '(s, more, e) := shellLoop lines s in (s, out ++ more, e)
  | failed => failed
  end.

Definition runService (command : string) (lines : list lineRead) (s : state) : outcome :=
  if decide (command = "") then handleShell lines s
  else
    match handleCommand false (SplitCommand.splitCommand command) s with
    | (s, out, Returned (Some err)) =>
        if decide (err = ErrInvalidCommand) then
          match Json.UnmarshalRaw command with
          | Err e => (s, out, Returned (Some e))
          | Ok status => let '(s, more, e) := saveStatus status s in (s, out ++ more, e)
          end
        else (s, out, Returned None)
    | done => done
    end.

(** ** Sessions *)

(** What a session does to its channel. *)
Inductive effect : Type :=
| Replied (ok : bool)
| Wrote (o : output)
| Stderr (text : string)
| ClosedWrite
| SentExitStatus (payload : list byte)
| Closed.

Definition exitWith (status : Z) : list effect :=
  [ClosedWrite; SentExitStatus (Marshal {| exit_Status := status |}); Closed].

Definition known (type : string) : bool :=
  bool_decide (type = "env" \/ type = "shell" \/ type = "exec" \/ type = "pty-req").

(** The closure run for a [shell] or [exec] request: what it did, and whether
    it succeeded, failed or waits forever. *)
Definition execute (req : Conn.request) (lines : list lineRead) (s : state)
    : state * list effect * ending :=
  let command :=
    if decide (Conn.req_Type req = "exec")
    then let! e := Unmarshal (T := executeRequest) (Conn.req_Payload req) in Ok (exec_Command e)
    else Ok "" in
  match command with
  | Err e => (s, exitWith 1, Returned (Some e))
  | Ok command =>
      match runService command lines s with
      | (s, out, Returned (Some e)) =>
          (s, map Wrote out ++
              Stderr ("ERROR: " +:+ errorText e +:+
                      String return_ (String newline "")) :: exitWith 1,
           Returned (Some e))
      | (s, out, Returned None) => (s, map Wrote out ++ exitWith 0, Returned None)
      | (s, out, Blocked) => (s, map Wrote out, Blocked)
      end
  end.

(** [handleSession]; each request comes with the outcome of replying to it and
    the lines a shell would read. *)
Fixpoint handleSession (requests : list (Conn.request * option error * list lineRead)) (s : state)
    : state * list effect :=
  match requests with
  | [] => (s, [])
  | (req, replyErr, lines) :: rest =>
      let replied := if Conn.req_WantReply req then [Replied (known (Conn.req_Type req))] else [] in
      if decide (Conn.req_WantReply req = true /\ replyErr <> None) then (s, replied)
      else if decide (Conn.req_Type req = "shell" \/ Conn.req_Type req = "exec") then
        match execute req lines s with
        | (s, effects, Returned None) =>
            let (s, more) := handleSession rest s in (s, replied ++ effects ++ more)
        | (s, effects, _) => (s, replied ++ effects)
        end
      else let (s, more) := handleSession rest s in (s, replied ++ more)
  end.

(** ** Authorization of commands *)

(** Outputs about other users. *)
Definition exposes (o : output) : bool :=
  match o with
  | StatusOf _ | Users _ | UserDetail _ => true
  | Text _ | Pong _ _ _ | OwnStatus _ => false
  end.

(** A change of one user's own report columns, and of nothing else. *)
Definition own_change (u : string) (t t' : tables) : Prop :=
  nodes t' = nodes t /\ (forall v, v <> u -> users t' !! v = users t !! v) /\
  match users t !! u, users t' !! u with
  | Some row, Some row' =>
      administrator row' = administrator row /\ disabled row' = disabled row /\
      node_id row' = node_id row /\ online_at row' = online_at row /\
      comment row' = comment row /\ created_at row' = created_at row
  | None, None => True
  | _, _ => False
  end.

Lemma own_change_refl u t : own_change u t t.
Proof. unfold own_change. by destruct (users t !! u). Qed.

Lemma updateUserColumn_own now u f t :
  (forall row, administrator (f row) = administrator row /\ disabled (f row) = disabled row /\
     node_id (f row) = node_id row /\ online_at (f row) = online_at row /\
     comment (f row) = comment row /\ created_at (f row) = created_at row) ->
  own_change u t (updateUserColumn now u f t).1.
Proof.
  intros Hf. unfold updateUserColumn. destruct (users t !! u) as [row|] eqn:E;
    [|apply own_change_refl].
  unfold own_change. simpl. rewrite E, lookup_insert_eq. split; [done|]. split.
  - intros v Hv. by rewrite lookup_insert_ne.
  - simpl. apply Hf.
Qed.

Lemma executeErr_own u op (d : DB) :
  (forall t, own_change u t (op t).1) ->
  own_change u (db_tables d) (db_tables (executeErr op d).1).
Proof.
  intros Hop. unfold executeErr.
  match goal with |- context [db_exec ?f d] => pose proof (db_exec_spec f d) as S;
    destruct (db_exec f d) as [d' r] end. simpl in *.
  destruct (op (db_tables d)) as [t' e] eqn:E. pose proof (Hop (db_tables d)) as Ho.
  rewrite E in Ho. simpl in *.
  destruct S as [[-> _]|(_ & _ & [->| ->])]; auto using own_change_refl.
Qed.

(** What a command may change, unless it is an administrator's kick. *)
Definition harmless (u : string) (s s' : state) : Prop :=
  s'.1 = s.1 /\ connections s'.2 = connections s.2 /\ registry s'.2 = registry s.2 /\
  own_change u (db_tables (database s.2)) (db_tables (database s'.2)).

Lemma harmless_refl u s : harmless u s s.
Proof. unfold harmless. auto using own_change_refl. Qed.

Lemma saveStatus_harmless newStatus s :
  harmless (Conn.user (connectionOf s)) s (saveStatus newStatus s).1.1 /\
  (saveStatus newStatus s).1.2 = [].
Proof.
  unfold saveStatus, db_UpdateUserStatus, UpdateUserStatus.
  destruct (env_jsonb env newStatus) as [stored|e]; [|split; [apply harmless_refl|done]].
  match goal with |- context [executeErr ?op ?d] =>
    pose proof (executeErr_own (Conn.user (connectionOf s)) op d) as Ho;
    destruct (executeErr op d) as [d' [?|?]] end; (split; [|done]); unfold harmless;
    (split_and!; [done..|]); apply Ho; intros t; by apply updateUserColumn_own.
Qed.

Lemma saveScreenshot_harmless screenshot s :
  harmless (Conn.user (connectionOf s)) s (saveScreenshot screenshot s).1.1 /\
  (saveScreenshot screenshot s).1.2 = [].
Proof.
  unfold saveScreenshot, db_UpdateUserScreenshot, UpdateUserScreenshot.
  match goal with |- context [executeErr ?op ?d] =>
    pose proof (executeErr_own (Conn.user (connectionOf s)) op d) as Ho;
    destruct (executeErr op d) as [d' [?|?]] end; (split; [|done]); unfold harmless;
    (split_and!; [done..|]); apply Ho; intros t; by apply updateUserColumn_own.
Qed.

(** A query through the gateway that leaves the tables alone. *)
Definition reads_only {A} (q : gateway DB -> gateway DB * result A) : Prop :=
  forall g, connections (q g).1 = connections g /\ registry (q g).1 = registry g /\
            db_tables (database (q g).1) = db_tables (database g).

Lemma write_state o s : (write o s).1.1 = s.
Proof. unfold write. by destruct (render o). Qed.

Lemma answer_harmless {A} u (q : gateway DB -> gateway DB * result A) present s :
  reads_only q -> harmless u s (answer q present s).1.1.
Proof.
  intros Hq. unfold answer. destruct (Hq s.2) as (Hc & Hr & Ht).
  destruct (q s.2) as [g [a|e]]; rewrite ?write_state; unfold harmless; simpl in *; rewrite Ht;
    auto using own_change_refl.
Qed.

Lemma reads_only_query {A B} (q : tables -> A) (post : gateway DB -> A -> B) :
  reads_only (fun g => match query q (database g) with
                       | (d, Err e) => (Gateway.set_database d g, Err e)
                       | (d, Ok a) => (Gateway.set_database d g, Ok (post g a))
                       end).
Proof.
  intros g. destruct (query q (database g)) as [d r] eqn:E.
  apply query_spec in E as [Ht _]. by destruct r.
Qed.

Lemma reads_only_ListLocal : reads_only Gateway.ListLocalOnlineUsers.
Proof.
  intros g. unfold Gateway.ListLocalOnlineUsers, db_GetUsers.
  destruct (Registry.connectedUserIds _); [done|].
  destruct (query _ (database g)) as [d r] eqn:E. apply query_spec in E as [Ht _]. by destruct r.
Qed.

Lemma reads_only_GetUser now u : reads_only (Gateway.GetUser now u).
Proof.
  intros g. unfold Gateway.GetUser, db_GetUser.
  destruct (query _ (database g)) as [d r] eqn:E. apply query_spec in E as [Ht _].
  by destruct r as [[?|]|].
Qed.

(** An outcome that is harmless, and one that moreover shows nothing about
    others. *)
Definition tame (s : state) (r : outcome) : Prop := harmless (Conn.user (connectionOf s)) s r.1.1.
Definition discreet (s : state) (r : outcome) : Prop :=
  tame s r /\ Forall (fun o => exposes o = false) r.1.2.

Lemma write_tame o s : tame s (write o s).
Proof. unfold tame. rewrite write_state. apply harmless_refl. Qed.

Lemma write_discreet o s : exposes o = false -> discreet s (write o s).
Proof.
  intros Ho. split; [apply write_tame|]. unfold write. destruct (render o); by repeat constructor.
Qed.

Lemma fail_discreet e s : discreet s (fail e s).
Proof. split; [apply harmless_refl|constructor]. Qed.

Lemma ping_discreet s : discreet s (ping s).
Proof.
  unfold ping, write. destruct (render _); [|split; [apply harmless_refl|constructor]].
  destruct (env_write env _); (split; [apply harmless_refl|]); by repeat constructor.
Qed.

Lemma reportStatus_discreet terminal s : discreet s (reportStatus terminal s).
Proof.
  unfold reportStatus. destruct terminal, (env_gunzip env) as [raw|]; auto using fail_discreet.
  destruct (Json.UnmarshalRaw _) as [st|]; auto using fail_discreet.
  destruct (saveStatus_harmless st s) as [Hh Ho]. split; [done|]. rewrite Ho. constructor.
Qed.

Lemma reportScreenshot_discreet terminal s : discreet s (reportScreenshot terminal s).
Proof.
  unfold reportScreenshot. destruct terminal, (env_body env) as [raw|]; auto using fail_discreet.
  destruct (saveScreenshot_harmless raw s) as [Hh Ho]. split; [done|]. rewrite Ho. constructor.
Qed.

Lemma status_tame u s : tame s (status u s).
Proof. unfold status. destruct (Conn.permitPortForwarding _); apply write_tame. Qed.

Lemma discreet_tame s r : discreet s r -> tame s r.
Proof. by intros []. Qed.

(** A command outside the port forwarding permission is discreet, and only an
    administrator's kick is not harmless. *)
Lemma handleCommand_spec (terminal : bool) (command : list string) (s : state) :
  let r := handleCommand terminal command s in
  let c := connectionOf s in
  (Conn.permitPortForwarding c = false -> discreet s r) /\
  (tame s r \/ Conn.permitPortForwarding c = true /\ Conn.administrator c = true /\
                exists u, command = ["kickUser"; u]).
Proof.
  cbv zeta. assert (Hd : forall r, discreet s r -> (Conn.permitPortForwarding (connectionOf s) = false ->
    discreet s r) /\ (tame s r \/ Conn.permitPortForwarding (connectionOf s) = true /\
    Conn.administrator (connectionOf s) = true /\ exists u, command = ["kickUser"; u]))
    by (intros r Hr; split; [done|left; by apply discreet_tame]).
  unfold handleCommand.
  case_decide; [by apply Hd, write_discreet|]. case_decide; [by apply Hd, ping_discreet|].
  case_decide; [by apply Hd, write_discreet|]. case_decide; [by apply Hd, reportStatus_discreet|].
  case_decide; [by apply Hd, reportScreenshot_discreet|].
  destruct (Conn.permitPortForwarding (connectionOf s)) eqn:Ep; [|by apply Hd, fail_discreet].
  split; [done|]. destruct command as [|c [|arg [|]]]; try (left; apply discreet_tame, fail_discreet).
  - left. repeat (case_decide; [first [apply status_tame|apply answer_harmless]|]);
      [apply (reads_only_query Models.ListUsers)|apply reads_only_query|apply reads_only_ListLocal|
       apply discreet_tame, fail_discreet].
  - case_decide; [left; apply status_tame|].
    case_decide; [left; apply answer_harmless, reads_only_GetUser|].
    destruct (Conn.administrator (connectionOf s)); [|left; apply discreet_tame, fail_discreet].
    case_decide; [right; subst; eauto|left; apply discreet_tame, fail_discreet].
Qed.

(** ** Authorization of sessions *)

(** What the connection's permissions allow, when it cannot kick. *)
Definition lawful (s : state) (r : outcome) : Prop :=
  tame s r /\
  (Conn.permitPortForwarding (connectionOf s) = false ->
   Forall (fun o => exposes o = false) r.1.2).

(** The connection cannot kick. *)
Definition ordinary (s : state) : Prop :=
  Conn.permitPortForwarding (connectionOf s) = false \/
  Conn.administrator (connectionOf s) = false.

Lemma own_change_trans u t1 t2 t3 :
  own_change u t1 t2 -> own_change u t2 t3 -> own_change u t1 t3.
Proof.
  unfold own_change. intros (N1 & O1 & R1) (N2 & O2 & R2). split; [congruence|]. split.
  - intros v Hv. by rewrite O2, O1.
  - destruct (users t1 !! u), (users t2 !! u), (users t3 !! u); try done.
    destruct_and!. repeat split; congruence.
Qed.

Lemma harmless_trans u s1 s2 s3 : harmless u s1 s2 -> harmless u s2 s3 -> harmless u s1 s3.
Proof.
  unfold harmless. intros (F1 & C1 & R1 & T1) (F2 & C2 & R2 & T2).
  split_and!; [congruence..|by eapply own_change_trans].
Qed.

Lemma harmless_connectionOf u s s' : harmless u s s' -> connectionOf s' = connectionOf s.
Proof. unfold harmless, connectionOf. by intros (_ & -> & _). Qed.

Lemma handleCommand_lawful terminal command s :
  ordinary s -> lawful s (handleCommand terminal command s).
Proof.
  intros Ho. destruct (handleCommand_spec terminal command s) as [Hd Ht]. split.
  - destruct Ht as [?|(? & ? & _)]; [done|]. destruct Ho; congruence.
  - intros Hp. by apply Hd.
Qed.

(** Running one thing after another. *)
Lemma lawful_then s s1 out1 e1 s2 out2 e2 :
  lawful s (s1, out1, e1) -> lawful s1 (s2, out2, e2) -> lawful s (s2, out1 ++ out2, e2).
Proof.
  intros [T1 D1] [T2 D2]. unfold lawful, tame in *. cbn [fst snd] in *.
  rewrite (harmless_connectionOf _ _ _ T1) in T2, D2.
  split; [by eapply harmless_trans|]. intros Hp. apply Forall_app. auto.
Qed.

Lemma lawful_ordinary s s1 out e : lawful s (s1, out, e) -> ordinary s -> ordinary s1.
Proof.
  intros [T _]. unfold ordinary. unfold tame in T. cbn [fst] in T.
  by rewrite (harmless_connectionOf _ _ _ T).
Qed.

Lemma lawful_refl s out e :
  Forall (fun o => exposes o = false) out -> lawful s (s, out, e).
Proof. intros Ho. split; [apply harmless_refl|done]. Qed.

Lemma lawful_ending s s1 out e e' : lawful s (s1, out, e) -> lawful s (s1, out, e').
Proof. done. Qed.

Lemma shellLoop_lawful lines s : ordinary s -> lawful s (shellLoop lines s).
Proof.
  revert s. induction lines as [|l rest IH]; intros s Ho; [by apply lawful_refl|].
  cbn [shellLoop]. destruct l as [text| |e]; [|by apply lawful_refl..].
  case_decide; [by apply IH|]. case_decide; [by apply lawful_refl|].
  pose proof (handleCommand_lawful true (SplitCommand.splitCommand (TrimSpace text)) s Ho) as Hl.
  destruct (handleCommand true _ s) as [[s1 out] [[err|]|]]; [| |done];
    pose proof (IH s1 (lawful_ordinary _ _ _ _ Hl Ho)) as Hr;
    destruct (shellLoop rest s1) as [[s2 more] e2].
  - assert (Hw : forall r, lawful s1 (s1, [Text r], Returned None))
      by (intros r; apply lawful_refl; by repeat constructor).
    destruct (env_write env _).
    + eapply lawful_then; [exact Hl|]. eapply lawful_ending, Hw.
    + eapply (lawful_then _ _ _ _ _ (Text _ :: more)); [exact Hl|].
      eapply (lawful_then _ _ [Text _]); [apply Hw|exact Hr].
  - by eapply lawful_then.
Qed.

Lemma runService_lawful command lines s : ordinary s -> lawful s (runService command lines s).
Proof.
  intros Ho. unfold runService. case_decide.
  - unfold handleShell, write. cbn [render].
    destruct (env_write env (_ +:+ _)); [by apply lawful_refl; repeat constructor|].
    pose proof (shellLoop_lawful lines s Ho) as Hl. destruct (shellLoop lines s) as [[s1 out] e].
    eapply (lawful_then _ s [Text _] (Returned None)); [|exact Hl]. apply lawful_refl; by repeat constructor.
  - pose proof (handleCommand_lawful false (SplitCommand.splitCommand command) s Ho) as Hl.
    destruct (handleCommand false _ s) as [[s1 out] [[err|]|]]; [|done..].
    case_decide; [|done]. destruct (Json.UnmarshalRaw command) as [st|]; [|done].
    destruct (saveStatus_harmless st s1) as [Hh Hout].
    destruct (saveStatus st s1) as [[s2 more] e]. simpl in Hh, Hout. subst more.
    eapply lawful_then; [exact Hl|]. split; [exact Hh|constructor].
Qed.

(** What a session wrote. *)
Definition written (effects : list effect) : list output :=
  omap (fun x => match x with Wrote o => Some o | _ => None end) effects.

Lemma written_app xs ys : written (xs ++ ys) = written xs ++ written ys.
Proof. unfold written. by rewrite omap_app. Qed.

Lemma written_Wrote out : written (map Wrote out) = out.
Proof. induction out as [|o out IH]; [done|]. simpl. by rewrite IH. Qed.

Lemma execute_lawful req lines s s' effects e :
  ordinary s -> execute req lines s = (s', effects, e) ->
  lawful s (s', written effects, e).
Proof.
  intros Ho. unfold execute. destruct (if decide _ then _ else _) as [command|err];
    [|intros; simplify_eq; by apply lawful_refl].
  pose proof (runService_lawful command lines s Ho) as Hl.
  destruct (runService command lines s) as [[s1 out] [[err|]|]]; intros; simplify_eq;
    rewrite ?written_app, written_Wrote; simpl; by rewrite ?app_nil_r.
Qed.


(** ** What is written *)

(** An output that has a value is written as one JSON text, which says the value
    unless that is nested too deep for any reader. *)
Definition faithful (o : output) : Prop :=
  match valueOf o with
  | None => True
  | Some r => exists v text, r = Ok v /\ render o = Ok text /\ Json.checkValid text = true /\
      (Z.of_nat (JsonText.depth v) <= Json.maxNestingDepth ->
       JsonText.symbols text = JsonText.content v)
  end.

Lemma marshalled_faithful v text :
  (let! v := v in let! text := Json.MarshalIndent v in Ok (text +:+ String newline "")) = Ok text ->
  exists w, v = Ok w /\ Json.checkValid text = true /\
    (Z.of_nat (JsonText.depth w) <= Json.maxNestingDepth ->
     JsonText.symbols text = JsonText.content w).
Proof.
  intros E. apply result_bind_Ok in E as (w & -> & E). apply result_bind_Ok in E as (t & Ht & E).
  apply (inj Ok) in E as <-. exists w. split; [done|].
  assert (Hv : Json.checkValid t = true)
    by (apply result_bind_Ok in Ht as (b & _ & Hi); by apply (JsonText.indent_text b)).
  destruct (JsonText.text_newline t Hv) as [H1 H2]. split; [done|]. intros Hd. rewrite H2.
  by apply JsonText.MarshalIndent_text.
Qed.

Lemma render_faithful o text : render o = Ok text -> faithful o.
Proof.
  intros E. unfold faithful. assert (Hm : forall v, valueOf o = Some v ->
    render o = (let! v := v in let! text := Json.MarshalIndent v in Ok (text +:+ String newline "")) ->
    exists w t, v = Ok w /\ render o = Ok t /\ Json.checkValid t = true /\
      (Z.of_nat (JsonText.depth w) <= Json.maxNestingDepth ->
       JsonText.symbols t = JsonText.content w)).
  { intros v _ Hr. rewrite Hr in E. destruct (marshalled_faithful v text E) as (w & Hw & Hv & Hs).
    exists w, text. rewrite Hr. auto. }
  destruct o as [t|version services now|cs|c|l|[u|]]; [done| |by apply Hm..].
  cbn [valueOf]. cbn [render valueOf] in E. apply result_bind_Ok in E as (v & Hv & Ht).
  destruct (Render.pongJson_fine _ _ _ _ _ Hv) as [_ Hd].
  assert (Hd' : Z.of_nat (JsonText.depth v) <= Json.maxNestingDepth)
    by (unfold Json.maxNestingDepth; lia).
  destruct (JsonText.Marshal_text v text Ht Hd') as [H1 H2]. exists v, text.
  cbn [render valueOf]. rewrite Hv. auto.
Qed.

Lemma write_faithful o s : Forall faithful (write o s).1.2.
Proof.
  unfold write. destruct (render o) as [text|] eqn:E; [|constructor].
  constructor; [by apply (render_faithful o text)|constructor].
Qed.

Lemma saveStatus_silent newStatus s : (saveStatus newStatus s).1.2 = [].
Proof. apply saveStatus_harmless. Qed.

Lemma ping_faithful s : Forall faithful (ping s).1.2.
Proof.
  unfold ping. match goal with |- context [write ?o s] => pose proof (write_faithful o s) as Hw;
    destruct (write o s) as [[s1 out] [[e|]|]] end; try done.
  pose proof (write_faithful (Text (String newline "")) s1) as Hw'.
  destruct (write (Text (String newline "")) s1) as [[s2 out'] e]. by apply Forall_app.
Qed.

Lemma reportStatus_faithful terminal s : Forall faithful (reportStatus terminal s).1.2.
Proof.
  unfold reportStatus. destruct terminal, (env_gunzip env) as [raw|]; try constructor.
  destruct (Json.UnmarshalRaw _) as [st|]; [|constructor]. rewrite saveStatus_silent. constructor.
Qed.

Lemma reportScreenshot_faithful terminal s : Forall faithful (reportScreenshot terminal s).1.2.
Proof.
  unfold reportScreenshot. destruct terminal, (env_body env) as [raw|]; try constructor.
  rewrite (proj2 (saveScreenshot_harmless raw s)). constructor.
Qed.

Lemma handleCommand_faithful terminal command s :
  Forall faithful (handleCommand terminal command s).1.2.
Proof.
  assert (Ha : forall A (q : gateway DB -> gateway DB * result A) present,
    Forall faithful (answer q present s).1.2).
  { intros A q present. unfold answer. destruct (q s.2) as [g [a|e]]; [|constructor].
    apply write_faithful. }
  assert (Hst : forall u, Forall faithful (status u s).1.2)
    by (intros u; unfold status; destruct (Conn.permitPortForwarding _); apply write_faithful).
  assert (Hk : forall u, Forall faithful (kickUser u s).1.2)
    by (intros u; unfold kickUser; case_decide; constructor).
  unfold handleCommand.
  case_decide; [apply write_faithful|]. case_decide; [apply ping_faithful|].
  case_decide; [apply write_faithful|].
  case_decide; [apply reportStatus_faithful|]. case_decide; [apply reportScreenshot_faithful|].
  destruct (Conn.permitPortForwarding _); [|constructor].
  destruct command as [|c [|arg [|]]]; try constructor;
    repeat (case_decide; [first [apply Hst|apply Ha]|]); [constructor|].
  destruct (Conn.administrator _); [|constructor]. case_decide; [apply Hk|constructor].
Qed.

Lemma shellLoop_faithful lines s : Forall faithful (shellLoop lines s).1.2.
Proof.
  revert s. induction lines as [|l rest IH]; intros s; [constructor|].
  cbn [shellLoop]. destruct l as [text| |e]; [|constructor..].
  case_decide; [apply IH|]. case_decide; [constructor|].
  pose proof (handleCommand_faithful true (SplitCommand.splitCommand (TrimSpace text)) s) as Hc.
  destruct (handleCommand true _ s) as [[s1 out] [[err|]|]]; [| |done]; pose proof (IH s1) as Hr;
    destruct (shellLoop rest s1) as [[s2 more] e2]; [|by apply Forall_app].
  destruct (env_write env _); apply Forall_app; (split; [done|]); by constructor.
Qed.

Lemma runService_faithful command lines s : Forall faithful (runService command lines s).1.2.
Proof.
  unfold runService. case_decide.
  - unfold handleShell. match goal with |- context [write ?o s] => pose proof (write_faithful o s) as Hw;
      destruct (write o s) as [[s1 out] [[e|]|]] end; try done.
    pose proof (shellLoop_faithful lines s1) as Hl. destruct (shellLoop lines s1) as [[s2 more] e].
    by apply Forall_app.
  - pose proof (handleCommand_faithful false (SplitCommand.splitCommand command) s) as Hl.
    destruct (handleCommand false _ s) as [[s1 out] [[err|]|]]; [|done..].
    case_decide; [|done]. destruct (Json.UnmarshalRaw command) as [st|]; [|done].
    pose proof (saveStatus_silent st s1) as Hs. destruct (saveStatus st s1) as [[s2 more] e].
    cbn [fst snd] in *. subst more. by rewrite app_nil_r.
Qed.

(** What a session shows is JSON, whatever the names, the comments and the
    reports of users hold.  Every answer of a session that is not plain text is
    written as one valid JSON text, and that text says exactly the value that
    the command computed: no text of a user can end a string early or add a
    member. *)
Theorem session_output_json (requests : list (Conn.request * option error * list lineRead))
    (s : state) :
  Forall faithful (written (handleSession requests s).2).
Proof.
  revert s. induction requests as [|[[req replyErr] lines] rest IH]; intros s; [constructor|].
  cbn [handleSession]. set (replied := if Conn.req_WantReply req then _ else _).
  assert (Hr : written replied = []) by (unfold replied; by destruct (Conn.req_WantReply req)).
  case_decide; [simpl; rewrite Hr; constructor|]. case_decide.
  - assert (He : Forall faithful (written (execute req lines s).1.2)).
    { unfold execute. destruct (if decide _ then _ else _) as [command|err]; [|constructor].
      pose proof (runService_faithful command lines s) as Hs.
      destruct (runService command lines s) as [[s1 out] [[err|]|]]; cbn [fst snd];
        rewrite ?written_app, written_Wrote; simpl; by rewrite ?app_nil_r. }
    destruct (execute req lines s) as [[s1 effects] e]. specialize (IH s1).
    destruct (handleSession rest s1) as [s2 more]. cbn [fst snd] in *.
    destruct e as [[err|]|]; cbn [snd]; rewrite !written_app, Hr, app_nil_l; try done.
    by apply Forall_app.
  - specialize (IH s). destruct (handleSession rest s) as [s2 more].
    cbn [fst snd] in *. by rewrite written_app, Hr.
Qed.

(** ** Reports *)

Lemma saveStatus_reliable newStatus stored row s :
  reliable DB -> env_jsonb env newStatus = Ok stored ->
  users (db_tables (database s.2)) !! Conn.user (connectionOf s) = Some row ->
  exists g row', saveStatus newStatus s = ((s.1, g), [], Returned None) /\
    users (db_tables (database g)) !! Conn.user (connectionOf s) = Some row' /\
    Models.status row' = statusValue stored.
Proof.
  intros R Hj Hrow. unfold saveStatus. rewrite Hj. unfold db_UpdateUserStatus, executeErr.
  match goal with |- context [db_exec ?f ?d] => destruct (R _ f d) as [H1 H2];
    destruct (db_exec f d) as [d' r] end.
  unfold UpdateUserStatus, updateUserColumn in *. rewrite Hrow in H1, H2.
  cbn [fst snd] in *. subst r. eexists _, _. split; [done|]. cbn. rewrite H2. cbn.
  by rewrite lookup_insert_eq.
Qed.


(** ** Exit status *)

(** a command that fails is reported as a success.  For every command
    line whose command returns an error other than the invalid-command error,
    the session writes no error and the exit status is 0. *)
Theorem failed_command_exits_zero (req : Conn.request) (command : string)
    (lines : list lineRead) (s s' : state) (out : list output) (e : error) :
  Conn.req_Type req = "exec" ->
  Unmarshal (T := executeRequest) (Conn.req_Payload req) = Ok {| exec_Command := command |} ->
  command <> "" -> handleCommand false (SplitCommand.splitCommand command) s =
    (s', out, Returned (Some e)) ->
  e <> ErrInvalidCommand ->
  execute req lines s = (s', map Wrote out ++ exitWith 0, Returned None).
Proof.
  intros Ht Hu Hc Hh He. unfold execute. rewrite decide_True by done. rewrite Hu. simpl.
  unfold runService. rewrite decide_False by done. rewrite Hh. by rewrite decide_False.
Qed.

(** The exit statuses a session sent, in order. *)
Definition exitStatuses (effects : list effect) : list Z :=
  omap (fun x => match x with
                 | SentExitStatus payload =>
                     exit_Status <$> result_to_option (Unmarshal (T := exitStatus) payload)
                 | _ => None
                 end) effects.

Lemma exitStatuses_app xs ys : exitStatuses (xs ++ ys) = exitStatuses xs ++ exitStatuses ys.
Proof. unfold exitStatuses. by rewrite omap_app. Qed.

Lemma exitStatuses_Wrote out : exitStatuses (map Wrote out) = [].
Proof. by induction out. Qed.

Lemma exitStatuses_exit n : 0 <= n < 4294967296 -> exitStatuses (exitWith n) = [n].
Proof.
  intros Hn. assert (E : Unmarshal (Marshal {| exit_Status := n |}) = Ok {| exit_Status := n |}).
  { apply Unmarshal_Marshal; [done..|by split|]. unfold Marshal, len. simpl. lia. }
  change (exitStatuses (exitWith n)) with
    (match exit_Status <$> result_to_option (Unmarshal (T := exitStatus)
             (Marshal {| exit_Status := n |})) with Some x => [x] | None => [] end).
  by rewrite E.
Qed.

Lemma execute_exit req lines s s' effects e :
  execute req lines s = (s', effects, e) ->
  exitStatuses effects = match e with
                         | Returned None => [0]
                         | Returned (Some _) => [1]
                         | Blocked => []
                         end.
Proof.
  unfold execute. destruct (if decide _ then _ else _) as [command|err]; intros E;
    [|simplify_eq; by apply exitStatuses_exit].
  destruct (runService command lines s) as [[s1 out] [[err|]|]]; simplify_eq;
    rewrite ?exitStatuses_app, exitStatuses_Wrote; simpl; try done; by apply exitStatuses_exit.
Qed.

(** a session reports one exit status per command it ran: 0 for each but
    possibly the last, and 1 for the last if it failed, after which the
    session serves nothing more. *)
Theorem session_exit_statuses (requests : list (Conn.request * option error * list lineRead))
    (s : state) :
  exists n, exitStatuses (handleSession requests s).2 = repeat 0 n \/
            exitStatuses (handleSession requests s).2 = repeat 0 n ++ [1].
Proof.
  revert s. induction requests as [|[[req replyErr] lines] rest IH]; intros s.
  { exists 0%nat. by left. }
  cbn [handleSession]. set (replied := if Conn.req_WantReply req then _ else _).
  assert (Hr : exitStatuses replied = []) by (unfold replied; by destruct (Conn.req_WantReply req)).
  case_decide; [exists 0%nat; by left|]. case_decide.
  - destruct (execute req lines s) as [[s1 effects] e] eqn:E. apply execute_exit in E.
    destruct e as [[err|]|].
    + exists 0%nat. right. simpl. by rewrite exitStatuses_app, Hr, E.
    + destruct (IH s1) as [n Hn]. destruct (handleSession rest s1) as [s2 more]. exists (S n).
      simpl in *. rewrite !exitStatuses_app, Hr, E. simpl. destruct Hn as [->| ->]; auto.
    + exists 0%nat. left. simpl. by rewrite exitStatuses_app, Hr, E.
  - destruct (IH s) as [n Hn]. destruct (handleSession rest s) as [s2 more]. exists n.
    simpl in *. by rewrite exitStatuses_app, Hr.
Qed.

(** ** Help and permissions *)

(** the help text and the permissions disagree.  An administrator whose
    certificate does not allow port forwarding is told of [kickUser], but the
    command is refused as invalid. *)
Theorem help_lists_refused_command (terminal : bool) (u : string) (s : state) :
  Conn.administrator (connectionOf s) = true ->
  Conn.permitPortForwarding (connectionOf s) = false ->
  (exists before after,
     help s = write (Text (before +:+ "kickUser <username> - close connections from a user" +:+
                           after)) s) /\
  handleCommand terminal ["kickUser"; u] s = fail ErrInvalidCommand s.
Proof.
  intros Ha Hp. split.
  - unfold help. rewrite Ha, Hp.
    exists ("Available commands:" +:+ String newline
             (String newline "    ")).
    eexists. unfold helpText. reflexivity.
  - unfold handleCommand. by rewrite Hp.
Qed.

(** ** Kicking oneself *)

(** an administrator who kicks their own account never gets an answer,
    and older connections of the account survive: the command waits for the
    connection it runs on, and the connections after it in the list are not
    closed. *)
Theorem kick_self_blocks (terminal : bool) (u : string) (s : state) (older : list positive)
    (newer : list positive) :
  Registry.wf (connections s.2) (registry s.2) ->
  Conn.administrator (connectionOf s) = true ->
  Conn.permitPortForwarding (connectionOf s) = true ->
  Gateway.connectionsOf u s.2 = newer ++ self :: older ->
  let '(s', out, e) := handleCommand terminal ["kickUser"; u] s in
  e = Blocked /\ out = [] /\
  Gateway.connectionsOf u s'.2 = older.
Proof.
  intros Hwf Ha Hp Hps. unfold handleCommand. rewrite Hp, Ha.
  do 5 rewrite decide_False by done. rewrite !decide_False by done. rewrite decide_True by done.
  assert (Hnd : NoDup (Gateway.connectionsOf u s.2)).
  { eapply sublist_NoDup; [exact (Registry.wf_nodup _ _ Hwf)|apply sublist_filter]. }
  unfold kickUser. rewrite Hps in *. rewrite decide_True by set_solver.
  split; [done|]. split; [done|]. cbn [fst snd].
  assert (Hup : upToSelf (newer ++ self :: older) = newer ++ [self]).
  { clear -Hnd. induction newer as [|p newer IH]; simpl in *; [by rewrite decide_True|].
    inversion_clear Hnd as [|? ? Hp Hnd']. rewrite decide_False by set_solver. by rewrite IH. }
  rewrite Hup.
  destruct (Gateway.closeAll_registry settings (env_now env) (newer ++ [self]) s.2 Hwf)
    as (_ & Hc & Hl).
  unfold Gateway.connectionsOf, Registry.listConnections. rewrite Hc, Hl.
  rewrite list_filter_filter.
  rewrite (list_filter_iff _ (fun p => (p ∉ newer ++ [self]) /\
             Registry.userOf (connections s.2) p = u)) by tauto.
  rewrite <- list_filter_filter. unfold Gateway.connectionsOf, Registry.listConnections in Hps.
  rewrite Hps. clear -Hnd.
  change (newer ++ self :: older) with (newer ++ [self] ++ older) in *. rewrite app_assoc in *.
  apply list.NoDup_app in Hnd as (_ & Hdisj & _). rewrite list.filter_app, list_filter_none by set_solver.
  apply list_filter_all. set_solver.
Qed.
End service.

(** ** Examples *)

Definition example_env : environment :=
  {| env_write := fun _ => None; env_body := Ok []; env_gunzip := Ok [];
     env_jsonb := fun s => Ok s; env_now := 30; env_zone := fun _ => 3600;
     env_float := fun _ => Ok "1.5" |}.

(** Bob, an administrator allowed to forward ports or not, with two
    connections, and a database whose next call fails. *)
Definition example_admin (permit : bool) : Conn.connection :=
  Conn.newConnection "k" "bob" "10.0.0.9:5000" "10.0.0.1:2020"
    (<["administrator" := ""]> (if permit then {["permit-port-forwarding" := ""]} else ∅))
    (Usage.newUsage 0).

Definition example_heap (permit : bool) : Registry.heap :=
  <[2%positive := example_admin permit]> {[1%positive := example_admin permit]}.

Definition example_session (permit : bool) : Auth.flagsCache * gateway server :=
  (∅, {| database := {| srv_tables := example_tables; srv_schedule := [Refused] |};
         connections := example_heap permit;
         registry := Registry.addConnection (example_heap permit) 2%positive
           (Registry.addConnection {[1%positive := example_admin permit]} 1%positive
              Registry.emptyRegistry);
         peerHeap := ∅; peers := ∅; routes := ∅ |}).

Lemma example_session_wf permit :
  Registry.wf (connections (example_session permit).2) (registry (example_session permit).2).
Proof.
  apply (rtc_invariant Registry.step (fun s => Registry.wf s.1 s.2) (∅, Registry.emptyRegistry)
           (connections (example_session permit).2, registry (example_session permit).2)
           Registry.wf_empty Registry.step_wf).
  eapply rtc_l; [apply (Registry.step_add _ _ 1%positive (example_admin permit)); reflexivity|].
  eapply rtc_l; [apply (Registry.step_add _ _ 2%positive (example_admin permit)); reflexivity|].
  apply rtc_refl.
Qed.

Definition exec_request (command : string) : Conn.request :=
  {| Conn.req_Type := "exec"; Conn.req_WantReply := true;
     Conn.req_Payload := Marshal {| exec_Command := command |} |}.


Lemma failed_command_exits_zero_witness :
  exists s', execute example_settings example_env 2%positive (exec_request "reportScreenshot") []
    (example_session true) = (s', exitWith 0, Returned None).
Proof.
  exists (handleCommand example_settings example_env 2%positive false ["reportScreenshot"]
            (example_session true)).1.1.
  apply (failed_command_exits_zero example_settings example_env 2%positive
           (exec_request "reportScreenshot") "reportScreenshot" [] (example_session true) _ []
           (Foreign "connection refused")).
  - reflexivity.
  - vm_compute. reflexivity.
  - intros [=].
  - vm_compute. reflexivity.
  - intros [=].
Defined.

Lemma help_lists_refused_command_witness :
  handleCommand example_settings example_env 2%positive false ["kickUser"; "eve"]
    (example_session false) = fail ErrInvalidCommand (example_session false).
Proof.
  apply (help_lists_refused_command example_settings example_env 2%positive false "eve"
           (example_session false)); vm_compute; reflexivity.
Defined.

Lemma kick_self_blocks_witness :
  let '(s', out, e) := handleCommand example_settings example_env 2%positive false
                         ["kickUser"; "bob"] (example_session true) in
  e = Blocked /\ out = [] /\ Gateway.connectionsOf "bob" s'.2 = [1%positive].
Proof.
  apply (kick_self_blocks example_settings example_env 2%positive false "bob"
           (example_session true) [1%positive] []).
  - apply example_session_wf.
  - vm_compute. reflexivity.
  - vm_compute. reflexivity.
  - vm_compute. reflexivity.
Defined.

(** Bob reports a list. *)
Definition example_report : environment :=
  {| env_write := fun _ => None; env_body := Ok []; env_gunzip := Ok (bytes_of_string " [1, true] ");
     env_jsonb := fun s => Ok s; env_now := 30; env_zone := fun _ => 3600;
     env_float := fun _ => Ok "1.5" |}.

End Service.
