(* ===== verification/Socks.v ===== *)
(** * The SOCKS5 proxy, [util/socks/socks.go] and [gateway/socks.go]

    A client's bytes are a list, read from the front; what is written back is
    a list too.  A read that finds too few bytes fails, as [io.ReadFull] does
    at the end of the stream; the outcome of the [n]-th write to the socket is
    a parameter. *)

From stdpp Require Import base list strings gmap fin_maps option.
From Stdlib Require Import ZArith Lia Ascii.
From Stdlib Require Import Strings.Byte.
From S2P Require Import Prelude GoStrings Bytes Wire Models Database Connection Registry Routing.
From S2P Require Import Channels.

#[local] Open Scope Z_scope.

Module Socks.
Import Routing.

(** ** Addresses as text *)

(** Three decimal digits and four hexadecimal ones are enough for a byte and
    for two bytes. *)
Definition decimal_byte (b : byte) : string := digits 3 10 (byte_val b).
Definition hex_group (n : Z) : string := digits 4 16 n.

Definition ipv4_string (bs : list byte) : string := Join dot (map decimal_byte bs).

Fixpoint groups (bs : list byte) : list Z :=
  match bs with
  | b0 :: b1 :: rest => be_uint16 b0 b1 :: groups rest
  | _ => []
  end.

(** The length of the run of zeros at the front. *)
Fixpoint zeros (gs : list Z) : nat :=
  match gs with
  | g :: rest => if decide (g = 0) then S (zeros rest) else 0%nat
  | [] => 0%nat
  end.

(** The first longest run of at least two zero groups, as its start and
    length; [i] is the index of the first group. *)
Fixpoint longest_run (i : nat) (gs : list Z) (best : nat * nat) : nat * nat :=
  match gs with
  | [] => best
  | g :: rest =>
      let l := zeros gs in
      longest_run (S i) rest
        (if decide (2 <= l /\ best.2 < l)%nat then (i, l) else best)
  end.

Definition colon : ascii := ":"%char.

(** [netip.Addr.String] of a 16-byte address. *)
Definition ipv6_string (bs : list byte) : string :=
  let gs := groups bs in
  let (start, count) := longest_run 0 gs (255%nat, 0%nat) in
  if decide (count = 0)%nat then Join colon (map hex_group gs)
  else Join colon (map hex_group (take start gs)) +:+ "::" +:+
       Join colon (map hex_group (drop (start + count) gs)).

(** An IPv4 address mapped into IPv6. *)
Definition mapped4 (bs : list byte) : bool :=
  bool_decide (take 12 bs = repeat x00 10 ++ [xff; xff]).

(** [net.IP.String] of 4 or 16 bytes. *)
Definition ip_string (bs : list byte) : string :=
  if decide (length bs = 4%nat) then ipv4_string bs
  else if mapped4 bs then ipv4_string (drop 12 bs)
  else ipv6_string bs.

(** ** The protocol *)

Definition socksVersion : byte := x05.
Definition noAuthRequired : byte := x00.
Definition noAcceptableMethod : byte := xff.
Definition connectCommand : byte := x01.
Definition ipv4AddressType : byte := x01.
Definition domainNameAddressType : byte := x03.
Definition ipv6AddressType : byte := x04.

Definition Succeeded : byte := x00.
Definition HostUnreachable : byte := x04.
Definition CommandNotSupported : byte := x07.

Definition ErrUnsupportedVersion : error := Sentinel "socks: unsupported version".
Definition ErrUnsupportedAuth : error := Sentinel "socks: unsupported auth".
Definition ErrUnsupportedAddress : error := Sentinel "socks: unsupported address".
Definition ErrUnsupportedCommand : error := Sentinel "socks: unsupported command".
Definition errEOF : error := Foreign "EOF".

(** [io.ReadFull] of [n] bytes: the bytes and the rest of the input. *)
Definition readFull (n : nat) (input : list byte) : result (list byte * list byte) :=
  if decide (length input < n)%nat then Err errEOF else Ok (take n input, drop n input).

Definition replyBytes (reply : byte) : list byte :=
  [socksVersion; reply; x00; ipv4AddressType; x00; x00; x00; x00; x00; x00].

(** [Authenticate]: the rest of the input or an error, and what was written;
    [writeErr] is the outcome of the write that accepts. *)
Definition Authenticate (writeErr : option error) (input : list byte)
    : result (list byte) * list byte :=
  match readFull 2 input with
  | Err e => (Err e, [])
  | Ok (header, input) =>
      match header with
      | [version; count] =>
          if decide (version <> socksVersion) then (Err ErrUnsupportedVersion, [])
          else
            match readFull (Z.to_nat (byte_val count)) input with
            | Err e => (Err e, [])
            | Ok (methods, input) =>
                if decide (noAuthRequired ∈ methods) then
                  (match writeErr with Some e => Err e | None => Ok input end,
                   [socksVersion; noAuthRequired])
                else (Err ErrUnsupportedAuth, [socksVersion; noAcceptableMethod])
            end
      | _ => (Err errEOF, [])
      end
  end.

(** The address of a request, by its type. *)
Definition parseAddress (type : byte) (input : list byte) : result (string * list byte) :=
  if decide (type = domainNameAddressType) then
    let! (lengthBytes, input) := readFull 1 input in
    let! (addressBytes, input) :=
      readFull (Z.to_nat (match lengthBytes with b :: _ => byte_val b | [] => 0 end)) input in
    Ok (string_of_bytes addressBytes, input)
  else if decide (type = ipv4AddressType) then
    let! (addressBytes, input) := readFull 4 input in Ok (ip_string addressBytes, input)
  else if decide (type = ipv6AddressType) then
    let! (addressBytes, input) := readFull 16 input in Ok (ip_string addressBytes, input)
  else Err ErrUnsupportedAddress.

(** [ParseRequest]: the host and port and the rest of the input, and what was
    written. *)
Definition ParseRequest (input : list byte) : result (string * Z * list byte) * list byte :=
  match readFull 4 input with
  | Err e => (Err e, [])
  | Ok (header, input) =>
      match header with
      | [version; command; _; type] =>
          if decide (version <> socksVersion) then (Err ErrUnsupportedVersion, [])
          else
            match parseAddress type input with
            | Err e => (Err e, [])
            | Ok (address, input) =>
                match readFull 2 input with
                | Err e => (Err e, [])
                | Ok (portBytes, input) =>
                    let port := match portBytes with
                                | [b0; b1] => be_uint16 b0 b1
                                | _ => 0
                                end in
                    if decide (command <> connectCommand)
                    then (Err ErrUnsupportedCommand, replyBytes CommandNotSupported)
                    else (Ok (address, port, input), [])
                end
            end
      | _ => (Err errEOF, [])
      end
  end.

(** ** The proxy *)

(** A [net.Addr]: a TCP address, or another one by its text. *)
Inductive address := TCPAddr (ip : string) (port : Z) | OtherAddr (text : string).

Definition splitOrigin (a : address) : string * Z :=
  match a with
  | TCPAddr ip port => (ip, uint32 port)
  | OtherAddr text => (text, 0)
  end.

Section proxy.
Context {DB : Type} `{Executor DB}.

(** [HandleSocksConnection] until it bridges or returns: what was written, the
    request made for the client, and the tunnel opened for it, with the bytes
    the client has already sent if it is bridged to the tunnel. *)
Definition HandleSocksConnection (settings : Settings) (clock : nat -> time)
    (world : opening -> option error) (writeErr : nat -> option error) (ptr : positive)
    (remote : address) (input : list byte) (g : gateway DB)
    : gateway DB * list byte * option opening * option (Conn.tunnel * option (list byte)) :=
  match Authenticate (writeErr 0%nat) input with
  | (Err _, out) => (g, out, None, None)
  | (Ok input, out) =>
      match ParseRequest input with
      | (Err _, out') => (g, out ++ out', None, None)
      | (Ok (host, port, input), out') =>
          let (originAddress, originPort) := splitOrigin remote in
          match openServiceTunnel settings clock world ptr host port originAddress originPort g with
          | (g, Err _, asked) => (g, out ++ out' ++ replyBytes HostUnreachable, asked, None)
          | (g, Ok tunnel, asked) =>
              (g, out ++ out' ++ replyBytes Succeeded, asked,
               Some (tunnel, match writeErr 1%nat with Some _ => None | None => Some input end))
          end
      end
  end.

(** The deferred [tunnel.close()], when the handler returns. *)
Definition deferredClose (tunnel : option Conn.tunnel) (g : gateway DB) : gateway DB :=
  match tunnel with Some t => Channels.endTunnel t g | None => g end.

(** ** What a client that follows the protocol gets *)

Lemma readFull_app n bs rest :
  length bs = n -> readFull n (bs ++ rest) = Ok (bs, rest).
Proof.
  intros <-. unfold readFull. rewrite decide_False by (rewrite length_app; lia).
  by rewrite take_app_length, drop_app_length.
Qed.

(** The bytes of a greeting that offers [methods], and of a CONNECT request
    for a domain name. *)
Definition greeting (methods : list byte) : list byte :=
  socksVersion :: byte_of (len methods) :: methods.

Definition connectRequest (host : string) (port : Z) : list byte :=
  [socksVersion; connectCommand; x00; domainNameAddressType; byte_of (slen host)] ++
  bytes_of_string host ++ [byte_of (Z.shiftr port 8); byte_of port].

Lemma Authenticate_greeting writeErr methods rest :
  len methods <= 255 ->
  Authenticate writeErr (greeting methods ++ rest) =
  if decide (noAuthRequired ∈ methods)
  then (match writeErr with Some e => Err e | None => Ok rest end, [socksVersion; noAuthRequired])
  else (Err ErrUnsupportedAuth, [socksVersion; noAcceptableMethod]).
Proof.
  intros Hlen. unfold Authenticate, greeting.
  change ((socksVersion :: byte_of (len methods) :: methods) ++ rest)
    with ([socksVersion; byte_of (len methods)] ++ (methods ++ rest)).
  rewrite readFull_app by done. rewrite decide_False by auto.
  rewrite byte_val_of. unfold uint8. rewrite Z.mod_small by (unfold len in *; lia).
  unfold len. rewrite Nat2Z.id, readFull_app by done. done.
Qed.

Lemma ParseRequest_connect host port rest :
  slen host <= 255 -> 0 <= port <= 65535 ->
  ParseRequest (connectRequest host port ++ rest) = (Ok (host, port, rest), []).
Proof.
  intros Hlen Hport. unfold ParseRequest, connectRequest.
  rewrite <- !app_assoc.
  change ([socksVersion; connectCommand; x00; domainNameAddressType; byte_of (slen host)] ++
          bytes_of_string host ++ [byte_of (Z.shiftr port 8); byte_of port] ++ rest)
    with ([socksVersion; connectCommand; x00; domainNameAddressType] ++
          ([byte_of (slen host)] ++ (bytes_of_string host ++
           ([byte_of (Z.shiftr port 8); byte_of port] ++ rest)))).
  rewrite readFull_app by done. rewrite decide_False by auto.
  unfold parseAddress. rewrite decide_True by done. rewrite readFull_app by done.
  cbn [result_bind]. rewrite byte_val_of. unfold uint8.
  rewrite Z.mod_small by (unfold slen in *; lia).
  rewrite readFull_app by (rewrite length_bytes_of_string; unfold slen; lia).
  cbn [result_bind]. rewrite readFull_app by done. rewrite string_of_bytes_of_string.
  rewrite be_uint16_bytes by lia. by rewrite decide_False by auto.
Qed.

(** C31: the proxy serves a SOCKS5 client as the protocol says.  A client that
    does not offer the no-authentication method is refused and nothing is
    opened for it.  A client that offers it and asks to CONNECT to a name and
    a port gets the greeting reply, exactly one attempt to open a tunnel to
    that name and port on behalf of its own address, and then the success
    reply, with what it sends next bridged to the tunnel, or the host
    unreachable reply.  When the client has gone, whatever it sent and whatever
    could be written to it, every connection has the tunnels it had before. *)
Theorem HandleSocksConnection_spec (settings : Settings) (clock : nat -> time)
    (world : opening -> option error) (ptr : positive) (remote : address)
    (methods : list byte) (host : string) (port : Z) (rest : list byte) (g : gateway DB) :
  len methods <= 255 -> slen host <= 255 -> 0 <= port <= 65535 ->
  (let '(g', out, asked, served) :=
     HandleSocksConnection settings clock world (fun _ => None) ptr remote
       (greeting methods ++ connectRequest host port ++ rest) g in
   if decide (noAuthRequired ∈ methods) then
     let '(g1, r, o) := openServiceTunnel settings clock world ptr host port
                          (splitOrigin remote).1 (splitOrigin remote).2 g in
     g' = g1 /\ asked = o /\
     match r with
     | Ok tunnel => out = [socksVersion; noAuthRequired] ++ replyBytes Succeeded /\
                    served = Some (tunnel, Some rest)
     | Err _ => out = [socksVersion; noAuthRequired] ++ replyBytes HostUnreachable /\
                served = None
     end
   else g' = g /\ out = [socksVersion; noAcceptableMethod] /\ asked = None /\ served = None) /\
  (Channels.fresh_ptr ptr (connections g) -> Channels.counters_fit g ->
   forall writeErr input,
     let '(g', _, _, served) :=
       HandleSocksConnection settings clock world writeErr ptr remote input g in
     Channels.all_settled g (deferredClose (fst <$> served) g')).
Proof.
  intros Hm Hh Hp. split.
  - unfold HandleSocksConnection. rewrite Authenticate_greeting by done.
    case_decide; [|done]. rewrite ParseRequest_connect by done.
    destruct (splitOrigin remote) as [oa op]. simpl.
    by destruct (openServiceTunnel _ _ _ _ _ _ _ _ _) as [[g1 [t|e]] o].
  - intros Hf Hc writeErr input. unfold HandleSocksConnection.
    destruct (Authenticate _ _) as [[?|?] ?]; [|by apply Channels.all_settled_same].
    destruct (ParseRequest _) as [[[[h p'] ?]|?] ?]; [|by apply Channels.all_settled_same].
    destruct (splitOrigin remote) as [oa op].
    destruct (openServiceTunnel _ _ _ _ _ _ _ _ _) as [[g1 [t|e]] o] eqn:E.
    + by eapply Channels.service_tunnel_settles.
    + apply Channels.openServiceTunnel_tunnel in E. by apply Channels.all_settled_same.
Qed.
End proxy.

Lemma HandleSocksConnection_spec_witness :
  let '(_, out, asked, _) :=
    HandleSocksConnection example_settings (fun _ => 10) (fun _ => None) (fun _ => None) 7%positive
      (TCPAddr "192.0.2.1" 4000) (greeting [x02; x00] ++ connectRequest "web.bob" 80 ++ [])
      example_gateway in
  out = [socksVersion; noAuthRequired] ++ replyBytes Succeeded /\
  (open_to <$> asked) = Some (LocalConnection 2%positive).
Proof.
  pose proof (HandleSocksConnection_spec example_settings (fun _ => 10) (fun _ => None) 7%positive
    (TCPAddr "192.0.2.1" 4000) [x02; x00] "web.bob" 80 [] example_gateway) as S.
  destruct S as [S _]; [vm_compute; intros [=]..|lia|].
  destruct (HandleSocksConnection _ _ _ _ _ _ _ _) as [[[g out] asked] served].
  destruct S as (_ & -> & Hr).
  split; [apply Hr|reflexivity].
Defined.
End Socks.
