(* ===== verification/NetAddr.v ===== *)
(** * Addresses, [net.ParseIP] and the source addresses of certificates

    The parser of IP addresses and prefixes of Go's [net] and [net/netip]
    packages, which reads back what [Socks.ip_string] writes, and
    [checkSourceAddress] of [golang.org/x/crypto/ssh], which compares the
    address of a client with the restriction in its certificate. *)

From stdpp Require Import base list sets strings gmap fin_maps option.
From Stdlib Require Import ZArith Lia Ascii.
From Stdlib Require Import Strings.Byte.
From S2P Require Import Prelude GoStrings Bytes Models Database Certs Auth Handshake Socks.

#[local] Open Scope Z_scope.

Module NetAddr.
Import Socks.

(** ** Parsing *)

Definition hexVal (a : ascii) : option Z :=
  let n := Z.of_nat (nat_of_ascii a) in
  if decide (48 <= n <= 57) then Some (n - 48)
  else if decide (97 <= n <= 102) then Some (n - 87)
  else if decide (65 <= n <= 70) then Some (n - 55)
  else None.

Definition decVal (a : ascii) : option Z :=
  let n := Z.of_nat (nat_of_ascii a) in if decide (48 <= n <= 57) then Some (n - 48) else None.

(** The loop of [parseIPv4Fields]: the digits of the field so far and their
    value, the fields before it, and whether a dot would be the first byte or
    follow another one. *)
Fixpoint parseFields (s : string) (bad : bool) (digLen : nat) (val : Z) (fields : list Z)
    : option (list Z) :=
  match s with
  | EmptyString => if decide (length fields < 3)%nat then None else Some (fields ++ [val])
  | String c s' =>
      match decVal c with
      | Some d =>
          if decide (digLen = 1%nat /\ val = 0) then None
          else if decide (val * 10 + d > 255) then None
          else parseFields s' false (S digLen) (val * 10 + d) fields
      | None =>
          if decide (c = dot) then
            if bad || bool_decide (s' = "") then None
            else if decide (length fields = 3%nat) then None
            else parseFields s' true 0 0 (fields ++ [val])
          else None
      end
  end.

Definition parseIPv4 (s : string) : option (list Z) := parseFields s true 0 0 [].

(** The hexadecimal number at the front: its value, the number of its digits,
    and what follows.  A fifth digit is an error. *)
Fixpoint hexNumber (s : string) (off : nat) (acc : Z) : option (Z * nat * string) :=
  match s with
  | String c s' =>
      match hexVal c with
      | Some d => if decide (3 < off)%nat then None else hexNumber s' (S off) (acc * 16 + d)
      | None => Some (acc, off, s)
      end
  | EmptyString => Some (acc, off, "")
  end.

(** The loop of [parseIPv6]: the groups so far and the place of the ellipsis;
    [fuel] is the number of groups that are left of eight. *)
Fixpoint parseGroups (fuel : nat) (s : string) (gs : list Z) (ellipsis : option nat)
    : option (list Z * option nat * string) :=
  match fuel with
  | O => Some (gs, ellipsis, s)
  | S fuel =>
      match hexNumber s 0 0 with
      | None | Some (_, O, _) => None
      | Some (acc, _, rest) =>
          match rest with
          | EmptyString => Some (gs ++ [acc], ellipsis, "")
          | String c after =>
              if decide (c = dot) then
                if decide (ellipsis = None /\ length gs <> 6%nat) then None
                else if decide (6 < length gs)%nat then None
                else match parseIPv4 s with
                     | Some [a; b; x; y] => Some (gs ++ [a * 256 + b; x * 256 + y], ellipsis, "")
                     | _ => None
                     end
              else if decide (c = colon) then
                match after with
                | EmptyString => None
                | String c' after' =>
                    if decide (c' = colon) then
                      match ellipsis with
                      | Some _ => None
                      | None =>
                          let ellipsis := Some (length (gs ++ [acc])) in
                          if decide (after' = "") then Some (gs ++ [acc], ellipsis, "")
                          else parseGroups fuel after' (gs ++ [acc]) ellipsis
                      end
                    else parseGroups fuel after (gs ++ [acc]) ellipsis
                end
              else None
          end
      end
  end.

(** The groups with the ellipsis expanded. *)
Definition expand (gs : list Z) (ellipsis : option nat) : option (list Z) :=
  if decide (length gs < 8)%nat then
    match ellipsis with
    | None => None
    | Some e => Some (take e gs ++ repeat 0 (8 - length gs) ++ drop e gs)
    end
  else match ellipsis with None => Some gs | Some _ => None end.

(** [parseIPv6] of a text without a zone. *)
Definition parseIPv6 (s : string) : option (list Z) :=
  let parse s ellipsis :=
    match parseGroups 8 s [] ellipsis with
    | Some (gs, ellipsis, EmptyString) => expand gs ellipsis
    | _ => None
    end in
  match s with
  | String c (String c' s') =>
      if decide (c = colon /\ c' = colon) then
        if decide (s' = "") then Some (repeat 0 8) else parse s' (Some 0%nat)
      else parse s None
  | _ => parse s None
  end.

(** A [netip.Addr]: four bytes, or eight groups with a zone. *)
Inductive Addr := Addr4 (bytes : list Z) | Addr6 (groups : list Z) (zone : string).

Definition percent : ascii := "%"%char.

(** The first of the bytes [.], [:] and [%] of a text. *)
Fixpoint firstMark (s : string) : option ascii :=
  match s with
  | EmptyString => None
  | String c s' => if decide (c = dot \/ c = colon \/ c = percent) then Some c else firstMark s'
  end.

Definition ParseAddr (s : string) : option Addr :=
  match firstMark s with
  | Some c =>
      if decide (c = dot) then Addr4 <$> parseIPv4 s
      else if decide (c = colon) then
        match cut percent s with
        | Some (s, zone) => if decide (zone = "") then None else (fun gs => Addr6 gs zone) <$> parseIPv6 s
        | None => (fun gs => Addr6 gs "") <$> parseIPv6 s
        end
      else None
  | None => None
  end.

(** The sixteen bytes of an address. *)
Definition split16 (g : Z) : list Z := [g / 256; g mod 256].
Definition As16 (a : Addr) : list Z :=
  match a with
  | Addr4 bytes => repeat 0 10 ++ [255; 255] ++ bytes
  | Addr6 groups _ => concat (map split16 groups)
  end.

Definition zoneOf (a : Addr) : string := match a with Addr4 _ => "" | Addr6 _ zone => zone end.

(** [net.ParseIP]; [None] is nil. *)
Definition ParseIP (s : string) : option (list Z) :=
  match ParseAddr s with
  | Some a => if decide (zoneOf a = "") then Some (As16 a) else None
  | None => None
  end.

(** ** Prefixes *)

Definition v4InV6Prefix : list Z := repeat 0 10 ++ [255; 255].

(** An address of four or sixteen bytes as four bytes. *)
Definition To4 (ip : list Z) : option (list Z) :=
  if decide (length ip = 4%nat) then Some ip
  else if decide (length ip = 16%nat /\ take 12 ip = v4InV6Prefix) then Some (drop 12 ip)
  else None.

Definition IPEqual (ip x : list Z) : bool :=
  if decide (length ip = length x) then bool_decide (ip = x)
  else if decide (length ip = 4%nat /\ length x = 16%nat) then
    bool_decide (take 12 x = v4InV6Prefix) && bool_decide (ip = drop 12 x)
  else if decide (length ip = 16%nat /\ length x = 4%nat) then
    bool_decide (take 12 ip = v4InV6Prefix) && bool_decide (drop 12 ip = x)
  else false.

(** [CIDRMask] of [l] bytes; [^byte(0xff >> n)] *)
Fixpoint CIDRMask (n : Z) (l : nat) : list Z :=
  match l with
  | O => []
  | S l =>
      if decide (8 <= n) then 255 :: CIDRMask (n - 8) l
      else (255 - Z.shiftr 255 n) :: CIDRMask 0 l
  end.

Definition andBytes (a b : list Z) : list Z := zip_with Z.land a b.

Definition allFF (m : list Z) : bool := forallb (fun b => bool_decide (b = 255)) m.

(** [IP.Mask]; [None] is nil. *)
Definition Mask (ip mask : list Z) : option (list Z) :=
  let mask := if decide (length mask = 16%nat /\ length ip = 4%nat /\ allFF (take 12 mask) = true)
              then drop 12 mask else mask in
  let ip := if decide (length mask = 4%nat /\ length ip = 16%nat /\ take 12 ip = v4InV6Prefix)
            then drop 12 ip else ip in
  if decide (length ip = length mask) then Some (andBytes ip mask) else None.

Record IPNet := { net_IP : option (list Z); net_Mask : list Z }.

Definition BitLen (a : Addr) : Z := match a with Addr4 _ => 32 | Addr6 _ _ => 128 end.

(** [dtoi] of a whole text, which must be digits; it gives up at [0xFFFFFF]. *)
Fixpoint dtoi (s : string) (n : Z) : option Z :=
  match s with
  | EmptyString => Some n
  | String c s' =>
      match decVal c with
      | Some d => if decide (n * 10 + d >= 16777215) then None else dtoi s' (n * 10 + d)
      | None => None
      end
  end.

Definition slash : ascii := "/"%char.

Definition ParseCIDR (s : string) : option IPNet :=
  match cut slash s with
  | None => None
  | Some (addr, mask) =>
      match ParseAddr addr with
      | None => None
      | Some a =>
          if decide (zoneOf a <> "" \/ mask = "") then None
          else match dtoi mask 0 with
               | None => None
               | Some n =>
                   if decide (n > BitLen a) then None
                   else let m := CIDRMask n (Z.to_nat (BitLen a / 8)) in
                        Some {| net_IP := Mask (As16 a) m; net_Mask := m |}
               end
      end
  end.

(** [networkNumberAndMask] *)
Definition networkNumberAndMask (n : IPNet) : option (list Z * list Z) :=
  match net_IP n with
  | None => None
  | Some ip =>
      let ip := default ip (To4 ip) in
      if decide (length (net_Mask n) = 4%nat) then
        if decide (length ip = 4%nat) then Some (ip, net_Mask n) else None
      else if decide (length (net_Mask n) = 16%nat) then
        Some (ip, if decide (length ip = 4%nat) then drop 12 (net_Mask n) else net_Mask n)
      else None
  end.

Definition Contains (n : IPNet) (ip : list Z) : bool :=
  match networkNumberAndMask n with
  | None => false
  | Some (nn, m) =>
      let ip := default ip (To4 ip) in
      bool_decide (length ip = length nn) && bool_decide (andBytes nn m = andBytes ip m)
  end.

(** ** The restriction of a certificate *)

(** The address of a client: unknown, of a TCP socket, or another one. *)
Inductive clientAddr := NoAddr | TcpAddr (ip : list Z) | OtherAddr.

(** The texts of the errors are without the address. *)
Definition errNoAddress : error :=
  Errorf "ssh: no address known for client, but source-address match required".
Definition errNotTCP : error :=
  Errorf "ssh: remote address is not an TCP address when checking source-address match".
Definition errParsing (entry : string) : error :=
  Errorf ("ssh: error parsing source-address restriction " +:+ entry).
Definition errNotAllowed : error :=
  Errorf "ssh: remote address is not allowed because of source-address restriction".

Fixpoint checkEntries (ip : list Z) (entries : list string) : option error :=
  match entries with
  | [] => Some errNotAllowed
  | entry :: rest =>
      match ParseIP entry with
      | Some allowed => if IPEqual allowed ip then None else checkEntries ip rest
      | None =>
          match ParseCIDR entry with
          | None => Some (errParsing entry)
          | Some net => if Contains net ip then None else checkEntries ip rest
          end
      end
  end.

Definition comma : ascii := ","%char.

Definition checkSourceAddress (addr : clientAddr) (sourceAddrs : string) : option error :=
  match addr with
  | NoAddr => Some errNoAddress
  | OtherAddr => Some errNotTCP
  | TcpAddr ip => checkEntries ip (Split comma sourceAddrs)
  end.

(** ** What the parsers return *)

Definition isByte (b : Z) : Prop := 0 <= b < 256.
Definition isGroup (g : Z) : Prop := 0 <= g < 65536.

Lemma decVal_range c d : decVal c = Some d -> 0 <= d < 10.
Proof. unfold decVal. case_decide; intros; simplify_eq. lia. Qed.

Lemma hexVal_range c d : hexVal c = Some d -> 0 <= d < 16.
Proof. unfold hexVal. repeat case_decide; intros; simplify_eq; lia. Qed.

Lemma Forall_snoc {A} (P : A -> Prop) l x : Forall P l -> P x -> Forall P (l ++ [x]).
Proof. intros Hl Hx. apply Forall_app. split; [done|]. by constructor. Qed.

Lemma parseFields_range s : forall bad digLen val fields out,
  isByte val -> Forall isByte fields -> (length fields <= 3)%nat ->
  parseFields s bad digLen val fields = Some out -> Forall isByte out /\ length out = 4%nat.
Proof.
  induction s as [|c s IH]; intros bad digLen val fields out Hv Hf Hl; cbn [parseFields].
  - case_decide; [done|]. intros [= <-]. rewrite length_app. cbn. split; [|lia].
    by apply Forall_snoc.
  - destruct (decVal c) as [d|] eqn:Ed.
    + apply decVal_range in Ed. case_decide; [done|]. case_decide; [done|].
      apply IH; [unfold isByte in *; lia|done|done].
    + case_decide; [|done]. destruct (bad || _); [done|]. case_decide; [done|].
      apply IH; [done|by apply Forall_snoc|rewrite length_app; cbn; lia].
Qed.

Lemma parseIPv4_range s out : parseIPv4 s = Some out -> Forall isByte out /\ length out = 4%nat.
Proof. apply parseFields_range; [done|constructor|cbn; lia]. Qed.

Lemma hexNumber_range s : forall off acc out n rest,
  0 <= acc < 16 ^ Z.of_nat off -> (off <= 4)%nat ->
  hexNumber s off acc = Some (out, n, rest) -> 0 <= out < 16 ^ Z.of_nat n /\ (n <= 4)%nat.
Proof.
  induction s as [|c s IH]; intros off acc out n rest Ha Ho; cbn [hexNumber].
  - by intros [= <- <- <-].
  - destruct (hexVal c) as [d|] eqn:Ed; [|by intros [= <- <- <-]].
    apply hexVal_range in Ed. case_decide; [done|]. apply IH; [|lia].
    rewrite Nat2Z.inj_succ, Z.pow_succ_r by lia. lia.
Qed.

Lemma hexNumber_group s out n rest : hexNumber s 0 0 = Some (out, n, rest) -> isGroup out.
Proof.
  intros E. destruct (hexNumber_range s 0 0 out n rest) as [Ho Hn]; [done|lia|done|].
  assert (n = 0 \/ n = 1 \/ n = 2 \/ n = 3 \/ n = 4)%nat as Hc by lia. unfold isGroup.
  destruct_or! Hc; subst n; cbn in Ho; lia.
Qed.

Lemma parseGroups_range fuel : forall s gs ellipsis out e rest,
  Forall isGroup gs -> (length gs + fuel = 8)%nat ->
  (forall e, ellipsis = Some e -> e <= length gs)%nat ->
  parseGroups fuel s gs ellipsis = Some (out, e, rest) ->
  Forall isGroup out /\ (length out <= 8)%nat /\ (forall i, e = Some i -> i <= length out)%nat.
Proof.
  induction fuel as [|fuel IH]; intros s gs ellipsis out e rest Hg Hl He; cbn [parseGroups].
  { intros [= <- <- <-]. split_and!; [done|lia|done]. }
  destruct (hexNumber s 0 0) as [[[acc n] after]|] eqn:Eh; [|done]. apply hexNumber_group in Eh.
  destruct n as [|n]; [done|].
  assert (Hlen : length (gs ++ [acc]) = S (length gs)) by (rewrite length_app; cbn; lia).
  destruct after as [|c after].
  { intros [= <- <- <-]. rewrite Hlen. split_and!; [by apply Forall_snoc|lia|]. intros i Hi.
    specialize (He i Hi). lia. }
  case_decide.
  { case_decide; [done|]. case_decide; [done|].
    destruct (parseIPv4 s) as [[|a [|b [|x [|y []]]]]|] eqn:E4; try done. intros [= <- <- <-].
    apply parseIPv4_range in E4 as [E4 _]. inversion_clear E4 as [|? ? Ha E4'].
    inversion_clear E4' as [|? ? Hb E4]. inversion_clear E4 as [|? ? Hx E4'].
    inversion_clear E4' as [|? ? Hy _]. rewrite length_app. cbn. split_and!; [|lia|].
    - apply Forall_app. split; [done|]. unfold isByte, isGroup in *. repeat constructor; lia.
    - intros i Hi. specialize (He i Hi). lia. }
  case_decide; [|done]. destruct after as [|c' after']; [done|]. case_decide.
  - destruct ellipsis as [e0|]; [done|]. case_decide.
    + intros [= <- <- <-]. rewrite Hlen. split_and!; [by apply Forall_snoc|lia|]. intros i [= <-]. lia.
    + apply IH; [by apply Forall_snoc|lia|]. intros i [= <-]. lia.
  - apply IH; [by apply Forall_snoc|lia|]. intros i Hi. specialize (He i Hi). lia.
Qed.

Lemma repeat_zero_groups n : Forall isGroup (repeat 0 n).
Proof. induction n; cbn; constructor; [split; lia|done]. Qed.

Lemma expand_range gs ellipsis out :
  Forall isGroup gs -> (length gs <= 8)%nat -> (forall i, ellipsis = Some i -> i <= length gs)%nat ->
  expand gs ellipsis = Some out -> Forall isGroup out /\ length out = 8%nat.
Proof.
  intros Hg Hl He. unfold expand. case_decide.
  - destruct ellipsis as [e|]; [|done]. intros [= <-]. specialize (He e eq_refl).
    rewrite !length_app, length_take, length_drop, repeat_length. split; [|lia].
    apply Forall_app. split; [by apply Forall_take|]. apply Forall_app.
    split; [apply repeat_zero_groups|by apply Forall_drop].
  - destruct ellipsis; [done|]. intros [= <-]. split; [done|lia].
Qed.

Lemma parseIPv6_range s out : parseIPv6 s = Some out -> Forall isGroup out /\ length out = 8%nat.
Proof.
  assert (Hp : forall s ellipsis, (forall i, ellipsis = Some i -> i = 0)%nat ->
    match parseGroups 8 s [] ellipsis with
    | Some (gs, ellipsis, EmptyString) => expand gs ellipsis
    | _ => None
    end = Some out -> Forall isGroup out /\ length out = 8%nat).
  { intros t ellipsis He. destruct (parseGroups 8 t [] ellipsis) as [[[gs e] [|]]|] eqn:E; try done.
    destruct (parseGroups_range 8 t [] ellipsis gs e "") as (H1 & H2 & H3); try done.
    - intros i Hi. rewrite (He i Hi). cbn. lia.
    - by apply expand_range. }
  unfold parseIPv6. destruct s as [|c [|c' s]]; [by apply Hp..|].
  case_decide; [|by apply Hp]. case_decide; [|apply Hp; by intros i [= <-]].
  intros [= <-]. split; [apply (repeat_zero_groups 8)|done].
Qed.

(** Addresses that the parser returns. *)
Definition addr_wf (a : Addr) : Prop :=
  match a with
  | Addr4 bytes => Forall isByte bytes /\ length bytes = 4%nat
  | Addr6 groups _ => Forall isGroup groups /\ length groups = 8%nat
  end.

Lemma ParseAddr_wf s a : ParseAddr s = Some a -> addr_wf a.
Proof.
  unfold ParseAddr. destruct (firstMark s) as [c|]; [|done]. case_decide.
  - destruct (parseIPv4 s) eqn:E; [|done]. intros [= <-]. by apply parseIPv4_range in E.
  - case_decide; [|done]. destruct (cut percent s) as [[t zone]|].
    + case_decide; [done|]. destruct (parseIPv6 t) eqn:E; [|done]. intros [= <-].
      by apply parseIPv6_range in E.
    + destruct (parseIPv6 s) eqn:E; [|done]. intros [= <-]. by apply parseIPv6_range in E.
Qed.

Lemma As16_length a : addr_wf a -> length (As16 a) = 16%nat /\ Forall isByte (As16 a).
Proof.
  destruct a as [bs|gs zone]; cbn [addr_wf As16]; intros [Hf Hl].
  - rewrite !length_app, Hl. split; [done|]. apply Forall_app. split; [by repeat constructor|].
    apply Forall_app. by split; [repeat constructor|].
  - assert (H : forall gs, Forall isGroup gs -> length (concat (map split16 gs)) = (2 * length gs)%nat /\
      Forall isByte (concat (map split16 gs))).
    { clear. intros gs Hf. induction Hf as [|g gs Hg Hf [IH1 IH2]]; [done|]. cbn [map concat].
      rewrite length_app, IH1. split; [cbn; lia|]. apply Forall_app. split; [|done].
      unfold isGroup in Hg. assert (0 <= g / 256 < 256 /\ 0 <= g mod 256 < 256)
        by (split; [split; [apply Z.div_pos; lia|apply Z.div_lt_upper_bound; lia]|apply Z.mod_pos_bound; lia]).
      unfold isByte. repeat constructor; lia. }
    destruct (H gs Hf) as [H1 H2]. rewrite Hl in H1. done.
Qed.

(** ** Masks compare leading bits *)

(** The number whose big-endian bytes are given. *)
Fixpoint value (bs : list Z) : Z :=
  match bs with
  | [] => 0
  | b :: bs => b * 2 ^ (8 * Z.of_nat (length bs)) + value bs
  end.

Lemma value_bound bs : Forall isByte bs -> 0 <= value bs < 2 ^ (8 * Z.of_nat (length bs)).
Proof.
  induction 1 as [|b bs [Hb Hb'] _ IH]; [done|]. cbn [value length].
  replace (8 * Z.of_nat (S (length bs))) with (8 + 8 * Z.of_nat (length bs)) by lia.
  rewrite Z.pow_add_r by lia. change (2 ^ 8) with 256. nia.
Qed.

(** A mask of a byte clears the bits after the first [n], by enumeration. *)
Lemma mask_clears_all :
  Forall (fun n => Forall (fun a => Z.land a (255 - Z.shiftr 255 n) = a / 2 ^ (8 - n) * 2 ^ (8 - n))
    (seqZ 0 256)) (seqZ 0 8).
Proof. apply (bool_decide_unpack _). by vm_compute. Qed.

Lemma mask_byte n a b : 0 <= n < 8 -> isByte a -> isByte b ->
  Z.land a (255 - Z.shiftr 255 n) = Z.land b (255 - Z.shiftr 255 n) <->
  a / 2 ^ (8 - n) = b / 2 ^ (8 - n).
Proof.
  intros Hn Ha Hb. pose proof mask_clears_all as H. rewrite list.Forall_forall in H.
  specialize (H n ltac:(apply elem_of_seqZ; lia)). cbv beta in H. rewrite list.Forall_forall in H.
  unfold isByte in *. rewrite !H by (apply elem_of_seqZ; lia).
  assert (0 < 2 ^ (8 - n)) by (apply Z.pow_pos_nonneg; lia). split; [|by intros ->]. nia.
Qed.

Lemma and_zero_mask l a : length a = l -> andBytes a (CIDRMask 0 l) = repeat 0 l.
Proof.
  revert a. induction l as [|l IH]; intros [|b a] Hl; try done. cbn [CIDRMask].
  rewrite decide_False by lia. cbn -[Z.land]. rewrite Z.land_0_r. f_equal. apply IH. by injection Hl.
Qed.

Lemma land_255 a : isByte a -> Z.land a 255 = a.
Proof. intros Ha. change 255 with (Z.ones 8). rewrite Z.land_ones by lia. apply Z.mod_small, Ha. Qed.

(** Two addresses agree under a mask of [n] bits when their first [n] bits do. *)
Lemma CIDRMask_prefix l : forall n a b,
  Forall isByte a -> Forall isByte b -> length a = l -> length b = l -> 0 <= n <= 8 * Z.of_nat l ->
  andBytes a (CIDRMask n l) = andBytes b (CIDRMask n l) <->
  value a / 2 ^ (8 * Z.of_nat l - n) = value b / 2 ^ (8 * Z.of_nat l - n).
Proof.
  induction l as [|l IH]; intros n [|x a] [|y b] Ha Hb Hla Hlb Hn; try done.
  inversion_clear Ha as [|? ? Hx Ha']. inversion_clear Hb as [|? ? Hy Hb'].
  injection Hla as Hla. injection Hlb as Hlb. pose proof (value_bound a Ha') as Va.
  pose proof (value_bound b Hb') as Vb. rewrite Hla in Va. rewrite Hlb in Vb.
  cbn [CIDRMask value]. rewrite Hla, Hlb. case_decide as Hc.
  - change (andBytes (?x :: ?a) (?m :: ?ms)) with (Z.land x m :: andBytes a ms).
    rewrite !land_255 by done. set (k := 8 * Z.of_nat (S l) - n).
    assert (Hk : 8 * Z.of_nat l = (8 * Z.of_nat l - k) + k) by lia.
    assert (0 < 2 ^ k) by (apply Z.pow_pos_nonneg; lia).
    rewrite Hk in Va, Vb |- *. rewrite Z.pow_add_r in Va, Vb |- * by lia.
    rewrite !Z.mul_assoc, !Z.div_add_l by lia. specialize (IH (n - 8) a b Ha' Hb' Hla Hlb ltac:(lia)).
    replace (8 * Z.of_nat l - (n - 8)) with k in IH by lia.
    assert (value a / 2 ^ k < 2 ^ (8 * Z.of_nat l - k)) by (apply Z.div_lt_upper_bound; lia).
    assert (value b / 2 ^ k < 2 ^ (8 * Z.of_nat l - k)) by (apply Z.div_lt_upper_bound; lia).
    assert (0 <= value a / 2 ^ k) by (apply Z.div_pos; lia).
    assert (0 <= value b / 2 ^ k) by (apply Z.div_pos; lia). split.
    + intros [= -> E]. apply IH in E. lia.
    + intros E. assert (x = y) by nia. subst y. f_equal. apply IH. lia.
  - change (andBytes (?x :: ?a) (?m :: ?ms)) with (Z.land x m :: andBytes a ms).
    rewrite !and_zero_mask by done.
    replace (8 * Z.of_nat (S l) - n) with (8 * Z.of_nat l + (8 - n)) by lia.
    rewrite Z.pow_add_r by lia. rewrite <- !Z.div_div by (try apply Z.pow_pos_nonneg; lia).
    rewrite !Z.div_add_l by (apply Z.pow_nonzero; lia). rewrite !(Z.div_small (value _)) by lia.
    rewrite !Z.add_0_r, <- mask_byte by (done || lia). split; [by intros [= ->]|by intros ->].
Qed.

(** ** Membership in a prefix *)

Lemma CIDRMask_length n l : length (CIDRMask n l) = l.
Proof. revert n. induction l as [|l IH]; intros n; [done|]. cbn. case_decide; cbn; by rewrite IH. Qed.

Lemma CIDRMask_ones k n l : 0 <= n -> CIDRMask (8 * Z.of_nat k + n) (k + l) = repeat 255 k ++ CIDRMask n l.
Proof.
  intros Hn. induction k as [|k IH]; [done|]. cbn [Nat.add CIDRMask repeat app].
  rewrite decide_True by lia. rewrite <- IH. do 2 f_equal. lia.
Qed.

Lemma CIDRMask_partial k : forall n l, 0 <= n < 8 * (Z.of_nat k + 1) -> (k < l)%nat ->
  exists v, CIDRMask n l !! k = Some v /\ 0 <= v <= 254.
Proof.
  induction k as [|k IH]; intros n [|l] Hn Hl; try lia; cbn [CIDRMask].
  - rewrite decide_False by lia. eexists. split; [done|].
    assert (n = 0 \/ n = 1 \/ n = 2 \/ n = 3 \/ n = 4 \/ n = 5 \/ n = 6 \/ n = 7) as Hc by lia.
    destruct_or! Hc; subst n; vm_compute; split; discriminate.
  - case_decide; cbn [lookup list_lookup]; apply IH; lia.
Qed.

Lemma andBytes_app a a' b b' : length a = length b ->
  andBytes (a ++ a') (b ++ b') = andBytes a b ++ andBytes a' b'.
Proof. intros. by apply zip_with_app. Qed.

Lemma andBytes_length a b : length a = length b -> length (andBytes a b) = length a.
Proof. intros H. unfold andBytes. rewrite length_zip_with. lia. Qed.

Lemma andBytes_idem a m : andBytes (andBytes a m) m = andBytes a m.
Proof.
  revert m. induction a as [|x a IH]; intros [|y m]; try done. cbn. f_equal; [|apply IH].
  by rewrite <- Z.land_assoc, Z.land_diag.
Qed.

Lemma andBytes_ones a k : Forall isByte a -> length a = k -> andBytes a (repeat 255 k) = a.
Proof.
  intros Hf. revert k. induction Hf as [|x a Hx Hf IH]; intros [|k] Hl; try done. cbn -[Z.land].
  rewrite land_255 by done. f_equal. apply IH. by injection Hl.
Qed.

(** An address of a socket: four or sixteen bytes. *)
Definition ip_wf (ip : list Z) : Prop :=
  Forall isByte ip /\ (length ip = 4%nat \/ length ip = 16%nat).

(** Its sixteen bytes. *)
Definition full (ip : list Z) : list Z :=
  if decide (length ip = 4%nat) then v4InV6Prefix ++ ip else ip.

Lemma To4_Some ip c : ip_wf ip -> To4 ip = Some c ->
  full ip = v4InV6Prefix ++ c /\ length c = 4%nat /\ Forall isByte c.
Proof.
  intros [Hf Hl]. unfold To4, full. case_decide as H4; [by intros [= <-]|].
  case_decide as H16; [|done]. destruct H16 as [H16 Hp]. intros [= <-].
  rewrite <- Hp, take_drop, length_drop, H16. split_and!; [done..|by apply Forall_drop].
Qed.

Lemma To4_None ip : ip_wf ip -> To4 ip = None ->
  full ip = ip /\ length ip = 16%nat /\ take 12 ip <> v4InV6Prefix.
Proof.
  intros [Hf Hl]. unfold To4, full. case_decide as H4; [done|]. case_decide as H16; [done|].
  intros _. destruct Hl as [Hl|Hl]; [lia|]. split_and!; [done..|]. intros Hp. by apply H16.
Qed.

Lemma full_wf ip : ip_wf ip -> Forall isByte (full ip) /\ length (full ip) = 16%nat.
Proof.
  intros [Hf Hl]. unfold full. case_decide as H4.
  - rewrite length_app, H4. split; [|done]. apply Forall_app. split; [|done]. by repeat constructor.
  - destruct Hl; [lia|done].
Qed.

Lemma high_masked x n : Forall isByte x -> length x = 16%nat -> 0 <= n ->
  andBytes x (CIDRMask (96 + n) 16) = take 12 x ++ andBytes (drop 12 x) (CIDRMask n 4).
Proof.
  intros Hf Hl Hn. rewrite <- (take_drop 12 x) at 1. 
  pose proof (CIDRMask_ones 12 n 4 Hn) as Ho. change (8 * Z.of_nat 12) with 96 in Ho.
  change (12 + 4)%nat with 16%nat in Ho. rewrite Ho.
  assert (Ht : length (take 12 x) = 12%nat) by (rewrite length_take; lia).
  rewrite andBytes_app by (by rewrite Ht, repeat_length). f_equal.
  apply andBytes_ones; [by apply Forall_take|done].
Qed.

Lemma low_masked x n : Forall isByte x -> length x = 16%nat -> 0 <= n < 96 ->
  take 12 (andBytes x (CIDRMask n 16)) <> v4InV6Prefix.
Proof.
  intros Hf Hl Hn E. destruct (CIDRMask_partial 11 n 16) as (v & Ev & Hv); [lia..|].
  destruct (lookup_lt_is_Some_2 x 11 ltac:(lia)) as [y Ey].
  assert (Em : take 12 (andBytes x (CIDRMask n 16)) !! 11%nat = Some (Z.land y v)).
  { rewrite lookup_take_lt by lia. unfold andBytes. rewrite lookup_zip_with, Ey, Ev. done. }
  rewrite E in Em. cbn in Em. injection Em as Em.
  assert (Z.land y v <= v). 2: lia.
  apply (list.Forall_lookup_1 _ _ _ _ Hf) in Ey as [Hy _].
  rewrite Z.land_comm. apply Z.ldiff_le; [lia|]. apply Z.bits_inj'. intros i _.
  rewrite Z.ldiff_spec, Z.land_spec, Z.bits_0. by destruct (Z.testbit v i), (Z.testbit y i).
Qed.

(** The number of leading bits of the sixteen bytes that a prefix fixes. *)
Definition fixedBits (a : Addr) (n : Z) : Z := match a with Addr4 _ => 96 + n | Addr6 _ _ => n end.

Definition prefixNet (a : Addr) (n : Z) : IPNet :=
  let m := CIDRMask n (Z.to_nat (BitLen a / 8)) in
  {| net_IP := Mask (As16 a) m; net_Mask := m |}.

(** The leading bits agree. *)
Definition samePrefix (n : Z) (a b : list Z) : Prop := value a / 2 ^ (128 - n) = value b / 2 ^ (128 - n).

Lemma samePrefix_masked n a b : Forall isByte a -> Forall isByte b -> length a = 16%nat ->
  length b = 16%nat -> 0 <= n <= 128 ->
  andBytes a (CIDRMask n 16) = andBytes b (CIDRMask n 16) <-> samePrefix n a b.
Proof. intros. by rewrite CIDRMask_prefix by (done || lia). Qed.

Lemma mapped_wf bs : Forall isByte bs -> length bs = 4%nat ->
  Forall isByte (v4InV6Prefix ++ bs) /\ length (v4InV6Prefix ++ bs) = 16%nat.
Proof. intros Hf Hl. pose proof (full_wf bs) as H. unfold full in H. rewrite decide_True in H by done.
  apply H. split; [done|by left]. Qed.

(** A network of four bytes. *)
Lemma contains4 net bs n ip :
  Forall isByte bs -> length bs = 4%nat -> 0 <= n <= 32 -> ip_wf ip ->
  networkNumberAndMask net = Some (andBytes bs (CIDRMask n 4), CIDRMask n 4) ->
  Contains net ip = true <->
  andBytes (v4InV6Prefix ++ bs) (CIDRMask (96 + n) 16) = andBytes (full ip) (CIDRMask (96 + n) 16).
Proof.
  intros Hf Hl Hn Hip E. unfold Contains. rewrite E, andb_true_iff, !bool_decide_eq_true.
  rewrite andBytes_idem, andBytes_length by (by rewrite CIDRMask_length). rewrite Hl.
  destruct (full_wf ip Hip) as [Ff Fl].
  destruct (mapped_wf bs Hf Hl) as [Mf Ml]. rewrite !high_masked by (done || lia).
  rewrite take_app_length', drop_app_length' by done. destruct (To4 ip) as [c|] eqn:E4; cbn [default from_option id].
  - apply To4_Some in E4 as (-> & Hc & Hcf); [|done]. rewrite take_app_length', drop_app_length' by done.
    rewrite Hc. split; [by intros [_ ->]|]. intros H%(app_inv_head _). done.
  - apply To4_None in E4 as (-> & Hc & Hp); [|done]. split; [lia|]. intros H.
    apply app_inj_1 in H as [H _]; [by rewrite <- H in Hp|]. by rewrite length_take, Hc.
Qed.

(** A network of sixteen bytes that is not one of four bytes. *)
Lemma contains16 net b m ip : length b = 16%nat -> length m = 16%nat -> ip_wf ip ->
  networkNumberAndMask net = Some (andBytes b m, m) ->
  Contains net ip = true <-> andBytes b m = andBytes (full ip) m /\ To4 ip = None.
Proof.
  intros Hb Hm Hip E. unfold Contains. rewrite E, andb_true_iff, !bool_decide_eq_true.
  rewrite andBytes_idem, andBytes_length by lia. rewrite Hb. destruct (To4 ip) as [c|] eqn:E4; cbn [default from_option id].
  - apply To4_Some in E4 as (_ & Hc & _); [|done]. split; [lia|by intros []].
  - apply To4_None in E4 as (-> & Hc & _); [|done]. split; [by intros [_ ->]|by intros [-> _]].
Qed.

Lemma Mask16 b m : length b = 16%nat -> length m = 16%nat -> Mask b m = Some (andBytes b m).
Proof. intros Hb Hm. unfold Mask.
  rewrite (decide_False (P := length m = 16%nat /\ _)) by lia.
  rewrite (decide_False (P := length m = 4%nat /\ _)) by lia. by rewrite decide_True by lia. Qed.

Lemma network4 bs n : Forall isByte bs -> length bs = 4%nat ->
  networkNumberAndMask (prefixNet (Addr4 bs) n) = Some (andBytes bs (CIDRMask n 4), CIDRMask n 4).
Proof.
  intros Hf Hl. assert (Lm := CIDRMask_length n 4). unfold prefixNet. cbn [BitLen As16].
  change (Z.to_nat (32 / 8)) with 4%nat.
  unfold Mask. rewrite (decide_False (P := length _ = 16%nat /\ _)) by lia.
  change (repeat 0 10 ++ [255; 255] ++ bs) with (v4InV6Prefix ++ bs).
  rewrite (decide_True (P := length (CIDRMask n 4) = 4%nat /\ _))
    by (rewrite length_app, Hl, take_app_length' by done; done).
  rewrite drop_app_length', decide_True by (done || lia).
  unfold networkNumberAndMask, To4. cbn [net_IP net_Mask].
  assert (La : length (andBytes bs (CIDRMask n 4)) = 4%nat) by (rewrite andBytes_length; lia).
  rewrite La, Lm. cbn [default from_option id]. by rewrite !decide_True by (cbn; done).
Qed.

Lemma network6 gs zone n (b := As16 (Addr6 gs zone)) (net := prefixNet (Addr6 gs zone) n) :
  addr_wf (Addr6 gs zone) -> 0 <= n <= 128 ->
  (96 <= n /\ take 12 b = v4InV6Prefix /\
   networkNumberAndMask net = Some (andBytes (drop 12 b) (CIDRMask (n - 96) 4), CIDRMask (n - 96) 4)) \/
  ((n < 96 \/ take 12 b <> v4InV6Prefix) /\
   networkNumberAndMask net = Some (andBytes b (CIDRMask n 16), CIDRMask n 16)).
Proof.
  intros Ha Hn. destruct (As16_length _ Ha) as [Al Af]. fold b in Al, Af.
  assert (Lm := CIDRMask_length n 16).
  assert (La : length (andBytes b (CIDRMask n 16)) = 16%nat) by (rewrite andBytes_length; lia).
  unfold networkNumberAndMask, net, prefixNet. cbn [BitLen net_IP net_Mask].
  change (Z.to_nat (128 / 8)) with 16%nat. rewrite Mask16 by done. fold b. unfold To4.
  rewrite La, Lm. rewrite !(decide_False (P := 16%nat = 4%nat)) by done.
  rewrite (decide_True (P := 16%nat = 16%nat)) by done.
  destruct (decide (n < 96)) as [Hlt|Hge].
  - right. split; [by left|]. rewrite decide_False by (intros [_ H]; by apply (low_masked b n Af Al (conj (proj1 Hn) Hlt))).
    cbn [default from_option id]. by rewrite decide_False by lia.
  - assert (Hh := high_masked b (n - 96) Af Al ltac:(lia)). replace (96 + (n - 96)) with n in Hh by lia.
    assert (Lt : length (take 12 b) = 12%nat) by (rewrite length_take; lia).
    rewrite Hh, take_app_length' by done. destruct (decide (take 12 b = v4InV6Prefix)) as [Hp|Hp].
    + left. split_and!; [lia|done|]. rewrite decide_True by done. cbn [default from_option id].
      rewrite drop_app_length' by done.
      assert (Ld : length (andBytes (drop 12 b) (CIDRMask (n - 96) 4)) = 4%nat)
        by (rewrite andBytes_length; rewrite length_drop, ?CIDRMask_length; lia).
      rewrite decide_True by done. pose proof (CIDRMask_ones 12 (n - 96) 4 ltac:(lia)) as Ho.
      change (12 + 4)%nat with 16%nat in Ho. replace (8 * Z.of_nat 12 + (n - 96)) with n in Ho by lia.
      by rewrite Ho, drop_app_length' by (by rewrite repeat_length).
    + right. split; [by right|]. rewrite decide_False by (by intros [_ H]). cbn [default from_option id].
      by rewrite <- Hh, decide_False by lia.
Qed.

(** [Contains]: the address agrees with the prefix on the bits that the
    prefix fixes; an address of four bytes is only in prefixes that fix all of
    the leading ninety-six. *)
Lemma Contains_spec a n ip : addr_wf a -> 0 <= n <= BitLen a -> ip_wf ip ->
  Contains (prefixNet a n) ip = true <->
  samePrefix (fixedBits a n) (As16 a) (full ip) /\ (96 <= fixedBits a n \/ To4 ip = None).
Proof.
  intros Ha Hn Hip. destruct (As16_length a Ha) as [Al Af]. destruct (full_wf ip Hip) as [Ff Fl].
  rewrite <- samePrefix_masked by (try done; destruct a; cbn in *; lia).
  destruct a as [bs|gs zone]; cbn [BitLen fixedBits] in *.
  - destruct Ha as [Hf Hl]. rewrite (contains4 _ bs n) by (try done; by apply network4).
    split; [intros H; split; [done|lia]|by intros []].
  - destruct (network6 gs zone n) as [(Hn' & Hp & E)|(Hp & E)]; [done..| |].
    + assert (Ld : length (drop 12 (As16 (Addr6 gs zone))) = 4%nat) by (by rewrite length_drop, Al).
      rewrite (contains4 _ _ (n - 96) ip (Forall_drop _ _ _ Af) Ld ltac:(lia) Hip E).
      rewrite <- Hp, take_drop. replace (96 + (n - 96)) with n by lia.
      split; [intros H; split; [done|lia]|by intros []].
    + rewrite (contains16 _ _ _ _ Al (CIDRMask_length n 16) Hip E). split; [by intros [? ?]; eauto|].
      intros [H [H96|Hn4]]; [|done]. split; [done|]. destruct (To4 ip) as [c|] eqn:E4; [|done].
      destruct Hp as [Hp|Hp]; [lia|]. exfalso. apply Hp.
      apply To4_Some in E4 as (E4 & Hc & _); [|done]. rewrite E4 in H.
      replace n with (96 + (n - 96)) in H by lia. rewrite E4 in Ff, Fl.
      rewrite !high_masked in H by (done || lia). rewrite take_app_length' in H by done.
      apply app_inj_1 in H as [H _]; [done|]. by rewrite length_take, Al.
Qed.

(** ** What a restriction lets in *)

Lemma IPEqual_spec x ip : length x = 16%nat -> ip_wf ip -> IPEqual x ip = true <-> x = full ip.
Proof.
  intros Hx [_ Hl]. unfold IPEqual, full. rewrite Hx. destruct Hl as [Hl|Hl]; rewrite Hl.
  - rewrite !decide_False by lia. rewrite !decide_True by done.
    rewrite andb_true_iff, !bool_decide_eq_true. split.
    + intros [<- <-]. by rewrite take_drop.
    + intros ->. by rewrite take_app_length', drop_app_length' by done.
  - rewrite decide_True, decide_False by lia. apply bool_decide_eq_true.
Qed.

(** An entry of a restriction permits an address: it is the address, or a
    prefix that fixes [n] bits on which the address agrees with it. *)
Definition permits (ip : list Z) (entry : string) : Prop :=
  match ParseIP entry with
  | Some x => x = full ip
  | None =>
      exists addr mask a n,
        cut slash entry = Some (addr, mask) /\ ParseAddr addr = Some a /\ zoneOf a = "" /\
        mask <> "" /\ dtoi mask 0 = Some n /\ n <= BitLen a /\
        samePrefix (fixedBits a n) (As16 a) (full ip) /\ (96 <= fixedBits a n \/ To4 ip = None)
  end.

(** An entry that the check can read. *)
Definition readable (entry : string) : Prop := is_Some (ParseIP entry) \/ is_Some (ParseCIDR entry).

Lemma dtoi_nonneg s : forall m n, 0 <= m -> dtoi s m = Some n -> 0 <= n.
Proof.
  induction s as [|c s IH]; intros m n Hm; cbn [dtoi]; [by intros [= <-]|].
  destruct (decVal c) as [d|] eqn:Ed; [|done]. apply decVal_range in Ed.
  case_decide; [done|]. apply IH. lia.
Qed.

Lemma ParseCIDR_spec s net : ParseCIDR s = Some net <->
  exists addr mask a n, cut slash s = Some (addr, mask) /\ ParseAddr addr = Some a /\
    zoneOf a = "" /\ mask <> "" /\ dtoi mask 0 = Some n /\ n <= BitLen a /\ net = prefixNet a n.
Proof.
  unfold ParseCIDR. split.
  - destruct (cut slash s) as [[addr mask]|]; [|done]. destruct (ParseAddr addr) as [a|] eqn:Ea; [|done].
    case_decide as Hz; [done|]. destruct (dtoi mask 0) as [n|] eqn:En; [|done].
    case_decide as Hb; [done|]. intros [= <-]. exists addr, mask, a, n.
    destruct (decide (zoneOf a = "")); [|tauto]. split_and!; tauto || lia || done.
  - intros (addr & mask & a & n & -> & -> & Hz & Hm & -> & Hn & ->).
    rewrite decide_False by tauto. by rewrite decide_False by lia.
Qed.

Lemma ParseIP_length s x : ParseIP s = Some x -> length x = 16%nat.
Proof.
  unfold ParseIP. destruct (ParseAddr s) as [a|] eqn:E; [|done]. case_decide; [|done].
  intros [= <-]. by apply ParseAddr_wf, As16_length in E as [? _].
Qed.

(** One entry of the loop. *)
Lemma permits_spec ip entry : ip_wf ip ->
  permits ip entry <->
  match ParseIP entry with
  | Some allowed => IPEqual allowed ip = true
  | None => exists net, ParseCIDR entry = Some net /\ Contains net ip = true
  end.
Proof.
  intros Hip. unfold permits. destruct (ParseIP entry) as [x|] eqn:Ex.
  - by rewrite (IPEqual_spec x ip (ParseIP_length _ _ Ex) Hip).
  - split.
    + intros (addr & mask & a & n & Ec & Ea & Hz & Hm & En & Hn & Hs). exists (prefixNet a n).
      split; [apply ParseCIDR_spec; eauto 12|]. apply Contains_spec; [by eapply ParseAddr_wf| |done|done].
      apply dtoi_nonneg in En; lia.
    + intros (net & (addr & mask & a & n & Ec & Ea & Hz & Hm & En & Hn & ->)%ParseCIDR_spec & Hc).
      apply Contains_spec in Hc as [Hs H96]; [eauto 14|by eapply ParseAddr_wf| |done].
      apply dtoi_nonneg in En; lia.
Qed.

Lemma checkEntries_spec ip entries : ip_wf ip ->
  checkEntries ip entries = None <->
  exists before entry after, entries = before ++ entry :: after /\
    Forall readable before /\ permits ip entry.
Proof.
  intros Hip. induction entries as [|entry rest IH].
  { split; [done|]. by intros ([] & ? & ? & ? & _). }
  assert (Hhere : permits ip entry -> exists before e after, entry :: rest = before ++ e :: after /\
    Forall readable before /\ permits ip e) by (intros; by exists [], entry, rest).
  assert (Hlater : readable entry -> checkEntries ip rest = None -> exists before e after,
    entry :: rest = before ++ e :: after /\ Forall readable before /\ permits ip e).
  { intros Hr (before & e & after & -> & Hb & He)%IH. exists (entry :: before), e, after.
    split_and!; [done|by constructor|done]. }
  assert (Hback : (exists before e after, entry :: rest = before ++ e :: after /\
    Forall readable before /\ permits ip e) ->
    permits ip entry \/ (readable entry /\ checkEntries ip rest = None)).
  { intros ([|b before] & e & after & [= -> ->] & Hb & He); [by left|right].
    inversion_clear Hb as [|? ? Hr Hb']. split; [done|]. apply IH. by exists before, e, after. }
  pose proof (permits_spec ip entry Hip) as Hp. cbn [checkEntries]. unfold readable in Hlater, Hback.
  destruct (ParseIP entry) as [x|] eqn:Ex.
  - destruct (IPEqual x ip); [split; [intros _; by apply Hhere, Hp|done]|]. split; [apply Hlater; eauto|].
    intros [H|[_ H]]%Hback; [by apply Hp in H|done].
  - destruct (ParseCIDR entry) as [net|].
    + destruct (Contains net ip) eqn:Ec; [split; [intros _; apply Hhere, Hp; eauto|done]|]. split; [apply Hlater; eauto|].
      intros [H|[_ H]]%Hback; [|done]. apply Hp in H as (net' & [= <-] & H). congruence.
    + split; [done|]. intros [H|[[[]|[]] _]]%Hback; [|done..]. apply Hp in H as (? & ? & _). done.
Qed.

(** ** Addresses read back what they print *)

Lemma parseFields_byte b rest fields : exists k,
  parseFields (decimal_byte b +:+ rest) true 0 0 fields = parseFields rest false (S k) (byte_val b) fields.
Proof. destruct b; eexists; reflexivity. Qed.

Lemma decimal_byte_text b rest :
  decimal_byte b +:+ rest <> "" /\ firstMark (decimal_byte b +:+ rest) = firstMark rest.
Proof. by destruct b. Qed.

Lemma ParseAddr_ipv4 bs : length bs = 4%nat ->
  ParseAddr (ipv4_string bs) = Some (Addr4 (map byte_val bs)).
Proof.
  destruct bs as [|a [|b [|c [|d []]]]]; try done. intros _. unfold ipv4_string.
  cbn [map Join].
  assert (Hn : forall x, bool_decide (decimal_byte x = "") = false) by (by intros []).
  assert (Hn' : forall x rest, bool_decide (decimal_byte x +:+ rest = "") = false)
    by (intros; apply bool_decide_eq_false, decimal_byte_text).
  unfold ParseAddr. rewrite (proj2 (decimal_byte_text a _)). cbn [firstMark].
  rewrite !decide_True by tauto. unfold parseIPv4.
  destruct (parseFields_byte a (String dot (decimal_byte b +:+ String dot (decimal_byte c +:+
    String dot (decimal_byte d)))) []) as [k ->].
  assert (Hd : decVal dot = None) by done.
  assert (Hlast : forall x fields, length fields = 3%nat ->
    parseFields (decimal_byte x) true 0 0 fields = Some (fields ++ [byte_val x])).
  { intros x fields Hl. destruct (parseFields_byte x "" fields) as [j E].
    rewrite append_nil in E. rewrite E. cbn [parseFields]. by rewrite decide_False by lia. }
  cbn [parseFields]. rewrite Hd, decide_True, Hn' by done. cbn [orb].
  rewrite decide_False by done.
  destruct (parseFields_byte b (String dot (decimal_byte c +:+ String dot (decimal_byte d)))
    ([] ++ [byte_val a])) as [k2 ->]. cbn [parseFields]. rewrite Hd, decide_True, Hn' by done. cbn [orb].
  rewrite decide_False by done.
  destruct (parseFields_byte c (String dot (decimal_byte d)) (([] ++ [byte_val a]) ++ [byte_val b]))
    as [k3 ->]. cbn [parseFields]. rewrite Hd, decide_True, Hn by done. cbn [orb].
  rewrite decide_False, Hlast by done. done.
Qed.

(** *** Groups *)

Lemma hexVal_digit d : 0 <= d < 16 -> hexVal (digit d) = Some d.
Proof.
  intros Hd. assert (In : d ∈ seqZ 0 16) by (apply elem_of_seqZ; lia). clear Hd. revert d In.
  apply list.Forall_forall. by repeat constructor.
Qed.

Lemma hexNumber_snoc s d : forall off acc v k, 0 <= d < 16 -> (k <= 3)%nat ->
  hexNumber s off acc = Some (v, k, "") ->
  hexNumber (s +:+ String (digit d) "") off acc = Some (v * 16 + d, S k, "").
Proof.
  induction s as [|c s IH]; intros off acc v k Hd Hk; cbn [hexNumber].
  - intros [= <- <-]. change ("" +:+ String (digit d) "") with (String (digit d) ""). cbn [hexNumber].
    rewrite hexVal_digit by done. by rewrite decide_False by lia.
  - rewrite append_cons. cbn [hexNumber]. destruct (hexVal c); [|done]. case_decide; [done|]. by apply IH.
Qed.

Lemma hexNumber_digits fuel : forall n, (fuel <= 3)%nat -> 0 <= n < 16 ^ Z.of_nat (S fuel) ->
  exists k, (k <= fuel)%nat /\ hexNumber (digits (S fuel) 16 n) 0 0 = Some (n, S k, "").
Proof.
  assert (H1 : forall n, 0 <= n < 16 -> hexNumber (String (digit n) "") 0 0 = Some (n, 1%nat, "")).
  { intros n Hn. cbn [hexNumber]. rewrite hexVal_digit by done. done. }
  induction fuel as [|fuel IH]; intros n Hf Hn; cbn [digits]; case_decide as Hd.
  - exists 0%nat. split; [done|]. apply H1. lia.
  - cbn in Hn. lia.
  - exists 0%nat. split; [lia|]. apply H1. lia.
  - change (if decide (n / 16 < 16) then _ else _) with (digits (S fuel) 16 (n / 16)).
    assert (Hm := Z.mod_pos_bound n 16 ltac:(lia)). assert (Hdm := Z.div_mod n 16 ltac:(lia)).
    destruct (IH (n / 16)) as (k & Hk & E); [lia| |].
    + split; [apply Z.div_pos; lia|]. apply Z.div_lt_upper_bound; [lia|].
      rewrite Nat2Z.inj_succ, Z.pow_succ_r in Hn by lia. lia.
    + exists (S k). split; [lia|]. rewrite (hexNumber_snoc _ _ 0 0 (n / 16) (S k)) by (done || lia).
      do 3 f_equal. lia.
Qed.

Lemma hex_group_number g : isGroup g -> exists k, hexNumber (hex_group g) 0 0 = Some (g, S k, "").
Proof. intros Hg. destruct (hexNumber_digits 3 g) as (k & _ & E); [lia|exact Hg|eauto]. Qed.

(** A text that a hexadecimal number cannot go on with. *)
Definition stops (s : string) : Prop :=
  match s with EmptyString => True | String c _ => hexVal c = None end.

Lemma hexNumber_app s : forall off acc v n rest, stops rest ->
  hexNumber s off acc = Some (v, n, "") -> hexNumber (s +:+ rest) off acc = Some (v, n, rest).
Proof.
  induction s as [|c s IH]; intros off acc v n rest Hr; cbn [hexNumber].
  - intros [= <- <-]. change ("" +:+ rest) with rest. destruct rest as [|c rest]; [done|].
    cbn in Hr |- *. by rewrite Hr.
  - change (String c s +:+ rest) with (String c (s +:+ rest)). cbn [hexNumber].
    destruct (hexVal c); [|done]. case_decide; [done|]. by apply IH.
Qed.

(** A text of hexadecimal digits and colons. *)
Fixpoint hexColons (s : string) : Prop :=
  match s with
  | EmptyString => True
  | String c s => (is_Some (hexVal c) \/ c = colon) /\ hexColons s
  end.

Lemma hexColons_app s t : hexColons s -> hexColons t -> hexColons (s +:+ t).
Proof. induction s as [|c s IH]; [done|]. intros [Hc Hs] Ht. split; [done|]. by apply IH. Qed.

Lemma hexColons_without c s :
  hexVal c = None -> c <> colon -> hexColons s -> contains_byte c s = false.
Proof.
  intros Hc Hne. induction s as [|a s IH]; [done|]. intros [Ha Hs]. cbn [contains_byte].
  rewrite (IH Hs), orb_false_r. apply bool_decide_eq_false. intros ->. destruct Ha as [[]|]; congruence.
Qed.

Lemma hexNumber_hexColons s : forall off acc v n, hexNumber s off acc = Some (v, n, "") -> hexColons s.
Proof.
  induction s as [|c s IH]; intros off acc v n; cbn [hexNumber]; [done|].
  destruct (hexVal c) as [d|] eqn:E; [|done]. case_decide; [done|]. intros Hx.
  split; [left; eauto|]. by eapply IH.
Qed.

Lemma hex_group_text g rest : isGroup g ->
  hexColons (hex_group g) /\
  (exists c s, hex_group g +:+ rest = String c s /\ is_Some (hexVal c)).
Proof.
  intros (k & E)%hex_group_number. split; [by eapply hexNumber_hexColons|].
  destruct (hex_group g) as [|c s]; [done|]. exists c, (s +:+ rest). split; [done|].
  cbn [hexNumber] in E. destruct (hexVal c); [eauto|done].
Qed.

Lemma hexVal_marks : hexVal colon = None /\ hexVal dot = None /\ hexVal percent = None.
Proof. done. Qed.

Lemma hexColons_marks s : hexColons s -> cut percent s = None /\
  (contains_byte colon s = true -> firstMark s = Some colon).
Proof.
  induction s as [|c s IH]; [done|]. intros [Hc Hs]. destruct (IH Hs) as [IH1 IH2].
  cbn [cut firstMark contains_byte].
  assert (c <> percent) by (intros ->; destruct Hc as [[]|]; done).
  rewrite decide_False by done. rewrite IH1. split; [done|]. case_decide as Hm.
  - intros _. destruct Hm as [->|[->|?]]; [destruct Hc as [[]|]; done|done|done].
  - destruct (decide (c = colon)); [tauto|]. cbn. intros Hin. apply IH2.
    destruct (bool_decide _) eqn:Eb in Hin; [apply bool_decide_eq_true in Eb; tauto|done].
Qed.

Definition groupsText (gs : list Z) : string := Join colon (map hex_group gs).

Lemma groupsText_cons g g' gs :
  groupsText (g :: g' :: gs) = hex_group g +:+ String colon (groupsText (g' :: gs)).
Proof. done. Qed.

Lemma hex_group_then g rest : isGroup g -> exists k,
  hexNumber (hex_group g +:+ String colon rest) 0 0 = Some (g, S k, String colon rest).
Proof. intros (k & E)%hex_group_number. exists k. by apply hexNumber_app. Qed.

(** The text of some groups starts with a digit. *)
Lemma groupsText_start g gs rest : isGroup g ->
  exists c s, groupsText (g :: gs) +:+ rest = String c s /\ is_Some (hexVal c).
Proof.
  intros Hg. destruct gs as [|g' gs]; [apply (hex_group_text g rest Hg)|].
  rewrite groupsText_cons. rewrite append_assoc. by apply hex_group_text.
Qed.

Lemma groupsText_hexColons gs : Forall isGroup gs -> hexColons (groupsText gs).
Proof.
  induction 1 as [|g gs Hg Hgs IH]; [done|]. destruct gs as [|g' gs].
  - by apply (hex_group_text g "").
  - rewrite groupsText_cons. apply hexColons_app; [by apply (hex_group_text g "")|].
    split; [by right|done].
Qed.

(** The parser reads the groups and stops at their end. *)
Lemma parseGroups_all gs : forall fuel acc e, gs <> [] -> Forall isGroup gs -> (length gs <= fuel)%nat ->
  parseGroups fuel (groupsText gs) acc e = Some (acc ++ gs, e, "").
Proof.
  induction gs as [|g gs IH]; intros [|fuel] acc e Hne Hgs Hl; try done; [cbn in Hl; lia|].
  inversion_clear Hgs as [|? ? Hg Hgs'].
  cbn [parseGroups]. destruct gs as [|g' gs].
  - change (groupsText [g]) with (hex_group g). by destruct (hex_group_number g Hg) as [k ->].
  - rewrite groupsText_cons. destruct (hex_group_then g (groupsText (g' :: gs)) Hg) as [k ->].
    rewrite decide_False, decide_True by done. inversion_clear Hgs' as [|? ? Hg' Hgs].
    destruct (groupsText_start g' gs "" Hg') as (c & s & Ec & Hc). rewrite append_nil in Ec.
    rewrite Ec. rewrite decide_False by (intros ->; by destruct Hc). rewrite <- Ec.
    rewrite IH; [by rewrite <- app_assoc|done|by constructor|cbn in *; lia].
Qed.

(** A text with an ellipsis after its first groups. *)
Lemma parseGroups_ellipsis gs : forall fuel acc hs, gs <> [] -> Forall isGroup gs -> Forall isGroup hs ->
  (length gs + length hs <= fuel)%nat ->
  parseGroups fuel (groupsText gs +:+ "::" +:+ groupsText hs) acc None =
  Some (acc ++ gs ++ hs, Some (length acc + length gs)%nat, "").
Proof.
  induction gs as [|g gs IH]; intros [|fuel] acc hs Hne Hgs Hhs Hl; try done; [cbn in Hl; lia|].
  inversion_clear Hgs as [|? ? Hg Hgs'].
  cbn [parseGroups]. destruct gs as [|g' gs].
  - change (groupsText [g]) with (hex_group g).
    change ("::" +:+ groupsText hs) with (String colon (String colon (groupsText hs))).
    destruct (hex_group_then g (String colon (groupsText hs)) Hg) as [k ->]. rewrite decide_False, !decide_True by done. rewrite length_app. cbn [length].
    destruct hs as [|h hs]; [rewrite decide_True by done; by rewrite app_nil_r|].
    inversion_clear Hhs as [|? ? Hh Hhs'].
    destruct (groupsText_start h hs "" Hh) as (c & s & Ec & _). rewrite append_nil in Ec.
    rewrite decide_False by (by rewrite Ec).
    rewrite parseGroups_all; [by rewrite <- app_assoc|done|by constructor|cbn in *; lia].
  - rewrite groupsText_cons, append_assoc, append_cons.
    destruct (hex_group_then g (groupsText (g' :: gs) +:+ "::" +:+ groupsText hs) Hg) as [k ->].
    rewrite decide_False, decide_True by done.
    inversion_clear Hgs' as [|? ? Hg' Hgs].
    destruct (groupsText_start g' gs ("::" +:+ groupsText hs) Hg') as (c & s & Ec & Hc).
    rewrite Ec, decide_False by (intros ->; by destruct Hc). rewrite <- Ec.
    rewrite IH; [|done|by constructor|done|cbn in *; lia].
    rewrite <- app_assoc, length_app. cbn [length app].
    by replace (length acc + 1 + S (length gs))%nat with (length acc + S (S (length gs)))%nat by lia.
Qed.

(** The run that [String] replaces by the ellipsis consists of zeros. *)
Lemma zeros_spec gs : take (zeros gs) gs = repeat 0 (zeros gs) /\ (zeros gs <= length gs)%nat.
Proof.
  induction gs as [|g gs [IH1 IH2]]; [done|]. cbn [zeros]. case_decide as Hg; [|split; [done|cbn; lia]].
  subst g. cbn. rewrite IH1. split; [done|lia].
Qed.

Lemma longest_run_spec whole : forall gs before best,
  whole = before ++ gs ->
  let ok r := (r.2 = 0 \/ (2 <= r.2 /\ r.1 + r.2 <= length whole /\
               take r.2 (drop r.1 whole) = repeat 0%Z r.2))%nat in
  ok best -> ok (longest_run (length before) gs best).
Proof.
  induction gs as [|g gs IH]; intros before best Ew ok Hb; [done|]. cbn [longest_run].
  replace (S (length before)) with (length (before ++ [g])) by (rewrite length_app; cbn; lia).
  apply IH; [by rewrite <- app_assoc|]. case_decide as Hc; [|done]. right.
  destruct (zeros_spec (g :: gs)) as [Hz Hl]. cbn [fst snd]. split_and!; [lia| |].
  - rewrite Ew, length_app. lia.
  - by rewrite Ew, drop_app_length.
Qed.

Lemma groups_spec bs n : length bs = (2 * n)%nat ->
  length (groups bs) = n /\ Forall isGroup (groups bs) /\
  concat (map split16 (groups bs)) = map byte_val bs.
Proof.
  revert bs. induction n as [|n IH]; intros bs Hl; [by destruct bs|].
  destruct bs as [|a [|b bs]]; [cbn in Hl; lia..|]. cbn [groups map concat length].
  destruct (IH bs) as (I1 & I2 & I3); [cbn in Hl; lia|].
  pose proof (byte_val_bound a) as Ha. pose proof (byte_val_bound b) as Hb.
  pose proof (be_uint16_val a b) as Ev.
  split_and!; [by rewrite I1| |].
  - constructor; [unfold isGroup; lia|done].
  - rewrite I3, Ev. unfold split16. rewrite Z.div_add_l by lia. rewrite (Z.div_small (byte_val b)) by lia.
    rewrite (Z.add_comm _ (byte_val b)), Z.mod_add, Z.mod_small by lia. cbn [app]. by rewrite Z.add_0_r.
Qed.

Lemma parseIPv6_text gs : Forall isGroup gs -> length gs = 8%nat ->
  parseIPv6 (groupsText gs) = Some gs.
Proof.
  intros Hf Hl. destruct gs as [|g gs]; [done|].
  assert (Hp := parseGroups_all (g :: gs) 8 [] None ltac:(done) Hf ltac:(lia)).
  inversion_clear Hf as [|? ? Hg Hgs]. destruct (groupsText_start g gs "" Hg) as (c & s & Ec & Hc).
  rewrite append_nil in Ec. rewrite Ec in Hp |- *. unfold parseIPv6. rewrite Hp.
  unfold expand. rewrite app_nil_l, decide_False by lia. destruct s; [done|].
  by rewrite decide_False by (intros [-> _]; by destruct Hc).
Qed.

Lemma parseIPv6_ellipsis gs hs : Forall isGroup gs -> Forall isGroup hs ->
  (length gs + length hs < 8)%nat ->
  parseIPv6 (groupsText gs +:+ "::" +:+ groupsText hs) =
  Some (gs ++ repeat 0 (8 - (length gs + length hs)) ++ hs).
Proof.
  intros Hg Hh Hl. unfold parseIPv6. destruct gs as [|g gs].
  - change (groupsText [] +:+ "::" +:+ groupsText hs) with (String colon (String colon (groupsText hs))).
    cbv iota. rewrite decide_True by done. destruct hs as [|h hs]; [done|].
    assert (Hp := parseGroups_all (h :: hs) 8 [] (Some 0%nat) ltac:(done) Hh ltac:(cbn in *; lia)).
    inversion_clear Hh as [|? ? Hh' Hhs]. destruct (groupsText_start h hs "" Hh') as (c & s & Ec & Hc).
    rewrite append_nil in Ec. rewrite Ec in Hp |- *. rewrite decide_False, Hp by done.
    unfold expand. rewrite app_nil_l. rewrite decide_True by (cbn in *; lia). done.
  - assert (Hp := parseGroups_ellipsis (g :: gs) 8 [] hs ltac:(done) Hg Hh ltac:(lia)).
    inversion_clear Hg as [|? ? Hg' Hgs].
    destruct (groupsText_start g gs ("::" +:+ groupsText hs) Hg') as (c & s & Ec & Hc).
    rewrite Ec in Hp |- *. rewrite Hp. unfold expand. rewrite app_nil_l, length_app.
    rewrite decide_True by lia. destruct s; [|rewrite decide_False by (intros [-> _]; by destruct Hc)];
      by rewrite (take_app_length (g :: gs)), (drop_app_length (g :: gs)).
Qed.

Lemma ParseAddr_colons s gs : hexColons s -> contains_byte colon s = true -> parseIPv6 s = Some gs ->
  ParseAddr s = Some (Addr6 gs "").
Proof.
  intros Hs Hc E. destruct (hexColons_marks s Hs) as [H1 H2]. unfold ParseAddr.
  by rewrite (H2 Hc), decide_False, decide_True, H1, E by done.
Qed.

(** What [ipv6_string] writes: the groups, or those around a run of zeros. *)
Lemma ipv6_string_cases bs : length bs = 16%nat ->
  (exists start count, (2 <= count /\ start + count <= 8)%nat /\
     take count (drop start (groups bs)) = repeat 0 count /\
     ipv6_string bs = groupsText (take start (groups bs)) +:+ "::" +:+
                      groupsText (drop (start + count) (groups bs))) \/
  ipv6_string bs = groupsText (groups bs).
Proof.
  intros Hl. destruct (groups_spec bs 8 Hl) as (Gl & _). unfold ipv6_string.
  pose proof (longest_run_spec (groups bs) (groups bs) [] (255%nat, 0%nat) eq_refl) as Hr.
  cbv zeta in Hr. specialize (Hr (or_introl eq_refl)). change (length []) with 0%nat in Hr.
  destruct (longest_run 0 (groups bs) (255%nat, 0%nat)) as [start count]. cbn [fst snd] in Hr.
  case_decide as Hc; [by right|left]. destruct Hr as [Hr|(H2 & Hlen & Hz)]; [done|].
  exists start, count. split_and!; [lia|lia|done..].
Qed.

Lemma ipv6_string_text bs : length bs = 16%nat ->
  hexColons (ipv6_string bs) /\ contains_byte colon (ipv6_string bs) = true.
Proof.
  intros Hl. destruct (groups_spec bs 8 Hl) as (Gl & Gf & _).
  destruct (ipv6_string_cases bs Hl) as [(start & count & _ & _ & ->)| ->].
  - split; [|rewrite !contains_byte_app; cbn; by rewrite orb_true_r].
    apply hexColons_app; [by apply groupsText_hexColons, Forall_take|].
    apply hexColons_app; [cbn; tauto|by apply groupsText_hexColons, Forall_drop].
  - split; [by apply groupsText_hexColons|].
    destruct (groups bs) as [|g [|g' gs]]; [done..|]. rewrite groupsText_cons, contains_byte_app. cbn.
    by rewrite orb_true_r.
Qed.

Lemma parseIPv6_ipv6 bs : length bs = 16%nat -> parseIPv6 (ipv6_string bs) = Some (groups bs).
Proof.
  intros Hl. destruct (groups_spec bs 8 Hl) as (Gl & Gf & _).
  destruct (ipv6_string_cases bs Hl) as [(start & count & Hb & Hz & ->)| ->]; [|by apply parseIPv6_text].
  rewrite parseIPv6_ellipsis; [|by apply Forall_take|by apply Forall_drop|rewrite length_take, length_drop; lia].
  rewrite length_take, length_drop. f_equal.
  replace (8 - _)%nat with count by lia. rewrite <- Hz, <- drop_drop, take_drop, take_drop. done.
Qed.

Lemma ParseAddr_ipv6 bs : length bs = 16%nat ->
  ParseAddr (ipv6_string bs) = Some (Addr6 (groups bs) "").
Proof.
  intros Hl. destruct (ipv6_string_text bs Hl). by apply ParseAddr_colons, parseIPv6_ipv6.
Qed.

(** An address with a zone is not an [IP]. *)
Lemma ParseIP_zone bs zone : length bs = 16%nat -> zone <> "" ->
  ParseIP (ipv6_string bs +:+ String percent zone) = None.
Proof.
  intros Hl Hz. destruct (ipv6_string_text bs Hl) as [Hh Hc].
  destruct (hexColons_marks _ Hh) as [Hp Hm]. specialize (Hm Hc). unfold ParseIP, ParseAddr.
  assert (Hf : forall s t c, firstMark s = Some c -> firstMark (s +:+ t) = Some c).
  { clear. induction s as [|a s IH]; intros t c; [done|]. rewrite append_cons. cbn [firstMark].
    case_decide; [done|]. apply IH. }
  rewrite (Hf _ _ _ Hm). rewrite decide_False, decide_True by done.
  rewrite cut_app by (by apply hexColons_without). rewrite decide_False by done.
  rewrite parseIPv6_ipv6 by done. cbn [fmap option_fmap option_map zoneOf]. by rewrite decide_False.
Qed.

(** The bytes of the text of an address. *)
Lemma ip_string_bytes bs c : length bs = 4%nat \/ length bs = 16%nat ->
  hexVal c = None -> c <> colon -> c <> dot -> contains_byte c (ip_string bs) = false.
Proof.
  intros Hl Hc Hne Hnd.
  assert (H4 : forall bs, length bs = 4%nat -> contains_byte c (ipv4_string bs) = false).
  { assert (Hb : forall b, contains_byte c (decimal_byte b) = false).
    { intros b. apply hexColons_without; [done..|].
      destruct b; repeat (split; [left; eexists; reflexivity|]); exact I. }
    intros [|a [|b [|x [|d []]]]]; try done. intros _. unfold ipv4_string. cbn [map Join].
    rewrite !contains_byte_app, !Hb. cbn [contains_byte orb]. rewrite !contains_byte_app, !Hb.
    cbn [contains_byte orb]. rewrite !contains_byte_app, !Hb. cbn [contains_byte orb].
    rewrite Hb. by rewrite bool_decide_false by auto. }
  unfold ip_string. case_decide as E4; [by apply H4|]. destruct Hl as [|Hl]; [done|].
  destruct (mapped4 bs); [apply H4; by rewrite length_drop, Hl|].
  destruct (ipv6_string_text bs Hl) as [Hh _]. by apply hexColons_without.
Qed.

(** The text of the sixteen bytes is that of the address. *)
Lemma ip_string_full bs : length bs = 4%nat \/ length bs = 16%nat ->
  ip_string (map byte_of (full (map byte_val bs))) = ip_string bs.
Proof.
  assert (Hid : forall bs, map byte_of (map byte_val bs) = bs).
  { intros l. rewrite map_map. rewrite <- (map_id l) at 2. apply map_ext. apply byte_of_val. }
  intros Hl. unfold full. rewrite length_map. case_decide as H4; [|by rewrite Hid].
  rewrite map_app, Hid. unfold ip_string. rewrite (decide_True (P := length bs = 4%nat)) by done.
  rewrite decide_False by (rewrite length_app, H4; cbn; lia). unfold mapped4.
  by rewrite bool_decide_true, drop_app_length' by done.
Qed.

(** [net.ParseIP] reads back the address that [net.IP.String] printed. *)
Lemma ParseIP_text (bs : list byte) :
  length bs = 4%nat \/ length bs = 16%nat -> ParseIP (ip_string bs) = Some (full (map byte_val bs)).
Proof.
  intros Hl. unfold ParseIP, ip_string, full. rewrite length_map. case_decide as H4.
  - rewrite ParseAddr_ipv4 by done. done.
  - destruct Hl as [Hl|Hl]; [done|]. destruct (mapped4 bs) eqn:Em.
    + rewrite ParseAddr_ipv4 by (by rewrite length_drop, Hl). cbn [zoneOf].
      rewrite decide_True by done. apply bool_decide_eq_true in Em. f_equal.
      rewrite <- (take_drop 12 bs) at 2. by rewrite map_app, Em.
    + rewrite ParseAddr_ipv6 by done. cbn [zoneOf As16]. rewrite decide_True by done. f_equal.
      by apply (groups_spec bs 8).
Qed.

(** ** The restriction of a user's certificate *)

Section enforced.
Context (verify : Certificate -> bool).
Context {DB : Type} `{Executor DB}.
Context (geoip_opened : bool) (geoip_city : string -> option Auth.cityRecord).
Context (ParsePublicKey : list byte -> result PublicKey).
Context (Type_ : PublicKey -> string).
Context (Verify : bool -> PublicKey -> list byte -> Handshake.Signature -> option error).
Context (sessionID : list byte) (host : string) (disconnectErr : option error).

(** C5: a certificate that is restricted to source addresses works from there
    only.  Whoever the handshake lets in as a user with a certificate that
    carries a restriction has connected over TCP, and the address of the socket
    is one that an entry of the restriction permits: the entry is the address,
    or a prefix whose bits are the leading bits of the address. *)
Theorem source_address_enforced (addr : clientAddr) (settings : Auth.Settings)
    (events : list (Handshake.event (S := Handshake.shared (DB := DB)))) (s s' : Handshake.shared)
    (replies : list Handshake.reply) (user : string) (perms : option Permissions) :
  (forall ip, addr = TcpAddr ip -> ip_wf ip) ->
  Handshake.authenticateConn verify geoip_opened geoip_city ParsePublicKey Type_ Verify
    (checkSourceAddress addr) sessionID host disconnectErr settings events s =
    (s', replies, Handshake.Authenticated user perms) ->
  user <> Auth.PeerUser ->
  exists cert p, perms = Some p /\
    Handshake.certified verify ParsePublicKey Verify (checkSourceAddress addr) sessionID settings events
      user cert p /\
    forall restriction,
      CriticalOptions (cert_Permissions cert) !! sourceAddressCriticalOption = Some restriction ->
      restriction <> "" ->
      exists ip before entry after, addr = TcpAddr ip /\
        Split comma restriction = before ++ entry :: after /\
        Forall readable before /\ permits ip entry.
Proof.
  intros Hip E Hu. apply Handshake.authenticateConn_certified in E as (cert & p & -> & Hc).
  exists cert, p. split_and!; [done..|]. intros restriction Hr Hne.
  destruct Hc as [_ _ Hc]. destruct (Hc Hu) as (_ & _ & _ & _ & Hs).
  unfold Handshake.sourceCheck in Hs. cbn in Hs. rewrite Hr in Hs. cbn in Hs.
  rewrite decide_False in Hs by done. destruct addr as [|ip|]; [done| |done]. cbn in Hs.
  apply checkEntries_spec in Hs as (before & entry & after & H1 & H2 & H3); [|by apply Hip].
  by exists ip, before, entry, after.
Qed.
End enforced.

(** ** Witnesses *)

Definition example_restriction : string := "192.0.2.1,10.0.0.0/8,2001:db8::/32".

Definition example_certificate : Certificate :=
  {| cert_Key := "key"; cert_Serial := 1; cert_CertType := 1; cert_KeyId := "alice";
     cert_ValidPrincipals := ["alice"]; cert_ValidAfter := 0; cert_ValidBefore := CertTimeInfinity;
     cert_Permissions := {| CriticalOptions := {[sourceAddressCriticalOption := example_restriction]};
                            Extensions := ∅ |};
     cert_SignatureKey := "user-ca"; cert_Signature := "sig" |}.

Definition example_login (ip : list Z) : Handshake.shared (DB := server) * list Handshake.reply *
    Handshake.outcome :=
  Handshake.authenticateConn (fun _ => true) false (fun _ => None)
    (fun _ => Ok (CertificateKey example_certificate)) (fun _ => Handshake.CertAlgoED25519v01)
    (fun _ _ _ _ => None) (checkSourceAddress (TcpAddr ip)) (bytes_of_string "session") "10.0.0.1" None
    Auth.Examples.settings
    [Handshake.example_request "alice" (Some Handshake.example_signature)]
    {| Handshake.flags := ∅; Handshake.database := Auth.Examples.database "alice" false;
       Handshake.background := [] |}.

(** From 10.1.2.3 the login succeeds; from 11.1.2.3 it does not. *)
Lemma source_address_enforced_witness :
  (exists entry, entry ∈ ["192.0.2.1"; "10.0.0.0/8"; "2001:db8::/32"] /\ permits [10; 1; 2; 3] entry) /\
  (example_login [10; 1; 2; 3]).1.2 = [Handshake.Success] /\
  (example_login [11; 1; 2; 3]).1.2 <> [Handshake.Success].
Proof.
  split_and!; [|vm_compute; reflexivity|vm_compute; discriminate].
  destruct (example_login [10; 1; 2; 3]) as [[s' replies] o] eqn:E.
  pose proof E as Eo. vm_compute in Eo. injection Eo as _ _ <-.
  eapply source_address_enforced in E as (cert & p & _ & [Hs _ _] & Hr); [|intros ip [= <-]|discriminate].
  - destruct Hs as (req & data & algo & sig & waive & _ & [= <-] & _).
    destruct (Hr example_restriction) as (ip & before & entry & after & [= <-] & Hsplit & _ & Hp);
      [reflexivity|discriminate|].
    exists entry. split; [|exact Hp].
    change (Split comma example_restriction) with ["192.0.2.1"; "10.0.0.0/8"; "2001:db8::/32"] in Hsplit.
    rewrite Hsplit. set_solver.
  - split; [|by left]. unfold isByte. repeat constructor; lia.
Defined.
End NetAddr.
