(* ===== verification/HttpProxy.v ===== *)
(** * The HTTP proxy, [gateway/httpproxy.go]

    The CONNECT method and the dialler of the plain proxy, with the parsing of
    [host:port] they rely on ([net.SplitHostPort], [strconv.ParseUint],
    [strconv.Atoi], [net.ParseIP] of [NetAddr]).  The reverse proxy of the Go
    library that serves plain requests through the dialler is not modelled. *)

From stdpp Require Import base list strings gmap fin_maps option.
From Stdlib Require Import ZArith Lia Ascii.
From Stdlib Require Import Strings.Byte.
From S2P Require Import Prelude GoStrings Bytes Wire Models Database Connection Registry Routing.
From S2P Require Import Channels SplitCommand Socks NetAddr.

#[local] Open Scope Z_scope.

Module HttpProxy.
Import Routing Socks.

(** ** Strings *)

Definition openBracket : ascii := "["%char.
Definition closeBracket : ascii := "]"%char.

(** The parts before and after the last occurrence of a byte. *)
Fixpoint cutLast (c : ascii) (s : string) : option (string * string) :=
  match s with
  | EmptyString => None
  | String a s' =>
      match cutLast c s' with
      | Some (before, after) => Some (String a before, after)
      | None => if decide (a = c) then Some ("", s') else None
      end
  end.

(** [strings.HasPrefix] and [strings.Contains]. *)
Fixpoint hasPrefix (prefix s : string) : bool :=
  match prefix, s with
  | EmptyString, _ => true
  | String a prefix', String b s' => bool_decide (a = b) && hasPrefix prefix' s'
  | String _ _, EmptyString => false
  end.

Fixpoint contains (s sub : string) : bool :=
  hasPrefix sub s || match s with EmptyString => false | String _ s' => contains s' sub end.

(** The error of [net.SplitHostPort], a [net.AddrError]. *)
Definition addrError (address why : string) : error :=
  Foreign (if decide (address = "") then why else "address " +:+ address +:+ ": " +:+ why).

Definition missingPort : string := "missing port in address".
Definition tooManyColons : string := "too many colons in address".

Definition SplitHostPort (hostport : string) : result (string * string) :=
  match cutLast colon hostport with
  | None => Err (addrError hostport missingPort)
  | Some (beforePort, port) =>
      (* no '[' after position j, no ']' after position k *)
      let finish (host fromJ fromK : string) :=
        if contains_byte openBracket fromJ then
          Err (addrError hostport "unexpected '[' in address")
        else if contains_byte closeBracket fromK then
          Err (addrError hostport "unexpected ']' in address")
        else Ok (host, port) in
      match hostport with
      | String a tail =>
          if decide (a = openBracket) then
            match cut closeBracket tail with
            | None => Err (addrError hostport "missing ']' in address")
            | Some (host, after) =>
                if decide (after = "") then Err (addrError hostport missingPort)
                else if decide (beforePort = String openBracket (host +:+ String closeBracket ""))
                then finish host tail after
                else if hasPrefix (String colon "") after
                then Err (addrError hostport tooManyColons)
                else Err (addrError hostport missingPort)
            end
          else if contains_byte colon beforePort then Err (addrError hostport tooManyColons)
          else finish beforePort hostport hostport
      | EmptyString => Err (addrError hostport missingPort)
      end
  end.

Definition digitOf (a : ascii) : option Z :=
  let n := Z.of_nat (nat_of_ascii a) in
  if decide (48 <= n <= 57) then Some (n - 48) else None.

(** The value of a string of decimal digits. *)
Fixpoint decimal (value : Z) (s : string) : option Z :=
  match s with
  | EmptyString => Some value
  | String a s' =>
      match digitOf a with
      | Some d => decimal (value * 10 + d) s'
      | None => None
      end
  end.

(** [strconv.ParseUint(s, 10, 16)]. *)
Definition ParseUint16 (s : string) : result Z :=
  if decide (s = "") then Err (Foreign "invalid syntax")
  else match decimal 0 s with
       | None => Err (Foreign "invalid syntax")
       | Some n => if decide (n > 65535) then Err (Foreign "value out of range") else Ok n
       end.

Definition errorText (e : error) : string :=
  match e with Sentinel t => t | Errorf t => t | Foreign t => t end.

Definition splitHostPort (hostPort : string) (defaultPort : Z) : result (string * Z) :=
  match SplitHostPort hostPort with
  | Err e => if contains (errorText e) "missing port" then Ok (hostPort, defaultPort) else Err e
  | Ok (host, portString) =>
      let! port := ParseUint16 portString in Ok (host, uint16 port)
  end.

(** [strconv.Atoi]; [None] is an error. *)
Definition Atoi (s : string) : option Z :=
  let number sign body :=
    if decide (body = "") then None
    else match decimal 0 body with
         | Some n => let n := sign * n in
                     if decide (- 2 ^ 63 <= n < 2 ^ 63) then Some n else None
         | None => None
         end in
  match s with
  | EmptyString => None
  | String c body =>
      if decide (c = "-"%char) then number (-1) body
      else if decide (c = "+"%char) then number 1 body
      else number 1 s
  end.

(** [&net.TCPAddr{IP: ip, Port: port}]; a nil address prints as [<nil>]. *)
Definition tcpAddr (ip : option (list Z)) (port : Z) : address :=
  TCPAddr (match ip with Some ip => ip_string (map byte_of ip) | None => "<nil>" end) port.

(** The address of the client, from the text in the request. *)
Definition remoteAddress (RemoteAddr : string) : address :=
  match SplitHostPort RemoteAddr with
  | Ok (host, portString) =>
      match Atoi portString with
      | Some port => tcpAddr (NetAddr.ParseIP host) port
      | None => tcpAddr None 0
      end
  | Err _ => tcpAddr None 0
  end.

(** ** The handlers *)

(** A connection taken over from the HTTP server: the bytes of the client that
    the server's reader holds, and those that are still to be read. *)
Record hijacked := { buffered : list byte; incoming : list byte }.

Inductive response : Type :=
| HttpError (code : Z) (message : string)
| Established (bridged : list byte)   (* 200 written; the client's bytes that the tunnel gets *)
| Dropped                             (* the connection was closed without an answer *)
| Proxied.                            (* passed to the reverse proxy *)

Section proxy.
Context {DB : Type} `{Executor DB}.

(** [hijack] is [None] if the response writer cannot be hijacked, and else the
    outcome of [Hijack]; [writeErr] is the outcome of writing the 200 line.
    The last component is the tunnel that the handler closes when it returns. *)
Definition handleHttpConnect (settings : Settings) (clock : nat -> time)
    (world : opening -> option error) (hijack : option (result hijacked)) (writeErr : option error)
    (ptr : positive) (RemoteAddr requestHost : string) (g : gateway DB)
    : gateway DB * response * option opening * option Conn.tunnel :=
  match splitHostPort requestHost 443 with
  | Err _ => (g, HttpError 400 "gatewaysshd: invalid connect target", None, None)
  | Ok (host, port) =>
      let (originAddress, originPort) := splitOrigin (remoteAddress RemoteAddr) in
      match openServiceTunnel settings clock world ptr host port originAddress originPort g with
      | (g, Err _, o) => (g, HttpError 502 "gatewaysshd: host unreachable", o, None)
      | (g, Ok tunnel, o) =>
          match hijack with
          | None => (g, HttpError 500 "gatewaysshd: connect not supported", o, Some tunnel)
          | Some (Err _) => (g, Dropped, o, Some tunnel)
          | Some (Ok clientConn) =>
              match writeErr with
              | Some _ => (g, Dropped, o, Some tunnel)
              | None => (g, Established (incoming clientConn), o, Some tunnel)
              end
          end
      end
  end.

Definition HTTPProxyHandler (settings : Settings) (clock : nat -> time)
    (world : opening -> option error) (hijack : option (result hijacked)) (writeErr : option error)
    (ptr : positive) (RemoteAddr method requestHost : string) (absolute : bool)
    (g : gateway DB) : gateway DB * response * option opening * option Conn.tunnel :=
  if decide (method = "CONNECT") then
    handleHttpConnect settings clock world hijack writeErr ptr RemoteAddr requestHost g
  else if absolute then (g, Proxied, None, None)
  else (g, HttpError 400 "gatewaysshd: proxy requires an absolute request uri", None, None).

(** The dialler of the reverse proxy. *)
Definition dialServiceContext (settings : Settings) (clock : nat -> time)
    (world : opening -> option error) (ptr : positive) (target : string) (g : gateway DB)
    : gateway DB * result Conn.tunnel * option opening :=
  match splitHostPort target 80 with
  | Err e => (g, Err e, None)
  | Ok (host, port) => openServiceTunnel settings clock world ptr host port "http-proxy" 0 g
  end.

(** A [channelConn]: the connection the dialler returns.  Its addresses are
    empty, deadlines do nothing, and [Close] closes the tunnel. *)
Definition channelConn_Close (tunnel : Conn.tunnel) (g : gateway DB) : gateway DB * option error :=
  (deferredClose (Some tunnel) g, None).
Definition channelConn_RemoteAddr : address := tcpAddr None 0.
Definition channelConn_SetDeadline (deadline : time) : option error := None.
End proxy.

(** ** Host and port *)

Lemma cutLast_app c a b :
  contains_byte c b = false -> cutLast c (a +:+ String c b) = Some (a, b).
Proof.
  intros Hb. assert (Hn : cutLast c b = None).
  { induction b as [|x b IH]; [done|]. cbn [contains_byte] in Hb.
    apply orb_false_iff in Hb as [Hx%bool_decide_eq_false Hb]. cbn [cutLast]. rewrite IH by done.
    by rewrite decide_False. }
  induction a as [|x a IH].
  - change ("" +:+ String c b) with (String c b). cbn [cutLast]. rewrite Hn. by rewrite decide_True.
  - rewrite append_cons. cbn [cutLast]. by rewrite IH.
Qed.

Lemma cutLast_None c s : contains_byte c s = false -> cutLast c s = None.
Proof.
  induction s as [|x s IH]; [done|]. cbn [contains_byte cutLast].
  intros [Hx%bool_decide_eq_false Hs]%orb_false_iff. rewrite IH by done. by rewrite decide_False.
Qed.

(** A host that needs no brackets, and one that may be put in brackets. *)
Definition plainHost (host : string) : Prop :=
  contains_byte colon host = false /\ contains_byte openBracket host = false /\
  contains_byte closeBracket host = false.
Definition bracketHost (host : string) : Prop :=
  contains_byte openBracket host = false /\ contains_byte closeBracket host = false.

Lemma digitOf_digit d : 0 <= d < 10 -> digitOf (digit d) = Some d.
Proof.
  intros Hd. assert (d = 0 \/ d = 1 \/ d = 2 \/ d = 3 \/ d = 4 \/ d = 5 \/ d = 6 \/ d = 7 \/ d = 8 \/
    d = 9) as Hc by lia.
  repeat (destruct Hc as [->|Hc]; [reflexivity|]). by subst.
Qed.

Lemma decimal_snoc v s d :
  0 <= d < 10 -> decimal v (s +:+ String (digit d) "") = (fun x => x * 10 + d) <$> decimal v s.
Proof.
  intros Hd. revert v. induction s as [|a s IH]; intros v.
  - change ("" +:+ String (digit d) "") with (String (digit d) ""). cbn [decimal].
    by rewrite digitOf_digit.
  - rewrite append_cons. cbn [decimal]. by destruct (digitOf a).
Qed.

Lemma decimal_digits fuel n :
  0 <= n < 10 ^ Z.of_nat (S fuel) -> decimal 0 (digits (S fuel) 10 n) = Some n.
Proof.
  revert n. induction fuel as [|fuel IH]; intros n Hn; cbn [digits]; case_decide as Hd.
  - cbn [decimal]. rewrite digitOf_digit by lia. done.
  - simpl in Hn. lia.
  - cbn [decimal]. rewrite digitOf_digit by lia. done.
  - rewrite decimal_snoc by (apply Z.mod_pos_bound; lia).
    change (if decide (n / 10 < 10) then _ else _) with (digits (S fuel) 10 (n / 10)).
    rewrite IH.
    + simpl. f_equal. pose proof (Z.div_mod n 10). lia.
    + split; [apply Z.div_pos; lia|]. apply Z.div_lt_upper_bound; [lia|].
      rewrite <- Z.pow_succ_r by lia. replace (Z.succ (Z.of_nat (S fuel))) with (Z.of_nat (S (S fuel)))
        by lia. lia.
Qed.

Lemma digits_bytes fuel n c :
  0 <= n -> digitOf c = None -> contains_byte c (digits fuel 10 n) = false.
Proof.
  intros Hn Hc. assert (Hne : forall d, 0 <= d < 10 -> digit d <> c).
  { intros d Hd E. pose proof (digitOf_digit d Hd). congruence. }
  revert n Hn. induction fuel as [|fuel IH]; intros n Hn; [done|]. cbn [digits]. case_decide.
  - cbn [contains_byte]. by rewrite bool_decide_false by (apply Hne; lia).
  - rewrite contains_byte_app, IH by (apply Z.div_pos; lia). cbn [contains_byte].
    by rewrite bool_decide_false by (apply Hne, Z.mod_pos_bound; lia).
Qed.

Lemma ParseUint16_digits port :
  0 <= port <= 65535 -> ParseUint16 (digits 5 10 port) = Ok port.
Proof.
  intros Hp. unfold ParseUint16. rewrite decimal_digits by (simpl; lia).
  case_decide as He; [|by rewrite decide_False by lia].
  cbn [digits] in He. case_decide; [done|]. apply (f_equal String.length) in He.
  rewrite String_length_app in He. simpl in He. lia.
Qed.

Lemma contains_missingPort address :
  contains (errorText (addrError address missingPort)) "missing port" = true.
Proof.
  unfold addrError. cbn [errorText]. case_decide; [done|].
  assert (Happ : forall a, contains (a +:+ missingPort) "missing port" = true).
  { induction a as [|x a IH]; [done|]. rewrite append_cons. cbn [contains].
    rewrite IH. apply orb_true_r. }
  rewrite <- !append_assoc. apply Happ.
Qed.

Lemma field_plain_first c d s : contains_byte d (String c s) = false -> c <> d.
Proof. cbn [contains_byte]. by intros [Hc%bool_decide_eq_false _]%orb_false_iff. Qed.

Lemma SplitHostPort_plain host port :
  plainHost host -> plainHost port ->
  SplitHostPort (host +:+ String colon port) = Ok (host, port).
Proof.
  intros (Hc & Ho & Hcl) (Pc & Po & Pcl). unfold SplitHostPort. rewrite cutLast_app by done.
  assert (Hno : forall c, c <> colon -> contains_byte c host = false ->
    contains_byte c port = false -> contains_byte c (host +:+ String colon port) = false).
  { intros c Hne H1 H2. rewrite contains_byte_app, H1. cbn [contains_byte].
    by rewrite bool_decide_false, H2. }
  destruct (host +:+ String colon port) as [|a tail] eqn:E.
  { apply (f_equal String.length) in E. rewrite String_length_app in E. simpl in E. lia. }
  rewrite <- E in *. pose proof (Hno openBracket ltac:(done) Ho Po) as Hob.
  rewrite E in Hob. rewrite decide_False by (by eapply field_plain_first). rewrite <- E in *.
  rewrite Hc, Hob, (Hno closeBracket) by done. done.
Qed.

Lemma SplitHostPort_bracket host port :
  bracketHost host -> plainHost port ->
  SplitHostPort (String openBracket (host +:+ String closeBracket "") +:+ String colon port) =
  Ok (host, port).
Proof.
  intros (Ho & Hcl) (Pc & Po & Pcl). unfold SplitHostPort. rewrite cutLast_app by done.
  rewrite append_cons. rewrite decide_True by done.
  rewrite append_assoc.
  change (String closeBracket "" +:+ String colon port)
    with (String closeBracket (String colon port)).
  rewrite cut_app by done. rewrite decide_False by done. rewrite decide_True by done.
  rewrite contains_byte_app, Ho. cbn [contains_byte].
  rewrite !bool_decide_false by done. by rewrite Po, Pcl.
Qed.

Lemma SplitHostPort_missing host :
  contains_byte colon host = false -> SplitHostPort host = Err (addrError host missingPort).
Proof. intros Hc. unfold SplitHostPort. by rewrite cutLast_None. Qed.

Lemma plainHost_digits port : 0 <= port -> plainHost (digits 5 10 port).
Proof. intros Hp. unfold plainHost. split_and!; by apply digits_bytes. Qed.

(** [splitHostPort] reads back a host and a decimal port joined with a
    colon, the host in brackets if it contains colons; a host without a port
    gets the default port; and the port it returns is always a 16-bit
    number. *)
Theorem splitHostPort_spec (host : string) (port defaultPort : Z) :
  0 <= port <= 65535 -> 0 <= defaultPort <= 65535 ->
  (plainHost host ->
     splitHostPort (host +:+ String colon (digits 5 10 port)) defaultPort = Ok (host, port) /\
     splitHostPort host defaultPort = Ok (host, defaultPort)) /\
  (bracketHost host ->
     splitHostPort (String openBracket (host +:+ String closeBracket "") +:+
                    String colon (digits 5 10 port)) defaultPort = Ok (host, port)) /\
  (forall s h p, splitHostPort s defaultPort = Ok (h, p) -> 0 <= p <= 65535).
Proof.
  intros Hp Hd. pose proof (plainHost_digits port ltac:(lia)) as Hdig. split_and!.
  - intros Hh. split; unfold splitHostPort.
    + rewrite SplitHostPort_plain, ParseUint16_digits by done. simpl.
      by rewrite uint16_small by lia.
    + destruct Hh as [Hc _]. by rewrite SplitHostPort_missing, contains_missingPort.
  - intros Hh. unfold splitHostPort. rewrite SplitHostPort_bracket, ParseUint16_digits by done.
    simpl. by rewrite uint16_small by lia.
  - intros s h p. unfold splitHostPort. destruct (SplitHostPort s) as [[h' ps]|e].
    + intros (n & Hn & E)%result_bind_Ok. simplify_eq. pose proof (uint16_bound n). lia.
    + destruct (contains _ _); intros; simplify_eq; lia.
Qed.

Lemma splitHostPort_spec_witness :
  splitHostPort "[fe80::1]:8443" 443 = Ok ("fe80::1", 8443).
Proof.
  apply (splitHostPort_spec "fe80::1" 8443 443); [lia|lia|]. split; reflexivity.
Defined.

(** ** The address of a client *)

(** [net.TCPAddr.String], which the HTTP server puts into the request. *)
Definition joinHostPort (host port : string) : string :=
  if contains_byte colon host
  then String openBracket (host +:+ String closeBracket "") +:+ String colon port
  else host +:+ String colon port.

Definition tcpAddrString (ip : list byte) (zone : string) (port : Z) : string :=
  joinHostPort (if decide (zone = "") then ip_string ip else ip_string ip +:+ "%" +:+ zone)
    (digits 5 10 port).

Lemma digits_start fuel n : 0 <= n -> exists c s, digits (S fuel) 10 n = String c s /\ is_Some (digitOf c).
Proof.
  revert n. induction fuel as [|fuel IH]; intros n Hn; cbn [digits]; case_decide as Hd.
  - exists (digit n), "". split; [done|]. rewrite digitOf_digit by lia. eauto.
  - exists (digit (n mod 10)), "". split; [done|]. rewrite digitOf_digit by (apply Z.mod_pos_bound; lia). eauto.
  - exists (digit n), "". split; [done|]. rewrite digitOf_digit by lia. eauto.
  - change (if decide (n / 10 < 10) then _ else _) with (digits (S fuel) 10 (n / 10)).
    destruct (IH (n / 10)) as (c & s & -> & Hc); [apply Z.div_pos; lia|].
    rewrite append_cons. eauto.
Qed.

Lemma Atoi_digits port : 0 <= port <= 65535 -> Atoi (digits 5 10 port) = Some port.
Proof.
  intros Hp. pose proof (decimal_digits 4 port ltac:(simpl; lia)) as Hd.
  destruct (digits_start 4 port ltac:(lia)) as (c & s & E & [d Hc]). rewrite E in *. unfold Atoi.
  do 2 (rewrite decide_False by (intros ->; done)). rewrite decide_False by done.
  rewrite Hd, Z.mul_1_l. by rewrite decide_True by lia.
Qed.

Lemma joinHostPort_split host port : bracketHost host -> plainHost port ->
  SplitHostPort (joinHostPort host port) = Ok (host, port).
Proof.
  intros Hh Hp. unfold joinHostPort. destruct (contains_byte colon host) eqn:E.
  - by apply SplitHostPort_bracket.
  - apply SplitHostPort_plain; [|done]. by destruct Hh.
Qed.

Lemma bracketHost_ip ip : length ip = 4%nat \/ length ip = 16%nat -> bracketHost (ip_string ip).
Proof. intros Hl. by split; apply NetAddr.ip_string_bytes. Qed.

(** The origin of a client is the address and the port of its socket. *)
Lemma remoteAddress_socket ip port : length ip = 4%nat \/ length ip = 16%nat -> 0 <= port <= 65535 ->
  splitOrigin (remoteAddress (tcpAddrString ip "" port)) = (ip_string ip, port).
Proof.
  intros Hl Hp. unfold remoteAddress, tcpAddrString. rewrite decide_True by done.
  rewrite joinHostPort_split by (try apply plainHost_digits; try apply bracketHost_ip; done || lia).
  rewrite Atoi_digits, NetAddr.ParseIP_text by done. cbn.
  by rewrite NetAddr.ip_string_full, uint32_small by (done || lia).
Qed.

(** The address of a socket on a link-local network has a zone, and the text
    with the zone is not an address to [net.ParseIP]: the origin is lost. *)
Theorem remoteAddress_zone (ip : list byte) (zone : string) (port : Z) :
  length ip = 16%nat -> mapped4 ip = false -> zone <> "" -> bracketHost zone -> 0 <= port <= 65535 ->
  splitOrigin (remoteAddress (tcpAddrString ip zone port)) = ("<nil>", port).
Proof.
  intros Hl Hm Hz [Zo Zc] Hp. unfold remoteAddress, tcpAddrString. rewrite decide_False by done.
  assert (Hb : bracketHost (ip_string ip +:+ "%" +:+ zone)).
  { destruct (bracketHost_ip ip (or_intror Hl)) as [Ho Hc].
    split; rewrite !contains_byte_app, ?Ho, ?Hc, ?Zo, ?Zc; reflexivity. }
  rewrite joinHostPort_split by (try apply plainHost_digits; done || lia).
  unfold ip_string. rewrite decide_False by lia. rewrite Hm.
  change ("%" +:+ zone) with (String NetAddr.percent zone).
  rewrite Atoi_digits, NetAddr.ParseIP_zone by done. cbn. by rewrite uint32_small by lia.
Qed.

Section connect.
Context {DB : Type} `{Executor DB}.

End connect.


Lemma remoteAddress_zone_witness :
  splitOrigin (remoteAddress "[fe80::1%eth0]:4000") = ("<nil>", 4000).
Proof.
  apply (remoteAddress_zone
    [xfe; x80; x00; x00; x00; x00; x00; x00; x00; x00; x00; x00; x00; x00; x00; x01] "eth0" 4000);
    [reflexivity..|discriminate|by split|lia].
Defined.
End HttpProxy.
