(* ===== verification/Durations.v ===== *)
(** * Durations as text: [time.ParseDuration]

    The flag [--idle-timeout] is a duration in the syntax of Go, read by
    [parseIdleTimeout] of [cli/flags.go].  This file models the parser of the
    standard library with its 64-bit arithmetic: numbers are kept at their
    width, and the fraction of a number is multiplied in binary floating point
    of 53 bits, as the library does. *)

From stdpp Require Import base list strings option.
From Stdlib Require Import ZArith Lia Ascii Floats.SpecFloat.
From S2P Require Import Prelude GoStrings HttpProxy.

#[local] Open Scope Z_scope.

Module Durations.
Import HttpProxy.

(** ** Floating point *)

Definition float64_of (n : Z) : spec_float := binary_normalize 53 1024 n 0 false.
Definition float_mul : spec_float -> spec_float -> spec_float := SFmul 53 1024.
Definition float_div : spec_float -> spec_float -> spec_float := SFdiv 53 1024.

(** [uint64(x)] of a floating point number, which drops the fraction; the
    conversion is applied to finite numbers that are not negative. *)
Definition uint64_of_float (x : spec_float) : Z :=
  match x with
  | S754_finite false m e => uint64 (Z.shiftl (Zpos m) e)
  | _ => 0
  end.

(** ** The parser *)

Definition isNumeral (c : ascii) : bool :=
  bool_decide (c = dot) || bool_decide (is_Some (digitOf c)).

(** The number at the front, which must not exceed 2^63. *)
Fixpoint leadingInt (x : Z) (s : string) : option (Z * string) :=
  match s with
  | EmptyString => Some (x, s)
  | String c s' =>
      match digitOf c with
      | None => Some (x, s)
      | Some d =>
          if decide (x > 2 ^ 63 / 10) then None
          else let x := uint64 (x * 10 + d) in
               if decide (x > 2 ^ 63) then None else leadingInt x s'
      end
  end.

(** The digits after the point, with the power of ten that scales them; once
    they overflow the rest is ignored. *)
Fixpoint leadingFraction (overflow : bool) (x : Z) (scale : spec_float) (s : string)
    : Z * spec_float * string :=
  match s with
  | EmptyString => (x, scale, s)
  | String c s' =>
      match digitOf c with
      | None => (x, scale, s)
      | Some d =>
          if overflow then leadingFraction true x scale s'
          else if decide (x > (2 ^ 63 - 1) / 10) then leadingFraction true x scale s'
          else let y := uint64 (x * 10 + d) in
               if decide (y > 2 ^ 63) then leadingFraction true x scale s'
               else leadingFraction false y (float_mul scale (float64_of 10)) s'
      end
  end.

(** The letters up to the next number. *)
Fixpoint takeUnit (s : string) : string * string :=
  match s with
  | EmptyString => ("", "")
  | String c s' =>
      if isNumeral c then ("", s)
      else let (u, rest) := takeUnit s' in (String c u, rest)
  end.

Definition hour : duration := 60 * minute.

(** [unitMap]; the micro sign has two encodings. *)
Definition unitMap (u : string) : option Z :=
  if decide (u = "ns") then Some 1
  else if decide (u = "us" \/ u = String "194" (String "181" "s") \/ u = String "206" (String "188" "s"))
  then Some 1000
  else if decide (u = "ms") then Some 1000000
  else if decide (u = "s") then Some second
  else if decide (u = "m") then Some minute
  else if decide (u = "h") then Some hour
  else None.

Definition invalidDuration : error := Foreign "time: invalid duration ".
Definition missingUnit : error := Foreign "time: missing unit in duration ".
Definition unknownUnit : error := Foreign "time: unknown unit ".

(** The value of [v.f] units. *)
Definition scaled (v f : Z) (scale : spec_float) (unit : Z) : option Z :=
  if decide (v > 2 ^ 63 / unit) then None
  else
    let v := uint64 (v * unit) in
    if decide (f > 0) then
      let v := uint64 (v + uint64_of_float (float_mul (float64_of f) (float_div (float64_of unit) scale))) in
      if decide (v > 2 ^ 63) then None else Some v
    else Some v.

(** One turn of the loop: a number and its unit. *)
Definition component (s : string) : result (Z * string) :=
  match s with
  | EmptyString => Err invalidDuration
  | String c _ =>
      if negb (isNumeral c) then Err invalidDuration
      else
        match leadingInt 0 s with
        | None => Err invalidDuration
        | Some (v, s1) =>
            let pre := negb (String.length s =? String.length s1)%nat in
            let '(f, scale, s2, post) :=
              match s1 with
              | String c s1' =>
                  if decide (c = dot) then
                    let '(f, scale, s2) := leadingFraction false 0 (float64_of 1) s1' in
                    (f, scale, s2, negb (String.length s1' =? String.length s2)%nat)
                  else (0, float64_of 1, s1, false)
              | EmptyString => (0, float64_of 1, s1, false)
              end in
            if negb pre && negb post then Err invalidDuration
            else
              let (u, rest) := takeUnit s2 in
              if decide (u = "") then Err missingUnit
              else match unitMap u with
                   | None => Err unknownUnit
                   | Some unit =>
                       match scaled v f scale unit with
                       | None => Err invalidDuration
                       | Some v => Ok (v, rest)
                       end
                   end
        end
  end.

(** The loop: each turn takes a character at least, so the length of the text
    is enough fuel. *)
Fixpoint components (fuel : nat) (d : Z) (s : string) : result Z :=
  match s, fuel with
  | EmptyString, _ => Ok d
  | _, O => Err invalidDuration
  | _, S fuel =>
      let! (v, rest) := component s in
      let d := uint64 (d + v) in
      if decide (d > 2 ^ 63) then Err invalidDuration else components fuel d rest
  end.

Definition ParseDuration (s : string) : result duration :=
  let (neg, s) :=
    match s with
    | String c s' =>
        if decide (c = "-"%char) then (true, s') else if decide (c = "+"%char) then (false, s')
        else (false, s)
    | EmptyString => (false, s)
    end in
  if decide (s = "0") then Ok 0
  else if decide (s = "") then Err invalidDuration
  else
    let! d := components (String.length s) 0 s in
    if neg then Ok (- d)
    else if decide (d > 2 ^ 63 - 1) then Err invalidDuration
    else Ok d.

(** ** Lemmas *)

Lemma takeUnit_length s : (String.length (takeUnit s).2 + String.length (takeUnit s).1 = String.length s)%nat.
Proof.
  induction s as [|c s IH]; [done|]. cbn [takeUnit]. destruct (isNumeral c); [done|].
  destruct (takeUnit s) as [u rest]. simpl in *. lia.
Qed.

Lemma leadingInt_length s : forall x v rest,
  leadingInt x s = Some (v, rest) -> (String.length rest <= String.length s)%nat.
Proof.
  induction s as [|c s IH]; intros x v rest; cbn [leadingInt].
  - by intros [= <- <-].
  - destruct (digitOf c) as [d|]; [|by intros [= <- <-]].
    destruct (decide (x > 2 ^ 63 / 10)); [done|].
    destruct (decide (uint64 (x * 10 + d) > 2 ^ 63)); [done|]. intros E%IH. simpl. lia.
Qed.

Lemma leadingFraction_length s : forall overflow x scale,
  (String.length (leadingFraction overflow x scale s).2 <= String.length s)%nat.
Proof.
  induction s as [|c s IH]; intros overflow x scale; cbn [leadingFraction]; [done|].
  destruct (digitOf c) as [d|]; [|done].
  assert (Hs : forall o y sc, (String.length (leadingFraction o y sc s).2 <= String.length (String c s))%nat).
  { intros o y sc. specialize (IH o y sc). simpl. lia. }
  destruct overflow; [apply Hs|]. destruct (decide (x > _)); [apply Hs|].
  destruct (decide (uint64 _ > _)); apply Hs.
Qed.

(** A turn of the loop takes a character at least. *)
Lemma component_length s v rest :
  component s = Ok (v, rest) -> (String.length rest < String.length s)%nat.
Proof.
  unfold component. destruct s as [|c s]; [done|]. set (s0 := String c s).
  destruct (negb (isNumeral c)); [done|]. destruct (leadingInt 0 s0) as [[v0 s1]|] eqn:E1; [|done].
  apply leadingInt_length in E1.
  set (point := match s1 with String _ _ => _ | EmptyString => _ end).
  assert (Hp : (String.length (point.1.2) <= String.length s1)%nat).
  { unfold point. destruct s1 as [|c1 s1]; [done|]. destruct (decide (c1 = dot)); [|done].
    pose proof (leadingFraction_length s1 false 0 (float64_of 1)).
    destruct (leadingFraction _ _ _ _) as [[f sc] s2]. simpl in *. lia. }
  destruct point as [[[f scale] s2] post]. cbn [fst snd] in Hp.
  destruct (negb _ && negb post); [done|]. pose proof (takeUnit_length s2) as Ht.
  destruct (takeUnit s2) as [u rest']. cbn [fst snd] in Ht.
  destruct (decide (u = "")) as [|Hu]; [done|]. destruct (unitMap u) as [unit|]; [|done].
  destruct (scaled _ _ _ _) as [v'|]; [|done]. intros [= <- <-].
  destruct u; [done|]. simpl in Ht. lia.
Qed.

(** More fuel than the length of the text changes nothing. *)
Lemma components_fuel s : forall fuel d,
  (String.length s <= fuel)%nat -> components fuel d s = components (String.length s) d s.
Proof.
  induction s as [s IH] using (induction_ltof1 _ String.length); unfold ltof in IH. intros fuel d Hf.
  destruct s as [|c s]; [by destruct fuel|]. destruct fuel as [|fuel]; [simpl in Hf; lia|].
  cbn [components String.length]. destruct (component (String c s)) as [[v rest]|e] eqn:E; [|done].
  apply component_length in E. cbn [result_bind]. case_decide; [done|].
  rewrite IH by (simpl in *; lia). symmetry. apply IH; simpl in *; lia.
Qed.

Lemma components_range fuel : forall d s d',
  components fuel d s = Ok d' -> 0 <= d <= 2 ^ 63 -> 0 <= d' <= 2 ^ 63.
Proof.
  induction fuel as [|fuel IH]; intros d [|c s] d'; cbn [components]; try done; [by intros [= <-]..|].
  intros E Hd. apply result_bind_Ok in E as ([v rest] & _ & E). case_decide as Hc; [done|].
  apply IH in E; [done|]. pose proof (uint64_bound (d + v)). lia.
Qed.

(** What is parsed is a number of 64 bits. *)
Lemma ParseDuration_range s d : ParseDuration s = Ok d -> minInt64 <= d <= maxInt64.
Proof.
  unfold ParseDuration, minInt64, maxInt64.
  destruct (match s with String _ _ => _ | EmptyString => _ end) as [neg s'].
  destruct (decide (s' = "0")); [intros [= <-]; lia|]. destruct (decide (s' = "")); [done|].
  intros E. apply result_bind_Ok in E as (d' & E%components_range & H); [|lia].
  destruct neg; [injection H as <-; lia|]. case_decide; [done|]. injection H as <-. lia.
Qed.

(** ** Sums of whole numbers of units *)

(** A text such as [1h30m]. *)
Fixpoint sumText (terms : list (Z * string)) : string :=
  match terms with
  | [] => ""
  | (n, u) :: terms => formatUint64 n +:+ (u +:+ sumText terms)
  end.

Fixpoint sumValue (terms : list (Z * string)) : Z :=
  match terms with
  | [] => 0
  | (n, u) :: terms => n * default 0 (unitMap u) + sumValue terms
  end.

(** A term is written in 64 bits, has a unit, and is not 2^63 itself: two of
    these add up to nothing, see [ParseDuration_wraps]. *)
Definition term (t : Z * string) : Prop :=
  0 <= t.1 < 2 ^ 64 /\ exists k, unitMap t.2 = Some k /\ t.1 * k <> 2 ^ 63.

Definition startsWithDigit (s : string) : Prop :=
  match s with EmptyString => False | String c _ => is_Some (digitOf c) end.

Lemma unitMap_Some u k :
  unitMap u = Some k -> 1 <= k /\ u <> "" /\ all_bytes (fun c => negb (isNumeral c)) u = true.
Proof.
  unfold unitMap. repeat (case_decide; [intros [= <-]; subst; split; [vm_compute; congruence|]; split|]).
  all: try done. all: try (intros ->; naive_solver). all: naive_solver.
Qed.

Lemma takeUnit_app u rest :
  all_bytes (fun c => negb (isNumeral c)) u = true -> rest = "" \/ startsWithDigit rest ->
  takeUnit (u +:+ rest) = (u, rest).
Proof.
  intros Hu Hr. induction u as [|c u IH].
  - destruct rest as [|c rest]; [done|]. destruct Hr as [|Hr]; [done|]. cbn [startsWithDigit] in Hr.
    change ("" +:+ String c rest) with (String c rest). cbn [takeUnit]. unfold isNumeral.
    by rewrite (bool_decide_true (is_Some _) Hr), orb_true_r.
  - cbn [all_bytes] in Hu. apply andb_true_iff in Hu as [Hc Hu]. rewrite append_cons. cbn [takeUnit].
    apply negb_true_iff in Hc. by rewrite Hc, IH.
Qed.

Lemma digitOf_bound c d : digitOf c = Some d -> 0 <= d <= 9.
Proof. unfold digitOf. case_decide; [intros [= <-]; lia|done]. Qed.

Lemma decimal_ge ds : forall x n, decimal x ds = Some n -> 0 <= x -> x <= n.
Proof.
  induction ds as [|c ds IH]; intros x n; cbn [decimal]; [intros [= <-]; lia|].
  destruct (digitOf c) as [d|] eqn:Ed; [|done]. apply digitOf_bound in Ed.
  intros E Hx. apply IH in E; lia.
Qed.

Lemma leadingInt_app ds : forall x n rest,
  decimal x ds = Some n -> 0 <= x <= 2 ^ 63 -> ~ startsWithDigit rest ->
  leadingInt x (ds +:+ rest) = if decide (n > 2 ^ 63) then None else Some (n, rest).
Proof.
  induction ds as [|c ds IH]; intros x n rest; cbn [decimal].
  - intros [= <-] Hx Hr. rewrite decide_False by lia. change ("" +:+ rest) with rest.
    destruct rest as [|c rest]; [done|]. cbn [leadingInt]. cbn [startsWithDigit] in Hr.
    destruct (digitOf c); [by destruct Hr|done].
  - destruct (digitOf c) as [d|] eqn:Ed; [|done]. pose proof (digitOf_bound c d Ed). intros E Hx Hr.
    pose proof (decimal_ge _ _ _ E ltac:(lia)) as Hn.
    rewrite append_cons. cbn [leadingInt]. rewrite Ed. pose proof (Z.div_mod (2 ^ 63) 10 ltac:(lia)).
    pose proof (Z.mod_pos_bound (2 ^ 63) 10 ltac:(lia)).
    destruct (decide (x > 2 ^ 63 / 10)); [by rewrite decide_True by lia|].
    rewrite uint64_small by lia. destruct (decide (x * 10 + d > 2 ^ 63)); [by rewrite decide_True by lia|].
    apply IH; [done|lia|done].
Qed.

Lemma unit_start u rest :
  u <> "" -> all_bytes (fun c => negb (isNumeral c)) u = true ->
  exists c s, u +:+ rest = String c s /\ isNumeral c = false.
Proof.
  intros Hu Hb. destruct u as [|c u]; [done|]. exists c, (u +:+ rest). split; [done|].
  cbn [all_bytes] in Hb. apply andb_true_iff in Hb as [Hc _]. by apply negb_true_iff.
Qed.

Lemma whole_limit n k : 1 <= k -> n > 2 ^ 63 / k <-> n * k > 2 ^ 63.
Proof.
  intros Hk. pose proof (Z.div_mod (2 ^ 63) k ltac:(lia)). pose proof (Z.mod_pos_bound (2 ^ 63) k ltac:(lia)).
  split; intros; nia.
Qed.

(** A turn on a whole number of a unit. *)
Lemma component_term n u k rest :
  0 <= n < 2 ^ 64 -> unitMap u = Some k -> rest = "" \/ startsWithDigit rest ->
  component (formatUint64 n +:+ (u +:+ rest)) =
    if decide (n * k > 2 ^ 63) then Err invalidDuration else Ok (n * k, rest).
Proof.
  intros Hn Hu Hr. destruct (unitMap_Some u k Hu) as (Hk & Hne & Hb).
  destruct (unit_start u rest Hne Hb) as (c1 & s1 & Es1 & Hc1).
  destruct (digits_start 19 n ltac:(lia)) as (c & ds & Ed & Hc). fold (formatUint64 n) in Ed.
  assert (Hdec : decimal 0 (formatUint64 n) = Some n) by (apply decimal_digits; simpl; lia).
  assert (Hlead : leadingInt 0 (formatUint64 n +:+ (u +:+ rest)) =
    if decide (n > 2 ^ 63) then None else Some (n, u +:+ rest)).
  { apply leadingInt_app; [done|lia|]. rewrite Es1. cbn [startsWithDigit]. intros Hd.
    unfold isNumeral in Hc1. rewrite (bool_decide_true (is_Some _) Hd), orb_true_r in Hc1. done. }
  rewrite Ed in Hlead |- *. rewrite append_cons in Hlead |- *. unfold component.
  unfold isNumeral at 1. rewrite (bool_decide_true (is_Some _) Hc), orb_true_r. cbn [negb].
  rewrite Hlead. destruct (decide (n > 2 ^ 63)) as [Hbig|Hbig].
  { rewrite decide_True; [done|]. nia. }
  match goal with |- context [(?a =? ?b)%nat] => destruct (Nat.eqb_spec a b) as [El|_] end.
  { exfalso. rewrite <- append_cons, !String_length_app in El. simpl in El. lia. }
  rewrite Es1. destruct (decide (c1 = dot)) as [->|_]; [done|]. rewrite <- Es1. cbn [negb andb].
  rewrite (takeUnit_app u rest Hb Hr), decide_False, Hu by done. unfold scaled.
  destruct (decide (n > 2 ^ 63 / k)) as [Ho|Ho]; rewrite (whole_limit n k Hk) in Ho.
  - by rewrite decide_True.
  - rewrite decide_False by lia. rewrite decide_False by done. rewrite uint64_small by nia. done.
Qed.

Lemma sumText_start t terms : term t -> startsWithDigit (sumText (t :: terms)).
Proof.
  destruct t as [n u]. intros [Hn _]. cbn [sumText fst] in *.
  destruct (digits_start 19 n ltac:(lia)) as (c & ds & Ed & Hc). fold (formatUint64 n) in Ed.
  rewrite Ed, append_cons. exact Hc.
Qed.

Lemma sumValue_nonneg terms : Forall term terms -> 0 <= sumValue terms.
Proof.
  induction 1 as [|[n u] terms [Hn (k & Hk & _)] _ IH]; cbn [sumValue fst snd] in *; [lia|].
  rewrite Hk. cbn [default from_option id]. apply unitMap_Some in Hk. nia.
Qed.

Lemma components_sum terms : forall fuel d,
  Forall term terms -> (length terms <= fuel)%nat -> 0 <= d <= 2 ^ 63 ->
  components fuel d (sumText terms) =
    if decide (d + sumValue terms > 2 ^ 63) then Err invalidDuration else Ok (d + sumValue terms).
Proof.
  induction terms as [|[n u] terms IH]; intros fuel d Hts Hf Hd.
  { cbn [sumText sumValue]. rewrite decide_False by lia. rewrite Z.add_0_r. by destruct fuel. }
  apply list.Forall_cons in Hts as [Ht Hts]. pose proof (sumText_start (n, u) terms Ht) as Hs.
  pose proof (sumValue_nonneg terms Hts) as Hv. destruct Ht as [Hn (k & Hk & Hnk)].
  cbn [fst snd] in Hn, Hk, Hnk.
  destruct fuel as [|fuel]; [simpl in Hf; lia|]. cbn [sumText sumValue] in *. rewrite Hk.
  cbn [default from_option id]. destruct (unitMap_Some u k Hk) as (Hk1 & _).
  destruct (formatUint64 n +:+ (u +:+ sumText terms)) as [|c s] eqn:Etext; [done|].
  cbn [components]. rewrite <- Etext, (component_term n u k).
  2: done. 2: done.
  2: { destruct terms as [|t terms]; [by left|right]. apply list.Forall_cons in Hts as [Ht _].
       by apply sumText_start. }
  destruct (decide (n * k > 2 ^ 63)); cbn [result_bind].
  { by rewrite decide_True by nia. }
  rewrite uint64_small by nia. destruct (decide (d + n * k > 2 ^ 63)).
  { by rewrite decide_True by nia. }
  rewrite IH; [|done|simpl in Hf; lia|nia]. by rewrite Z.add_assoc.
Qed.

Lemma sumText_length terms : Forall term terms -> (2 * length terms <= String.length (sumText terms))%nat.
Proof.
  induction 1 as [|[n u] terms [Hn (k & Hk & _)] _ IH]; cbn [sumText fst snd length] in *; [lia|].
  destruct (digits_start 19 n ltac:(lia)) as (c & ds & Ed & _). fold (formatUint64 n) in Ed.
  apply unitMap_Some in Hk as (_ & Hne & _). destruct u as [|c1 u]; [done|].
  rewrite !String_length_app, Ed. simpl. lia.
Qed.

(** A sum of whole numbers of units is parsed to its exact value, and refused
    exactly when it is not a number of 64 bits; [-] in front negates it. *)
Lemma ParseDuration_sum (neg : bool) (terms : list (Z * string)) :
  terms <> [] -> Forall term terms ->
  let d := if neg then - sumValue terms else sumValue terms in
  ParseDuration ((if neg then "-" else "") +:+ sumText terms) =
    if decide (minInt64 <= d <= maxInt64) then Ok d else Err invalidDuration.
Proof.
  intros Hne Hts d. pose proof (sumText_length terms Hts) as Hl. pose proof (sumValue_nonneg terms Hts).
  assert (Hs : startsWithDigit (sumText terms)).
  { destruct terms; [done|]. apply list.Forall_cons in Hts as [Ht _]. by apply sumText_start. }
  unfold ParseDuration.
  replace (match _ +:+ _ with String _ _ => _ | EmptyString => _ end) with (neg, sumText terms).
  2: { destruct neg; [done|]. change ("" +:+ sumText terms) with (sumText terms).
       destruct (sumText terms) as [|c s]; [done|]. cbn [startsWithDigit] in Hs.
       rewrite !decide_False; [done|intros ->; by destruct Hs..]. }
  assert (length terms <> 0)%nat by (by destruct terms).
  rewrite decide_False by (intros E; rewrite E in Hl; simpl in Hl; lia).
  rewrite decide_False by (intros E; rewrite E in Hl; simpl in Hl; lia).
  rewrite components_sum by (done || lia). rewrite Z.add_0_l. unfold d, minInt64, maxInt64.
  destruct (decide (sumValue terms > 2 ^ 63)); cbn [result_bind].
  - by rewrite decide_False by (destruct neg; lia).
  - destruct neg; [by rewrite decide_True by lia|]. destruct (decide (sumValue terms > 2 ^ 63 - 1)).
    + by rewrite decide_False by lia.
    + by rewrite decide_True by lia.
Qed.

(** The sum is checked only after it has wrapped around: two terms of 2^63
    nanoseconds, some 292 years each, are together parsed as nothing. *)
Lemma ParseDuration_wraps :
  ParseDuration "9223372036854775808ns9223372036854775808ns" = Ok 0 /\
  ParseDuration "9223372036854775807ns9223372036854775807ns" = Err invalidDuration.
Proof. split; vm_compute; reflexivity. Qed.
End Durations.
