(* ===== verification/Migrations.v ===== *)
(** * Schema migrations, [db/migrations/migrations.go] and [db/migration.go]

    The migrations a binary embeds, and the run that brings a database to
    them: migrations only a newer binary knew are reverted, newest first, with
    the reverse script recorded when they were applied; then the pending ones
    are applied, oldest first.  Each is one transaction.  The schema is
    abstract: what a script does to it is postgres' business, so [exec] is a
    parameter. *)

From stdpp Require Import base list strings gmap fin_maps option sorting.
From Stdlib Require Import ZArith Lia.
From S2P Require Import Prelude GoStrings.

Module Migrations.

(** ** Loading *)

Record Migration := { ID : string; SQL : string; ReverseSQL : string }.

(** [strings.TrimSuffix], when the string has the suffix. *)
Fixpoint trimSuffix (suffix s : string) : option string :=
  if decide (s = suffix) then Some ""
  else match s with
       | EmptyString => None
       | String a s' => String a <$> trimSuffix suffix s'
       end.

(** [sort.Strings]. *)
Definition sortStrings (l : list string) : list string := merge_sort String.le l.

(** Whether a run ends with a value, an error or a panic. *)
Inductive ending (A : Type) : Type :=
| Value (a : A)
| Error (e : error)
| Panic (text : string).
Arguments Value {A} a.
Arguments Error {A} e.
Arguments Panic {A} text.

(** The two maps [mustLoadMigrations] fills from the files, by name and
    content. *)
Fixpoint readFiles (entries : list (string * string)) (forward reverse : gmap string string)
    : gmap string string * gmap string string :=
  match entries with
  | [] => (forward, reverse)
  | (name, content) :: rest =>
      match trimSuffix ".reverse.sql" name with
      | Some migrationId =>
          readFiles rest forward (<[migrationId := TrimSpace content]> reverse)
      | None =>
          match trimSuffix ".sql" name with
          | Some migrationId =>
              readFiles rest (<[migrationId := TrimSpace content]> forward) reverse
          | None => readFiles rest forward reverse
          end
      end
  end.

(** The keys of a map, in some order. *)
Definition keys {A} (m : gmap string A) : list string := map fst (map_to_list m).

Definition mustLoadMigrations (entries : list (string * string)) : ending (list Migration) :=
  let (forward, reverse) := readFiles entries ∅ ∅ in
  match filter (fun id => reverse !! id = None) (keys forward) with
  | id :: _ => Panic ("migrations: missing reverse migration for " +:+ id)
  | [] =>
      match filter (fun id => forward !! id = None) (keys reverse) with
      | id :: _ => Panic ("migrations: missing forward migration for " +:+ id)
      | [] =>
          Value (map (fun id => {| ID := id; SQL := default "" (forward !! id);
                                   ReverseSQL := default "" (reverse !! id) |})
                     (sortStrings (keys forward)))
      end
  end.

(** ** Running *)

(** A row of the [migration] table, by its id. *)
Record migrationModel := { MigratedAt : time; model_ReverseSQL : string }.

Section migrate.
Context {schema : Type} (exec : string -> schema -> result schema).

Record db := { db_schema : schema; db_migrations : gmap string migrationModel }.

(** The scripts executed, the database after them, and the outcome. *)
Abbreviation run := (list string * db * ending unit)%type.

Fixpoint revert (existing : gmap string migrationModel) (ids : list string) (d : db) : run :=
  match ids with
  | [] => ([], d, Value tt)
  | id :: rest =>
      let reverseSQL := default "" (model_ReverseSQL <$> existing !! id) in
      if decide (TrimSpace reverseSQL = "") then
        ([], d, Panic ("db: missing reverse sql for migration " +:+ id))
      else
        match exec reverseSQL (db_schema d) with
        | Err e => ([], d, Error e)
        | Ok s =>
            let '(log, d, r) :=
              revert existing rest
                {| db_schema := s; db_migrations := delete id (db_migrations d) |} in
            (reverseSQL :: log, d, r)
        end
  end.

Fixpoint apply (now : time) (existing : gmap string migrationModel) (migrations : list Migration)
    (d : db) : run :=
  match migrations with
  | [] => ([], d, Value tt)
  | m :: rest =>
      match existing !! ID m with
      | Some _ => apply now existing rest d
      | None =>
          let done (s : schema) :=
            {| db_schema := s;
               db_migrations := <[ID m := {| MigratedAt := now; model_ReverseSQL := ReverseSQL m |}]>
                                  (db_migrations d) |} in
          if decide (SQL m = "") then apply now existing rest (done (db_schema d))
          else
            match exec (SQL m) (db_schema d) with
            | Err e => ([], d, Error e)
            | Ok s =>
                let '(log, d, r) := apply now existing rest (done s) in (SQL m :: log, d, r)
            end
      end
  end.

Definition unknownIds (currentMigrations : list Migration) (existing : gmap string migrationModel)
    : list string :=
  reverse (sortStrings (filter (fun id => id ∉ map ID currentMigrations) (keys existing))).

Definition Migrate (now : time) (currentMigrations : list Migration) (d : db) : run :=
  let existing := db_migrations d in
  match revert existing (unknownIds currentMigrations existing) d with
  | (log, d, Value _) =>
      let '(log', d, r) := apply now existing currentMigrations d in (log ++ log', d, r)
  | failed => failed
  end.

(** ** Lemmas *)

(** The migrations of a list that a database does not have. *)
Definition pending (existing : gmap string migrationModel) (ms : list Migration) : list Migration :=
  filter (fun m => existing !! ID m = None) ms.

Lemma apply_pending now existing ms d :
  apply now existing ms d = apply now existing (pending existing ms) d.
Proof.
  unfold pending. revert d. induction ms as [|m ms IH]; intros d; [done|].
  destruct (decide (existing !! ID m = None)) as [Hm|Hm].
  - rewrite filter_cons_True by done. cbn [apply]. rewrite Hm. case_decide; [apply IH|].
    destruct (exec _ _); [|done]. by rewrite IH.
  - rewrite filter_cons_False by done. cbn [apply]. destruct (existing !! ID m); [apply IH|done].
Qed.

Lemma apply_records now existing ms d log d' :
  apply now existing ms d = (log, d', Value tt) ->
  dom (db_migrations d') =
    dom (db_migrations d) ∪ list_to_set (map ID (pending existing ms)) /\
  log = filter (fun s => s <> "") (map SQL (pending existing ms)).
Proof.
  rewrite apply_pending.
  assert (Hall : Forall (fun m => existing !! ID m = None) (pending existing ms)).
  { apply list.Forall_forall. by intros m [? _]%list_elem_of_filter. }
  revert d log. induction Hall as [|m l Hm Hall IH]; intros d log E.
  { simpl in E. simplify_eq. simpl. split; [set_solver|done]. }
  cbn [apply] in E. rewrite Hm in E. cbn [map].
  destruct (decide (SQL m = "")) as [Hs|Hs].
  - rewrite filter_cons_False by auto. apply IH in E as [-> ->].
    simpl. rewrite dom_insert_L. split; [set_solver|done].
  - rewrite filter_cons_True by auto. destruct (exec _ _) as [s|]; [|done].
    destruct (apply _ _ _ _) as [[log1 d1] r] eqn:E1. simplify_eq. apply IH in E1 as [-> ->].
    simpl. rewrite dom_insert_L. split; [set_solver|done].
Qed.

Lemma revert_records existing ids d log d' :
  revert existing ids d = (log, d', Value tt) ->
  dom (db_migrations d') = dom (db_migrations d) ∖ list_to_set ids /\
  log = map (fun id => default "" (model_ReverseSQL <$> existing !! id)) ids.
Proof.
  revert d log. induction ids as [|id ids IH]; intros d log E; simpl in E.
  { simplify_eq. split; [set_solver|done]. }
  case_decide; [done|]. destruct (exec _ _) as [s|]; [|done].
  destruct (revert _ _ _) as [[log1 d1] r] eqn:E1. simplify_eq. apply IH in E1 as [-> ->].
  simpl. rewrite dom_delete_L. split; [set_solver|done].
Qed.

Lemma elem_of_keys {A} (m : gmap string A) id : id ∈ keys m <-> is_Some (m !! id).
Proof.
  unfold keys. rewrite list_elem_of_fmap. split.
  - intros ([i x] & -> & Hin%elem_of_map_to_list). eauto.
  - intros [x Hx]. exists (id, x). split; [done|]. by apply elem_of_map_to_list.
Qed.

Lemma elem_of_unknownIds ms existing id :
  id ∈ unknownIds ms existing <-> (id ∉ map ID ms) /\ is_Some (existing !! id).
Proof.
  unfold unknownIds, sortStrings. rewrite elem_of_reverse, merge_sort_Permutation.
  by rewrite list_elem_of_filter, elem_of_keys.
Qed.

Lemma unknownIds_nil ms existing :
  (forall id, is_Some (existing !! id) -> id ∈ map ID ms) -> unknownIds ms existing = [].
Proof.
  intros Hsub. apply elem_of_nil_inv. intros id [Hn Hs]%elem_of_unknownIds. auto.
Qed.

Lemma pending_nil existing ms :
  (forall m, m ∈ ms -> is_Some (existing !! ID m)) -> pending existing ms = [].
Proof. intros Hall. apply list_filter_none. intros m Hm. destruct (Hall m Hm). congruence. Qed.

Lemma revert_total existing ids d :
  (forall sql s, exists s', exec sql s = Ok s') ->
  (forall id, id ∈ ids -> TrimSpace (default "" (model_ReverseSQL <$> existing !! id)) <> "") ->
  exists log d', revert existing ids d = (log, d', Value tt).
Proof.
  intros Hex. revert d. induction ids as [|id ids IH]; intros d Hblank; simpl; [by eauto|].
  rewrite decide_False by (apply Hblank; set_solver).
  destruct (Hex (default "" (model_ReverseSQL <$> existing !! id)) (db_schema d)) as [s' ->].
  destruct (IH {| db_schema := s'; db_migrations := delete id (db_migrations d) |})
    as (log & d' & ->); [set_solver|eauto].
Qed.

Lemma apply_total now existing ms d :
  (forall sql s, exists s', exec sql s = Ok s') ->
  exists log d', apply now existing ms d = (log, d', Value tt).
Proof.
  intros Hex. revert d. induction ms as [|m ms IH]; intros d; simpl; [by eauto|].
  destruct (existing !! ID m); [done|]. case_decide; [done|].
  destruct (Hex (SQL m) (db_schema d)) as [s' ->].
  match goal with |- context [apply now existing ms ?d] => destruct (IH d) as (log & d' & ->) end.
  eauto.
Qed.

(** A database that has exactly the migrations of the binary is left alone. *)
Lemma Migrate_nothing now ms d :
  dom (db_migrations d) = list_to_set (map ID ms) -> Migrate now ms d = ([], d, Value tt).
Proof.
  intros Hdom. unfold Migrate.
  assert (Hin : forall id, is_Some (db_migrations d !! id) <-> id ∈ map ID ms).
  { intros id. rewrite <- elem_of_dom, Hdom. by rewrite elem_of_list_to_set. }
  rewrite unknownIds_nil by (intros id; apply Hin). cbn [revert].
  rewrite apply_pending, pending_nil; [done|]. intros m Hm. apply Hin.
  apply list_elem_of_fmap. eauto.
Qed.

(** A migration run whose scripts succeed brings the database to exactly
    the migrations of the binary, reverting what it does not know, newest
    first, and applying what is pending, in order; running it again executes
    nothing. *)
Theorem Migrate_converges (now later : time) (ms : list Migration) (d : db) :
  (forall sql s, exists s', exec sql s = Ok s') ->
  (forall id m, db_migrations d !! id = Some m -> TrimSpace (model_ReverseSQL m) <> "") ->
  exists log d', Migrate now ms d = (log, d', Value tt) /\
    dom (db_migrations d') = list_to_set (map ID ms) /\
    log = map (fun id => default "" (model_ReverseSQL <$> db_migrations d !! id))
              (unknownIds ms (db_migrations d)) ++
          filter (fun s => s <> "") (map SQL (pending (db_migrations d) ms)) /\
    Migrate later ms d' = ([], d', Value tt).
Proof.
  intros Hex Hblank. unfold Migrate at 1.
  destruct (revert_total (db_migrations d) (unknownIds ms (db_migrations d)) d Hex)
    as (log1 & d1 & E1).
  { intros id [_ [m Hm]]%elem_of_unknownIds. rewrite Hm. simpl. eauto. }
  destruct (apply_total now (db_migrations d) ms d1 Hex) as (log2 & d2 & E2).
  rewrite E1, E2. exists (log1 ++ log2), d2.
  apply revert_records in E1 as [Hd1 ->]. apply apply_records in E2 as [Hd2 ->].
  assert (Hdom : dom (db_migrations d2) = list_to_set (map ID ms)).
  { rewrite Hd2, Hd1. apply set_eq. intros id.
    rewrite elem_of_union, elem_of_difference, !elem_of_list_to_set, elem_of_unknownIds.
    rewrite elem_of_dom. unfold pending. rewrite !list_elem_of_fmap.
    setoid_rewrite list_elem_of_filter. split.
    - intros [[Hs Hn]|(m & -> & _ & Hm)]; [|eauto].
      destruct (decide (id ∈ map ID ms)) as [Hin|Hout]; [by apply list_elem_of_fmap|].
      destruct Hn. split; [|done]. by rewrite <- list_elem_of_fmap.
    - intros (m & -> & Hm). destruct (db_migrations d !! ID m) eqn:E; [left|right; eauto].
      split; [eauto|]. intros [Hn _]. apply Hn. eauto. }
  split_and!; [done|done|done|]. by apply Migrate_nothing.
Qed.

(** ** Upgrading and downgrading *)

(** The reverse script of a migration undoes it. *)
Definition reversible (m : Migration) : Prop :=
  TrimSpace (ReverseSQL m) <> "" /\
  forall s s', (if decide (SQL m = "") then Ok s else exec (SQL m) s) = Ok s' ->
               exec (ReverseSQL m) s' = Ok s.

Definition record_of (now : time) (m : Migration) : migrationModel :=
  {| MigratedAt := now; model_ReverseSQL := ReverseSQL m |}.

(** Applying one more migration. *)
Lemma apply_snoc now existing ms m d log d' :
  existing !! ID m = None ->
  apply now existing (ms ++ [m]) d = (log, d', Value tt) ->
  exists log1 d1 s, apply now existing ms d = (log1, d1, Value tt) /\
    (if decide (SQL m = "") then Ok (db_schema d1) else exec (SQL m) (db_schema d1)) = Ok s /\
    d' = {| db_schema := s; db_migrations := <[ID m := record_of now m]> (db_migrations d1) |}.
Proof.
  intros Hm. revert d log. induction ms as [|m' ms IH]; intros d log E; simpl in E.
  - rewrite Hm in E. exists [], d. case_decide; [by eexists; simplify_eq/=|].
    destruct (exec _ _) as [s|]; [|done]. simplify_eq/=. eauto.
  - simpl. destruct (existing !! ID m'); [eauto|]. case_decide; [eauto|].
    destruct (exec _ _) as [s|]; [|done].
    destruct (apply _ _ (ms ++ [m]) _) as [[log1 d1] r] eqn:E1. simplify_eq.
    apply IH in E1 as (log2 & d2 & s2 & -> & Hs & Hd). eauto 10.
Qed.

(** Reverting what was applied, last first, gives the database back. *)
Lemma revert_apply now existing recorded ms d log d' :
  Forall (fun m => existing !! ID m = None) ms -> Forall reversible ms ->
  NoDup (map ID ms) -> (forall m, m ∈ ms -> db_migrations d !! ID m = None) ->
  (forall m, m ∈ ms -> model_ReverseSQL <$> recorded !! ID m = Some (ReverseSQL m)) ->
  apply now existing ms d = (log, d', Value tt) ->
  exists log', revert recorded (reverse (map ID ms)) d' = (log', d, Value tt).
Proof.
  revert log d'. induction ms as [|m ms IH] using rev_ind; intros log d' Hn Hr Hnd Hd Hrec E.
  { simpl in E. simplify_eq. by exists []. }
  apply Forall_app in Hn as [Hn Hnm], Hr as [Hr Hrm].
  rewrite list.Forall_singleton in Hnm, Hrm. destruct Hrm as [Hblank Hrev].
  rewrite fmap_app in Hnd. apply list.NoDup_app in Hnd as (Hnd & Hdisj & _).
  apply apply_snoc in E as (log1 & d1 & s & E1 & Es & ->); [|done].
  rewrite fmap_app, reverse_app. simpl. rewrite Hrec by set_solver. simpl.
  rewrite decide_False by done. rewrite (Hrev _ _ Es).
  assert (Hnone : db_migrations d1 !! ID m = None).
  { apply apply_records in E1 as [E1 _]. apply not_elem_of_dom. rewrite E1.
    rewrite not_elem_of_union. split; [apply not_elem_of_dom, Hd; set_solver|].
    rewrite elem_of_list_to_set. intros (m' & Em & [_ Hin]%list_elem_of_filter)%list_elem_of_fmap.
    apply (Hdisj (ID m)); [|set_solver]. apply list_elem_of_fmap. eauto. }
  rewrite delete_insert_id by done.
  destruct (IH log1 d1) as [log' E']; try done; [set_solver..|].
  assert (Eta : {| db_schema := db_schema d1; db_migrations := db_migrations d1 |} = d1)
    by (by destruct d1).
  rewrite Eta. change (ID <$> ms) with (map ID ms). rewrite E'. eauto.
Qed.

Lemma apply_recorded now existing ms d log d' :
  Forall (fun m => existing !! ID m = None) ms -> NoDup (map ID ms) ->
  apply now existing ms d = (log, d', Value tt) ->
  forall m, m ∈ ms -> db_migrations d' !! ID m = Some (record_of now m).
Proof.
  revert log d'. induction ms as [|m ms IH] using rev_ind; intros log d' Hn Hnd E x Hx.
  { by apply elem_of_nil in Hx. }
  apply Forall_app in Hn as [Hn Hnm]. rewrite list.Forall_singleton in Hnm.
  rewrite fmap_app in Hnd. apply list.NoDup_app in Hnd as (Hnd & Hdisj & _).
  apply apply_snoc in E as (log1 & d1 & s & E1 & _ & ->); [|done]. simpl.
  apply elem_of_app in Hx as [Hx|Hx%list_elem_of_singleton].
  - rewrite lookup_insert_ne by (intros Heq; apply (Hdisj (ID x)); [by apply list_elem_of_fmap_2|
      rewrite <- Heq; set_solver]). eauto.
  - subst. by rewrite lookup_insert_eq.
Qed.

Lemma NoDup_keys {A} (m : gmap string A) : NoDup (keys m).
Proof. apply NoDup_fst_map_to_list. Qed.

(** The migrations a binary embeds come in order, each once. *)
Lemma mustLoadMigrations_sorted entries ms :
  mustLoadMigrations entries = Value ms -> Sorted String.le (map ID ms) /\ NoDup (map ID ms).
Proof.
  unfold mustLoadMigrations. destruct (readFiles entries ∅ ∅) as [forward rev].
  destruct (filter _ (keys forward)); [|done]. destruct (filter _ (keys rev)); [|done].
  intros [= <-]. rewrite map_map, map_id. unfold sortStrings. split.
  - apply Sorted_merge_sort, _.
  - rewrite merge_sort_Permutation. apply NoDup_keys.
Qed.

Lemma Sorted_pending existing ms :
  Sorted String.le (map ID ms) -> Sorted String.le (map ID (pending existing ms)).
Proof.
  intros Hs. apply Sorted_StronglySorted in Hs; [|apply _]. apply StronglySorted_Sorted.
  unfold pending. induction ms as [|m ms IH]; [constructor|].
  cbn [map] in Hs. inversion_clear Hs as [|? ? Hs' Hall]. rewrite filter_cons.
  case_decide; [|by apply IH]. cbn [map]. constructor; [by apply IH|].
  apply list.Forall_forall. intros x (m' & -> & [_ Hin]%list_elem_of_filter)%list_elem_of_fmap.
  eapply list.Forall_forall in Hall; [exact Hall|]. by apply list_elem_of_fmap_2.
Qed.

(** After an upgrade the older binary does not know exactly the migrations
    that were pending. *)
Lemma unknownIds_upgraded old new (before after : gmap string migrationModel) :
  Sorted String.le (map ID new) -> NoDup (map ID (pending before new)) ->
  (forall id, is_Some (before !! id) <-> id ∈ map ID old) ->
  dom after = dom before ∪ list_to_set (map ID (pending before new)) ->
  unknownIds old after = reverse (map ID (pending before new)).
Proof.
  intros Hsort Hnd Hold Hdom. unfold unknownIds. f_equal. apply (Sorted_unique String.le).
  - apply Sorted_merge_sort, _.
  - by apply Sorted_pending.
  - unfold sortStrings. rewrite merge_sort_Permutation. apply NoDup_Permutation; [|done|].
    + eapply sublist_NoDup; [apply (NoDup_keys after)|apply sublist_filter].
    + intros id. rewrite list_elem_of_filter, elem_of_keys, <- elem_of_dom, Hdom.
      rewrite elem_of_union, elem_of_dom, elem_of_list_to_set, Hold. split; [tauto|].
      intros Hin. split; [|by right]. intros Ho.
      apply list_elem_of_fmap in Hin as (m & -> & [Hnone _]%list_elem_of_filter).
      apply Hold in Ho as [? ?]. congruence.
Qed.

(** upgrading and downgrading are inverse.  If a database has exactly the
    migrations of an older binary, the newer binary embeds these and more, and
    the reverse scripts undo the scripts, then running the newer binary's
    migrations and then the older one's restores the schema and the records. *)
Theorem upgrade_downgrade (now later : time) (entries : list (string * string))
    (old new : list Migration) (d d1 : db) (log : list string) :
  mustLoadMigrations entries = Value new -> Forall reversible new ->
  (forall m, m ∈ old -> ID m ∈ map ID new) ->
  dom (db_migrations d) = list_to_set (map ID old) ->
  Migrate now new d = (log, d1, Value tt) ->
  exists log', Migrate later old d1 = (log', d, Value tt).
Proof.
  intros Hload Hrev Hsub Hdom E. apply mustLoadMigrations_sorted in Hload as [Hsort Hnd].
  assert (Hold : forall id, is_Some (db_migrations d !! id) <-> id ∈ map ID old).
  { intros id. rewrite <- elem_of_dom, Hdom. by rewrite elem_of_list_to_set. }
  set (P := pending (db_migrations d) new).
  assert (HP : Forall (fun m => db_migrations d !! ID m = None) P).
  { apply list.Forall_forall. by intros m [? _]%list_elem_of_filter. }
  assert (HPnd : NoDup (map ID P)).
  { eapply sublist_NoDup; [exact Hnd|]. apply fmap_sublist, sublist_filter. }
  unfold Migrate in E. rewrite unknownIds_nil in E.
  2: { intros id (m & -> & Hm)%Hold%list_elem_of_fmap. auto. }
  cbn [revert] in E. rewrite apply_pending in E. fold P in E.
  destruct (apply now (db_migrations d) P d) as [[log2 d2] r] eqn:Ea. simplify_eq/=.
  assert (HPid : pending (db_migrations d) P = P)
    by (apply list_filter_all; intros m [? _]%list_elem_of_filter; done).
  destruct (apply_records _ _ _ _ _ _ Ea) as [Hd1 _]. rewrite HPid in Hd1.
  assert (Hun : unknownIds old (db_migrations d1) = reverse (map ID P))
    by (by apply (unknownIds_upgraded old new (db_migrations d))).
  destruct (revert_apply now (db_migrations d) (db_migrations d1) P d log d1) as [log' E'];
    try done.
  { apply list.Forall_forall. intros m [_ Hm]%list_elem_of_filter.
    by eapply list.Forall_forall in Hrev. }
  { by apply list.Forall_forall. }
  { intros m Hm. by rewrite (apply_recorded _ _ _ _ _ _ HP HPnd Ea). }
  unfold Migrate. rewrite Hun, E'. rewrite apply_pending, pending_nil; [eauto|].
  intros m Hm. apply elem_of_dom. rewrite Hd1. apply elem_of_union_l, elem_of_dom, Hold.
  by apply list_elem_of_fmap_2.
Qed.
End migrate.

(** ** Examples *)

(** A schema that counts the tables. *)
Definition example_exec (sql : string) (tables : nat) : result nat :=
  if decide (sql = "CREATE TABLE") then Ok (S tables)
  else if decide (sql = "DROP TABLE") then Ok (pred tables) else Ok tables.

Definition example_files : list (string * string) :=
  [("0000_initial.reverse.sql", "DROP TABLE"); ("0000_initial.sql", "CREATE TABLE ");
   ("0001_more.reverse.sql", "DROP TABLE"); ("0001_more.sql", "CREATE TABLE"); ("notes.txt", "")].

Definition example_migration (id : string) : Migration :=
  {| ID := id; SQL := "CREATE TABLE"; ReverseSQL := "DROP TABLE" |}.

Definition example_db : db :=
  {| db_schema := 1%nat;
     db_migrations := {["0000_initial" := {| MigratedAt := 5%Z; model_ReverseSQL := "DROP TABLE" |}]} |}.

Lemma Migrate_converges_witness :
  exists log d', Migrate example_exec 10%Z (map example_migration ["0000_initial"; "0001_more"])
                   example_db = (log, d', Value tt) /\
    dom (db_migrations d') = list_to_set ["0000_initial"; "0001_more"].
Proof.
  destruct (Migrate_converges example_exec 10%Z 11%Z
    (map example_migration ["0000_initial"; "0001_more"]) example_db)
    as (log & d' & E & Hdom & _).
  - intros sql s. unfold example_exec. repeat case_decide; eauto.
  - intros id m Hm. unfold example_db in Hm. cbn [db_migrations] in Hm.
    apply lookup_singleton_Some in Hm as [_ <-]. vm_compute. intros [=].
  - exists log, d'. split; [exact E|exact Hdom].
Defined.

Lemma upgrade_downgrade_witness :
  exists d1 log log', Migrate example_exec 10%Z (map example_migration ["0000_initial"; "0001_more"])
                        example_db = (log, d1, Value tt) /\
    Migrate example_exec 11%Z [example_migration "0000_initial"] d1 = (log', example_db, Value tt).
Proof.
  destruct (Migrate example_exec 10%Z (map example_migration ["0000_initial"; "0001_more"])
              example_db) as [[log d1] r] eqn:E.
  assert (r = Value tt) as -> by (change r with (log, d1, r).2; rewrite <- E; vm_compute; reflexivity).
  exists d1, log.
  destruct (upgrade_downgrade example_exec 10%Z 11%Z example_files
    [example_migration "0000_initial"] (map example_migration ["0000_initial"; "0001_more"])
    example_db d1 log) as [log' E'].
  - vm_compute. reflexivity.
  - assert (Hr : forall id, reversible example_exec (example_migration id)).
    { intros id. split; [vm_compute; intros [=]|]. intros s s' [= <-]. reflexivity. }
    apply Forall_cons_2; [apply Hr|]. apply Forall_cons_2; [apply Hr|apply Forall_nil_2].
  - intros m ->%list_elem_of_singleton. apply elem_of_cons. by left.
  - vm_compute. reflexivity.
  - exact E.
  - exists log'. split; [reflexivity|exact E'].
Defined.
End Migrations.
