(* ===== verification/Schema.v ===== *)
(** * The schema of the database

    The migration files of [db/migrations], what their statements do to the
    tables, and the columns that gorm expects for the structs of
    [db/models.go], by the naming strategy of the vendored package
    ([vendor/gorm.io/gorm/schema/naming.go]).  With [Migrations], which loads
    and runs the files: what a fresh database looks like after a run, and what
    an older binary makes of a newer database. *)

From stdpp Require Import base list strings gmap fin_maps option.
From Stdlib Require Import ZArith Lia Strings.Ascii.
From S2P Require Import Prelude GoStrings Migrations.

Module Schema.
Import Migrations.

(** ** The files *)

(** The files have double quotes where the texts below have back quotes. *)
Fixpoint sql (s : string) : string :=
  match s with
  | EmptyString => ""
  | String c s => String (if decide (c = "`"%char) then quote else c) (sql s)
  end.

Definition initial : string := sql "CREATE TABLE IF NOT EXISTS `user` (
    `id` varchar(256),
    `created` timestamp with time zone,
    `modified` timestamp with time zone,
    `comment` text,
    `ip` varchar(256),
    `location` jsonb,
    `status` jsonb,
    `disabled` boolean,
    PRIMARY KEY (`id`)
);
".
Definition initial_reverse : string := sql "DROP TABLE IF EXISTS `user`;
".
Definition add_administrator : string := sql "ALTER TABLE `user` ADD COLUMN `administrator` boolean;
".
Definition add_administrator_reverse : string := sql "ALTER TABLE `user` DROP COLUMN `administrator`;
".
Definition add_screenshot : string := sql "ALTER TABLE `user` ADD COLUMN `screenshot` bytea;
".
Definition add_screenshot_reverse : string := sql "ALTER TABLE `user` DROP COLUMN `screenshot`;
".
Definition created_at : string := sql "ALTER TABLE `user` RENAME COLUMN `created` TO `created_at`;
ALTER TABLE `user` RENAME COLUMN `modified` TO `modified_at`;
".
Definition created_at_reverse : string := sql "ALTER TABLE `user` RENAME COLUMN `created_at` TO `created`;
ALTER TABLE `user` RENAME COLUMN `modified_at` TO `modified`;
".
Definition add_node : string := sql "CREATE TABLE IF NOT EXISTS `node` (
    `id` varchar(256),
    `created_at` timestamp with time zone,
    `modified_at` timestamp with time zone,
    `address` varchar(256),
    `host_public_key` text,
    `online` boolean,
    `online_at` timestamp with time zone,
    PRIMARY KEY (`id`)
);
".
Definition add_node_reverse : string := sql "DROP TABLE IF EXISTS `node`;
".
Definition add_user_node : string := sql "ALTER TABLE `user` ADD COLUMN `node_id` varchar(256);
".
Definition add_user_node_reverse : string := sql "ALTER TABLE `user` DROP COLUMN `node_id`;
".
Definition add_user_online_at : string :=
  sql "ALTER TABLE `user` ADD COLUMN `online_at` timestamp with time zone;
".
Definition add_user_online_at_reverse : string := sql "ALTER TABLE `user` DROP COLUMN `online_at`;
".

(** What is embedded, in the order of [fs.ReadDir]. *)
Definition migrationFiles : list (string * string) :=
  [("0000_initial.reverse.sql", initial_reverse); ("0000_initial.sql", initial);
   ("0001_add_administrator.reverse.sql", add_administrator_reverse);
   ("0001_add_administrator.sql", add_administrator);
   ("0002_add_screenshot.reverse.sql", add_screenshot_reverse);
   ("0002_add_screenshot.sql", add_screenshot);
   ("0003_created_at.reverse.sql", created_at_reverse); ("0003_created_at.sql", created_at);
   ("0004_add_node.reverse.sql", add_node_reverse); ("0004_add_node.sql", add_node);
   ("0005_add_user_node.reverse.sql", add_user_node_reverse); ("0005_add_user_node.sql", add_user_node);
   ("0006_add_user_online_at.reverse.sql", add_user_online_at_reverse);
   ("0006_add_user_online_at.sql", add_user_online_at)].

(** [Migrations] *)
Definition embedded : list Migration :=
  match mustLoadMigrations migrationFiles with Value ms => ms | _ => [] end.

(** ** Statements *)

Inductive token := Word (s : string) | Ident (s : string) | Symbol (c : ascii).

#[export] Instance token_eq_dec : EqDecision token.
Proof. solve_decision. Defined.

Definition wordByte (c : ascii) : bool :=
  let n := nat_of_ascii c in
  bool_decide (48 <= n <= 57)%nat || bool_decide (65 <= n <= 90)%nat || bool_decide (97 <= n <= 122)%nat
  || bool_decide (n = 95)%nat.

(** A byte inside a quoted identifier, inside a word, or between tokens. *)
Inductive lexing := Between | InWord (s : string) | InIdent (s : string).

Definition flush (l : lexing) : list token :=
  match l with InWord s => [Word s] | _ => [] end.

Fixpoint tokens (l : lexing) (s : string) : option (list token) :=
  match s with
  | EmptyString => match l with InIdent _ => None | _ => Some (flush l) end
  | String c rest =>
      match l with
      | InIdent i =>
          if decide (c = quote) then (fun ts => Ident i :: ts) <$> tokens Between rest
          else tokens (InIdent (i +:+ String c "")) rest
      | _ =>
          if wordByte c then
            tokens (InWord (match l with InWord w => w | _ => "" end +:+ String c "")) rest
          else (fun ts => flush l ++ ts) <$>
            (if decide (c = quote) then tokens (InIdent "") rest
             else if decide (c = space \/ c = newline) then tokens Between rest
             else (fun ts => Symbol c :: ts) <$> tokens Between rest)
      end
  end.

Definition openParen : token := Symbol "("%char.
Definition closeParen : token := Symbol ")"%char.

(** The parts between separators that are not inside parentheses. *)
Fixpoint splitTokens (sep : token) (depth : nat) (ts : list token) : list (list token) :=
  match ts with
  | [] => [[]]
  | t :: rest =>
      if decide (t = sep /\ depth = 0%nat) then [] :: splitTokens sep depth rest
      else
        let depth := if decide (t = openParen) then S depth
                     else if decide (t = closeParen) then pred depth else depth in
        match splitTokens sep depth rest with
        | part :: parts => (t :: part) :: parts
        | [] => [[t]]
        end
  end.

(** ** What statements do *)

(** The columns of each table, with the tokens of their types. *)
Abbreviation columns := (list (string * list token)).
Abbreviation schema := (gmap string columns).

Definition errSQL (why : string) : error := Foreign why.

(** A column of CREATE TABLE; a constraint is none. *)
Definition columnDefinition (ts : list token) : result (list (string * list token)) :=
  match ts with
  | Ident c :: type => Ok [(c, type)]
  | Word "PRIMARY" :: _ => Ok []
  | _ => Err (errSQL "syntax error")
  end.

Fixpoint columnDefinitions (parts : list (list token)) : result columns :=
  match parts with
  | [] => Ok []
  | ts :: rest =>
      let! c := columnDefinition ts in let! cs := columnDefinitions rest in Ok (c ++ cs)
  end.

Definition hasColumn (c : string) (cs : columns) : bool := bool_decide (c ∈ map fst cs).

Definition alterColumns (action : list token) (cs : columns) : result columns :=
  match action with
  | Word "ADD" :: Word "COLUMN" :: Ident c :: type =>
      if hasColumn c cs then Err (errSQL "column already exists") else Ok (cs ++ [(c, type)])
  | [Word "DROP"; Word "COLUMN"; Ident c] =>
      if hasColumn c cs then Ok (filter (fun x => x.1 <> c) cs) else Err (errSQL "column does not exist")
  | [Word "RENAME"; Word "COLUMN"; Ident a; Word "TO"; Ident b] =>
      if negb (hasColumn a cs) then Err (errSQL "column does not exist")
      else if hasColumn b cs then Err (errSQL "column already exists")
      else Ok (map (fun x => if decide (x.1 = a) then (b, x.2) else x) cs)
  | _ => Err (errSQL "syntax error")
  end.

Definition execStatement (ts : list token) (s : schema) : result schema :=
  match ts with
  | [] => Ok s
  | Word "CREATE" :: Word "TABLE" :: Word "IF" :: Word "NOT" :: Word "EXISTS" :: Ident t :: o :: rest =>
      match s !! t, decide (o = openParen), reverse rest with
      | Some _, _, _ => Ok s
      | None, left _, c :: body =>
          if decide (c = closeParen) then
            let! cs := columnDefinitions (splitTokens (Symbol ","%char) 0 (reverse body)) in
            Ok (<[t := cs]> s)
          else Err (errSQL "syntax error")
      | _, _, _ => Err (errSQL "syntax error")
      end
  | [Word "DROP"; Word "TABLE"; Word "IF"; Word "EXISTS"; Ident t] => Ok (delete t s)
  | Word "ALTER" :: Word "TABLE" :: Ident t :: action =>
      match s !! t with
      | Some cs => let! cs := alterColumns action cs in Ok (<[t := cs]> s)
      | None => Err (errSQL "relation does not exist")
      end
  | _ => Err (errSQL "syntax error")
  end.

Fixpoint execStatements (parts : list (list token)) (s : schema) : result schema :=
  match parts with
  | [] => Ok s
  | ts :: rest => let! s := execStatement ts s in execStatements rest s
  end.

(** A script is one transaction: all of it, or nothing. *)
Definition exec (script : string) (s : schema) : result schema :=
  match tokens Between script with
  | None => Err (errSQL "unterminated quoted identifier")
  | Some ts => execStatements (splitTokens (Symbol ";"%char) 0 ts) s
  end.

(** ** Column names *)

Definition commonInitialisms : list string :=
  ["API"; "ASCII"; "CPU"; "CSS"; "DNS"; "EOF"; "GUID"; "HTML"; "HTTP"; "HTTPS"; "ID"; "IP"; "JSON";
   "LHS"; "QPS"; "RAM"; "RHS"; "RPC"; "SLA"; "SMTP"; "SSH"; "TLS"; "TTL"; "UID"; "UI"; "UUID"; "URI";
   "URL"; "UTF8"; "VM"; "XML"; "XSRF"; "XSS"].

Definition isUpper (c : ascii) : bool := bool_decide (65 <= nat_of_ascii c <= 90)%nat.
Definition isDigit (c : ascii) : bool := bool_decide (48 <= nat_of_ascii c <= 57)%nat.
Definition lower (c : ascii) : ascii := if isUpper c then ascii_of_nat (nat_of_ascii c + 32) else c.

Fixpoint lowerAll (s : string) : string :=
  match s with EmptyString => "" | String c s => String (lower c) (lowerAll s) end.

(** The title case of an initialism. *)
Definition Title (s : string) : string :=
  match s with EmptyString => "" | String c s => String c (lowerAll s) end.

Fixpoint cutPrefix (p s : string) : option string :=
  match p, s with
  | EmptyString, _ => Some s
  | String a p, String b s => if decide (a = b) then cutPrefix p s else None
  | _, _ => None
  end.

(** The first of the initialisms at the front, and what follows. *)
Fixpoint initialismAt (names : list string) (s : string) : option (string * string) :=
  match names with
  | [] => None
  | i :: names =>
      match cutPrefix i s with Some rest => Some (i, rest) | None => initialismAt names s end
  end.

(** The replacer of the initialisms; each turn consumes a byte at least. *)
Fixpoint replaceInitialisms (fuel : nat) (s : string) : string :=
  match fuel, s with
  | S fuel, String c rest =>
      match initialismAt commonInitialisms s with
      | Some (i, after) => Title i +:+ replaceInitialisms fuel after
      | None => String c (replaceInitialisms fuel rest)
      end
  | _, _ => ""
  end.

Definition underscore : ascii := "_"%char.

(** The loop of [toDBName]; [before] is the byte before, if there is one. *)
Fixpoint snake (before : option ascii) (lastCase : bool) (value : string) : string :=
  match value with
  | EmptyString => ""
  | String v EmptyString =>
      if isUpper v then
        (if negb lastCase && bool_decide (before <> None) then String underscore "" else "") +:+
        String (lower v) ""
      else String v ""
  | String v (String n _ as rest) =>
      (if isUpper v then
         if lastCase && (isUpper n || isDigit n) then String (lower v) ""
         else (if bool_decide (before <> None /\ before <> Some underscore /\ n <> underscore)
               then String underscore "" else "") +:+ String (lower v) ""
       else String v "") +:+ snake (Some v) (isUpper v) rest
  end.

Definition toDBName (name : string) : string :=
  snake None false (replaceInitialisms (S (String.length name)) name).

(** ** The fields of the structs *)

Inductive goType := GoString | GoBool | GoTime | GoBytes | GoLocation | GoStatus.

(** The fields that are saved, [db/models.go]. *)
Definition userFields : list (string * goType) :=
  [("ID", GoString); ("CreatedAt", GoTime); ("ModifiedAt", GoTime); ("Comment", GoString);
   ("IP", GoString); ("Location", GoLocation); ("Status", GoStatus); ("Administrator", GoBool);
   ("Screenshot", GoBytes); ("Disabled", GoBool); ("NodeID", GoString); ("OnlineAt", GoTime)].

Definition nodeFields : list (string * goType) :=
  [("ID", GoString); ("CreatedAt", GoTime); ("ModifiedAt", GoTime); ("Address", GoString);
   ("HostPublicKey", GoString); ("Online", GoBool); ("OnlineAt", GoTime)].

(** The types of columns that hold the values of a Go type. *)
Definition timestamptz : list token := [Word "timestamp"; Word "with"; Word "time"; Word "zone"].
Definition varchar256 : list token := [Word "varchar"; openParen; Word "256"; closeParen].

Definition columnTypes (t : goType) : list (list token) :=
  match t with
  | GoString => [varchar256; [Word "text"]]
  | GoBool => [[Word "boolean"]]
  | GoTime => [timestamptz]
  | GoBytes => [[Word "bytea"]]
  | GoLocation | GoStatus => [[Word "jsonb"]]
  end.

(** The columns are those of the fields, in some order, with fitting types. *)
Definition fits (fields : list (string * goType)) (cs : columns) : bool :=
  bool_decide (map fst cs ≡ₚ map (fun f => toDBName f.1) fields) &&
  forallb (fun f => existsb (fun c => bool_decide (c.1 = toDBName f.1) &&
                                      bool_decide (c.2 ∈ columnTypes f.2)) cs) fields.

(** A database without tables, and what a run makes of it. *)
Definition empty : db (schema := schema) := {| db_schema := ∅; db_migrations := ∅ |}.

Definition migrated (now : time) (ms : list Migration) : db (schema := schema) :=
  (Migrate exec now ms empty).1.2.

(** ** The schema and the structs *)


(** C36: binaries of different versions agree on the schema.  Let an older binary
    know the first of the migrations only.  Its run on a database that the newer
    one has migrated succeeds, and leaves the tables and the records of
    migrations as the older binary itself would have made them; the run of the
    newer one on the older one's database succeeds and makes its own tables. *)
Theorem downgrade_restores (now later : time) (k : nat) :
  (k <= 7)%nat ->
  (exists log, Migrate exec later (take k embedded) (migrated now embedded) =
     (log, migrated now (take k embedded), Value tt)) /\
  let upgraded := Migrate exec later embedded (migrated now (take k embedded)) in
  upgraded.2 = Value tt /\ db_schema upgraded.1.2 = db_schema (migrated now embedded).
Proof.
  intros Hk. do 8 (destruct k as [|k];
    [split; [eexists; vm_compute; reflexivity|split; vm_compute; reflexivity]|]). lia.
Qed.

Lemma downgrade_restores_witness :
  exists log, Migrate exec 20 (take 4 embedded) (migrated 10 embedded) =
    (log, migrated 10 (take 4 embedded), Value tt).
Proof. apply (downgrade_restores 10 20 4). lia. Defined.
End Schema.
