(* ===== verification/Mesh.v ===== *)
(** * Logins, connections and presence across the mesh

    Theorems about several components together: what identity a login gives
    the connection made from it ([auth/auth.go] and [gateway/connection.go]),
    what a kick does to a login in flight, and where the mesh believes a user
    to be ([auth/auth.go], [gateway/gateway.go] and [db/users.go]). *)

From stdpp Require Import base list strings gmap fin_maps option.
From Stdlib Require Import ZArith Lia.
From Stdlib Require Import Strings.Byte.
From S2P Require Import Prelude Bytes Wire TtlCache Usage Models Database Certs Auth Handshake.
From S2P Require Import Connection Gateway.

#[local] Open Scope Z_scope.

Module Mesh.
Import Auth.

Section mesh.
Context (verify : Certificate -> bool).
Context {DB : Type} `{Executor DB}.
Context (geoip_opened : bool) (geoip_city : string -> option cityRecord).

Abbreviation authenticate_ := (authenticate verify geoip_opened geoip_city).

(** ** From a login to a connection *)

(** peer connections are exactly those of nodes.  The connection made
    from an accepted login is a peer connection if and only if the login was
    for the reserved peer name; then a peer certificate authority signed its
    certificate, its node identity is the certificate's key id, and it has no
    user, no port forwarding permission and no administrator rights.  Any
    other login gives a connection of the user that logged in, with the port
    forwarding permission its certificate has. *)
Theorem login_identity (settings : Settings) (now after : time) (meta : ConnMetadata)
    (publicKey : PublicKey) (self self' : flagsCache) (d d' : DB) (perms : Permissions)
    (bg : option login) (ksuid remote local : string) (stats : Usage.usageStats) :
  authenticate_ settings now after meta publicKey self d = (self', d', Ok perms, bg) ->
  let c := Conn.newConnection ksuid (meta_User meta) remote local (Extensions perms) stats in
  exists cert, publicKey = CertificateKey cert /\
    (Conn.nodeId c <> "" <-> meta_User meta = PeerUser) /\
    (meta_User meta = PeerUser ->
       cert_valid verify (PeerCAPublicKeys settings) now PeerUser cert /\
       Conn.nodeId c = cert_KeyId cert /\ Conn.user c = "" /\
       Conn.permitPortForwarding c = false /\ Conn.administrator c = false) /\
    (meta_User meta <> PeerUser ->
       cert_valid verify (CAPublicKeys settings) now (meta_User meta) cert /\
       Conn.user c = meta_User meta /\
       Conn.permitPortForwarding c =
         bool_decide (is_Some (Extensions (cert_Permissions cert) !! "permit-port-forwarding"))).
Proof.
  destruct (decide (meta_User meta = PeerUser)) as [Hp|Hp].
  - unfold authenticate. rewrite decide_True by done. intros E.
    assert (Ea : authenticatePeer verify settings now meta publicKey = Ok perms) by congruence.
    apply authenticatePeer_iff in Ea as (cert & -> & Hv & Hk & ->).
    rewrite Hp in Hv. exists cert. simpl. split; [done|]. split; [done|]. split; [|done].
    by intros _.
  - intros E. apply authenticate_user_Ok in E as (cert & flags & -> & Hv & _ & -> & _); [|done].
    exists cert. unfold Conn.newConnection. split; [done|].
    rewrite !login_extensions. simpl. split; [naive_solver|]. split; [done|]. by intros _.
Qed.

(** ** A login in flight and a kick *)

(** A login that hits cached flags of an enabled account is accepted without
    the database. *)
Lemma authenticate_cached settings now after meta cert flags self (d : DB) :
  meta_User meta <> PeerUser ->
  cert_valid verify (CAPublicKeys settings) now (meta_User meta) cert ->
  self !! meta_User meta = Some flags -> now <= flags_expiresAt flags ->
  flags_disabled flags = false ->
  exists perms bg, authenticate_ settings now after meta (CertificateKey cert) self d =
                     (self, d, Ok perms, Some bg).
Proof.
  intros Hp Hv Hl Hnow Hd. unfold authenticate. rewrite decide_False by done.
  assert (Ha : Authenticate verify (authorityChecker (CAPublicKeys settings)) now meta
                 (CertificateKey cert) = Ok (cert_Permissions cert))
    by (apply Authenticate_Ok; eauto).
  rewrite Ha. unfold getUserFlags, time_after. rewrite Hl.
  rewrite bool_decide_false by lia. rewrite Hd. eauto.
Qed.

Lemma authenticate_uncached_disabled settings now after meta publicKey self (d : DB) self' d' r bg :
  meta_User meta <> PeerUser ->
  sql_true (users (db_tables d) !! meta_User meta ≫= disabled) = true ->
  authenticate_ settings now after meta publicKey (revokeUserFlags (meta_User meta) self) d =
    (self', d', r, bg) ->
  exists err, r = Err err.
Proof.
  intros Hp Hoff. unfold authenticate. rewrite decide_False by done.
  destruct (Authenticate _ _ _ _ _) as [p|]; [|intros; simplify_eq; eauto].
  rewrite getUserFlags_revoked.
  destruct (db_UpsertUserOnConnect _ _ _ _ _ d) as [d1 [user|]] eqn:Eu;
    [|intros; simplify_eq; eauto].
  apply db_Upsert_Ok in Eu as (_ & Hd & _). unfold sql_true in Hoff. rewrite Hoff in Hd.
  cbn [flags_disabled]. rewrite Hd. intros; simplify_eq; eauto.
Qed.

(** A kick does not reach a login in flight.  A background login has read
    an enabled account; then the account is disabled in the database and the
    user is kicked, which revokes the cached flags.  If the login had stored
    its flags before the kick, every further login would be refused; if it
    stores them after the kick, logins are accepted for the next minute
    without reading the database. *)
Theorem kick_misses_login_in_flight (settings : Settings) (t0 t1 now after : time)
    (meta : ConnMetadata) (cert : Certificate) (l : login)
    (self : flagsCache) (d d1 d2 : DB) (user : User) :
  meta_User meta <> PeerUser -> login_user l = meta_User meta ->
  db_UpsertUserOnConnect t0 (login_user l) (login_ip l) (login_location l)
    (AuthNodeID settings) d = (d1, Ok user) ->
  Disabled user = false ->
  sql_true (users (db_tables d2) !! meta_User meta ≫= disabled) = true ->
  cert_valid verify (CAPublicKeys settings) now (meta_User meta) cert ->
  now <= t1 + userFlagsTimeToLive ->
  let u := meta_User meta in
  let attempt self := authenticate_ settings now after meta (CertificateKey cert) self d2 in
  (recordLogin settings t0 t1 l self d).1 = putUserFlags t1 u user self /\
  (forall self' d' r bg,
     attempt (revokeUserFlags u (putUserFlags t1 u user self)) = (self', d', r, bg) ->
     exists err, r = Err err) /\
  (exists perms bg,
     attempt (putUserFlags t1 u user (revokeUserFlags u self)) =
       (putUserFlags t1 u user (revokeUserFlags u self), d2, Ok perms, Some bg)).
Proof.
  intros Hp Hl Hup Hen Hoff Hv Hnow u attempt. split; [|split].
  - unfold recordLogin. by rewrite Hup, Hl.
  - intros self' d' r bg. by apply authenticate_uncached_disabled.
  - apply (authenticate_cached settings now after meta cert (flagsOf t1 user)); try done.
    unfold putUserFlags. apply put_bounded_eq.
Qed.

(** ** Where a user is *)

(** The heartbeats of a node, one after the other, for a user connected to
    it. *)
Definition beats (node u : string) (at_ : list time) (t : tables) : tables :=
  foldl (fun t now => MarkUsersOnline now [u] node Gateway.onlineStaleThreshold t) t at_.

Lemma MarkUsersOnline_nodes now ids node stale t :
  nodes (MarkUsersOnline now ids node stale t) = nodes t.
Proof. unfold MarkUsersOnline. destruct ids; [done|]. by case_decide. Qed.

Lemma beats_keep node other u at_ t :
  node <> "" -> other <> "" ->
  (forall now, now ∈ at_ ->
     liveNode (time_add now (- Gateway.onlineStaleThreshold)) t other = true) ->
  GetUserNodeID u t = other -> GetUserNodeID u (beats node u at_ t) = other.
Proof.
  intros Hn Ho. revert t. induction at_ as [|now at_ IH]; intros t Hlive Hg; [done|].
  cbn [beats foldl]. apply IH.
  - intros x Hx. unfold liveNode. rewrite MarkUsersOnline_nodes. apply Hlive. set_solver.
  - unfold GetUserNodeID in *. rewrite MarkUsersOnline_lookup.
    destruct (users t !! u) as [row|]; [|congruence]. simpl.
    rewrite bool_decide_true by set_solver. rewrite decide_False by done.
    unfold markUserOnline. destruct (node_id row) as [n|] eqn:En;
      simpl in Hg; [|congruence]. subst n.
    assert (Hg : userNodeGone (time_add now (- Gateway.onlineStaleThreshold)) t row = false).
    { unfold userNodeGone. rewrite En, Hlive by set_solver. by rewrite bool_decide_false. }
    rewrite Hg. simpl. by rewrite En.
Qed.

Lemma Upsert_node now u address loc node t :
  sql_true (users t !! u ≫= disabled) = false ->
  GetUserNodeID u (UpsertUserOnConnect now u address loc node t).1 = node.
Proof.
  intros Hd. unfold GetUserNodeID, UpsertUserOnConnect. simpl. rewrite lookup_insert_eq.
  destruct (users t !! u) as [row|]; [|done]. simpl in *. by rewrite Hd.
Qed.

(** A login moves a user in the eyes of the mesh whether or not it becomes a
    connection.  After an accepted login at a node, or after the
    statement a cached login left to the background, the database places the
    user on that node, and the heartbeats of the node the user really is
    connected to do not take the user back as long as the other node is
    live. *)
Lemma login_moves_user (settings : Settings) (now after : time) (meta : ConnMetadata)
    (publicKey : PublicKey) (self self' : flagsCache) (d d' : DB) (home : string)
    (at_ : list time) :
  home <> "" -> AuthNodeID settings <> "" ->
  let moved (t : tables) :=
    (forall x, x ∈ at_ -> liveNode (time_add x (- Gateway.onlineStaleThreshold)) t
                            (AuthNodeID settings) = true) ->
    GetUserNodeID (meta_User meta) (beats home (meta_User meta) at_ t) = AuthNodeID settings in
  meta_User meta <> PeerUser ->
  (forall perms, authenticate_ settings now after meta publicKey self d =
                   (self', d', Ok perms, None) -> moved (db_tables d')) /\
  (forall l user, login_user l = meta_User meta ->
     sql_true (users (db_tables d) !! meta_User meta ≫= disabled) = false ->
     (db_UpsertUserOnConnect now (login_user l) (login_ip l) (login_location l)
        (AuthNodeID settings) d).2 = Ok user ->
     recordLogin settings now after l self d = (self', d') -> moved (db_tables d')).
Proof.
  intros Hh Hn moved Hp. split.
  - intros perms. unfold authenticate. rewrite decide_False by done.
    destruct (Authenticate _ _ _ _ _) as [p|]; [|done].
    destruct (getUserFlags now (meta_User meta) self) as [self1 [flags|]].
    { by destruct (flags_disabled flags). }
    destruct (db_UpsertUserOnConnect _ _ _ _ _ d) as [d1 [user|]] eqn:Eu; [|done].
    apply db_Upsert_Ok in Eu as (_ & Hd & Ht). cbn [flags_disabled].
    destruct (Disabled user); [done|]. intros [= _ <- _] Hlive.
    apply beats_keep; try done. rewrite Ht. by apply Upsert_node.
  - intros l user Hl Hd. unfold recordLogin. rewrite Hl.
    destruct (db_UpsertUserOnConnect _ _ _ _ _ d) as [d1 [row|]] eqn:Eu; [|done]. intros _.
    apply db_Upsert_Ok in Eu as (_ & _ & Ht). intros [= _ <-] Hlive.
    apply beats_keep; try done. rewrite Ht. by apply Upsert_node.
Qed.

(** a query moves a user.  Anyone who has a user's certificate, which is
    public, can ask a node whether it would accept it, and hang up.  Without a
    signature ever being made the handshake fails, yet the database then places
    the user on that node, and the heartbeats of the node the user really is
    connected to do not take the user back while the other node is live. *)
Theorem query_moves_user (settings : Settings) (now after : time)
    (ParsePublicKey : list byte -> result PublicKey) (Type_ : PublicKey -> string)
    (Verify : bool -> PublicKey -> list byte -> Handshake.Signature -> option error)
    (checkSourceAddress : string -> option error) (sessionID : list byte) (ip : string)
    (disconnectErr : option error) (user algo home : string) (data : list byte)
    (cert : Certificate) (account : User) (s : Handshake.shared (DB := DB)) (at_ : list time) :
  home <> "" -> AuthNodeID settings <> "" -> user <> PeerUser ->
  ParsePublicKey data = Ok (CertificateKey cert) ->
  cert_valid verify (CAPublicKeys settings) now user cert ->
  Handshake.underlyingAlgo algo ∈ Handshake.defaultPubKeyAuthAlgos ->
  len (Handshake.keyRequest user algo data None) < 4294967296 ->
  Handshake.flags s !! user = None ->
  (db_UpsertUserOnConnect now user ip (lookupLocation geoip_opened (geoip_city ip))
     (AuthNodeID settings) (Handshake.database s)).2 = Ok account ->
  Disabled account = false ->
  exists s' replies f,
    Handshake.authenticateConn verify geoip_opened geoip_city ParsePublicKey Type_ Verify
      checkSourceAddress sessionID ip disconnectErr settings
      [Handshake.Packet (fun s => s) now after (Handshake.keyRequest user algo data None) None;
       Handshake.ReadEOF] s = (s', replies, Handshake.Failed f) /\
    ((forall x, x ∈ at_ ->
        liveNode (time_add x (- Gateway.onlineStaleThreshold)) (db_tables (Handshake.database s'))
          (AuthNodeID settings) = true) ->
     GetUserNodeID user (beats home user at_ (db_tables (Handshake.database s'))) =
       AuthNodeID settings).
Proof.
  intros Hh Hn Hp Hk Hv Ha Hl Hf Hup Hen. unfold Handshake.authenticateConn.
  destruct (Handshake.serverAuthenticate_query
    (Handshake.authCallback verify geoip_opened geoip_city settings) ParsePublicKey Type_ Verify
    checkSourceAddress sessionID ip disconnectErr now after user algo data (CertificateKey cert) s
    Hk Ha Hl) as (replies & f & E).
  eexists _, replies, f. split; [exact E|]. unfold Handshake.authCallback, authenticate.
  rewrite decide_False by done. cbn [meta_User meta_IP].
  assert (Hc : Authenticate verify (authorityChecker (CAPublicKeys settings)) now
            {| meta_User := user; meta_IP := ip |} (CertificateKey cert) = Ok (cert_Permissions cert))
    by (apply Authenticate_Ok; eauto).
  rewrite Hc. unfold getUserFlags. rewrite Hf.
  destruct (db_UpsertUserOnConnect _ _ _ _ _ _) as [d1 [row|]] eqn:Eu; [|done].
  simpl in Hup. injection Hup as ->. cbn [flags_disabled flags_administrator]. rewrite Hen.
  cbn [fst Handshake.database]. apply db_Upsert_Ok in Eu as (_ & Hd & Ht). intros Hlive.
  apply beats_keep; [done..|]. rewrite Ht. apply Upsert_node. unfold sql_true. by rewrite <- Hd.
Qed.
End mesh.

(** ** Witnesses *)

(** The example account, with the node of the example settings alive. *)
Definition example_server : server :=
  {| srv_tables :=
       {| users := users (db_tables (Examples.database "alice" false));
          nodes := {["node-a" :=
            {| node_created_at := Some 0; node_modified_at := Some 0;
               node_address := Some "10.0.0.2:22"; node_host_public_key := Some "key";
               node_online := Some true; node_online_at := Some (90 * second) |}]} |};
     srv_schedule := [] |}.

Lemma example_cert_valid :
  cert_valid (fun _ => true) (CAPublicKeys Examples.settings) (100 * second) "alice"
    (Examples.certificate "user-ca" "alice" []).
Proof.
  split; simpl; try done.
  - set_solver.
  - right. set_solver.
  - by left.
Qed.

Lemma login_identity_witness :
  exists self' d' perms bg,
    Examples.login "alice" (CertificateKey (Examples.certificate "user-ca" "alice" []))
      ∅ (Examples.database "alice" false) = (self', d', Ok perms, bg) /\
    Conn.user (Conn.newConnection "1" "alice" "r" "l" (Extensions perms) (Usage.newUsage 0))
      = "alice".
Proof.
  destruct (Examples.login "alice" (CertificateKey (Examples.certificate "user-ca" "alice" []))
    ∅ (Examples.database "alice" false)) as [[[self' d'] [perms|e]] bg] eqn:E;
    [|vm_compute in E; discriminate E].
  exists self', d', perms, bg. split; [reflexivity|].
  destruct (login_identity (fun _ => true) false (fun _ => None) _ _ _
    (Examples.meta "alice") _ _ _ _ _ _ _ "1" "r" "l" (Usage.newUsage 0) E)
    as (cert & _ & _ & _ & Hu).
  apply Hu. discriminate.
Defined.

Lemma kick_misses_login_in_flight_witness :
  exists user perms bg,
    let self := putUserFlags (90 * second) "alice" user (revokeUserFlags "alice" ∅) in
    Examples.login "alice" (CertificateKey (Examples.certificate "user-ca" "alice" []))
      self (Examples.database "alice" true) =
    (self, Examples.database "alice" true, Ok perms, Some bg).
Proof.
  destruct (db_UpsertUserOnConnect (90 * second) "alice" "10.0.0.1" zeroLocation "node-a"
    (Examples.database "alice" false)) as [d1 [user|e]] eqn:E; [|vm_compute in E; discriminate E].
  exists user.
  destruct (kick_misses_login_in_flight (fun _ => true) false (fun _ => None) Examples.settings
    (90 * second) (90 * second) (100 * second) (100 * second) (Examples.meta "alice")
    (Examples.certificate "user-ca" "alice" [])
    {| login_user := "alice"; login_ip := "10.0.0.1"; login_location := zeroLocation |} ∅
    (Examples.database "alice" false) d1 (Examples.database "alice" true) user)
    as (_ & _ & Hok); [discriminate|reflexivity|exact E| | | | |exact Hok].
  - vm_compute in E. by injection E as _ <-.
  - vm_compute. reflexivity.
  - apply example_cert_valid.
  - vm_compute. discriminate.
Defined.

Lemma query_moves_user_witness :
  exists s' replies f,
    Handshake.example_handshake "alice" (Examples.certificate "user-ca" "alice" [])
      [Handshake.example_request "alice" None; Handshake.ReadEOF] example_server =
      (s', replies, Handshake.Failed f) /\
    GetUserNodeID "alice" (beats "node-h" "alice" [110 * second; 120 * second]
      (db_tables (Handshake.database s'))) = "node-a".
Proof.
  destruct (db_UpsertUserOnConnect (100 * second) "alice" "10.0.0.1" zeroLocation "node-a"
    example_server) as [d1 [account|e]] eqn:E; [|vm_compute in E; discriminate E].
  destruct (query_moves_user (fun _ => true) false (fun _ => None) Examples.settings
    (100 * second) (100 * second) (fun _ => Ok (CertificateKey (Examples.certificate "user-ca" "alice" [])))
    (fun _ => Handshake.CertAlgoED25519v01) (fun _ _ _ _ => None)
    (fun _ => Some (Foreign "not allowed")) (bytes_of_string "session") "10.0.0.1" None "alice"
    Handshake.CertAlgoED25519v01 "node-h" (bytes_of_string "key")
    (Examples.certificate "user-ca" "alice" []) account
    {| Handshake.flags := ∅; Handshake.database := example_server; Handshake.background := [] |}
    [110 * second; 120 * second]) as (s' & replies & f & Eh & Hm).
  1-3: discriminate.
  1: reflexivity.
  1: apply example_cert_valid.
  1: apply (bool_decide_unpack _); vm_compute; reflexivity.
  1: vm_compute; reflexivity.
  1: reflexivity.
  1: exact (f_equal snd E).
  1: vm_compute in E; by injection E as _ <-.
  exists s', replies, f. split; [exact Eh|]. apply Hm. vm_compute in Eh. injection Eh as <- _ _.
  intros x Hx. apply elem_of_cons in Hx as [->|Hx]; [vm_compute; reflexivity|].
  apply list_elem_of_singleton in Hx as ->. vm_compute. reflexivity.
Defined.
End Mesh.
