(* ===== verification/Reach.v ===== *)
(** * Reaching a service through the mesh

    The components together: a user connects to one node and offers a service
    there ([gateway/connection.go]), the login places the user on that node in
    the database ([db/users.go]), and a client of another node asks for the
    service by name ([gateway/connection.go] and [gateway/gateway.go] of both
    nodes). *)

From stdpp Require Import base list sets strings gmap fin_maps option relations.
From Stdlib Require Import ZArith Lia.
From Stdlib Require Import Strings.Byte.
From S2P Require Import Prelude GoStrings Bytes Wire RouteCache Usage Models Database Connection.
From S2P Require Import Registry Peers Routing Gateway Channels Mesh.

#[local] Open Scope Z_scope.

Module Reach.
Import Routing Channels.

Section reach.
Context {DB : Type} `{Executor DB}.

(** The name under which a client asks for a service of a user. *)
Definition named (host service user : string) : Prop :=
  (service = "" /\ host = user) \/ host = service +:+ String dot user.

(** The cache holds what the database says. *)
Definition routes_current (g : gateway DB) : Prop :=
  forall now user node, RouteCache.get now user (routes g) = Some node ->
    node = GetUserNodeID user (db_tables (database g)).

Lemma nodeOf_current g now user :
  routes_current g ->
  nodeOf (routes g) (db_tables (database g)) now user = GetUserNodeID user (db_tables (database g)).
Proof.
  intros Hr. unfold nodeOf. destruct (RouteCache.get now user (routes g)) as [node|] eqn:E; [|done].
  exact (Hr now user node E).
Qed.

Lemma firstPeer_only self known r t clock users u p :
  u ∈ users -> (forall now, peerOf self known r t now u = Some p) ->
  (forall now v, v ∈ users -> v <> u -> peerOf self known r t now v = None) ->
  firstPeer self known r t clock users = Some p.
Proof.
  intros Hin Hu Hother. revert clock. induction users as [|v users IH]; intros clock;
    [by apply not_elem_of_nil in Hin|]. cbn [firstPeer].
  destruct (decide (v = u)) as [->|Hne]; [by rewrite Hu|].
  rewrite Hother by set_solver. apply IH; [set_solver|]. intros. apply Hother; set_solver.
Qed.

(** A node finds the peer that the database names. *)
Lemma lookupRemotePeer_finds settings clock host service u node p g :
  reliable DB -> NodeID settings <> "" -> u <> "" -> named host service u ->
  routes_current g -> GetUserNodeID u (db_tables (database g)) = node ->
  node <> "" -> node <> NodeID settings -> peers g !! node = Some p ->
  (forall v, v ∈ map snd (candidates host) -> v <> u ->
     GetUserNodeID v (db_tables (database g)) = "") ->
  (lookupRemotePeer settings clock host g).2 = Some p.
Proof.
  intros R Hs Hu Hname Hr Hn Hne Hself Hp Hother. unfold lookupRemotePeer.
  rewrite decide_False by done.
  pose proof (lookupRemoteUsers_spec (NodeID settings) (peers g) clock (map snd (candidates host))
                (routes g) (database g) (NoDup_candidate_users host)) as S.
  destruct (lookupRemoteUsers _ _ _ _ _ _) as [[r d] found]. destruct S as (_ & _ & _ & ->); [cbn|].
  - apply (firstPeer_only _ _ _ _ _ _ u).
    + apply list_elem_of_fmap. exists (service, u). split; [done|].
      apply elem_of_candidates. destruct Hname as [[-> ->]| ->]; auto.
    + intros now. unfold peerOf. rewrite decide_False by done. rewrite nodeOf_current by done.
      rewrite Hn, decide_False by naive_solver. exact Hp.
    + intros now v Hv Hvu. unfold peerOf. case_decide; [done|]. rewrite nodeOf_current by done.
      rewrite Hother by done. by rewrite decide_True by (by left).
  - intros A q d'. by destruct (query_reliable q d' R).
Qed.

(** A node that has a connection of the user with the service serves the name,
    from a connection that offers a service under it. *)
Lemma lookup_finds (g : gateway DB) host service u port c :
  Registry.wf (connections g) (registry g) -> named host service u ->
  c ∈ Registry.connectionsList (registry g) -> Registry.userOf (connections g) c = u ->
  Conn.lookupService service port (connections g !!! c) = true ->
  exists c' service',
    Registry.lookupConnectionService (connections g) host port (registry g) =
      Some (c', service', port) /\
    c' ∈ Registry.connectionsList (registry g) /\
    named host service' (Registry.userOf (connections g) c') /\
    Conn.lookupService service' port (connections g !!! c') = true.
Proof.
  intros Hwf Hname Hc Hu Hs.
  destruct (Registry.lookupConnectionService (connections g) host port (registry g))
    as [[[c' service'] port']|] eqn:E.
  - destruct (Registry.lookupConnectionService_Some _ _ _ _ _ _ _ Hwf E) as (-> & Hc' & Hs' & Hn').
    by exists c', service'.
  - pose proof (Registry.lookupConnectionService_None _ _ host port c service Hwf E Hc) as Hn.
    rewrite Hu, Hs in Hn. by specialize (Hn Hname).
Qed.

(** The two nodes of a tunnel: the client's and the service's. *)
Record mesh := {
  here : Settings;                 (* the client's node *)
  client : Conn.connection;        (* the connection the request comes on *)
  gateway_here : gateway DB;
  there : Settings;                (* the node the user is on *)
  link : Conn.connection;          (* the connection of the client's node there *)
  gateway_there : gateway DB;
}.

(** The database places the user on the other node, the client's node has a
    peer for it and knows no other node for the name, and the client may
    forward ports. *)
Record routed (m : mesh) (host service u : string) (p : positive) : Prop := {
  r_reliable : reliable DB;
  r_mesh : NodeID (here m) <> "" /\ NodeID (there m) <> "" /\ NodeID (there m) <> NodeID (here m);
  r_user : u <> "" /\ named host service u;
  r_placed : GetUserNodeID u (db_tables (database (gateway_here m))) = NodeID (there m);
  r_others : forall v, v ∈ map snd (candidates host) -> v <> u ->
    GetUserNodeID v (db_tables (database (gateway_here m))) = "";
  r_current : routes_current (gateway_here m);
  r_peer : peers (gateway_here m) !! NodeID (there m) = Some p;
  r_client : Conn.nodeId (client m) = "" /\ Conn.permitPortForwarding (client m) = true;
  r_link : Conn.nodeId (link m) <> "";
}.

(** The other node has a connection of the user that offers the service. *)
Record offered (m : mesh) (service u : string) (port : Z) : Prop := {
  o_wf : Registry.wf (connections (gateway_there m)) (registry (gateway_there m));
  o_connection : exists c, c ∈ Registry.connectionsList (registry (gateway_there m)) /\
    Registry.userOf (connections (gateway_there m)) c = u /\
    Conn.lookupService service port (connections (gateway_there m) !!! c) = true;
}.

End reach.

(** ** Alice is on node-a, carol on node-b *)

Definition example_here : gateway tables :=
  {| database := example_tables; connections := connections example_gateway;
     registry := registry example_gateway; peerHeap := peerHeap example_gateway;
     peers := peers example_gateway; routes := RouteCache.newRouteCache |}.

Definition example_there : gateway tables :=
  {| database := example_tables;
     connections := {[1%positive := Registry.example_connection "carol" [("web", 80)]]};
     registry := Registry.addConnection
       {[1%positive := Registry.example_connection "carol" [("web", 80)]]} 1%positive
       Registry.emptyRegistry;
     peerHeap := ∅; peers := ∅; routes := RouteCache.newRouteCache |}.

Definition example_mesh : mesh (DB := tables) :=
  {| here := example_settings; client := example_user; gateway_here := example_here;
     there := Gateway.example_settings_b; link := example_peer; gateway_there := example_there |}.

Lemma example_routed : routed example_mesh "web.carol" "web" "carol" 1%positive.
Proof.
  split.
  - exact tables_reliable.
  - split_and!; discriminate.
  - split; [discriminate|]. by right.
  - vm_compute. reflexivity.
  - assert (E : map snd (candidates "web.carol") = ["web.carol"; "carol"]) by (vm_compute; reflexivity).
    rewrite E. intros v Hv Hne. set_unfold in Hv. destruct_or! Hv; subst; [|done].
    vm_compute. reflexivity.
  - intros now user node. cbn. unfold RouteCache.get, RouteCache.newRouteCache. by rewrite lookup_empty.
  - vm_compute. reflexivity.
  - split; vm_compute; reflexivity.
  - discriminate.
Qed.

Lemma example_offered : offered example_mesh "web" "carol" 80.
Proof.
  split.
  - apply (rtc_invariant Registry.step (fun s => Registry.wf s.1 s.2) (∅, Registry.emptyRegistry)
      (connections example_there, registry example_there) Registry.wf_empty Registry.step_wf).
    eapply rtc_l; [apply (Registry.step_add _ _ 1%positive); reflexivity|]. apply rtc_refl.
  - exists 1%positive. split; [apply (bool_decide_unpack _); vm_compute; exact I|].
    split; vm_compute; reflexivity.
Qed.

End Reach.
