(* ===== verification/Cli.v ===== *)
(** * The command line, [cli/flags.go], [cli/run.go] and [cli/http.go]

    How [run] turns the flags and the files they name into the settings of
    the other components, the HTTP interface, and how the process starts and
    ends.  Files, listeners and the decoding of keys answer through
    parameters. *)

From stdpp Require Import base list strings gmap fin_maps option sets relations.
From Stdlib Require Import ZArith Lia Ascii.
From S2P Require Import Prelude GoStrings Bytes Wire Models Database Certs Auth.
From S2P Require Import Keys SshConfig Dsn Connection Registry Peers Routing Gateway Nodes Channels.
From S2P Require Import Durations.

#[local] Open Scope Z_scope.

Module Cli.

(** ** Flags *)

(** The values of the flags. *)
Record command := {
  log_level : string;
  log_format : string;
  listen_debug : string;
  listen_ssh : string;
  listen_http : string;
  listen_socks : string;
  listen_http_proxy : string;
  ca_public_key : string;
  host_public_key : string;
  host_private_key : string;
  server_version : string;
  idle_timeout : string;
  geoip_database : string;
  postgres_host : string;
  postgres_port : Z;
  postgres_user : string;
  postgres_password : string;
  postgres_password_file : string;
  postgres_dbname : string;
  postgres_sslmode : string;
  postgres_peer : string;
  postgres_peer_host_public_key : string;
  node_id : string;
  node_address : string;
  node_certificate : string;
  peer_ca_public_key : string;
  root_version : string;       (* command.Root().Version *)
}.

Definition flags (version : string) : command :=
  {| log_level := "DEBUG";
     log_format := "%{color}%{time:2006-01-02T15:04:05.000-07:00} [%{level:.4s}] " +:+
                   "[%{shortfile} %{shortfunc}] %{message}%{color:reset}";
     listen_debug := "127.0.0.1:6080"; listen_ssh := ":2020"; listen_http := "127.0.0.1:2080";
     listen_socks := ""; listen_http_proxy := ""; ca_public_key := "id_rsa.ca.pub";
     host_public_key := "id_rsa.pub"; host_private_key := "id_rsa";
     server_version := "SSH-2.0-gatewaysshd"; idle_timeout := "600s";
     geoip_database := "geoip.mmdb"; postgres_host := "127.0.0.1"; postgres_port := 5432;
     postgres_user := "gatewaysshd"; postgres_password := "gatewaysshd";
     postgres_password_file := ""; postgres_dbname := "gatewaysshd"; postgres_sslmode := "disable";
     postgres_peer := ""; postgres_peer_host_public_key := ""; node_id := ""; node_address := "";
     node_certificate := ""; peer_ca_public_key := ""; root_version := version |}.

Section run.

(** The file system and the decoding of keys. *)
Context (readFile : string -> result string).
Context (marshalCertificate certificateType : Certificate -> string).
Context (ParsePublicKey : string -> result PublicKey).
Context (ParsePrivateKey : string -> result SshConfig.Signer).

(** ** Files *)

Abbreviation Marshal_ := (Marshal marshalCertificate).
Abbreviation parsePublicKeys_ := (parsePublicKeys ParsePublicKey readFile).
Abbreviation NewCertSigner_ := (SshConfig.NewCertSigner marshalCertificate).

(** The key of a file that starts with one. *)
Definition readKey (path : string) : result PublicKey :=
  let! raw := readFile path in
  let! (key, _, _, _) := ParseAuthorizedKey ParsePublicKey raw in
  Ok key.

Definition readPrivateKey (path : string) : result SshConfig.Signer :=
  let! raw := readFile path in ParsePrivateKey raw.

Definition parseNodeSigner (c : command) : result (option SshConfig.Signer) :=
  let certificatePath := node_certificate c in
  if decide (certificatePath = "") then Ok None
  else
    let! hostPrivateKey := readPrivateKey (host_private_key c) in
    let! certificatePublicKey := readKey certificatePath in
    match certificatePublicKey with
    | CertificateKey certificate =>
        let! signer := NewCertSigner_ certificate hostPrivateKey in Ok (Some signer)
    | PlainKey _ => Err (Errorf "cli: node certificate file %q does not contain a certificate")
    end.

Definition parseCaPublicKeys (c : command) : result (list PublicKey) :=
  parsePublicKeys_ (ca_public_key c).

Definition parseHostSigner (c : command) : result SshConfig.Signer :=
  let! hostPrivateKey := readPrivateKey (host_private_key c) in
  let! hostPublicKey := readKey (host_public_key c) in
  match hostPublicKey with
  | CertificateKey hostCertificate => NewCertSigner_ hostCertificate hostPrivateKey
  | PlainKey _ => Ok hostPrivateKey
  end.

Definition parseIdleTimeout (c : command) : result duration :=
  Durations.ParseDuration (idle_timeout c).

(** [strings.TrimRight(s, "\r\n")] *)
Fixpoint trimLineEnds (s : string) : string :=
  match s with
  | EmptyString => ""
  | String a s' =>
      let rest := trimLineEnds s' in
      if (bool_decide (a = newline) || bool_decide (a = return_)) && bool_decide (rest = "")
      then "" else String a rest
  end.

Definition parsePostgresPassword (c : command) : result string :=
  let path := postgres_password_file c in
  if decide (path = "") then Ok (postgres_password c)
  else let! raw := readFile path in Ok (trimLineEnds raw).

(** ** Settings *)

Definition formatHostPort (host : string) (port : Z) : string :=
  host +:+ String ":"%char (formatUint32 port).

Definition databaseSettings (c : command) (nodeSigner : option SshConfig.Signer)
    : result Dsn.Settings :=
  let pgPort := postgres_port c in
  if decide (pgPort > 65535) then
    Err (Errorf ("cli: postgres port " +:+ formatUint64 pgPort +:+ " is out of range (max 65535)"))
  else
    let! postgresPassword := parsePostgresPassword c in
    let! (peerSigner, peerKey) :=
      if decide (postgres_peer c <> "") then
        match nodeSigner with
        | None => Err (Errorf "cli: postgres-peer requires node-certificate")
        | Some signer =>
            match parsePublicKeys_ (postgres_peer_host_public_key c) with
            | Ok (pinnedHostKey :: _) => Ok (Some signer, Some pinnedHostKey)
            | _ => Err (Errorf "cli: postgres-peer requires postgres-peer-host-public-key")
            end
        end
      else Ok (None, None) in
    Ok {| Dsn.Host := postgres_host c; Dsn.Port := uint16 pgPort; Dsn.User := postgres_user c;
          Dsn.Password := postgresPassword; Dsn.DatabaseName := postgres_dbname c;
          Dsn.SSLMode := postgres_sslmode c; Dsn.PeerAddress := postgres_peer c;
          Dsn.PeerSigner := peerSigner; Dsn.PeerHostPublicKey := peerKey |}.

Definition authSettings (c : command) (caPublicKeys peerCaPublicKeys : list PublicKey)
    : Auth.Settings :=
  {| Auth.CAPublicKeys := map Marshal_ caPublicKeys;
     Auth.PeerCAPublicKeys := map Marshal_ peerCaPublicKeys;
     Auth.AuthNodeID := node_id c |}.

(** The settings of the gateway; the host key is kept in the form it is
    published in. *)
Definition gatewaySettings (c : command) (hostSigner : SshConfig.Signer)
    (nodeSigner : option SshConfig.Signer) : Routing.Settings :=
  let postgresAddress :=
    if decide (postgres_peer c = "") then formatHostPort (postgres_host c) (postgres_port c)
    else "" in
  let hostPublicKey := SshConfig.hostKeyOf (SshConfig.signer_PublicKey hostSigner) in
  {| Routing.Version := root_version c; Routing.NodeID := node_id c;
     Routing.NodeAddress := node_address c;
     Routing.HostPublicKey :=
       Some (MarshalAuthorizedKey marshalCertificate certificateType hostPublicKey);
     Routing.NodeSigner := bool_decide (nodeSigner <> None);
     Routing.PostgresAddress := postgresAddress;
     Routing.PeerDiscoveryInterval := 0; Routing.RevokeLoginFlags := true |}.

(** ** Starting *)

(** Listeners, the database server and the registration answer with an error
    or not; [pgx] are the checks of [pgx.ParseConfig]. *)
Context (debugServer listen : string -> option error).
Context (pgx : gmap string string -> option error) (gormOpen : Dsn.dialector -> option error).
Context (migrate : option error) (gatewayOpen : Routing.Settings -> option error).

Inductive service := Ssh | Http | SocksProxy | HttpProxy.

(** What [run] has set up when it starts to serve. *)
Record node := {
  run_listeners : list (service * string);
  run_idleTimeout : duration;
  run_database : Dsn.database;
  run_auth : Auth.Settings;
  run_crypto : SshConfig.Config;
  run_serverVersion : string;
  run_hostSigner : SshConfig.Signer;
  run_nodeSigner : option SshConfig.Signer;
  run_gateway : Routing.Settings;
}.

Definition check (e : option error) : result unit :=
  match e with None => Ok tt | Some err => Err err end.

(** A listener that is configured only when its endpoint is given. *)
Definition listenOptional (kind : service) (endpoint : string) : result (list (service * string)) :=
  if decide (endpoint = "") then Ok []
  else let! _ := check (listen endpoint) in Ok [(kind, endpoint)].

(** [run] up to the goroutines that serve. *)
Definition start (c : command) : result node :=
  let! _ := if decide (listen_debug c = "") then Ok tt else check (debugServer (listen_debug c)) in
  let! caPublicKeys := parseCaPublicKeys c in
  let! hostSigner := parseHostSigner c in
  let! idleTimeout := parseIdleTimeout c in
  let! peerCaPublicKeys :=
    if decide (peer_ca_public_key c = "") then Ok [] else parsePublicKeys_ (peer_ca_public_key c) in
  let! nodeSigner := parseNodeSigner c in
  let! _ := check (listen (listen_ssh c)) in
  let! http := listenOptional Http (listen_http c) in
  let! socks := listenOptional SocksProxy (listen_socks c) in
  let! proxy := listenOptional HttpProxy (listen_http_proxy c) in
  let! settings := databaseSettings c nodeSigner in
  let! database := Dsn.Open pgx gormOpen settings in
  let! _ := check migrate in
  let gateway := gatewaySettings c hostSigner nodeSigner in
  let! _ := check (gatewayOpen gateway) in
  Ok {| run_listeners := (Ssh, listen_ssh c) :: http ++ socks ++ proxy;
        run_idleTimeout := idleTimeout; run_database := database;
        run_auth := authSettings c caPublicKeys peerCaPublicKeys;
        run_crypto := SshConfig.ApplySSHCryptoConfig SshConfig.unsetConfig;
        run_serverVersion := server_version c; run_hostSigner := hostSigner;
        run_nodeSigner := nodeSigner; run_gateway := gateway |}.

(** ** Lemmas *)

(** [ParsePrivateKey] gives the key pair itself, not a certificate for it. *)
Hypothesis ParsePrivateKey_plain : forall raw signer,
  ParsePrivateKey raw = Ok signer -> exists blob, SshConfig.signer_PublicKey signer = PlainKey blob.

Lemma parseHostSigner_key c hostSigner :
  parseHostSigner c = Ok hostSigner ->
  exists key, readPrivateKey (host_private_key c) = Ok key
    /\ SshConfig.hostKeyOf (SshConfig.signer_PublicKey hostSigner) = SshConfig.signer_PublicKey key.
Proof.
  unfold parseHostSigner. intros E. apply result_bind_Ok in E as (key & Hk & E).
  exists key. split; [done|]. unfold readPrivateKey in Hk.
  apply result_bind_Ok in Hk as (raw & _ & [blob Hb]%ParsePrivateKey_plain).
  apply result_bind_Ok in E as ([blob'|cert] & _ & E); [injection E as <-; by rewrite Hb|].
  unfold SshConfig.NewCertSigner in E. rewrite Hb in E. simpl in E. case_decide as Hc; [done|].
  injection E as <-. simpl. rewrite Hb. f_equal. destruct (decide (cert_Key cert = blob)); tauto.
Qed.

Lemma parseNodeSigner_key c signer :
  parseNodeSigner c = Ok (Some signer) ->
  exists key cert, readPrivateKey (host_private_key c) = Ok key
    /\ SshConfig.signer_PublicKey signer = CertificateKey cert
    /\ cert_Key cert = Marshal_ (SshConfig.signer_PublicKey key).
Proof.
  unfold parseNodeSigner. case_decide; [done|]. intros E.
  apply result_bind_Ok in E as (key & Hk & E).
  apply result_bind_Ok in E as ([blob|cert] & _ & E); [done|].
  apply result_bind_Ok in E as (s & Hs & [= <-]). unfold SshConfig.NewCertSigner in Hs.
  case_decide as Hc; [done|]. injection Hs as <-. exists key, cert. split_and!; [done..|].
  destruct (decide (cert_Key cert = Marshal_ (SshConfig.signer_PublicKey key))); tauto.
Qed.

Lemma databaseSettings_spec c nodeSigner settings :
  0 <= postgres_port c ->
  databaseSettings c nodeSigner = Ok settings ->
  Dsn.Port settings = postgres_port c /\ postgres_port c <= 65535
  /\ parsePostgresPassword c = Ok (Dsn.Password settings)
  /\ Dsn.PeerAddress settings = postgres_peer c
  /\ (postgres_peer c <> "" ->
      Dsn.PeerSigner settings = nodeSigner /\ is_Some nodeSigner
      /\ is_Some (Dsn.PeerHostPublicKey settings)).
Proof.
  intros Hp. unfold databaseSettings. case_decide as Hport; [done|]. intros E.
  apply result_bind_Ok in E as (password & Hpw & E).
  apply result_bind_Ok in E as ([signer key] & Hs & [= <-]). simpl. rewrite uint16_small by lia.
  split_and!; [done|lia|done..|]. intros Hpeer. rewrite decide_True in Hs by done.
  destruct nodeSigner as [s|]; [|done]. destruct (parsePublicKeys_ _) as [[|k ks]|]; [done| |done].
  injection Hs as <- <-. eauto.
Qed.

(** The idle timeout is a duration of 64 bits, and the one the text says: a
    sum of whole numbers of units, such as [1h30m] or its negation, is read to
    its exact value, and the node does not start where that does not fit. *)
Theorem parseIdleTimeout_spec (c : command) (neg : bool) (terms : list (Z * string)) :
  terms <> [] -> Forall Durations.term terms ->
  idle_timeout c = (if neg then "-" else "") +:+ Durations.sumText terms ->
  let d := if neg then - Durations.sumValue terms else Durations.sumValue terms in
  if decide (minInt64 <= d <= maxInt64)
  then parseIdleTimeout c = Ok d
  else forall n, start c <> Ok n.
Proof.
  intros Hne Hts E d. pose proof (Durations.ParseDuration_sum neg terms Hne Hts) as Hp. fold d in Hp.
  unfold start, parseIdleTimeout. rewrite E. cbv zeta in Hp. rewrite Hp.
  destruct (decide (minInt64 <= d <= maxInt64)) as [|_]; [done|].
  intros n Hs. do 3 (apply result_bind_Ok in Hs as (? & _ & Hs)). done.
Qed.

Lemma formatHostPort_not_nil host port : formatHostPort host port <> "".
Proof. unfold formatHostPort. by destruct host. Qed.

(** The parts of a successful start. *)
Lemma start_inv c n :
  start c = Ok n ->
  exists cas hostSigner peerCas nodeSigner settings,
    parseCaPublicKeys c = Ok cas /\ parseHostSigner c = Ok hostSigner
    /\ (if decide (peer_ca_public_key c = "") then Ok []
        else parsePublicKeys_ (peer_ca_public_key c)) = Ok peerCas
    /\ parseNodeSigner c = Ok nodeSigner /\ databaseSettings c nodeSigner = Ok settings
    /\ Dsn.Open pgx gormOpen settings = Ok (run_database n)
    /\ run_auth n = authSettings c cas peerCas
    /\ run_gateway n = gatewaySettings c hostSigner nodeSigner
    /\ run_nodeSigner n = nodeSigner.
Proof.
  intros E. unfold start in E.
  apply result_bind_Ok in E as ([] & _ & E). apply result_bind_Ok in E as (cas & Hcas & E).
  apply result_bind_Ok in E as (hostSigner & Hhost & E). apply result_bind_Ok in E as (idle & _ & E).
  apply result_bind_Ok in E as (peerCas & Hpeer & E).
  apply result_bind_Ok in E as (nodeSigner & Hnode & E). apply result_bind_Ok in E as ([] & _ & E).
  apply result_bind_Ok in E as (http & _ & E). apply result_bind_Ok in E as (socks & _ & E).
  apply result_bind_Ok in E as (proxy & _ & E). apply result_bind_Ok in E as (settings & Hset & E).
  apply result_bind_Ok in E as (db & Hdb & E). apply result_bind_Ok in E as ([] & _ & E).
  apply result_bind_Ok in E as ([] & _ & [= <-]). simpl.
  by exists cas, hostSigner, peerCas, nodeSigner, settings.
Qed.

(** What [run] configures when it gets to serving.  User and peer
    certificates are checked against exactly the keys of the two files (none
    for peers when no file is given); the host key that peers pin is that of
    the host's private key, also when the host presents a certificate; the
    node's own certificate is for the same key; a tunnelled database
    connection always has a signer and a pinned key, and such a node does not
    offer postgres to its peers; the database port is the configured one and
    did not wrap. *)
Theorem start_settings (c : command) (n : node) :
  0 <= postgres_port c -> start c = Ok n ->
  (exists cas, parsePublicKeys_ (ca_public_key c) = Ok cas
     /\ Auth.CAPublicKeys (run_auth n) = map Marshal_ cas)
  /\ (exists cas, (if decide (peer_ca_public_key c = "") then cas = []
                   else parsePublicKeys_ (peer_ca_public_key c) = Ok cas)
     /\ Auth.PeerCAPublicKeys (run_auth n) = map Marshal_ cas)
  /\ (exists key, readPrivateKey (host_private_key c) = Ok key
     /\ Routing.HostPublicKey (run_gateway n) = Some (MarshalAuthorizedKey marshalCertificate
          certificateType (SshConfig.signer_PublicKey key))
     /\ (forall signer, run_nodeSigner n = Some signer -> exists cert,
          SshConfig.signer_PublicKey signer = CertificateKey cert
          /\ cert_Key cert = Marshal_ (SshConfig.signer_PublicKey key)))
  /\ (Routing.PostgresAddress (run_gateway n) = "" <-> postgres_peer c <> "")
  /\ match Dsn.source (run_database n) with
     | Dsn.Direct text => postgres_peer c = ""
         /\ exists settings, text = Dsn.dsn settings /\ Dsn.Port settings = postgres_port c
     | Dsn.ViaPeer _ address signer pinned =>
         address = postgres_peer c /\ address <> "" /\ signer = run_nodeSigner n
         /\ is_Some signer /\ is_Some pinned
     end
  /\ postgres_port c <= 65535.
Proof.
  intros Hport E. apply start_inv in E
    as (cas & hostSigner & peerCas & nodeSigner & settings & Hcas & Hhost & Hpeer & Hnode & Hset & Hdb
        & -> & -> & ->). simpl.
  apply databaseSettings_spec in Hset as (Hp & Hmax & _ & Haddr & Hvia); [|done].
  apply parseHostSigner_key in Hhost as (key & Hkey & Hhk). split_and!.
  - eauto.
  - exists peerCas. split; [|done]. case_decide; [by injection Hpeer|done].
  - exists key. rewrite Hhk. split_and!; [done..|]. intros signer ->.
    apply parseNodeSigner_key in Hnode as (key' & cert & Hkey' & Hc & Hk).
    rewrite Hkey in Hkey'. injection Hkey' as <-. eauto.
  - clear Hpeer. case_decide as Hpp; [|by split]. split; [by intros ?%formatHostPort_not_nil|done].
  - apply Dsn.Open_source in Hdb as [[He ->]|(Hne & config & _ & ->)]; rewrite Haddr in *; [eauto|].
    by destruct (Hvia Hne) as (-> & Hs1 & Hs2); split_and!.
  - done.
Qed.

(** C12: A peer accepts exactly this node.  When a node that was started from
    its key files has registered, another node that discovers it dials it as
    the user [peer] and accepts a server if and only if it presents the key of
    the registered node's private key, or a certificate for it. *)
Theorem peer_pins_host_key {DB : Type} `{Executor DB} (c : command) (n : node)
    (key signer : SshConfig.Signer) (settings : Routing.Settings) (now registered_at : time)
    (gA gB : Routing.gateway DB) :
  start c = Ok n -> node_id c <> "" ->
  readPrivateKey (host_private_key c) = Ok key ->
  documented marshalCertificate certificateType ParsePublicKey (SshConfig.signer_PublicKey key) ->
  reliable DB -> Routing.NodeSigner settings = true ->
  db_tables (Routing.database gA) =
    db_tables (Routing.database (Gateway.registerNode (run_gateway n) registered_at true gB).1) ->
  exists nodes, (Gateway.discoverPeers settings now gA).2 = Ok nodes
    /\ forall peer, peer ∈ nodes -> Node_ID peer = node_id c ->
       exists config,
         SshConfig.peerClientConfig marshalCertificate ParsePublicKey signer
           (Node_HostPublicKey peer) = Ok config
         /\ SshConfig.User config = "peer"
         /\ forall hostname offered, SshConfig.HostKeyCallback config hostname offered = None <->
              Marshal_ (SshConfig.hostKeyOf offered) = Marshal_ (SshConfig.signer_PublicKey key).
Proof.
  intros Hst Hid Hkey Hdoc R Hsig Ht. apply start_inv in Hst
    as (cas & hostSigner & peerCas & nodeSigner & dbs & _ & Hhost & _ & _ & _ & _ & _ & Hg & _).
  apply parseHostSigner_key in Hhost as (key' & Hkey' & Hhk).
  rewrite Hkey in Hkey'. injection Hkey' as <-. rewrite Hg in Ht.
  destruct (Gateway.discoverPeers_registered settings (gatewaySettings c hostSigner nodeSigner) now
    registered_at true gA gB R Hid Hsig Ht) as (nodes & Hok & Hrow & _).
  exists nodes. split; [exact Hok|]. intros peer Hin Hpid.
  destruct (Hrow peer Hin Hpid) as [_ Hk]. simpl in Hk. rewrite Hhk in Hk.
  unfold SshConfig.peerClientConfig. rewrite Hk, <- (append_nil (MarshalAuthorizedKey _ _ _)).
  rewrite ParseAuthorizedKey_marshal by done. eexists. split; [reflexivity|]. split; [done|].
  intros hostname offered. apply SshConfig.CheckPinnedHostKey_spec.
Qed.

Lemma postgresTunnelData_decodes :
  unmarshalTunnelData (marshalTunnelData postgresTunnelData) = Ok postgresTunnelData.
Proof. vm_compute. reflexivity. Qed.

(** The database is reached through at most one peer.  The channel that
    [dialPostgresViaPeer] asks a peer for is bridged to the database of the
    peer, at the host and port of its flags, if the peer has a direct
    connection; a peer that itself tunnels its database refuses the channel
    and drops the connection, so tunnels do not chain. *)
Theorem postgres_one_hop {DB : Type} `{Executor DB} (c : command) (n : node)
    (clock : nat -> time) (closeErr : option error) (self : Conn.connection)
    (g : Routing.gateway DB) :
  start c = Ok n -> Conn.nodeId self <> "" ->
  Channels.handleChannel (run_gateway n) clock None closeErr
    {| Channels.ChannelType := "direct-tcpip";
       Channels.ExtraData := marshalTunnelData postgresTunnelData |} self g =
  if decide (postgres_peer c = "") then
    (g, [Channels.Accepted; Channels.StartDiscard;
         Channels.StartPostgres (formatHostPort (postgres_host c) (postgres_port c))], None)
  else (g, [], Some Conn.ErrPermissionDenied).
Proof.
  intros Hst Hid. apply start_inv in Hst
    as (cas & hostSigner & peerCas & nodeSigner & dbs & _ & _ & _ & _ & _ & _ & _ & -> & _).
  unfold Channels.handleChannel. cbn [Channels.ChannelType].
  rewrite decide_False, decide_True by done. unfold Channels.handleTunnelChannel. cbn [Channels.ExtraData].
  rewrite postgresTunnelData_decodes. rewrite decide_True by done.
  unfold Channels.handlePostgresChannel. rewrite decide_False by done.
  cbn [Routing.PostgresAddress gatewaySettings]. destruct (decide (postgres_peer c = "")).
  - by rewrite decide_False by apply formatHostPort_not_nil.
  - by rewrite decide_True.
Qed.

End run.

(** ** A node that starts *)

Definition example_key_text : string :=
  MarshalAuthorizedKey no_certificate no_certificate example_key.

Definition example_files (path : string) : result string :=
  if decide (path = "id_rsa") then Ok "private" else Ok example_key_text.

Definition example_private (raw : string) : result SshConfig.Signer :=
  Ok {| SshConfig.signer_PublicKey := example_key |}.

Definition example_command : command :=
  {| log_level := "INFO"; log_format := ""; listen_debug := ""; listen_ssh := ":2020";
     listen_http := ""; listen_socks := ""; listen_http_proxy := ""; ca_public_key := "id_rsa.ca.pub";
     host_public_key := "id_rsa.pub"; host_private_key := "id_rsa";
     server_version := "SSH-2.0-gatewaysshd"; idle_timeout := "600s";
     geoip_database := "geoip.mmdb"; postgres_host := "127.0.0.1"; postgres_port := 5432;
     postgres_user := "gatewaysshd"; postgres_password := "gatewaysshd";
     postgres_password_file := ""; postgres_dbname := "gatewaysshd"; postgres_sslmode := "disable";
     postgres_peer := ""; postgres_peer_host_public_key := ""; node_id := "node-b";
     node_address := "10.0.0.2:22"; node_certificate := ""; peer_ca_public_key := "";
     root_version := "1.0" |}.

Definition example_start : result node :=
  start example_files no_certificate no_certificate example_parse example_private
    (fun _ => None) (fun _ => None) (fun _ => None) (fun _ => None)
    None (fun _ => None) example_command.

Lemma example_private_plain raw signer :
  example_private raw = Ok signer -> exists blob, SshConfig.signer_PublicKey signer = PlainKey blob.
Proof. intros [= <-]. by eexists. Qed.

Lemma example_starts : exists n, example_start = Ok n.
Proof. eexists. vm_compute. reflexivity. Qed.

Lemma start_settings_witness :
  exists n, example_start = Ok n /\ Routing.HostPublicKey (run_gateway n) = Some example_key_text
    /\ Routing.PostgresAddress (run_gateway n) <> "".
Proof.
  destruct example_starts as [n Hn]. exists n. split; [exact Hn|].
  destruct (start_settings example_files no_certificate no_certificate example_parse example_private
    (fun _ => None) (fun _ => None) (fun _ => None) (fun _ => None)
    None (fun _ => None) example_private_plain example_command n ltac:(simpl; lia) Hn)
    as (_ & _ & (key & Hkey & Hpub & _) & Haddr & _).
  assert (Hread : readPrivateKey example_files example_private (host_private_key example_command) =
    Ok {| SshConfig.signer_PublicKey := example_key |}) by (vm_compute; reflexivity).
  split; [|intros E; apply Haddr in E; exact (E eq_refl)].
  assert (Hk : {| SshConfig.signer_PublicKey := example_key |} = key) by congruence.
  rewrite Hpub, <- Hk. reflexivity.
Defined.

Lemma postgres_one_hop_witness :
  exists n, example_start = Ok n
    /\ (Channels.handleChannel (run_gateway n) (fun _ => 0) None None
          {| Channels.ChannelType := "direct-tcpip";
             Channels.ExtraData := marshalTunnelData postgresTunnelData |}
          Channels.example_peer Gateway.example_node).1.2
       = [Channels.Accepted; Channels.StartDiscard; Channels.StartPostgres "127.0.0.1:5432"].
Proof.
  destruct example_starts as [n Hn]. exists n. split; [exact Hn|].
  rewrite (postgres_one_hop example_files no_certificate no_certificate example_parse
    example_private (fun _ => None) (fun _ => None) (fun _ => None)
    (fun _ => None) None (fun _ => None) example_command n (fun _ => 0) None
    Channels.example_peer Gateway.example_node Hn); [reflexivity|vm_compute; intros [=]].
Defined.

Lemma peer_pins_host_key_witness :
  exists n peers, example_start = Ok n
    /\ (Gateway.discoverPeers Routing.example_settings (20 * second)
          (Gateway.registerNode (run_gateway n) (10 * second) true Gateway.example_node).1).2 = Ok peers
    /\ forall peer, peer ∈ peers -> Node_ID peer = "node-b" ->
       exists config,
         SshConfig.peerClientConfig no_certificate example_parse
           {| SshConfig.signer_PublicKey := example_key |} (Node_HostPublicKey peer) = Ok config
         /\ SshConfig.HostKeyCallback config "10.0.0.2:22" example_key = None.
Proof.
  destruct example_starts as [n Hn]. exists n.
  assert (Hread : readPrivateKey example_files example_private (host_private_key example_command) =
    Ok {| SshConfig.signer_PublicKey := example_key |}) by (vm_compute; reflexivity).
  destruct (peer_pins_host_key example_files no_certificate no_certificate example_parse
    example_private (fun _ => None) (fun _ => None) (fun _ => None)
    (fun _ => None) None (fun _ => None) example_private_plain example_command n
    {| SshConfig.signer_PublicKey := example_key |} {| SshConfig.signer_PublicKey := example_key |}
    Routing.example_settings (20 * second) (10 * second)
    (Gateway.registerNode (run_gateway n) (10 * second) true Gateway.example_node).1
    Gateway.example_node Hn ltac:(intros [=]) Hread example_key_documented tables_reliable
    eq_refl eq_refl) as (peers & Hp & Hall).
  exists peers. split; [exact Hn|]. split; [exact Hp|]. intros peer Hin Hid.
  destruct (Hall peer Hin Hid) as (config & Hc & _ & Hk). exists config. split; [exact Hc|].
  apply Hk. reflexivity.
Defined.

End Cli.
