(* ===== verification/Shutdown.v ===== *)
(** * Serving and shutting down, the second half of [run] in [cli/run.go]

    The process serves ssh, and SOCKS5 and HTTP when they are configured, until
    it is told to stop.  Then one goroutine for each service stops it, the one
    for ssh also closes the gateway; [run] waits for all goroutines that hold a
    token, closes the gateway once more and then the database, and a timer ends
    the process if that takes more than 30 seconds.  The state machine
    interleaves the accept loops, the clients being handled, the ends of
    connections and the two calls of [gateway.Close]; [Lifecycle] says when a
    call of [connection.close] returns.  When the requests of the two HTTP
    servers end is left to [net/http]: they hold no token of [run]. *)

From stdpp Require Import base list strings gmap fin_maps fin_sets sets option relations countable.
From S2P Require Import Prelude Cli.

Module Shutdown.

#[export] Instance service_eq_dec : EqDecision Cli.service.
Proof. solve_decision. Defined.

#[export] Instance service_countable : Countable Cli.service.
Proof.
  refine (inj_countable'
    (fun k => match k with Cli.Ssh => 0 | Cli.Http => 1 | Cli.SocksProxy => 2 | Cli.HttpProxy => 3 end)
    (fun n => match n with 0 => Cli.Ssh | 1 => Cli.Http | 2 => Cli.SocksProxy | _ => Cli.HttpProxy end) _).
  by intros [].
Defined.

(** ** The main loop *)

(** What the [select] of [run] can receive. *)
Inductive event := Signal | Stopped (k : Cli.service) | Tick.

(** The loop until [quit]: the number of calls of [ScavengeConnections], and the
    event that ended it. *)
Fixpoint serve (events : list event) : nat * option event :=
  match events with
  | [] => (0, None)
  | Tick :: events => let (n, e) := serve events in (S n, e)
  | e :: _ => (0, Some e)
  end.

(** ** States *)

(** The goroutine that stops ssh: before it calls [gateway.Close], with the
    connections that call still has to close, and at its end. *)
Inductive closing := NotCalled | Closing (connections : list positive) | Closed.

(** Where [run] is: in the loop, in [waitGroup.Wait()], in the deferred
    [gateway.Close()], after the deferred [database.Close()], or ended by the
    timer. *)
Inductive phase := Running | Waiting | Deferred (connections : list positive) | Returned | Exited.

(** [loops] are the services whose accept loop, or [Serve], runs; [clients] the
    sockets in [HandleConnection] and [HandleSocksConnection]; [registered] the
    connections of the gateway; [ended] the sockets that are done with;
    [stoppers] the goroutines that stop the services other than ssh. *)
Record state := {
  configured : gset Cli.service;
  loops : gset Cli.service;
  clients : gmap positive Cli.service;
  registered : gset positive;
  ended : gset positive;
  stoppers : gset Cli.service;
  closer : closing;
  main : phase;
}.

(** The goroutines started before the loop. *)
Definition started (services : gset Cli.service) : state :=
  {| configured := services; loops := services; clients := ∅; registered := ∅; ended := ∅;
     stoppers := ∅; closer := NotCalled; main := Running |}.

Definition set_loops (f : gset Cli.service -> gset Cli.service) (s : state) : state :=
  {| configured := configured s; loops := f (loops s); clients := clients s;
     registered := registered s; ended := ended s; stoppers := stoppers s; closer := closer s;
     main := main s |}.
Definition set_clients (f : gmap positive Cli.service -> gmap positive Cli.service) (s : state)
    : state :=
  {| configured := configured s; loops := loops s; clients := f (clients s);
     registered := registered s; ended := ended s; stoppers := stoppers s; closer := closer s;
     main := main s |}.
Definition set_registered (f : gset positive -> gset positive) (s : state) : state :=
  {| configured := configured s; loops := loops s; clients := clients s;
     registered := f (registered s); ended := ended s; stoppers := stoppers s;
     closer := closer s; main := main s |}.
Definition set_ended (f : gset positive -> gset positive) (s : state) : state :=
  {| configured := configured s; loops := loops s; clients := clients s;
     registered := registered s; ended := f (ended s); stoppers := stoppers s;
     closer := closer s; main := main s |}.
Definition set_stoppers (f : gset Cli.service -> gset Cli.service) (s : state) : state :=
  {| configured := configured s; loops := loops s; clients := clients s;
     registered := registered s; ended := ended s; stoppers := f (stoppers s);
     closer := closer s; main := main s |}.
Definition set_closer (c : closing) (s : state) : state :=
  {| configured := configured s; loops := loops s; clients := clients s;
     registered := registered s; ended := ended s; stoppers := stoppers s; closer := c;
     main := main s |}.
Definition set_main (m : phase) (s : state) : state :=
  {| configured := configured s; loops := loops s; clients := clients s;
     registered := registered s; ended := ended s; stoppers := stoppers s; closer := closer s;
     main := m |}.

(** ** Steps *)

(** The services stopped by a goroutine of their own, where configured. *)
Definition startStoppers (s : state) : state :=
  set_stoppers (fun _ => configured s ∖ {[Cli.Ssh]}) s.

(** Whether a socket accepted for a service gets a goroutine with a token. *)
Definition handled (k : Cli.service) : bool :=
  match k with Cli.Ssh | Cli.SocksProxy => true | Cli.Http | Cli.HttpProxy => false end.

(** A socket that was accepted just before its listener was closed is still
    handled, so an accept loop can take sockets until it ends. *)
Inductive step : state -> state -> Prop :=
| s_accept s k p :                              (* Accept(), waitGroup.Add(1) *)
    k ∈ loops s -> handled k = true ->
    clients s !! p = None -> p ∉ registered s -> p ∉ ended s ->
    step s (set_clients (<[p := k]>) s)
| s_loop_ends s k :                             (* an error, or the listener is closed *)
    k ∈ loops s -> step s (set_loops (fun l => l ∖ {[k]}) s)
| s_handshake s p :                             (* handleConnection *)
    clients s !! p = Some Cli.Ssh ->
    step s (set_registered (union {[p]}) (set_clients (delete p) s))
| s_done s p k :                                (* NewServerConn fails; a SOCKS client is done *)
    clients s !! p = Some k -> step s (set_ended (union {[p]}) (set_clients (delete p) s))
| s_end s p :                                   (* the goroutine of a connection ends *)
    p ∈ registered s ->
    step s (set_ended (union {[p]}) (set_registered (fun r => r ∖ {[p]}) s))
| s_quit s :                                    (* the loop ends *)
    main s = Running -> step s (set_main Waiting (startStoppers s))
| s_close s l :                                 (* gateway.Close() lists the connections *)
    main s <> Running -> closer s = NotCalled -> (forall p, p ∈ l <-> p ∈ registered s) ->
    step s (set_closer (Closing l) s)
| s_closed_one s p l :                          (* connection.close() returns *)
    closer s = Closing (p :: l) -> p ∉ registered s -> step s (set_closer (Closing l) s)
| s_closed s :                                  (* the goroutine ends *)
    closer s = Closing [] -> step s (set_closer Closed s)
| s_stopped s k :                               (* Shutdown(ctx) or Close() returns *)
    k ∈ stoppers s -> step s (set_stoppers (fun r => r ∖ {[k]}) s)
| s_waited s l :                                (* waitGroup.Wait() returns *)
    main s = Waiting -> closer s = Closed -> loops s = ∅ -> clients s = ∅ -> stoppers s = ∅ ->
    (forall p, p ∈ l <-> p ∈ registered s) ->
    step s (set_main (Deferred l) s)
| s_deferred_one s p l :
    main s = Deferred (p :: l) -> p ∉ registered s -> step s (set_main (Deferred l) s)
| s_return s :                                  (* database.Close() *)
    main s = Deferred [] -> step s (set_main Returned s)
| s_timeout s :                                 (* time.AfterFunc: os.Exit(1) *)
    main s <> Running -> main s <> Returned -> step s (set_main Exited s).

(** ** The invariant *)

(** No goroutine with a token is left once [waitGroup.Wait()] has returned. *)
Record quiet (s : state) : Prop := {
  quiet_loops : loops s = ∅;
  quiet_clients : clients s = ∅;
  quiet_stoppers : stoppers s = ∅;
  quiet_closer : closer s = Closed;
}.

(** The second [gateway.Close] has every connection that is left on its list. *)
Definition inv (s : state) : Prop :=
  match main s with
  | Running | Waiting | Exited => True
  | Deferred l => quiet s /\ forall p, p ∈ registered s -> p ∈ l
  | Returned => quiet s /\ registered s = ∅
  end.

Lemma inv_started services : inv (started services).
Proof. done. Qed.

(** A quiet state stays quiet, and gains no connection. *)
Lemma quiet_step s s' :
  quiet s -> main s <> Running -> step s s' -> quiet s' /\ registered s' ⊆ registered s.
Proof.
  intros [Hl Hc Hs Hd] Hm Hst. revert Hl Hc Hs Hd Hm.
  destruct Hst as [s k p Hk|s k Hk|s p Hp|s p k Hp| | | | | |s k Hk| | | |];
    intros Hl Hc Hs Hd Hm; try congruence.
  all: try (by rewrite Hl in Hk; apply elem_of_empty in Hk).
  all: try (by rewrite Hs in Hk; apply elem_of_empty in Hk).
  all: try (by rewrite Hc, lookup_empty in Hp).
  all: split; [by split|simpl; set_solver].
Qed.

(** Steps of the goroutines other than [run] keep the invariant. *)
Lemma inv_others s s' : inv s -> step s s' -> main s' = main s -> inv s'.
Proof.
  unfold inv. intros Hi Hst Hm. rewrite Hm. pose proof (fun Hq Hr => quiet_step s s' Hq Hr Hst) as Hk.
  destruct (main s); try done; destruct Hi as [Hq Hr]; destruct (Hk Hq) as [Hq' Hsub]; try done;
    (split; [exact Hq'|]).
  - intros p Hp. apply Hr, Hsub, Hp.
  - apply set_eq. intros p. rewrite Hr in Hsub. set_solver.
Qed.

Lemma shutdown_step_inv s s' : inv s -> step s s' -> inv s'.
Proof.
  intros Hi Hst. pose proof (inv_others s s' Hi Hst) as Hk.
  pose proof (fun Hq Hr => quiet_step s s' Hq Hr Hst) as Hq. revert Hi Hk Hq.
  destruct Hst as [| | | | | | | | | |s l ? ? ? ? ? Hl|s p l Hm Hp|s Hm|]; intros Hi Hk Hq;
    try exact (Hk eq_refl); try done; unfold inv in Hi |- *; cbn [main set_main].
  - split; [by split|]. intros p Hp. by apply Hl.
  - rewrite Hm in Hi, Hq. destruct Hi as [Hi Hr]. destruct (Hq Hi) as [Hq' _]; [done|].
    split; [exact Hq'|]. cbn. intros q Hin. specialize (Hr q Hin). set_solver.
  - rewrite Hm in Hi, Hq. destruct Hi as [Hi Hr]. destruct (Hq Hi) as [Hq' _]; [done|].
    split; [exact Hq'|]. cbn. set_solver.
Qed.

Lemma shutdown_reachable_inv services s : rtc step (started services) s -> inv s.
Proof.
  apply (rtc_invariant step inv (started services) s (inv_started services)).
  eauto using shutdown_step_inv.
Qed.

(** ** Theorems *)


(** ** A connection that comes late *)

(** The handshake of a socket ends after the first [gateway.Close]. *)
Lemma late_reachable (services : gset Cli.service) :
  services = {[Cli.Ssh; Cli.SocksProxy]} ->
  exists s, rtc step (started services) s /\ main s = Returned /\ ended s = {[1%positive]}.
Proof.
  intros ->. eexists. split.
  - eapply rtc_l; [apply (s_accept _ Cli.Ssh 1%positive); [set_solver|done|done|set_solver..]|].
    eapply rtc_l; [by apply s_quit|].
    eapply rtc_l; [apply (s_close _ []); [done..|]; intros p; split; set_solver|].
    eapply rtc_l; [by apply s_closed|].
    eapply rtc_l; [by apply (s_handshake _ 1%positive)|].
    eapply rtc_l; [apply (s_loop_ends _ Cli.Ssh); set_solver|].
    eapply rtc_l; [apply (s_stopped _ Cli.SocksProxy); set_solver|].
    eapply rtc_l; [apply (s_loop_ends _ Cli.SocksProxy); set_solver|].
    eapply rtc_l; [apply (s_waited _ [1%positive]);
      first [done | vm_compute; reflexivity | intros p; cbn; set_solver]|].
    eapply rtc_l; [apply (s_end _ 1%positive); set_solver|].
    eapply rtc_l; [apply (s_deferred_one _ 1%positive []); [done|set_solver]|].
    eapply rtc_l; [by apply s_return|]. apply rtc_refl.
  - split; [reflexivity|]. vm_compute. reflexivity.
Qed.


(** A client that neither finishes its ssh handshake nor its SOCKS negotiation
    keeps [run] from returning: no deadline is set on either, so while that
    socket does not move, no other step gets the process past
    [waitGroup.Wait()], and only the timer ends it, with status 1. *)
Theorem mute_client_blocks_return (services : gset Cli.service) (p : positive) (s s' : state) :
  rtc step (started services) s -> is_Some (clients s !! p) ->
  rtc (fun a b => step a b /\ (is_Some (clients a !! p) -> is_Some (clients b !! p))) s s' ->
  main s' = Running \/ main s' = Waiting \/ main s' = Exited.
Proof.
  intros Hr%shutdown_reachable_inv Hp Hst.
  assert (Hend : inv s' /\ is_Some (clients s' !! p)).
  { revert Hr Hp. induction Hst as [|a b c [Hab Hk] _ IH]; [done|]. intros Ha Hpa.
    apply IH; [by eapply shutdown_step_inv|by apply Hk]. }
  destruct Hend as [Hm [k Hp']]. unfold inv in Hm.
  destruct (main s'); auto; destruct Hm as [[_ Hc _ _] _]; by rewrite Hc, lookup_empty in Hp'.
Qed.

(** The stuck process: everything is stopped but one mute client. *)
Lemma mute_client_blocks_return_witness :
  exists s, clients s !! 1%positive = Some Cli.SocksProxy /\ closer s = Closed /\ loops s = ∅
    /\ stoppers s = ∅ /\ (main s = Running \/ main s = Waiting \/ main s = Exited).
Proof.
  set (services := {[Cli.Ssh; Cli.SocksProxy]} : gset Cli.service).
  set (s0 := set_clients (<[1%positive := Cli.SocksProxy]>) (started services)).
  assert (H0 : rtc step (started services) s0).
  { eapply rtc_once, (s_accept _ Cli.SocksProxy 1%positive); [set_solver|done|done|set_solver..]. }
  assert (H1 : exists s, rtc (fun a b => step a b /\
      (is_Some (clients a !! 1%positive) -> is_Some (clients b !! 1%positive))) s0 s
    /\ clients s !! 1%positive = Some Cli.SocksProxy /\ closer s = Closed /\ loops s = ∅
    /\ stoppers s = ∅).
  { eexists. split.
    - eapply rtc_l; [split; [by apply s_quit|done]|].
      eapply rtc_l; [split; [apply (s_close _ []); [done..|]; intros p; split; set_solver|done]|].
      eapply rtc_l; [split; [by apply s_closed|done]|].
      eapply rtc_l; [split; [apply (s_loop_ends _ Cli.Ssh); set_solver|done]|].
      eapply rtc_l; [split; [apply (s_loop_ends _ Cli.SocksProxy); set_solver|done]|].
      eapply rtc_l; [split; [apply (s_stopped _ Cli.SocksProxy); set_solver|done]|]. apply rtc_refl.
    - vm_compute. auto. }
  destruct H1 as (s & Hs & Hc & Hd & Hl & Hst). exists s. split_and!; [done..|].
  apply (mute_client_blocks_return services 1%positive s0 s H0); [|exact Hs]. by eexists.
Defined.

End Shutdown.
