(* ===== verification/Process.v ===== *)
(** * The process and its helpers

    The entry of the program ([main.go], [version.go], [cli/cli.go]) around
    [run], the helpers for deferred calls and for debugging
    ([util/deferutil], [util/debugutil]), and the databases of the
    integration tests ([db/dbtest/dbtest.go]).  How the command line was
    understood, which [Arguments] models, and how each call outside of the
    program ended, are arguments. *)

From stdpp Require Import base list strings option.
From Stdlib Require Import ZArith Lia Strings.Ascii.
From S2P Require Import Prelude GoStrings SplitCommand HttpProxy Dsn Cli.

#[local] Open Scope Z_scope.

Module Process.

(** ** Log levels *)

Inductive Level := CRITICAL | ERROR | WARNING | NOTICE | INFO | DEBUG.

#[export] Instance Level_eq_dec : EqDecision Level.
Proof. solve_decision. Defined.

Definition levelNames : list (string * Level) :=
  [("CRITICAL", CRITICAL); ("ERROR", ERROR); ("WARNING", WARNING); ("NOTICE", NOTICE);
   ("INFO", INFO); ("DEBUG", DEBUG)].

Definition upper (c : ascii) : ascii :=
  let n := nat_of_ascii c in
  if decide (97 <= n <= 122)%nat then ascii_of_nat (n - 32) else c.

(** [strings.EqualFold] with a name of ASCII letters that no other rune folds
    to. *)
Fixpoint EqualFold (name s : string) : bool :=
  match name, s with
  | EmptyString, EmptyString => true
  | String a name, String b s => bool_decide (a = upper b) && EqualFold name s
  | _, _ => false
  end.

Fixpoint findLevel (level : string) (names : list (string * Level)) : option Level :=
  match names with
  | [] => None
  | (name, l) :: names => if EqualFold name level then Some l else findLevel level names
  end.

Definition LogLevel (level : string) : option Level := findLevel level levelNames.

Definition levelName (l : Level) : string :=
  match l with
  | CRITICAL => "CRITICAL" | ERROR => "ERROR" | WARNING => "WARNING" | NOTICE => "NOTICE"
  | INFO => "INFO" | DEBUG => "DEBUG"
  end.

(** ** The command *)

(** How the command line was understood: not at all, as a request for the help
    text, the version or completions, or as a command. *)
Inductive invocation :=
| UsageError (e : error)
| Informed
| Commanded (c : Cli.command).

(** How [run] ended: it returned, or a timer ended the process. *)
Inductive ending := Returned (e : option error) | TimedOut.

Inductive entry := Logged (level : Level) (text : string) | Acted.

(** What the process did, the level of its log and its exit status. *)
Record process := { trace : list entry; level : Level; status : Z }.

Definition Name : string := "gatewaysshd".
Definition Version : string := "0.9.2".

Definition Before (version : string) (c : Cli.command) : Level * list entry :=
  let level := default DEBUG (LogLevel (Cli.log_level c)) in
  (level, [Logged DEBUG ("log level set to " +:+ levelName level);
           Logged NOTICE ("started " +:+ Name +:+ " version " +:+ version)]).

Definition After (version : string) : list entry :=
  [Logged NOTICE ("exiting " +:+ Name +:+ " version " +:+ version +:+ " ...")].

(** [cli.Run]: the error of the command is discarded, so that the status is 0
    unless the timer ended the process. *)
Definition Run (version commit : string) (arguments : invocation)
    (action : Cli.command -> ending) : process :=
  let version := version +:+ "." +:+ commit in
  match arguments with
  | UsageError _ | Informed => {| trace := []; level := DEBUG; status := 0 |}
  | Commanded c =>
      let (level, before) := Before version c in
      match action c with
      | Returned _ =>
          {| trace := before ++ Acted :: After version; level := level; status := 0 |}
      | TimedOut => {| trace := before ++ [Acted]; level := level; status := 1 |}
      end
  end.

(** [main]; the commit is set when the program is linked. *)
Definition main (Commit : string) (arguments : invocation) (action : Cli.command -> ending)
    : process := Run Version Commit arguments action.

(** ** Deferred calls, [util/deferutil] *)

Definition errorText (e : error) : string :=
  match e with Sentinel t => t | Errorf t => t | Foreign t => t end.

(** [errors.Join] of two errors *)
Definition Join2 (a b : option error) : option error :=
  match a, b with
  | None, None => None
  | Some a, Some b => Some (Foreign (errorText a +:+ String newline (errorText b)))
  | Some e, None | None, Some e => Some (Foreign (errorText e))
  end.

(** [deferutil.Run]: the level at which the error of the deferred function was
    logged, and the error of the caller after it, if it passed one. *)
Definition runDeferred (deferError : option error) (err : option (option error))
    : option Level * option (option error) :=
  (match deferError with
   | None => None
   | Some _ => Some (match err with Some _ => ERROR | None => WARNING end)
   end, (fun e => Join2 e deferError) <$> err).

(** A goroutine that starts with [defer deferutil.Recover()]: its panic, if it
    ended in one, is logged and does not end the process. *)
Definition guarded (panic : option string) : list entry :=
  match panic with
  | None => []
  | Some value => [Logged CRITICAL ("recovered from panic: " +:+ value)]
  end.

(** ** Debugging, [util/debugutil] *)

Inductive debugHandler := Index | Cmdline | Profile | Symbol_ | Trace_.

(** The most specific pattern of the [ServeMux] wins. *)
Definition debugRoute (path : string) : option debugHandler :=
  if decide (path = "/debug/pprof/cmdline") then Some Cmdline
  else if decide (path = "/debug/pprof/profile") then Some Profile
  else if decide (path = "/debug/pprof/symbol") then Some Symbol_
  else if decide (path = "/debug/pprof/trace") then Some Trace_
  else if HttpProxy.hasPrefix "/debug/pprof/" path then Some Index
  else None.

(** [RunDebugServer]: what answers a request as long as the server is not
    stopped; [listen] is the outcome of [net.Listen]. *)
Definition RunDebugServer (listen : option error) : result (string -> option debugHandler) :=
  match listen with Some e => Err e | None => Ok debugRoute end.

(** ** Databases for tests, [db/dbtest] *)

Definition testDatabasePort : Z := 5432.
Definition testDatabaseUser : string := "gatewaysshd".
Definition testDatabasePassword : string := "gatewaysshd".
Definition adminConnectTimeoutSeconds : Z := 10.
Definition adminConnectBudget : duration := 60 * second.
Definition adminRetryInterval : duration := 500000000.

(** One turn of the loop of [execAdmin]: how [gorm.Open] and then [Exec] and
    [closeDatabase] end, the SQLSTATE that the error of [Exec] carries, how
    long they take, and how long the turn waits where it is not the last. *)
Record attempt := {
  a_open : option error;
  a_opening : duration;
  a_exec : option (error * option string);
  a_close : option error;
  a_executing : duration;
  a_waiting : duration;
}.

(** [closeDatabase]: [dbErr] and [closeErr] are the errors of [database.DB()] and
    of the pool's [Close]. *)
Definition closeDatabase (dbErr closeErr : option error) : option error :=
  match dbErr with Some err => Some err | None => closeErr end.

Definition isTransientExecError (err : error * option string) : bool :=
  bool_decide (err.2 = Some "57P03").

(** What a turn that starts at [now] returns, and when it would be over; [None]
    where it goes on. *)
Definition turn (a : attempt) (now deadline : time) : option (result unit) * time :=
  let now := time_add now (a_opening a) in
  match a_open a with
  | Some openErr =>
      if time_after now deadline
      then (Some (Err (Errorf ("dbtest: connect to admin database: " +:+ errorText openErr))), now)
      else (None, time_add now (a_waiting a))
  | None =>
      let now := time_add now (a_executing a) in
      match a_exec a with
      | None => (Some (match a_close a with Some e => Err e | None => Ok tt end), now)
      | Some execErr =>
          if isTransientExecError execErr && bool_decide (now < deadline)
          then (None, time_add now (a_waiting a))
          else (Some (Err execErr.1), now)
      end
  end.

Fixpoint execAdminFrom (fuel : nat) (attempts : nat -> attempt) (i : nat) (now deadline : time)
    : option (result unit * nat) :=
  match fuel with
  | O => None
  | S fuel =>
      match turn (attempts i) now deadline with
      | (Some r, _) => Some (r, i)
      | (None, now) => execAdminFrom fuel attempts (S i) now deadline
      end
  end.

(** A turn that goes on takes half a second at least, so that the budget allows
    for 121 of them. *)
Definition adminFuel : nat := 122.

Definition execAdmin (attempts : nat -> attempt) (now : time) : option (result unit * nat) :=
  execAdminFrom adminFuel attempts 0 now (time_add now adminConnectBudget).

(** The connection string of [execAdmin]. *)
Definition adminDsn (host : string) : string :=
  "host=" +:+ host +:+ " port=" +:+ formatUint32 testDatabasePort +:+ " user=" +:+ testDatabaseUser +:+
  " password=" +:+ testDatabasePassword +:+ " dbname=postgres sslmode=disable connect_timeout=" +:+
  formatUint32 adminConnectTimeoutSeconds.

Definition underscore : ascii := "_"%char.

(** The name of the next database: the process, a serial number, which every
    call advances, and a fresh identifier. *)
Definition databaseName (pid serial : Z) (ksuid : string) : string :=
  "gatewaysshdtest" +:+ formatUint64 pid +:+ String underscore
    (formatUint64 serial +:+ String underscore ksuid).

Definition createDatabase (name : string) : string :=
  "CREATE DATABASE " +:+ String quote (name +:+ String quote "").
Definition dropDatabase (name : string) : string :=
  "DROP DATABASE " +:+ String quote (name +:+ String quote " WITH (FORCE)").

Definition testSettings (host name : string) : Dsn.Settings :=
  {| Dsn.Host := host; Dsn.Port := testDatabasePort; Dsn.User := testDatabaseUser;
     Dsn.Password := testDatabasePassword; Dsn.DatabaseName := name; Dsn.SSLMode := "";
     Dsn.PeerAddress := ""; Dsn.PeerSigner := None; Dsn.PeerHostPublicKey := None |}.

(** [ExecSQL]: the connection string, whether the statement was run, and the
    messages of [test.Fatalf]; the deferred close also runs after a failure. *)
Definition execSqlDsn (settings : Dsn.Settings) : string :=
  "host=" +:+ Dsn.Host settings +:+ " port=" +:+ formatUint32 (Dsn.Port settings) +:+
  " user=" +:+ Dsn.User settings +:+ " password=" +:+ Dsn.Password settings +:+
  " dbname=" +:+ Dsn.DatabaseName settings +:+ " sslmode=disable".

Definition ExecSQL (opened executed closed : option error) : bool * list string :=
  match opened with
  | Some e => (false, ["failed to open test database for raw sql: " +:+ errorText e])
  | None =>
      (true,
       (match executed with Some e => ["failed to execute: " +:+ errorText e] | None => [] end) ++
       (match closed with Some e => ["failed to close test database: " +:+ errorText e] | None => [] end))
  end.

Inductive acquired :=
| Skipped
| Fatal (why : string)
| Acquired (settings : Dsn.Settings).

(** [AcquireDatabaseWithSettings]: the serial number after it, the statements
    for the administrative database, and what it returns.  [admin] runs a
    statement; [opened] and [migrated] are the outcomes of [db.Open] and
    [Migrate]. *)
Definition AcquireDatabaseWithSettings (host : string) (pid : Z) (ksuid : string)
    (admin : string -> option error) (opened migrated : option error) (serial : Z)
    : Z * list string * acquired :=
  if decide (host = "") then (serial, [], Skipped)
  else
    let serial := uint64 (serial + 1) in
    let name := databaseName pid serial ksuid in
    let statement := createDatabase name in
    let fatal why := (serial, [statement], Fatal why) in
    match admin statement with
    | Some e => fatal ("failed to create test database: " +:+ errorText e)
    | None =>
        match opened with
        | Some e => fatal ("failed to open test database: " +:+ errorText e)
        | None =>
            match migrated with
            | Some e => fatal ("failed to migrate test database: " +:+ errorText e)
            | None => (serial, [statement], Acquired (testSettings host name))
            end
        end
    end.

(** The function that releases it. *)
Definition release (settings : Dsn.Settings) (closed : option error)
    (admin : string -> option error) : list string * option string :=
  match closed with
  | Some e => ([], Some ("failed to close test database: " +:+ errorText e))
  | None =>
      let statement := dropDatabase (Dsn.DatabaseName settings) in
      ([statement], (fun e => "failed to drop test database: " +:+ errorText e) <$> admin statement)
  end.

(** ** Exit status *)

(** A command that fails is not reported to whoever started the process: its
    exit status is 0, and its log only says that it is exiting. *)
Theorem failed_run_exits_zero (Commit : string) (c : Cli.command) (action : Cli.command -> ending)
    (e : error) :
  action c = Returned (Some e) ->
  main Commit (Commanded c) action = main Commit (Commanded c) (fun _ => Returned None) /\
  status (main Commit (Commanded c) action) = 0.
Proof. intros Ha. unfold main, Run. destruct (Before _ c). by rewrite Ha. Qed.

(** ** Deferred calls *)

(** No error is lost: the caller's error after the deferred function is nil
    only if both were nil, and a deferred function that failed is logged. *)
Theorem runDeferred_keeps (deferError : option error) (err : option (option error)) :
  let (logged, err') := runDeferred deferError err in
  (logged <> None <-> deferError <> None) /\
  (forall e, err = Some e -> exists e', err' = Some e' /\
     (e' = None <-> e = None /\ deferError = None)).
Proof.
  cbn. split; [by destruct deferError|]. intros e ->. exists (Join2 e deferError).
  split; [done|]. destruct e, deferError; naive_solver.
Qed.

(** ** The loop of [execAdmin] ends *)

(** Time does not run backwards, and a wait is not cut short. *)
Definition timed (a : attempt) : Prop :=
  0 <= a_opening a /\ 0 <= a_executing a /\ adminRetryInterval <= a_waiting a.

Lemma turn_goes_on a now deadline now' :
  timed a -> turn a now deadline = (None, now') ->
  now <= deadline /\ now + adminRetryInterval <= now'.
Proof.
  intros (Ho & Hx & Hw). unfold turn, time_add, time_after. destruct (a_open a) as [e|].
  - destruct (bool_decide _) eqn:E; [done|]. apply bool_decide_eq_false in E.
    intros [= <-]. lia.
  - destruct (a_exec a) as [e|]; [|done]. destruct (isTransientExecError e); [|done].
    destruct (bool_decide _) eqn:E; [|done]. apply bool_decide_eq_true in E.
    intros [= <-]. lia.
Qed.

Lemma execAdminFrom_ends fuel attempts i now deadline :
  (forall j, timed (attempts j)) ->
  deadline < now + Z.of_nat fuel * adminRetryInterval - adminRetryInterval -> (0 < fuel)%nat ->
  exists r n, execAdminFrom fuel attempts i now deadline = Some (r, n) /\ (i <= n < i + fuel)%nat /\
    exists at_, (turn (attempts n) at_ deadline).1 = Some r.
Proof.
  intros Ht. revert i now. induction fuel as [|fuel IH]; intros i now Hd Hf; [lia|].
  cbn [execAdminFrom]. destruct (turn (attempts i) now deadline) as [[r|] now'] eqn:E.
  - exists r, i. split_and!; [done|lia|lia|]. exists now. by rewrite E.
  - destruct (turn_goes_on _ _ _ _ (Ht i) E) as [H1 H2].
    destruct (IH (S i) now') as (r & n & Hr & Hn & Hat); [lia| |].
    + destruct fuel; [|lia]. cbn in Hd. lia.
    + exists r, n. split_and!; [done|lia|lia|done].
Qed.

(** The retries end.  However the administrative database behaves, the loop
    returns after at most 122 attempts, because every retry waits for half a
    second and none is made after a minute; what it returns is the outcome of
    its last attempt. *)
Theorem execAdmin_terminates (attempts : nat -> attempt) (now : time) :
  (forall i, timed (attempts i)) ->
  exists r n, execAdmin attempts now = Some (r, n) /\ (n <= 121)%nat /\
    exists at_, (turn (attempts n) at_ (time_add now adminConnectBudget)).1 = Some r.
Proof.
  intros Ht. unfold execAdmin, adminFuel.
  destruct (execAdminFrom_ends 122 attempts 0 now (time_add now adminConnectBudget) Ht)
    as (r & n & Hr & Hn & Hat).
  - change adminConnectBudget with 60000000000. unfold time_add, adminRetryInterval. lia.
  - lia.
  - exists r, n. split_and!; [done|lia|done].
Qed.

(** ** The names of databases differ *)

Lemma formatUint64_inj m n :
  0 <= m < 2 ^ 64 -> 0 <= n < 2 ^ 64 -> formatUint64 m = formatUint64 n -> m = n.
Proof.
  intros [Hm0 Hm] [Hn0 Hn] E. assert (H64 : 2 ^ 64 < 10 ^ Z.of_nat 20) by reflexivity.
  pose proof (HttpProxy.decimal_digits 19 m (conj Hm0 (Z.lt_trans _ _ _ Hm H64))) as Dm.
  pose proof (HttpProxy.decimal_digits 19 n (conj Hn0 (Z.lt_trans _ _ _ Hn H64))) as Dn.
  unfold formatUint64 in E. rewrite E in Dm. congruence.
Qed.

Lemma databaseName_inj pid serial serial' ksuid ksuid' :
  0 <= pid -> 0 <= serial < 2 ^ 64 -> 0 <= serial' < 2 ^ 64 ->
  databaseName pid serial ksuid = databaseName pid serial' ksuid' -> serial = serial'.
Proof.
  intros Hp Hs Hs' E. unfold databaseName in E.
  assert (Hno : forall n, 0 <= n -> contains_byte underscore (formatUint64 n) = false)
    by (intros n Hn; by apply HttpProxy.digits_bytes).
  apply (f_equal (fun s => snd <$> cut underscore s)) in E.
  rewrite <- !append_assoc in E. rewrite !cut_app in E.
  2-3: rewrite contains_byte_app, Hno by done; reflexivity.
  injection E as E. apply (f_equal (fun s => fst <$> cut underscore s)) in E.
  rewrite !cut_app in E by (apply Hno; lia). injection E as E. by apply formatUint64_inj.
Qed.

(** Two databases acquired by one process, one after the other, have different
    names, whatever identifiers they drew. *)
Theorem acquired_names_differ (host host' : string) (pid : Z) (ksuid ksuid' : string)
    (admin admin' : string -> option error) (serial serial' serial'' : Z)
    (sql sql' : list string) (settings settings' : Dsn.Settings) :
  0 <= pid -> 0 <= serial < 2 ^ 64 ->
  AcquireDatabaseWithSettings host pid ksuid admin None None serial =
    (serial', sql, Acquired settings) ->
  AcquireDatabaseWithSettings host' pid ksuid' admin' None None serial' =
    (serial'', sql', Acquired settings') ->
  Dsn.DatabaseName settings <> Dsn.DatabaseName settings'.
Proof.
  intros Hp Hs. unfold AcquireDatabaseWithSettings.
  case_decide; [done|]. destruct (admin _); [done|]. intros [= <- _ <-].
  case_decide; [done|]. destruct (admin' _); [done|]. intros [= _ _ <-]. cbn.
  intros E. apply databaseName_inj in E; [|done|apply uint64_bound..].
  unfold uint64 in E. destruct (decide (serial = 2 ^ 64 - 1)) as [->|]; [done|].
  rewrite (Z.mod_small (serial + 1)) in E by lia.
  destruct (decide (serial + 1 = 2 ^ 64 - 1)) as [Hx|]; [rewrite Hx in E; done|].
  rewrite Z.mod_small in E by lia. lia.
Qed.

(** A server that never answers: half a second for each attempt. *)
Definition example_attempt : attempt :=
  {| a_open := Some (Foreign "connection refused"); a_opening := 0; a_exec := None; a_close := None;
     a_executing := 0; a_waiting := adminRetryInterval |}.

Lemma execAdmin_terminates_witness :
  exists r n, execAdmin (fun _ => example_attempt) 7 = Some (r, n) /\ n = 121%nat.
Proof.
  destruct (execAdmin_terminates (fun _ => example_attempt) 7) as (r & n & Hr & _).
  - intros i. vm_compute. repeat split; intros [=].
  - exists r, n. split; [exact Hr|]. vm_compute in Hr. injection Hr as _ <-. reflexivity.
Defined.

Lemma acquired_names_differ_witness :
  databaseName 7 1 "a" <> databaseName 7 2 "a".
Proof.
  apply (acquired_names_differ "db" "db" 7 "a" "a" (fun _ => None) (fun _ => None) 0 1 2
    [createDatabase (databaseName 7 1 "a")] [createDatabase (databaseName 7 2 "a")]
    (testSettings "db" (databaseName 7 1 "a")) (testSettings "db" (databaseName 7 2 "a")));
    [lia|lia|reflexivity|reflexivity].
Defined.

Lemma failed_run_exits_zero_witness :
  status (main "c0ffee" (Commanded Cli.example_command)
            (fun _ => Returned (Some (Foreign "address already in use")))) = 0.
Proof.
  apply (failed_run_exits_zero "c0ffee" Cli.example_command
    (fun _ => Returned (Some (Foreign "address already in use")))
    (Foreign "address already in use")). reflexivity.
Defined.
End Process.
