(* ===== verification/Arguments.v ===== *)
(** * Command line arguments

    From the arguments of the process to the values of the flags.  The flags
    are declared in [cli/flags.go]; the arguments are parsed by the vendored
    urfave/cli: [command_parse.go], the values in [flag_string.go],
    [flag_uint.go] and [flag_bool.go], and the decision between the action, the
    help and the version in [command_run.go].  The number of a flag is read by
    [strconv.ParseUint] with the base of its prefix. *)

From stdpp Require Import base list strings gmap fin_maps option.
From Stdlib Require Import ZArith Lia Ascii.
From S2P Require Import Prelude GoStrings HttpProxy Durations Cli Process.

#[local] Open Scope Z_scope.

(** ** Numbers: [strconv.ParseUint(s, 0, 64)] *)

Module ParseUint.
Import HttpProxy.

Definition code (c : ascii) : Z := Z.of_nat (nat_of_ascii c).
Definition lower (c : ascii) : Z := Z.lor (code c) 32.

Definition syntaxError : error := Foreign "invalid syntax".
Definition rangeError : error := Foreign "value out of range".

Definition digitValue (c : ascii) : option Z :=
  if decide (48 <= code c <= 57) then Some (code c - 48)
  else if decide (97 <= lower c <= 122) then Some (lower c - 97 + 10)
  else None.

(** The base that the prefix says, and the digits after it. *)
Definition basePrefix (s : string) : Z * string :=
  match s with
  | String z s1 =>
      if decide (z = "0"%char) then
        match s1 with
        | String p (String c s2) =>
            if decide (lower p = 98) then (2, String c s2)
            else if decide (lower p = 111) then (8, String c s2)
            else if decide (lower p = 120) then (16, String c s2)
            else (8, s1)
        | _ => (8, s1)
        end
      else (10, s)
  | EmptyString => (10, s)
  end.

(** The loop over the digits; the second component says whether there was an
    underscore. *)
Fixpoint accumulate (base n : Z) (underscores : bool) (s : string) : result (Z * bool) :=
  match s with
  | EmptyString => Ok (n, underscores)
  | String c s' =>
      if decide (c = "_"%char) then accumulate base n true s'
      else match digitValue c with
           | None => Err syntaxError
           | Some d =>
               if decide (d >= base) then Err syntaxError
               else if decide (n >= (2 ^ 64 - 1) / base + 1) then Err rangeError
               else let n := uint64 (n * base) in
                    let n1 := uint64 (n + d) in
                    if decide (n1 < n \/ n1 > 2 ^ 64 - 1) then Err rangeError
                    else accumulate base n1 underscores s'
           end
  end.

(** What [underscoreOK] saw last. *)
Inductive saw := Beginning | Digit | Underscore | Other.
#[export] Instance saw_eq_dec : EqDecision saw.
Proof. solve_decision. Defined.

Fixpoint underscoreScan (hex : bool) (last : saw) (s : string) : bool :=
  match s with
  | EmptyString => bool_decide (last <> Underscore)
  | String c s' =>
      if bool_decide (48 <= code c <= 57) || (hex && bool_decide (97 <= lower c <= 102))
      then underscoreScan hex Digit s'
      else if decide (c = "_"%char) then
        if decide (last = Digit) then underscoreScan hex Underscore s' else false
      else if decide (last = Underscore) then false
      else underscoreScan hex Other s'
  end.

Definition underscoreOK (s : string) : bool :=
  let s := match s with
           | String c s' => if decide (c = "-"%char \/ c = "+"%char) then s' else s
           | EmptyString => s
           end in
  match s with
  | String z (String p s') =>
      if decide (z = "0"%char /\ (lower p = 98 \/ lower p = 111 \/ lower p = 120))
      then underscoreScan (bool_decide (lower p = 120)) Digit s'
      else underscoreScan false Beginning s
  | _ => underscoreScan false Beginning s
  end.

Definition ParseUint64 (s : string) : result Z :=
  if decide (s = "") then Err syntaxError
  else
    let (base, body) := basePrefix s in
    let! (n, underscores) := accumulate base 0 false body in
    if underscores && negb (underscoreOK s) then Err syntaxError else Ok n.

(** ** Lemmas *)

Lemma accumulate_range base s : forall n u n' u',
  accumulate base n u s = Ok (n', u') -> 0 <= n < 2 ^ 64 -> 0 <= n' < 2 ^ 64.
Proof.
  induction s as [|c s IH]; intros n u n' u'; cbn [accumulate]; [by intros [= <- <-]|].
  destruct (decide (c = "_"%char)); [apply IH|]. destruct (digitValue c) as [d|]; [|done].
  do 3 (case_decide; [done|]). intros E _. apply IH in E; [done|]. apply uint64_bound.
Qed.

Lemma ParseUint64_range s n : ParseUint64 s = Ok n -> 0 <= n < 2 ^ 64.
Proof.
  unfold ParseUint64. case_decide; [done|]. destruct (basePrefix s) as [base body].
  intros E. apply result_bind_Ok in E as ([n' u] & E%accumulate_range & Hn); [|lia].
  destruct (_ && _); [done|]. by injection Hn as <-.
Qed.

(** On decimal digits the loop computes their value. *)
Lemma accumulate_decimal s : forall x n,
  decimal x s = Some n -> 0 <= x -> n < 2 ^ 64 -> accumulate 10 x false s = Ok (n, false).
Proof.
  induction s as [|c s IH]; intros x n; cbn [decimal accumulate]; [by intros [= <-]|].
  destruct (digitOf c) as [d|] eqn:Ed; [|done]. intros E Hx Hn.
  pose proof (Durations.digitOf_bound c d Ed).
  pose proof (Durations.decimal_ge s _ _ E ltac:(lia)).
  rewrite decide_False by (intros ->; done).
  replace (digitValue c) with (Some d).
  2: { unfold digitValue, code. unfold digitOf in Ed. case_decide; [|done]. congruence. }
  rewrite decide_False by lia. change ((2 ^ 64 - 1) / 10 + 1) with 1844674407370955162.
  rewrite decide_False by lia. rewrite (uint64_small (x * 10)), (uint64_small (x * 10 + d)) by lia.
  rewrite decide_False by lia. by apply IH; [|lia|].
Qed.

(** A positive number does not start with the digit zero. *)
Lemma digits_head fuel : forall n,
  0 < n < 10 ^ Z.of_nat (S fuel) ->
  exists c s, digits (S fuel) 10 n = String c s /\ c <> "0"%char.
Proof.
  assert (Hd : forall d, 0 < d < 10 -> digit d <> "0"%char).
  { intros d Hd E. apply (f_equal digitOf) in E. rewrite digitOf_digit in E by lia.
    vm_compute in E. injection E as ->. lia. }
  induction fuel as [|fuel IH]; intros n Hn; cbn [digits]; destruct (decide (n < 10)).
  - exists (digit n), "". split; [done|]. apply Hd. lia.
  - simpl in Hn. lia.
  - exists (digit n), "". split; [done|]. apply Hd. lia.
  - change (if decide (n / 10 < 10) then _ else _) with (digits (S fuel) 10 (n / 10)).
    destruct (IH (n / 10)) as (c & s & -> & Hc).
    { split; [apply Z.div_str_pos; lia|]. apply Z.div_lt_upper_bound; [lia|].
      rewrite <- Z.pow_succ_r by lia. rewrite <- Nat2Z.inj_succ. exact (proj2 Hn). }
    eexists c, _. split; [apply append_cons|done].
Qed.

Lemma ParseUint64_format n : 0 <= n < 2 ^ 64 -> ParseUint64 (formatUint64 n) = Ok n.
Proof.
  intros Hn. destruct (decide (n = 0)) as [->|Hnz]; [vm_compute; reflexivity|].
  assert (Hdec : decimal 0 (formatUint64 n) = Some n) by (apply decimal_digits; simpl; lia).
  destruct (digits_head 19 n ltac:(simpl; lia)) as (c & s & Es & Hc). fold (formatUint64 n) in Es.
  unfold ParseUint64. rewrite Es in Hdec |- *. rewrite decide_False by done. cbn [basePrefix].
  rewrite decide_False by done. by rewrite (accumulate_decimal _ _ _ Hdec) by lia.
Qed.
End ParseUint.

Module Arguments.
Import ParseUint.

(** ** The flags *)

(** The flags that are strings, with their defaults; one more is a number, and
    the library adds two that are truth values. *)
Definition stringFlags : list (string * string) :=
  [("log-level", "DEBUG");
   ("log-format", "%{color}%{time:2006-01-02T15:04:05.000-07:00} [%{level:.4s}] " +:+
                  "[%{shortfile} %{shortfunc}] %{message}%{color:reset}");
   ("listen-debug", "127.0.0.1:6080"); ("listen-ssh", ":2020"); ("listen-http", "127.0.0.1:2080");
   ("listen-socks", ""); ("listen-http-proxy", ""); ("ca-public-key", "id_rsa.ca.pub");
   ("host-public-key", "id_rsa.pub"); ("host-private-key", "id_rsa");
   ("server-version", "SSH-2.0-gatewaysshd"); ("idle-timeout", "600s");
   ("geoip-database", "geoip.mmdb"); ("postgres-host", "127.0.0.1");
   ("postgres-user", "gatewaysshd"); ("postgres-password", "gatewaysshd");
   ("postgres-password-file", ""); ("postgres-dbname", "gatewaysshd"); ("postgres-sslmode", "disable");
   ("postgres-peer", ""); ("postgres-peer-host-public-key", ""); ("node-id", ""); ("node-address", "");
   ("node-certificate", ""); ("peer-ca-public-key", "")].

Inductive flag := StringFlag (name : string) | UintFlag | HelpFlag | VersionFlag.
#[export] Instance flag_eq_dec : EqDecision flag.
Proof. solve_decision. Defined.

Definition lookupAppliedFlag (name : string) : option flag :=
  if decide (name ∈ map fst stringFlags) then Some (StringFlag name)
  else if decide (name = "postgres-port") then Some UintFlag
  else if decide (name = "help" \/ name = "h") then Some HelpFlag
  else if decide (name = "version" \/ name = "v") then Some VersionFlag
  else None.

(** The values the flags have, and whether the flag for the version was set. *)
Record values := { strings : gmap string string; port : Z; help : bool; versionSet : bool }.

(** [PreParse]: every flag has its default. *)
Definition initial : values :=
  {| strings := list_to_map stringFlags; port := 5432; help := false; versionSet := false |}.

Definition ParseBool (s : string) : option bool :=
  if decide (s ∈ ["1"; "t"; "T"; "TRUE"; "true"; "True"]) then Some true
  else if decide (s ∈ ["0"; "f"; "F"; "FALSE"; "false"; "False"]) then Some false
  else None.

Definition IsBoolFlag (f : flag) : bool :=
  match f with HelpFlag | VersionFlag => true | StringFlag _ | UintFlag => false end.

Definition invalidValue : error := Errorf "invalid value %q for flag -%s: %v".

Definition set (f : flag) (val : string) (st : values) : result values :=
  match f with
  | StringFlag name =>
      Ok {| strings := <[name := val]> (strings st); port := port st; help := help st;
            versionSet := versionSet st |}
  | UintFlag =>
      match ParseUint64 val with
      | Ok n => Ok {| strings := strings st; port := n; help := help st; versionSet := versionSet st |}
      | Err _ => Err invalidValue
      end
  | HelpFlag =>
      match ParseBool val with
      | Some b => Ok {| strings := strings st; port := port st; help := b; versionSet := versionSet st |}
      | None => Err invalidValue
      end
  | VersionFlag =>
      match ParseBool val with
      | Some _ => Ok {| strings := strings st; port := port st; help := help st; versionSet := true |}
      | None => Err invalidValue
      end
  end.

(** ** Parsing *)

Definition dash : ascii := "-"%char.
Definition equals : ascii := "="%char.

(** [unicode.IsLetter] of a byte taken as a character *)
Definition IsLetter (c : ascii) : bool :=
  let n := nat_of_ascii c in
  bool_decide (65 <= n <= 90 \/ 97 <= n <= 122 \/ n = 170 \/ n = 181 \/ n = 186
               \/ (192 <= n <= 255 /\ n <> 215 /\ n <> 247))%nat.

(** The sub-commands that the library adds. *)
Definition isCommand (name : string) : bool :=
  bool_decide (name ∈ ["help"; "h"; "completion"]).

Definition argumentNotProvided (arg : string) : error := Errorf ("flag needs an argument: " +:+ arg).
Definition providedButNotDefined (name : string) : error :=
  Errorf ("flag provided but not defined: -" +:+ name).

(** The name and the value of an argument, and whether the value was there. *)
Definition splitFlag (s : string) : string * string * bool :=
  match cut equals s with
  | Some (name, val) => (name, val, true)
  | None => (s, "", false)
  end.

(** [parseFlags]: the arguments that are not flags, the values, and the error. *)
Fixpoint parseFlags (shellCompletion : bool) (rargs posArgs : list string) (st : values)
    : list string * values * option error :=
  match rargs with
  | [] => (posArgs, st, None)
  | arg :: rest =>
      let firstArg := TrimSpace arg in
      match firstArg with
      | EmptyString => parseFlags shellCompletion rest (posArgs ++ [arg]) st
      | String c0 tail0 =>
          if decide (firstArg = "--") then
            (posArgs ++ (if shellCompletion then [firstArg] else []) ++ rest, st, None)
          else if decide (c0 <> dash) then
            if isCommand firstArg then (posArgs ++ rargs, st, None)
            else parseFlags shellCompletion rest (posArgs ++ [firstArg]) st
          else
            match tail0 with
            | EmptyString => (posArgs ++ [firstArg], st, None)
            | String c1 tail1 =>
                if decide (c1 <> dash /\ IsLetter c1 = false) then (posArgs ++ rargs, st, None)
                else
                  let '(flagName, flagVal, valFromEqual) :=
                    splitFlag (if decide (c1 = dash) then tail1 else tail0) in
                  match lookupAppliedFlag flagName with
                  | Some f =>
                      if IsBoolFlag f then
                        match set f (if decide (flagVal = "") then "true" else flagVal) st with
                        | Ok st => parseFlags shellCompletion rest posArgs st
                        | Err e => (posArgs, st, Some e)
                        end
                      else if decide (flagVal = "" /\ valFromEqual = false) then
                        match rest with
                        | [] =>
                            if shellCompletion then (posArgs ++ rargs, st, None)
                            else (posArgs, st, Some (argumentNotProvided firstArg))
                        | flagVal :: rest =>
                            match set f flagVal st with
                            | Ok st => parseFlags shellCompletion rest posArgs st
                            | Err e => (posArgs, st, Some e)
                            end
                        end
                      else
                        match set f flagVal st with
                        | Ok st => parseFlags shellCompletion rest posArgs st
                        | Err e => (posArgs, st, Some e)
                        end
                  | None =>
                      if shellCompletion then (posArgs ++ rargs, st, None)
                      else (posArgs, st, Some (providedButNotDefined flagName))
                  end
            end
      end
  end.

Definition completionFlag : string := "--generate-shell-completion".

(** Whether the shell asks for completions, and the arguments without that. *)
Definition checkShellCompleteFlag (arguments : list string) : bool * list string :=
  let pos := (length arguments - 1)%nat in
  if decide (list.last arguments <> Some completionFlag) then (false, arguments)
  else if decide (1 <= pos /\ "--" ∈ take (pos - 1) arguments)%nat then (false, take pos arguments)
  else (true, take pos arguments).

(** The values that the action reads, [command.String] and [command.Uint]. *)
Definition commandOf (version : string) (st : values) : Cli.command :=
  let get name := strings st !!! name in
  {| Cli.log_level := get "log-level"; Cli.log_format := get "log-format";
     Cli.listen_debug := get "listen-debug"; Cli.listen_ssh := get "listen-ssh";
     Cli.listen_http := get "listen-http"; Cli.listen_socks := get "listen-socks";
     Cli.listen_http_proxy := get "listen-http-proxy"; Cli.ca_public_key := get "ca-public-key";
     Cli.host_public_key := get "host-public-key"; Cli.host_private_key := get "host-private-key";
     Cli.server_version := get "server-version"; Cli.idle_timeout := get "idle-timeout";
     Cli.geoip_database := get "geoip-database"; Cli.postgres_host := get "postgres-host";
     Cli.postgres_port := port st; Cli.postgres_user := get "postgres-user";
     Cli.postgres_password := get "postgres-password";
     Cli.postgres_password_file := get "postgres-password-file";
     Cli.postgres_dbname := get "postgres-dbname"; Cli.postgres_sslmode := get "postgres-sslmode";
     Cli.postgres_peer := get "postgres-peer";
     Cli.postgres_peer_host_public_key := get "postgres-peer-host-public-key";
     Cli.node_id := get "node-id"; Cli.node_address := get "node-address";
     Cli.node_certificate := get "node-certificate";
     Cli.peer_ca_public_key := get "peer-ca-public-key"; Cli.root_version := version |}.

(** What the library does with the command line. *)
Inductive outcome :=
| UsageError (e : error)
| ShowHelp
| ShowVersion
| RunCompletion
| SubCommand (arguments : list string)
| Action (c : Cli.command).

(** [Command.run] of the root command; [os.Args] are the name of the program
    and the arguments. *)
Definition run (version name : string) (args : list string) : outcome :=
  let (shellCompletion, osArgs) := checkShellCompleteFlag (name :: args) in
  let '(parsedArgs, st, err) := parseFlags shellCompletion (tail osArgs) [] initial in
  let sub := isCommand (default "" (head parsedArgs)) in
  if shellCompletion && negb sub then RunCompletion
  else
    match err with
    | Some e => if help st then ShowHelp else UsageError e
    | None =>
        if help st then ShowHelp
        else if versionSet st then ShowVersion
        else if sub then SubCommand parsedArgs
        else Action (commandOf version st)
    end.

(** The process that the arguments give; what the completions and the added
    sub-commands do is not modelled. *)
Definition invocationOf (o : outcome) : option Process.invocation :=
  match o with
  | UsageError e => Some (Process.UsageError e)
  | ShowHelp | ShowVersion => Some Process.Informed
  | RunCompletion | SubCommand _ => None
  | Action c => Some (Process.Commanded c)
  end.

(** ** Lemmas *)

(** The names of the flags are words, and the sign [=] is in none of them. *)
Lemma name_word name f :
  lookupAppliedFlag name = Some f ->
  all_bytes (fun c => graphic c && negb (bool_decide (c = equals))) name = true /\ name <> "".
Proof.
  assert (Hall : Forall (fun n => all_bytes (fun c => graphic c && negb (bool_decide (c = equals))) n = true
    /\ n <> "") (["postgres-port"; "help"; "h"; "version"; "v"] ++ map fst stringFlags))
    by (repeat (constructor; [split; [vm_compute; reflexivity|done]|]); constructor).
  assert (Hin : lookupAppliedFlag name = Some f ->
    name ∈ ["postgres-port"; "help"; "h"; "version"; "v"] ++ map fst stringFlags).
  { unfold lookupAppliedFlag. rewrite elem_of_app. case_decide; [by right|]. intros E. left.
    repeat (case_decide; [set_solver|]). done. }
  intros E%Hin. rewrite list.Forall_forall in Hall. by apply Hall.
Qed.

Lemma all_bytes_and (p q : ascii -> bool) s :
  all_bytes (fun c => p c && q c) s = true -> all_bytes p s = true /\ all_bytes q s = true.
Proof.
  induction s as [|c s IH]; cbn [all_bytes]; [done|]. intros [[Hp Hq]%andb_true_iff H]%andb_true_iff.
  destruct (IH H) as [-> ->]. by rewrite Hp, Hq.
Qed.

Lemma all_bytes_not c s :
  all_bytes (fun x => negb (bool_decide (x = c))) s = true -> contains_byte c s = false.
Proof.
  induction s as [|x s IH]; [done|]. cbn [all_bytes contains_byte]. intros [Hx H]%andb_true_iff.
  apply negb_true_iff in Hx. by rewrite Hx, IH.
Qed.

Lemma splitFlag_name name f : lookupAppliedFlag name = Some f -> splitFlag name = (name, "", false).
Proof.
  intros [[_ H%all_bytes_not]%all_bytes_and _]%name_word. unfold splitFlag. by rewrite cut_None.
Qed.

Lemma splitFlag_assign name f value :
  lookupAppliedFlag name = Some f -> splitFlag (name +:+ String equals value) = (name, value, true).
Proof.
  intros [[_ H%all_bytes_not]%all_bytes_and _]%name_word. unfold splitFlag. by rewrite cut_app.
Qed.

(** ** Assignments *)

(** A flag with its value, as [--name value] or as [--name=value]. *)
Inductive assignment := Separate (name value : string) | Joined (name value : string).

Definition render (a : assignment) : list string :=
  match a with
  | Separate name value => ["--" +:+ name; value]
  | Joined name value => ["--" +:+ (name +:+ String equals value)]
  end.

Definition target (a : assignment) : string * string :=
  match a with Separate name value | Joined name value => (name, value) end.

Definition assign (a : assignment) (st : values) : result values :=
  match lookupAppliedFlag (target a).1 with
  | Some f => set f (target a).2 st
  | None => Err (providedButNotDefined (target a).1)
  end.

Fixpoint assigns (l : list assignment) (st : values) : result values :=
  match l with
  | [] => Ok st
  | a :: l => let! st := assign a st in assigns l st
  end.

(** The flag takes a value; white space at the end of an argument is cut off, so
    a value that ends in it has to be an argument of its own. *)
Definition well_formed (a : assignment) : Prop :=
  (exists f, lookupAppliedFlag (target a).1 = Some f /\ IsBoolFlag f = false) /\
  match a with
  | Separate _ _ => True
  | Joined name value => TrimSpace ("--" +:+ (name +:+ String equals value)) =
                         "--" +:+ (name +:+ String equals value)
  end.

Lemma TrimSpace_name name f : lookupAppliedFlag name = Some f -> TrimSpace ("--" +:+ name) = "--" +:+ name.
Proof.
  intros [[Hg _]%all_bytes_and _]%name_word.
  assert (Hd : all_bytes graphic ("--" +:+ name) = true) by (by rewrite all_bytes_app, Hg).
  assert (Hne : "--" +:+ name <> "") by done.
  exact (proj1 (TrimSpace_word ("--" +:+ name) Hne Hd)).
Qed.

(** One argument that starts with two dashes and is not [--] alone. *)
Lemma parseFlags_dashes sc text rest posArgs st :
  text <> "" -> TrimSpace ("--" +:+ text) = "--" +:+ text ->
  parseFlags sc (("--" +:+ text) :: rest) posArgs st =
    let '(flagName, flagVal, valFromEqual) := splitFlag text in
    match lookupAppliedFlag flagName with
    | Some f =>
        if IsBoolFlag f then
          match set f (if decide (flagVal = "") then "true" else flagVal) st with
          | Ok st => parseFlags sc rest posArgs st
          | Err e => (posArgs, st, Some e)
          end
        else if decide (flagVal = "" /\ valFromEqual = false) then
          match rest with
          | [] => if sc then (posArgs ++ [("--" +:+ text)], st, None)
                  else (posArgs, st, Some (argumentNotProvided ("--" +:+ text)))
          | flagVal :: rest =>
              match set f flagVal st with
              | Ok st => parseFlags sc rest posArgs st
              | Err e => (posArgs, st, Some e)
              end
          end
        else match set f flagVal st with
             | Ok st => parseFlags sc rest posArgs st
             | Err e => (posArgs, st, Some e)
             end
    | None => if sc then (posArgs ++ ("--" +:+ text) :: rest, st, None)
              else (posArgs, st, Some (providedButNotDefined flagName))
    end.
Proof.
  intros Hne Ht. cbn [parseFlags]. rewrite Ht.
  change ("--" +:+ text) with (String dash (String dash text)). cbv iota beta.
  rewrite decide_False by (intros [=]; done).
  destruct (decide (dash <> dash)); [done|]. rewrite decide_False by (by intros [? _]).
  rewrite decide_True by done. by destruct rest.
Qed.

Lemma parseFlags_assign sc a rest posArgs st :
  well_formed a ->
  parseFlags sc (render a ++ rest) posArgs st =
    match assign a st with
    | Ok st => parseFlags sc rest posArgs st
    | Err e => (posArgs, st, Some e)
    end.
Proof.
  intros [(f & Hf & Hb) Ht]. unfold assign. rewrite Hf.
  destruct a as [name value|name value]; cbn [render target app fst snd] in *.
  - rewrite parseFlags_dashes; [|by apply (name_word name f)|by apply (TrimSpace_name name f)].
    rewrite (splitFlag_name name f Hf). cbv iota beta. rewrite Hf, Hb. by rewrite decide_True.
  - rewrite parseFlags_dashes; [|by destruct name|done].
    rewrite (splitFlag_assign name f value Hf). cbv iota beta. rewrite Hf, Hb.
    by rewrite decide_False by (by intros [_ ?]).
Qed.

Lemma assign_plain a st st' :
  well_formed a -> assign a st = Ok st' -> help st' = help st /\ versionSet st' = versionSet st.
Proof.
  intros [(f & Hf & Hb) _]. unfold assign. rewrite Hf. destruct f as [name| | |]; try done; cbn [set].
  - by intros [= <-].
  - destruct (ParseUint64 _); [by intros [= <-]|done].
Qed.

Lemma assigns_plain l : forall st st',
  Forall well_formed l -> assigns l st = Ok st' ->
  help st' = help st /\ versionSet st' = versionSet st.
Proof.
  induction l as [|a l IH]; intros st st' Hw E; [by injection E as <-|].
  apply list.Forall_cons in Hw as [Ha Hw]. cbn [assigns] in E. apply result_bind_Ok in E as (st1 & Ea & E).
  apply assign_plain in Ea as [H1 H2]; [|done]. apply IH in E as [-> ->]; done.
Qed.

(** Assignments are read one after the other, until one fails. *)
Lemma parseFlags_assigns sc l : forall rest posArgs st,
  Forall well_formed l ->
  match assigns l st with
  | Ok st' => parseFlags sc (List.concat (map render l) ++ rest) posArgs st = parseFlags sc rest posArgs st'
  | Err e => exists st', parseFlags sc (List.concat (map render l) ++ rest) posArgs st = (posArgs, st', Some e)
               /\ help st' = help st
  end.
Proof.
  induction l as [|a l IH]; intros rest posArgs st Hw; [done|].
  apply list.Forall_cons in Hw as [Ha Hw]. cbn [assigns map List.concat]. rewrite <- app_assoc.
  rewrite (parseFlags_assign sc a _ posArgs st Ha).
  destruct (assign a st) as [st1|e] eqn:Ea; cbn [result_bind]; [|by exists st].
  specialize (IH rest posArgs st1 Hw). apply assign_plain in Ea as [<- _]; done.
Qed.

(** The port is a number of 64 bits, whatever the arguments. *)
Lemma set_port f val st st' :
  set f val st = Ok st' -> 0 <= port st < 2 ^ 64 -> 0 <= port st' < 2 ^ 64.
Proof.
  destruct f; cbn [set]; [by intros [= <-]| | |].
  - destruct (ParseUint64 val) as [n|] eqn:E; [|done]. intros [= <-] _. by apply ParseUint64_range in E.
  - by destruct (ParseBool val); intros [= <-].
  - by destruct (ParseBool val); intros [= <-].
Qed.

Lemma parseFlags_port sc rargs : forall posArgs st,
  0 <= port st < 2 ^ 64 -> 0 <= port (parseFlags sc rargs posArgs st).1.2 < 2 ^ 64.
Proof.
  induction rargs as [rargs IH] using (induction_ltof1 _ (@length _)); unfold ltof in IH.
  assert (Hset : forall f val st rest posArgs, (length rest < length rargs)%nat -> 0 <= port st < 2 ^ 64 ->
    0 <= port (match set f val st with
               | Ok st => parseFlags sc rest posArgs st
               | Err e => (posArgs, st, Some e)
               end).1.2 < 2 ^ 64).
  { intros f val st rest posArgs Hl Hp. destruct (set f val st) as [st'|] eqn:E; [|done].
    apply IH; [done|]. by apply (set_port f val st). }
  intros posArgs st Hp. destruct rargs as [|arg rest]; [done|]. cbn [parseFlags].
  destruct (TrimSpace arg) as [|c0 tail0]; [apply IH; simpl; lia|].
  destruct (decide (_ = "--")); [done|]. destruct (decide (c0 <> dash)).
  { destruct (isCommand _); [done|]. apply IH; simpl; lia. }
  destruct tail0 as [|c1 tail1]; [done|]. destruct (decide (_ /\ _)); [done|].
  destruct (splitFlag _) as [[flagName flagVal] valFromEqual].
  destruct (lookupAppliedFlag flagName) as [f|]; [|by destruct sc].
  destruct (IsBoolFlag f); [apply Hset; [simpl; lia|done]|].
  destruct (decide (_ /\ _)); [|apply Hset; [simpl; lia|done]].
  destruct rest as [|v rest]; [by destruct sc|]. apply Hset; [simpl; lia|done].
Qed.

Lemma run_plain version name args :
  list.last (name :: args) <> Some completionFlag ->
  run version name args =
    let '(parsedArgs, st, err) := parseFlags false args [] initial in
    match err with
    | Some e => if help st then ShowHelp else UsageError e
    | None =>
        if help st then ShowHelp else if versionSet st then ShowVersion
        else if isCommand (default "" (head parsedArgs)) then SubCommand parsedArgs
        else Action (commandOf version st)
    end.
Proof.
  intros Hl. unfold run, checkShellCompleteFlag. rewrite decide_True by done. cbn [tail].
  by destruct (parseFlags _ _ _ _) as [[p st] [e|]].
Qed.

Lemma run_port version name args c : run version name args = Action c -> 0 <= Cli.postgres_port c < 2 ^ 64.
Proof.
  unfold run. destruct (checkShellCompleteFlag _) as [sc osArgs].
  pose proof (parseFlags_port sc (tail osArgs) [] initial ltac:(simpl; lia)) as Hp.
  destruct (parseFlags _ _ _ _) as [[parsedArgs st] err]. cbn [fst snd] in Hp.
  destruct (sc && _); [done|]. destruct err; [by destruct (help st)|].
  destruct (help st); [done|]. destruct (versionSet st); [done|]. destruct (isCommand _); [done|].
  by intros [= <-].
Qed.

Lemma isCommand_dash s : isCommand (String dash s) = false.
Proof.
  unfold isCommand. apply bool_decide_eq_false. intros E.
  repeat (apply elem_of_cons in E as [E|E]; [discriminate E|]). by apply elem_of_nil in E.
Qed.

(** ** Theorems *)

(** C26: The command line says the command.  A command line of flags with values,
    each in an argument of its own or after an equals sign, runs the daemon with
    the last value of each flag and the defaults of the others, or is refused
    with the error of the first value that is no number.  After such flags, a
    flag that does not exist is refused whatever follows it, and an argument
    such as [-1] ends the flags: the daemon runs, and every argument after it
    is ignored.  This is for command lines that do not end in the word with
    which a shell asks for completions. *)
Theorem command_line_spec (version name : string) (l : list assignment) :
  Forall well_formed l ->
  let line := List.concat (map render l) in
  (list.last (name :: line) <> Some completionFlag ->
   run version name line =
     match assigns l initial with
     | Ok st => Action (commandOf version st)
     | Err e => UsageError e
     end)
  /\ (forall st text rest, assigns l initial = Ok st ->
      list.last (("--" +:+ text) :: rest) <> Some completionFlag ->
      TrimSpace ("--" +:+ text) = "--" +:+ text -> text <> "" ->
      lookupAppliedFlag (splitFlag text).1.1 = None ->
      run version name (line ++ ("--" +:+ text) :: rest) =
        UsageError (providedButNotDefined (splitFlag text).1.1))
  /\ (forall st c text rest, assigns l initial = Ok st ->
      list.last (String dash (String c text) :: rest) <> Some completionFlag ->
      TrimSpace (String dash (String c text)) = String dash (String c text) ->
      c <> dash -> IsLetter c = false ->
      run version name (line ++ String dash (String c text) :: rest) = Action (commandOf version st)).
Proof.
  intros Hw line. split_and!.
  - intros Hl. rewrite run_plain by done. unfold line.
    pose proof (parseFlags_assigns false l [] [] initial Hw) as E. rewrite app_nil_r in E.
    destruct (assigns l initial) as [st|e] eqn:Ea.
    + rewrite E. cbn [parseFlags]. by destruct (assigns_plain l initial st Hw Ea) as [-> ->].
    + by destruct E as (st' & -> & ->).
  - intros st text rest Ea Hl Ht Hne Hno. rewrite run_plain.
    2: { change (name :: line ++ ?r) with ((name :: line) ++ r). by rewrite last_app_cons. }
    pose proof (parseFlags_assigns false l (("--" +:+ text) :: rest) [] initial Hw) as E.
    rewrite Ea in E. unfold line. rewrite E, parseFlags_dashes by done.
    destruct (splitFlag text) as [[flagName flagVal] eq]. cbn [fst] in Hno |- *. rewrite Hno.
    by destruct (assigns_plain l initial st Hw Ea) as [-> _].
  - intros st c text rest Ea Hl Ht Hc Hlet. rewrite run_plain.
    2: { change (name :: line ++ ?r) with ((name :: line) ++ r). by rewrite last_app_cons. }
    pose proof (parseFlags_assigns false l (String dash (String c text) :: rest) [] initial Hw) as E.
    rewrite Ea in E. unfold line. rewrite E. cbn [parseFlags]. rewrite Ht. cbv iota beta.
    rewrite decide_False by (intros [= ->]; done). destruct (decide (dash <> dash)); [done|].
    rewrite decide_True by done. destruct (assigns_plain l initial st Hw Ea) as [-> ->].
    cbn [app head default from_option id]. by rewrite isCommand_dash.
Qed.

(** The command line that says every flag; the port is last. *)
Definition commandLine (c : Cli.command) : list assignment :=
  [Separate "log-level" (Cli.log_level c); Separate "log-format" (Cli.log_format c);
   Separate "listen-debug" (Cli.listen_debug c); Separate "listen-ssh" (Cli.listen_ssh c);
   Separate "listen-http" (Cli.listen_http c); Separate "listen-socks" (Cli.listen_socks c);
   Separate "listen-http-proxy" (Cli.listen_http_proxy c);
   Separate "ca-public-key" (Cli.ca_public_key c);
   Separate "host-public-key" (Cli.host_public_key c);
   Separate "host-private-key" (Cli.host_private_key c);
   Separate "server-version" (Cli.server_version c); Separate "idle-timeout" (Cli.idle_timeout c);
   Separate "geoip-database" (Cli.geoip_database c); Separate "postgres-host" (Cli.postgres_host c);
   Separate "postgres-user" (Cli.postgres_user c);
   Separate "postgres-password" (Cli.postgres_password c);
   Separate "postgres-password-file" (Cli.postgres_password_file c);
   Separate "postgres-dbname" (Cli.postgres_dbname c);
   Separate "postgres-sslmode" (Cli.postgres_sslmode c);
   Separate "postgres-peer" (Cli.postgres_peer c);
   Separate "postgres-peer-host-public-key" (Cli.postgres_peer_host_public_key c);
   Separate "node-id" (Cli.node_id c); Separate "node-address" (Cli.node_address c);
   Separate "node-certificate" (Cli.node_certificate c);
   Separate "peer-ca-public-key" (Cli.peer_ca_public_key c);
   Separate "postgres-port" (formatUint64 (Cli.postgres_port c))].

Lemma well_formed_commandLine c : Forall well_formed (commandLine c).
Proof.
  unfold commandLine. repeat (apply List.Forall_cons; [split; [eexists; split; [vm_compute; reflexivity|done]|done]|]).
  constructor.
Qed.

Lemma assigns_strings l : forall st rest,
  Forall (fun a => lookupAppliedFlag (target a).1 = Some (StringFlag (target a).1)) l ->
  assigns (l ++ rest) st =
    assigns rest {| strings := foldl (fun m a => <[(target a).1 := (target a).2]> m) (strings st) l;
                    port := port st; help := help st; versionSet := versionSet st |}.
Proof.
  induction l as [|a l IH]; intros st rest Hl; [by destruct st|].
  apply list.Forall_cons in Hl as [Ha Hl]. cbn [assigns app foldl]. unfold assign. rewrite Ha.
  cbn [set result_bind]. by rewrite IH.
Qed.

Lemma assigns_commandLine c :
  0 <= Cli.postgres_port c < 2 ^ 64 ->
  exists st, assigns (commandLine c) initial = Ok st /\
    commandOf (Cli.root_version c) st = c.
Proof.
  intros Hp. change (commandLine c) with (take 25 (commandLine c) ++ drop 25 (commandLine c)).
  rewrite assigns_strings.
  2: { cbn [commandLine take]. repeat (apply List.Forall_cons; [vm_compute; reflexivity|]). constructor. }
  cbn [commandLine drop assigns]. unfold assign. cbn [target fst snd].
  replace (lookupAppliedFlag "postgres-port") with (Some UintFlag) by (vm_compute; reflexivity).
  cbn [set]. rewrite ParseUint64_format by done. eexists. split; [reflexivity|].
  destruct c. vm_compute. reflexivity.
Qed.

(** Every configuration can be given on the command line, and is read back as
    it is: values that are empty, start with a dash, contain [=] or end in
    white space, the port in decimal.  The port of a command that is run is a
    number of 64 bits, whatever the arguments. *)
Theorem command_line_roundtrip (name : string) (c : Cli.command) :
  0 <= Cli.postgres_port c < 2 ^ 64 ->
  run (Cli.root_version c) name (List.concat (map render (commandLine c))) = Action c.
Proof.
  intros Hp. destruct (assigns_commandLine c Hp) as (st & Ha & Hc).
  rewrite run_plain.
  - pose proof (parseFlags_assigns false (commandLine c) [] [] initial (well_formed_commandLine c)) as E.
    rewrite Ha, app_nil_r in E. rewrite E. cbn [parseFlags].
    destruct (assigns_plain _ initial st (well_formed_commandLine c) Ha) as [-> ->].
    by rewrite <- Hc at 2.
  - cbn [commandLine map render List.concat app list.last]. intros E%(inj Some). destruct (HttpProxy.digits_start 19 (Cli.postgres_port c) ltac:(lia)) as (d & s & Ed & Hd).
    unfold formatUint64 in E. rewrite Ed in E. injection E as -> _. by destruct Hd.
Qed.

(** [main] with the arguments of the process. *)
Definition main (Commit name : string) (args : list string) (action : Cli.command -> Process.ending)
    : option Process.process :=
  (fun i => Process.main Commit i action) <$>
    invocationOf (run (Process.Version +:+ "." +:+ Commit) name args).

(** A flag that does not exist keeps the process from serving, which its status
    does not tell. *)
Theorem unknown_flag_exits_zero (Commit name : string) (l : list assignment) (text : string)
    (rest : list string) (st : values) (action : Cli.command -> Process.ending) :
  Forall well_formed l -> assigns l initial = Ok st ->
  list.last (("--" +:+ text) :: rest) <> Some completionFlag ->
  TrimSpace ("--" +:+ text) = "--" +:+ text -> text <> "" ->
  lookupAppliedFlag (splitFlag text).1.1 = None ->
  (fun p => (Process.trace p, Process.status p)) <$>
    main Commit name (List.concat (map render l) ++ ("--" +:+ text) :: rest) action = Some ([], 0).
Proof.
  intros Hw Ha Hl Ht Hne Hno. unfold main. rewrite run_plain.
  2: { change (name :: ?a ++ ?r) with ((name :: a) ++ r). by rewrite last_app_cons. }
  pose proof (parseFlags_assigns false l (("--" +:+ text) :: rest) [] initial Hw) as E.
  rewrite Ha in E. rewrite E, parseFlags_dashes by done.
  destruct (splitFlag text) as [[flagName flagVal] eq]. cbn [fst] in Hno |- *. rewrite Hno.
  by destruct (assigns_plain l initial st Hw Ha) as [-> _].
Qed.

(** ** Examples *)

Definition example_assignments : list assignment :=
  [Joined "node-id" "node-a"; Separate "postgres-password" "secret "; Separate "postgres-port" "0x1538"].

Lemma example_assignments_well_formed : Forall well_formed example_assignments.
Proof.
  repeat (apply List.Forall_cons;
    [split; [eexists; split; [vm_compute; reflexivity|done]|vm_compute; reflexivity || exact I]|]).
  constructor.
Qed.

Lemma command_line_roundtrip_witness :
  run "1.0" "gatewaysshd" (List.concat (map render (commandLine Cli.example_command))) =
    Action Cli.example_command.
Proof.
  apply (command_line_roundtrip "gatewaysshd" Cli.example_command). vm_compute. split; [discriminate|reflexivity].
Defined.

Lemma command_line_spec_witness :
  match run "1.0" "gatewaysshd" (List.concat (map render example_assignments)) with
  | Action c => Cli.node_id c = "node-a" /\ Cli.postgres_password c = "secret "
      /\ Cli.postgres_port c = 5432 /\ Cli.listen_ssh c = ":2020"
  | _ => False
  end
  /\ run "1.0" "gatewaysshd" (List.concat (map render example_assignments) ++ ["--node_id=b"]) =
       UsageError (Errorf "flag provided but not defined: -node_id")
  /\ run "1.0" "gatewaysshd" (List.concat (map render example_assignments) ++ ["-1"; "--node-id=b"]) =
     run "1.0" "gatewaysshd" (List.concat (map render example_assignments)).
Proof.
  destruct (command_line_spec "1.0" "gatewaysshd" example_assignments example_assignments_well_formed)
    as (Hrun & Hunknown & Hnumber).
  destruct (assigns example_assignments initial) as [st|e] eqn:E; [|vm_compute in E; discriminate E].
  rewrite Hrun by (vm_compute; intros [=]). split; [|split].
  - assert (Hst : st = match assigns example_assignments initial with Ok st => st | Err _ => st end)
      by (rewrite E; reflexivity).
    rewrite Hst. vm_compute. repeat split.
  - apply (Hunknown st "node_id=b" []); [reflexivity|..]; vm_compute; try reflexivity; intros [=].
  - apply (Hnumber st "1"%char "" ["--node-id=b"]); [reflexivity|..]; vm_compute;
      try reflexivity; intros [=].
Defined.
End Arguments.
