(* ===== verification/Release.v ===== *)
(** * The release scripts, [scripts/release]

    The parser of the changelog block of a pull request
    ([changelog-block.mjs]), the check that runs on every pull request
    ([check-changelog.mjs]), the step of a release that moves the blocks of the
    merged pull requests into CHANGELOG.md ([changelog-promote.mjs]), and the
    choice of the next version ([commit-analyzer-no-major.mjs]).  JavaScript's
    strings are lists of 16-bit code units; what GitHub, git and the wrapped
    analyzer answer are arguments. *)

From stdpp Require Import base list strings option sorting.
From Stdlib Require Import ZArith Lia Strings.Ascii.
From S2P Require Import Prelude GoStrings.

#[local] Open Scope Z_scope.

Module Release.

(** ** Strings *)

Abbreviation text := (list Z).

Fixpoint js (s : string) : text :=
  match s with
  | EmptyString => []
  | String c s => Z.of_nat (nat_of_ascii c) :: js s
  end.

(** What [\s] matches and [trim] removes, and what ends a line. *)
Definition isSpace (c : Z) : bool :=
  bool_decide (9 <= c <= 13) || bool_decide (c = 32) || bool_decide (c = 160) ||
  bool_decide (c = 5760) || bool_decide (8192 <= c <= 8202) || bool_decide (c = 8232) ||
  bool_decide (c = 8233) || bool_decide (c = 8239) || bool_decide (c = 8287) ||
  bool_decide (c = 12288) || bool_decide (c = 65279).
Definition endsLine (c : Z) : bool :=
  bool_decide (c = 10) || bool_decide (c = 13) || bool_decide (c = 8232) || bool_decide (c = 8233).

Fixpoint startsWith (p s : text) : bool :=
  match p, s with
  | [], _ => true
  | a :: p, b :: s => bool_decide (a = b) && startsWith p s
  | _ :: _, [] => false
  end.

Fixpoint endsWith (p s : text) : bool :=
  bool_decide (s = p) || match s with [] => false | _ :: s => endsWith p s end.

(** The parts before and after the first occurrence, which [indexOf] and
    [slice] are used for. *)
Fixpoint cutAt (p s : text) : option (text * text) :=
  if startsWith p s then Some ([], drop (length p) s)
  else match s with
       | [] => None
       | c :: s => (fun '(a, b) => (c :: a, b)) <$> cutAt p s
       end.

(** [split] at one code unit. *)
Fixpoint splitOn (sep : Z) (s : text) : list text :=
  match s with
  | [] => [[]]
  | c :: s =>
      if decide (c = sep) then [] :: splitOn sep s
      else match splitOn sep s with
           | part :: rest => (c :: part) :: rest
           | [] => [[c]]
           end
  end.

(** [join] *)
Fixpoint joinWith (sep : text) (parts : list text) : text :=
  match parts with
  | [] => []
  | [part] => part
  | part :: rest => part ++ sep ++ joinWith sep rest
  end.

Fixpoint trimStart (s : text) : text :=
  match s with
  | c :: s' => if isSpace c then trimStart s' else s
  | [] => []
  end.

Fixpoint trimEnd (s : text) : text :=
  match s with
  | [] => []
  | c :: s => let rest := trimEnd s in if isSpace c && bool_decide (rest = []) then [] else c :: rest
  end.

Definition trim (s : text) : text := trimEnd (trimStart s).

Definition newline : Z := 10.

(** ** [changelog-block.mjs] *)

Definition START_MARKER : text := js "<!-- changelog:start -->".
Definition END_MARKER : text := js "<!-- changelog:end -->".

Inductive section := Added | Changed | Deprecated | Removed | Fixed | Security.

#[export] Instance section_eq_dec : EqDecision section.
Proof. solve_decision. Defined.

Definition ALLOWED_SECTIONS : list section := [Added; Changed; Deprecated; Removed; Fixed; Security].

Definition sectionName (s : section) : text :=
  js match s with
     | Added => "Added" | Changed => "Changed" | Deprecated => "Deprecated"
     | Removed => "Removed" | Fixed => "Fixed" | Security => "Security"
     end.

Definition sectionOf (name : text) : option section :=
  head (filter (fun s => sectionName s = name) ALLOWED_SECTIONS).

(** [PLACEHOLDER_PATTERN.test] *)
Definition isPlaceholder (line : text) : bool :=
  match line with
  | c :: c' :: rest => bool_decide (c = 45) && isSpace c' && startsWith (js "TODO:") (trimStart rest)
  | _ => false
  end.

Definition extractBlock (description : text) : option text :=
  match cutAt START_MARKER description with
  | None => None
  | Some (_, rest) => fst <$> cutAt END_MARKER rest
  end.

(** Removing HTML comments; each turn consumes a code unit at least. *)
Fixpoint stripFrom (fuel : nat) (s : text) : text :=
  match fuel, s with
  | S fuel, c :: s' =>
      if startsWith (js "<!--") s then
        match cutAt (js "-->") (drop 4 s) with
        | Some (_, after) => stripFrom fuel after
        | None => c :: stripFrom fuel s'
        end
      else c :: stripFrom fuel s'
  | _, _ => []
  end.

Definition stripComments (s : text) : text := stripFrom (S (length s)) s.

(** The name in a heading, of a line without spaces around it. *)
Definition heading (trimmed : text) : option text :=
  match drop 3 trimmed with
  | c :: rest =>
      if startsWith (js "###") trimmed && isSpace c then
        let name := trimStart rest in
        if existsb endsLine name then None else Some name
      else None
  | [] => None
  end.

Record parsed := {
  sections : section -> list text;
  placeholders : list text;
  unknownSections : list text;
}.

Definition pushTo {A} (s : section) (x : A) (f : section -> list A) (s' : section) : list A :=
  if decide (s' = s) then f s' ++ [x] else f s'.

(** One line of a block. *)
Definition parseLine (currentSection : option section) (p : parsed) (rawLine : text)
    : option section * parsed :=
  let line := trimEnd rawLine in
  let trimmed := trim line in
  match heading trimmed with
  | Some name =>
      match sectionOf name with
      | Some s => (Some s, p)
      | None => (None, {| sections := sections p; placeholders := placeholders p;
                          unknownSections := unknownSections p ++ [name] |})
      end
  | None =>
      match currentSection with
      | None => (None, p)
      | Some s =>
          if decide (trimmed = []) then (Some s, p)
          else if isPlaceholder trimmed then
            (Some s, {| sections := sections p; placeholders := placeholders p ++ [trimmed];
                        unknownSections := unknownSections p |})
          else (Some s, {| sections := pushTo s line (sections p); placeholders := placeholders p;
                           unknownSections := unknownSections p |})
      end
  end.

Fixpoint parseLines (currentSection : option section) (p : parsed) (lines : list text) : parsed :=
  match lines with
  | [] => p
  | line :: rest =>
      let (currentSection, p) := parseLine currentSection p line in parseLines currentSection p rest
  end.

Definition parseBlock (block : text) : parsed :=
  parseLines None {| sections := fun _ => []; placeholders := []; unknownSections := [] |}
    (splitOn newline (stripComments block)).

Definition bulletCount (f : section -> list text) : Z :=
  foldr (fun s n => Z.of_nat (length (f s)) + n) 0 ALLOWED_SECTIONS.

(** What of the environment the request to GitHub uses, and the request. *)
Record environment := {
  GITHUB_API_URL : text;
  GITHUB_REPOSITORY : text;
  GH_TOKEN : text;
  GITHUB_TOKEN : text;
}.

(** JavaScript's [a || b] of strings. *)
Definition orElse (a b : text) : text := if decide (a = []) then b else a.

Record pull := { number : Z; labels : list text; body : text }.

Record request := { url : text; Authorization : text }.

(** [fetchPullRequestsForCommit]; [None] is an exception. *)
Definition fetchPullRequestsForCommit (fetch : request -> option (list pull)) (repository sha : text)
    (env : environment) : option (list pull) :=
  let apiUrl := orElse (GITHUB_API_URL env) (js "https://api.github.com") in
  let token := orElse (GH_TOKEN env) (GITHUB_TOKEN env) in
  if decide (token = []) then None
  else fetch {| url := apiUrl ++ js "/repos/" ++ repository ++ js "/commits/" ++ sha ++ js "/pulls";
                Authorization := js "Bearer " ++ token |}.

(** ** [check-changelog.mjs] *)

Definition skipLabel : text := js "skip-changelog".

Definition prLabels (PR_LABELS : text) : list text :=
  filter (fun l => l <> []) (map trim (splitOn 44 PR_LABELS)).

Definition isProduction (path : text) : bool :=
  if negb (endsWith (js ".go") path) then false
  else if endsWith (js "_test.go") path then false
  else if startsWith (js "vendor/") path then false
  else if startsWith (js "db/dbtest/") path then false
  else true.

(** How the check ends. *)
Inductive verdict :=
| Skipped                       (* the label *)
| NotRequired                   (* no production code *)
| NoBlock
| HasPlaceholders (bullets : list text)
| HasUnknownSections (names : list text)
| NoBullets
| BlockOk (bullets : Z).

Definition exitCode (v : verdict) : Z :=
  match v with Skipped | NotRequired | BlockOk _ => 0 | _ => 1 end.

(** [changed] are the names in the output of [git diff]. *)
Definition checkChangelog (PR_BODY PR_LABELS : text) (changed : list text) : verdict :=
  if decide (skipLabel ∈ prLabels PR_LABELS) then Skipped
  else if decide (filter (fun path => isProduction path = true) changed = []) then NotRequired
  else
    match extractBlock PR_BODY with
    | None => NoBlock
    | Some block =>
        let p := parseBlock block in
        if decide (placeholders p <> []) then HasPlaceholders (placeholders p)
        else if decide (unknownSections p <> []) then HasUnknownSections (unknownSections p)
        else if decide (bulletCount (sections p) = 0) then NoBullets
        else BlockOk (bulletCount (sections p))
    end.

(** ** [changelog-promote.mjs] *)

Definition ANCHOR : text := js "<!-- changelog:insert-here -->".

(** The white space after the anchor, up to the end of a line: as much as
    possible. *)
Fixpoint anchorTail (s : text) : option (text * text) :=
  match s with
  | [] => Some ([], [])
  | c :: s' =>
      match (if isSpace c then anchorTail s' else None) with
      | Some (w, rest) => Some (c :: w, rest)
      | None => if endsLine c then Some ([], s) else None
      end
  end.

(** A match of [ANCHOR_PATTERN] at the front, which must be the start of a
    line. *)
Definition anchorHere (s : text) : option (text * text) :=
  if startsWith ANCHOR s then
    (fun '(w, rest) => (ANCHOR ++ w, rest)) <$> anchorTail (drop (length ANCHOR) s)
  else None.

(** What is before the end of the first match, and what follows. *)
Fixpoint findAnchor (lineStart : bool) (s : text) : option (text * text) :=
  match (if lineStart then anchorHere s else None) with
  | Some r => Some r
  | None =>
      match s with
      | [] => None
      | c :: s' => (fun '(a, b) => (c :: a, b)) <$> findAnchor (endsLine c) s'
      end
  end.

(** The state of the loop over the commits. *)
Record gathered := {
  seenPrs : list Z;
  aggregate : section -> list text;
  skippedPrs : list Z;
  blocklessPrs : list Z;
}.

Definition nothing : gathered :=
  {| seenPrs := []; aggregate := fun _ => []; skippedPrs := []; blocklessPrs := [] |}.

(** Numbers of pull requests are printed in decimal. *)
Definition tag (n : Z) : text := js "#" ++ js (formatUint64 n).
Definition attributed (n : Z) (item : text) : text := item ++ js " (" ++ tag n ++ js ")".

Definition gatherPull (g : gathered) (p : pull) : gathered :=
  if decide (number p ∈ seenPrs g) then g
  else
    let seen := seenPrs g ++ [number p] in
    if decide (skipLabel ∈ labels p) then
      {| seenPrs := seen; aggregate := aggregate g; skippedPrs := skippedPrs g ++ [number p];
         blocklessPrs := blocklessPrs g |}
    else
      match extractBlock (body p) with
      | None => {| seenPrs := seen; aggregate := aggregate g; skippedPrs := skippedPrs g;
                   blocklessPrs := blocklessPrs g ++ [number p] |}
      | Some block =>
          {| seenPrs := seen;
             aggregate := fun s => aggregate g s ++ map (attributed (number p)) (sections (parseBlock block) s);
             skippedPrs := skippedPrs g; blocklessPrs := blocklessPrs g |}
      end.

(** [sha] of each commit, if it has one. *)
Definition gather (fetch : text -> option (list pull)) (commits : list (option text)) : gathered :=
  foldl (fun g sha =>
    match sha with
    | None => g
    | Some sha => match fetch sha with None => g | Some pulls => foldl gatherPull g pulls end
    end) nothing commits.

Definition sectionPart (g : section -> list text) (s : section) : text :=
  if decide (g s = []) then []
  else js "
### " ++ sectionName s ++ js "

" ++ joinWith [newline] (g s) ++ [newline].

Definition renderVersionBody (g : gathered) : text :=
  if decide (filter (fun s => aggregate g s <> []) ALLOWED_SECTIONS = []) then
    if decide (skippedPrs g ++ blocklessPrs g = [])
    then js "
_No changelog entries._
"
    else js "
_No changelog entries (all merged PRs opted out or shipped without a block)._
"
  else concat (map (sectionPart (aggregate g)) ALLOWED_SECTIONS).

Fixpoint skipWhile (f : Z -> bool) (s : text) : text :=
  match s with c :: s' => if f c then skipWhile f s' else s | [] => [] end.

Definition digitOrDot (c : Z) : bool := bool_decide (48 <= c <= 57) || bool_decide (c = 46).

(** The text after the number signs of a heading of one or two. *)
Definition afterHashes (s : text) : text :=
  match s with
  | c :: c' :: rest => if decide (c = 35 /\ c' = 35) then rest else if decide (c = 35) then c' :: rest else []
  | _ => []
  end.

(** The notes without the line that has the version. *)
Definition dropVersionHeading (notes : text) : text :=
  match afterHashes notes with
  | c :: rest =>
      if isSpace c then
        let s := trimStart rest in
        let s := match s with b :: s' => if decide (b = 91) then s' else s | [] => [] end in
        match s with
        | d :: s =>
            if digitOrDot d then
              match cutAt [newline] s with
              | Some (_, after) => skipWhile (fun c => bool_decide (c = newline)) after
              | None => notes
              end
            else notes
        | [] => notes
        end
      else notes
  | [] => notes
  end.

Definition autoBlock (notes : text) : text :=
  let bullets := trim (dropVersionHeading notes) in
  if decide (bullets = []) then []
  else js "
<details>
<summary>Commit summary (auto-generated)</summary>

" ++ bullets ++ js "

</details>
".

Definition versionDeclaration : text := js "var Version string = " ++ [34].

(** [version.go] with another version; [None] if it has no declaration.  A
    version contains no dollar sign, which [replace] would expand. *)
Definition replaceVersion (version content : text) : text :=
  match cutAt versionDeclaration content with
  | None => content
  | Some (before, rest) =>
      match cutAt [34] rest with
      | None => content
      | Some (_, after) => before ++ versionDeclaration ++ version ++ [34] ++ after
      end
  end.

(** How [prepare] ends: with an exception, and with CHANGELOG.md written or
    not, or with both files written. *)
Inductive prepared :=
| NoAnchor
| NoRepository
| NoVersion (changelog : text)
| Prepared (changelog version : text).

Definition newHeader (version date : text) : text :=
  js "## " ++ version ++ js " (" ++ date ++ js ")".

Definition insertion (version date notes : text) (g : gathered) : text :=
  [newline; newline] ++ newHeader version date ++ [newline] ++ renderVersionBody g ++ autoBlock notes.

Definition prepare (fetch : request -> option (list pull)) (env : environment)
    (version date notes : text) (commits : list (option text)) (changelog versionContent : text)
    : prepared :=
  match findAnchor true changelog with
  | None => NoAnchor
  | Some (before, after) =>
      if decide (GITHUB_REPOSITORY env = []) then NoRepository
      else
        let g := gather (fun sha => fetchPullRequestsForCommit fetch (GITHUB_REPOSITORY env) sha env)
                   commits in
        let content := before ++ insertion version date notes g ++ after in
        let updatedVersionContent := replaceVersion version versionContent in
        if decide (updatedVersionContent = versionContent) then NoVersion content
        else Prepared content updatedVersionContent
  end.

(** ** [commit-analyzer-no-major.mjs] *)

Definition VALID_TYPES : list text := [js "major"; js "minor"; js "patch"].

(** [forced] is the environment's FORCE_RELEASE_TYPE, [upstream] what the
    wrapped analyzer returns; [None] is no release. *)
Definition analyzeCommits (forced : text) (upstream : option text) : option text :=
  if decide (forced <> [] /\ forced ∈ VALID_TYPES) then Some forced
  else if decide (upstream = Some (js "major")) then Some (js "minor") else upstream.

(** ** Finding text *)

Lemma startsWith_app p s : startsWith p (p ++ s) = true.
Proof. induction p as [|a p IH]; [done|]. cbn. by rewrite bool_decide_true. Qed.

Lemma startsWith_split p s : startsWith p s = true -> s = p ++ drop (length p) s.
Proof.
  revert s. induction p as [|a p IH]; intros s H; [done|]. destruct s as [|b s]; [done|].
  cbn in H. apply andb_true_iff in H as [->%bool_decide_eq_true H]. cbn. by rewrite <- IH.
Qed.

(** Only so many code units matter. *)
Lemma startsWith_local p z x y : (length p <= length z)%nat ->
  startsWith p (z ++ x) = startsWith p (z ++ y).
Proof.
  revert z. induction p as [|a p IH]; intros [|b z] Hl; try done; [cbn in Hl; lia|].
  cbn. rewrite (IH z); [done|cbn in Hl; lia].
Qed.

Lemma cutAt_unfold p s :
  cutAt p s = if startsWith p s then Some ([], drop (length p) s)
              else match s with [] => None | c :: s => (fun '(a, b) => (c :: a, b)) <$> cutAt p s end.
Proof. by destruct s. Qed.

Lemma cutAt_spec p s a b : cutAt p s = Some (a, b) ->
  s = a ++ p ++ b /\ forall y, cutAt p (a ++ p ++ y) = Some (a, y).
Proof.
  revert a. induction s as [|c s IH]; intros a E; rewrite cutAt_unfold in E;
    destruct (startsWith p _) eqn:Es.
  1, 3: injection E as <- <-; apply startsWith_split in Es; split; [done|]; intros y;
    rewrite app_nil_l, cutAt_unfold, startsWith_app; by rewrite drop_app_length.
  { done. }
  destruct (cutAt p s) as [[a' b']|] eqn:Ec; [|done]. injection E as <- <-.
  destruct (IH a' eq_refl) as [-> Hy]. split; [done|]. intros y. cbn [app].
  rewrite cutAt_unfold.
  assert (El : startsWith p (c :: a' ++ p ++ y) = false).
  { rewrite <- Es. rewrite !(app_assoc a').
    apply (startsWith_local p (c :: a' ++ p)). cbn. rewrite length_app. lia. }
  rewrite El, Hy. done.
Qed.

(** ** The anchor *)

Lemma endsLine_space c : endsLine c = true -> isSpace c = true.
Proof.
  unfold endsLine. rewrite !orb_true_iff, !bool_decide_eq_true.
  intros [[[-> | ->]| ->]| ->]; done.
Qed.

Lemma anchorTail_spec s w r : anchorTail s = Some (w, r) ->
  s = w ++ r /\ Forall (fun c => isSpace c = true) w.
Proof.
  revert w. induction s as [|c s IH]; intros w; cbn [anchorTail]; [intros [= <- <-]; by split|].
  destruct (isSpace c) eqn:Hc.
  - destruct (anchorTail s) as [[w' r']|] eqn:E.
    + intros [= <- <-]. destruct (IH w' eq_refl) as [-> Hw]. split; [done|]. by constructor.
    + destruct (endsLine c); [|done]. intros [= <- <-]. by split.
  - destruct (endsLine c); [|done]. intros [= <- <-]. by split.
Qed.

(** After two more line ends and something else, the white space goes on up to
    the last line end. *)
Lemma anchorTail_again w c x : Forall (fun c => isSpace c = true) w -> isSpace c = false ->
  anchorTail (w ++ [newline; newline] ++ c :: x) = Some (w ++ [newline], newline :: c :: x).
Proof.
  intros Hw Hc. induction Hw as [|d w Hd Hw IH].
  - assert (En : endsLine c = false) by (destruct (endsLine c) eqn:E; [|done];
      apply endsLine_space in E; congruence).
    change ([] ++ [newline; newline] ++ c :: x) with (newline :: newline :: c :: x).
    cbn [anchorTail]. change (isSpace newline) with true. cbv iota. by rewrite Hc, En.
  - cbn [app anchorTail]. rewrite Hd. cbn [app] in IH. by rewrite IH.
Qed.

(** A text with something other than white space in it decides. *)
Lemma anchorTail_local z x y : Exists (fun c => isSpace c = false) z ->
  anchorTail (z ++ x) = None -> anchorTail (z ++ y) = None.
Proof.
  induction z as [|c z IH]; intros Hz; [by inversion Hz|]. cbn [app anchorTail].
  destruct (isSpace c) eqn:Hc.
  - apply Exists_cons in Hz as [Hz|Hz]; [congruence|]. specialize (IH Hz).
    destruct (anchorTail (z ++ x)) as [[]|]; [done|]. rewrite IH by done.
    by destruct (endsLine c).
  - by destruct (endsLine c).
Qed.

Lemma ANCHOR_solid : Exists (fun c => isSpace c = false) (drop 29 ANCHOR) /\ length ANCHOR = 30%nat.
Proof. split; [|done]. by apply Exists_cons_hd. Qed.

Lemma anchorHere_local c pre u v :
  anchorHere (c :: pre ++ ANCHOR ++ u) = None -> anchorHere (c :: pre ++ ANCHOR ++ v) = None.
Proof.
  unfold anchorHere. destruct ANCHOR_solid as [Hs Hl]. rewrite !(app_assoc pre).
  change (c :: (pre ++ ANCHOR) ++ u) with ((c :: pre ++ ANCHOR) ++ u).
  change (c :: (pre ++ ANCHOR) ++ v) with ((c :: pre ++ ANCHOR) ++ v).
  assert (Hlen : (length ANCHOR < length (c :: pre ++ ANCHOR))%nat) by (cbn [length]; rewrite length_app; lia).
  rewrite (startsWith_local ANCHOR (c :: pre ++ ANCHOR) v u) by lia.
  destruct (startsWith _ _); [|done]. rewrite !drop_app_le by lia.
  set (z := drop (length ANCHOR) (c :: pre ++ ANCHOR)).
  assert (Hz : Exists (fun c => isSpace c = false) z).
  { subst z. rewrite Hl. change (c :: pre ++ ANCHOR) with ((c :: pre) ++ ANCHOR).
    destruct (decide (30 <= length (c :: pre))%nat) as [Hp|Hp].
    - rewrite drop_app_le by done. apply Exists_app. right. by apply Exists_cons_hd.
    - rewrite drop_app_ge by lia. apply Exists_exists.
      exists 62. split; [|done]. apply list_elem_of_lookup.
      exists (29 - (30 - length (c :: pre)))%nat. rewrite lookup_drop.
      cbn [length] in *.
      replace (30 - S (length pre) + (29 - (30 - S (length pre))))%nat with 29%nat by lia. done. }
  destruct (anchorTail (z ++ u)) as [[]|] eqn:E; [done|].
  by rewrite (anchorTail_local z u v Hz E).
Qed.

Lemma anchorHere_spec s m r : anchorHere s = Some (m, r) ->
  s = m ++ r /\ (exists w, m = ANCHOR ++ w) /\
  forall c x, isSpace c = false ->
    anchorHere (m ++ [newline; newline] ++ c :: x) = Some (m ++ [newline], newline :: c :: x).
Proof.
  unfold anchorHere. destruct (startsWith ANCHOR s) eqn:Es; [|done]. apply startsWith_split in Es.
  destruct (anchorTail _) as [[w r']|] eqn:Et; [|done].
  cbn [fmap option_fmap option_map]. intros E. apply (inj Some), pair_equal_spec in E as [<- <-].
  apply anchorTail_spec in Et as [Et Hw]. rewrite Et in Es. rewrite <- !app_assoc.
  split; [done|]. split; [by exists w|]. intros c x Hc.
  rewrite <- !(app_assoc ANCHOR w). rewrite startsWith_app, drop_app_length, anchorTail_again by done.
  done.
Qed.

Lemma findAnchor_unfold b s :
  findAnchor b s = match (if b then anchorHere s else None) with
                   | Some r => Some r
                   | None => match s with
                             | [] => None
                             | c :: s' => (fun '(a, b) => (c :: a, b)) <$> findAnchor (endsLine c) s'
                             end
                   end.
Proof. by destruct s. Qed.

(** The anchor is found again when a section is put behind it. *)
Lemma findAnchor_spec b s m r : findAnchor b s = Some (m, r) ->
  s = m ++ r /\ (exists pre w, m = pre ++ ANCHOR ++ w) /\
  forall c x, isSpace c = false ->
    findAnchor b (m ++ [newline; newline] ++ c :: x) = Some (m ++ [newline], newline :: c :: x).
Proof.
  revert b m. induction s as [|d s IH]; intros b m E; rewrite findAnchor_unfold in E;
    destruct (if b then anchorHere _ else None) as [[m0 r0]|] eqn:Eh.
  1, 3: injection E as -> ->; destruct b; [|done];
    apply anchorHere_spec in Eh as (Es & (w & Em) & Hx); (split; [done|]); (split; [by exists [], w|]);
    intros c x Hc; by rewrite findAnchor_unfold, Hx.
  { done. }
  destruct (findAnchor (endsLine d) s) as [[m' r']|] eqn:E'; [|done]. injection E as <- <-.
  destruct (IH _ _ E') as (-> & (pre & w & ->) & Hx). split; [done|].
  split; [by exists (d :: pre), w|]. intros c x Hc. cbn [app]. rewrite findAnchor_unfold.
  assert (En : (if b then anchorHere (d :: (pre ++ ANCHOR ++ w) ++ [newline; newline] ++ c :: x) else None)
    = None).
  { destruct b; [|done]. rewrite <- !app_assoc in Eh |- *. by apply (anchorHere_local d pre (w ++ r')). }
  cbn [app] in En, Hx. rewrite En, Hx by done. done.
Qed.

(** ** Comments *)

(** The fuel is enough: more of it makes no difference. *)
Lemma stripFrom_fuel n m s : (length s < n)%nat -> (length s < m)%nat -> stripFrom n s = stripFrom m s.
Proof.
  revert m s. induction n as [|n IH]; intros m s Hn Hm; [lia|]. destruct m as [|m]; [lia|].
  destruct s as [|c s]; [done|]. cbn [length] in Hn, Hm. cbn [stripFrom].
  rewrite (IH m s) by lia. destruct (startsWith _ _); [|done].
  destruct (cutAt _ _) as [[a b]|] eqn:E; [|done]. apply cutAt_spec in E as [E _].
  apply (f_equal length) in E. rewrite length_drop, !length_app in E. cbn [length] in E.
  apply IH; lia.
Qed.

(** ** Labels *)

Lemma splitOn_parts c s : exists part rest, splitOn c s = part :: rest.
Proof.
  induction s as [|x s (part & rest & E)]; cbn [splitOn]; [eauto|]. case_decide; [eauto|]. rewrite E. eauto.
Qed.

Lemma splitOn_sep c a b : splitOn c (a ++ c :: b) = splitOn c a ++ splitOn c b.
Proof.
  induction a as [|x a IH]; cbn [app splitOn]; [by rewrite decide_True|]. case_decide; [by rewrite IH|].
  rewrite IH. by destruct (splitOn_parts c a) as (part & rest & ->).
Qed.

Lemma splitOn_join c x (ls : list text) : x ∈ ls -> splitOn c x = [x] ->
  x ∈ splitOn c (joinWith [c] ls).
Proof.
  intros Hin Hx. induction ls as [|l ls IH]; [by apply elem_of_nil in Hin|].
  destruct ls as [|l' ls]; cbn [joinWith].
  - apply list_elem_of_singleton in Hin as <-. rewrite Hx. by apply list_elem_of_singleton.
  - change (l ++ [c] ++ ?rest) with (l ++ c :: rest). rewrite splitOn_sep. apply elem_of_app. apply elem_of_cons in Hin as [<-|Hin].
    + left. rewrite Hx. by apply list_elem_of_singleton.
    + right. by apply IH.
Qed.

(** A label of the pull request is a label of the check. *)
Lemma prLabels_skip ls : skipLabel ∈ ls -> skipLabel ∈ prLabels (joinWith [44] ls).
Proof.
  intros Hin. unfold prLabels. apply list_elem_of_filter. split; [done|].
  apply list_elem_of_fmap. exists skipLabel. split; [done|]. by apply splitOn_join.
Qed.

(** ** Gathering *)

(** The pull requests whose number is new, in order. *)
Fixpoint firsts (seen : list Z) (ps : list pull) : list pull :=
  match ps with
  | [] => []
  | p :: rest =>
      if decide (number p ∈ seen) then firsts seen rest else p :: firsts (seen ++ [number p]) rest
  end.

(** What a pull request adds to a section. *)
Definition contribution (s : section) (p : pull) : list text :=
  if decide (skipLabel ∈ labels p) then []
  else match extractBlock (body p) with
       | None => []
       | Some block => map (attributed (number p)) (sections (parseBlock block) s)
       end.

Lemma gatherPulls_spec ps g s :
  aggregate (foldl gatherPull g ps) s =
  aggregate g s ++ concat (map (contribution s) (firsts (seenPrs g) ps)).
Proof.
  revert g. induction ps as [|p ps IH]; intros g; cbn [foldl firsts]; [by rewrite app_nil_r|].
  rewrite IH. unfold gatherPull. case_decide as Hs; [done|]. cbn [map concat]. unfold contribution at 2.
  case_decide; [done|]. destruct (extractBlock (body p)); [|done]. cbn [aggregate seenPrs].
  by rewrite <- app_assoc.
Qed.

(** All pull requests that could be fetched, commit by commit. *)
Definition fetched (fetch : text -> option (list pull)) (commits : list (option text)) : list pull :=
  concat (map (fun sha => default [] (sha ≫= fetch)) commits).

Lemma gather_spec fetch commits s :
  aggregate (gather fetch commits) s =
  concat (map (contribution s) (firsts [] (fetched fetch commits))).
Proof.
  enough (E : forall g, foldl (fun g sha => match sha with
      | None => g
      | Some sha => match fetch sha with None => g | Some pulls => foldl gatherPull g pulls end
      end) g commits = foldl gatherPull g (fetched fetch commits))
    by (unfold gather; by rewrite E, gatherPulls_spec).
  unfold fetched. induction commits as [|sha commits IH]; intros g; [done|]. cbn [foldl map concat].
  rewrite IH, foldl_app. destruct sha as [sha|]; [|done]. cbn. by destruct (fetch sha).
Qed.

(** ** Rendering *)

Definition infix (x y : text) : Prop := exists a b, y = a ++ x ++ b.

Lemma infix_app x y a b : infix x y -> infix x (a ++ y ++ b).
Proof. intros (u & v & ->). exists (a ++ u), (v ++ b). by rewrite <- !app_assoc. Qed.

(** A line of a text that starts and ends with line ends. *)
Definition lineOf (line y : text) : Prop := infix ([newline] ++ line ++ [newline]) y.

Lemma joinWith_line x (ls : list text) : x ∈ ls ->
  lineOf x ([newline] ++ joinWith [newline] ls ++ [newline]).
Proof.
  intros Hin. unfold lineOf. induction ls as [|l ls IH]; [by apply elem_of_nil in Hin|].
  apply elem_of_cons in Hin as [<-|Hin].
  - destruct ls as [|l' ls]; [exists [], []; by rewrite app_nil_r|].
    exists [], (joinWith [newline] (l' :: ls) ++ [newline]). cbn [joinWith]. by rewrite <- !app_assoc.
  - destruct ls as [|l' ls]; [by apply elem_of_nil in Hin|]. destruct (IH Hin) as (a & b & E).
    exists (([newline] ++ l) ++ a), b. rewrite <- (app_assoc _ a), <- E.
    change (joinWith [newline] (l :: l' :: ls)) with (l ++ [newline] ++ joinWith [newline] (l' :: ls)).
    by rewrite <- !app_assoc.
Qed.

Lemma elem_of_ALLOWED s : s ∈ ALLOWED_SECTIONS.
Proof. destruct s; apply (bool_decide_unpack _); by vm_compute. Qed.

Lemma renderVersionBody_line g s x : x ∈ aggregate g s -> lineOf x (renderVersionBody g).
Proof.
  intros Hx. unfold renderVersionBody. rewrite decide_False.
  2:{ intros E. apply (not_elem_of_nil s). rewrite <- E. apply list_elem_of_filter.
      split; [|apply elem_of_ALLOWED]. intros Hn. rewrite Hn in Hx. by apply elem_of_nil in Hx. }
  assert (Hp : lineOf x (sectionPart (aggregate g) s)).
  { unfold sectionPart. rewrite decide_False by (intros E; rewrite E in Hx; by apply elem_of_nil in Hx).
    pose proof (joinWith_line x _ Hx) as Hl.
    apply (infix_app _ _ (js "
### " ++ sectionName s ++ [newline]) []) in Hl. rewrite app_nil_r, <- !app_assoc in Hl. exact Hl. }
  destruct (list_elem_of_split _ _ (elem_of_ALLOWED s)) as (l1 & l2 & ->).
  rewrite map_app, concat_app. cbn [map concat]. by apply infix_app.
Qed.

(** ** Releases *)

(** The version that [version.go] declares. *)
Definition readVersion (content : text) : option text :=
  match cutAt versionDeclaration content with
  | None => None
  | Some (_, rest) => fst <$> cutAt [34] rest
  end.

Lemma cutAt_unit c s rest : (c ∉ s) -> cutAt [c] (s ++ c :: rest) = Some (s, rest).
Proof.
  induction s as [|d s IH]; intros Hn; rewrite cutAt_unfold; cbn [app startsWith].
  - by rewrite bool_decide_true.
  - apply not_elem_of_cons in Hn as [Hd Hn]. rewrite bool_decide_false by done. cbn [andb].
    by rewrite IH.
Qed.

Lemma replaceVersion_read version content :
  (34 ∉ version) -> replaceVersion version content <> content ->
  readVersion (replaceVersion version content) = Some version.
Proof.
  intros Hv. unfold replaceVersion, readVersion.
  destruct (cutAt versionDeclaration content) as [[before rest]|] eqn:E; [|done].
  destruct (cutAt [34] rest) as [[old after]|]; [|done]. intros _.
  apply cutAt_spec in E as [_ ->]. change ([34] ++ after) with (34 :: after).
  by rewrite cutAt_unit.
Qed.

(** A block that the check accepts has a bullet. *)
Lemma checkChangelog_ok PR_BODY PR_LABELS changed n :
  checkChangelog PR_BODY PR_LABELS changed = BlockOk n ->
  (skipLabel ∉ prLabels PR_LABELS) /\
  exists block s item, extractBlock PR_BODY = Some block /\ item ∈ sections (parseBlock block) s.
Proof.
  unfold checkChangelog. case_decide as Hs; [done|]. case_decide; [done|].
  destruct (extractBlock PR_BODY) as [block|]; [|done].
  do 2 (case_decide; [done|]). case_decide as Hb; [done|]. intros _. split; [done|]. exists block.
  destruct (decide (Forall (fun s => sections (parseBlock block) s = []) ALLOWED_SECTIONS)) as [Ha|Ha].
  - exfalso. apply Hb. unfold bulletCount. induction Ha as [|s ss Hn _ IH]; [done|].
    cbn [foldr]. by rewrite Hn, IH.
  - apply not_Forall_Exists, Exists_exists in Ha as (s & _ & Hn); [|apply _].
    destruct (sections (parseBlock block) s) as [|item items] eqn:E; [done|].
    exists s, item. split; [done|]. rewrite E. by left.
Qed.

Lemma insertion_head version date notes g : exists tl, newHeader version date = 35 :: tl /\
  insertion version date notes g =
    [newline; newline] ++ 35 :: (tl ++ [newline] ++ renderVersionBody g ++ autoBlock notes).
Proof. eexists. split; reflexivity. Qed.

(** A release moves the changelog of the merged pull requests into
    CHANGELOG.md.  Nothing that was in the file is lost: the new section is
    inserted in one place, behind the anchor, and the anchor is found again by
    the next release, which inserts above this section.  The section has for
    each heading exactly the lines that the blocks of the merged pull requests
    have under it, each pull request once, in the order of the commits, except
    those with the label to skip them.  In particular a pull request whose check
    accepted its block has a line with its number in the file.  The version that
    version.go declares is the one released. *)
Theorem changelog_promoted (fetch : request -> option (list pull)) (env : environment)
    (version date notes : text) (commits : list (option text)) (changelog versionContent : text)
    (content vfile : text) :
  (34 ∉ version) ->
  prepare fetch env version date notes commits changelog versionContent = Prepared content vfile ->
  let merged := firsts [] (fetched (fun sha =>
    fetchPullRequestsForCommit fetch (GITHUB_REPOSITORY env) sha env) commits) in
  exists before after g,
    changelog = before ++ after /\ content = before ++ insertion version date notes g ++ after /\
    findAnchor true content =
      Some (before ++ [newline],
            newline :: newHeader version date ++ [newline] ++ renderVersionBody g ++
            autoBlock notes ++ after) /\
    (forall s, aggregate g s = concat (map (contribution s) merged)) /\
    (forall s line, line ∈ aggregate g s -> lineOf line content) /\
    (forall p changed n, p ∈ merged ->
       checkChangelog (body p) (joinWith [44] (labels p)) changed = BlockOk n ->
       exists item, lineOf (attributed (number p) item) content) /\
    readVersion vfile = Some version.
Proof.
  intros Hv Hrun merged. revert Hrun. unfold prepare. destruct (findAnchor true changelog) as [[before after]|] eqn:Ea; [|done].
  case_decide; [done|]. set (g := gather _ commits).
  case_decide as Hne; [done|]. intros E.
  assert (Ec : before ++ insertion version date notes g ++ after = content) by congruence.
  assert (Ev : replaceVersion version versionContent = vfile) by congruence. clear E.
  rewrite <- Ec, <- Ev. exists before, after, g.
  destruct (findAnchor_spec _ _ _ _ Ea) as (-> & _ & Hagain).
  assert (Hg : forall s, aggregate g s = concat (map (contribution s) merged)) by apply gather_spec.
  assert (Hlines : forall s line, line ∈ aggregate g s ->
    lineOf line (before ++ insertion version date notes g ++ after)).
  { intros s line Hl. apply infix_app. unfold insertion. rewrite !(app_assoc _ _ (renderVersionBody g ++ _)).
    by apply infix_app, (renderVersionBody_line g s). }
  split_and!; [done|done| |done|done| |by apply replaceVersion_read].
  - destruct (insertion_head version date notes g) as (tl & -> & ->).
    rewrite <- !app_assoc. cbn [app]. rewrite <- !app_assoc. cbn [app]. rewrite <- !app_assoc.
    by apply (Hagain 35).
  - intros p changed n Hp (Hs & block & s & item & Hb & Hi)%checkChangelog_ok. exists item.
    apply (Hlines s). rewrite Hg. apply list_elem_of_In, in_concat.
    exists (contribution s p). split; [by apply in_map, list_elem_of_In|]. apply list_elem_of_In.
    unfold contribution. rewrite decide_False by (by intros ?%prLabels_skip). rewrite Hb.
    by apply list_elem_of_fmap_2.
Qed.

(** A release is a major one exactly if the operator forces it. *)
Theorem analyzeCommits_major (forced : text) (upstream : option text) :
  analyzeCommits forced upstream = Some (js "major") <-> forced = js "major".
Proof.
  unfold analyzeCommits. case_decide as Hf; [split; [by intros [= ->]|by intros ->]|].
  split; [|intros ->; exfalso; apply Hf; split; [done|by left]].
  case_decide as Hu; [done|]. by intros ->.
Qed.

(** ** Examples *)

Definition example_body : text := js "Summary
<!-- changelog:start -->
## Changelog
<!-- ### Fixed - an example -->
### Added
- TTL for routes,
  and for flags
<!-- changelog:end -->
".

Definition example_pull : pull := {| number := 17; labels := [js "cache"]; body := example_body |}.

Definition example_env : environment :=
  {| GITHUB_API_URL := []; GITHUB_REPOSITORY := js "ziyan/gatewaysshd"; GH_TOKEN := [];
     GITHUB_TOKEN := js "token" |}.

Definition example_changelog : text := js "# Changelog

<!-- changelog:insert-here -->

## 0.9.1 (2026-07-06)
".

Definition example_version (v : string) : text := versionDeclaration ++ js v ++ [34; newline].

(** Two commits of the same pull request. *)
Definition example_release : prepared :=
  prepare (fun _ => Some [example_pull]) example_env (js "0.9.2") (js "2026-07-13") []
    [Some (js "aa15060f"); Some (js "df3908f7")] example_changelog (example_version "0.9.1").

Lemma changelog_promoted_witness :
  exists content, example_release = Prepared content (example_version "0.9.2") /\
    content = js "# Changelog

<!-- changelog:insert-here -->


## 0.9.2 (2026-07-13)

### Added

- TTL for routes, (#17)
  and for flags (#17)

## 0.9.1 (2026-07-06)
" /\
    exists item, lineOf (attributed 17 item) content.
Proof.
  destruct example_release as [| | |content vfile] eqn:E; try (vm_compute in E; discriminate E).
  pose proof E as E'. vm_compute in E'. injection E' as Ec Ev.
  exists content. split; [rewrite <- Ev; reflexivity|]. split; [rewrite <- Ec; reflexivity|].
  destruct (changelog_promoted (fun _ => Some [example_pull]) example_env (js "0.9.2")
    (js "2026-07-13") [] [Some (js "aa15060f"); Some (js "df3908f7")] example_changelog
    (example_version "0.9.1") content vfile) as (before & after & g & _ & _ & _ & _ & _ & Hp & _).
  - apply (bool_decide_unpack _). vm_compute. exact I.
  - exact E.
  - apply (Hp example_pull [js "main.go"] 2); [by left|]. vm_compute. reflexivity.
Defined.

End Release.
